(* ===== verification/_CoqProject ===== *)
-Q . S2P
Prelude.v
Fee.v
State.v
Bids.v
Sales.v
Settlement.v
Auctions.v
Storage.v
Hack.v
Lifecycle.v
Views.v
Permissions.v
NftContract.v
Payouts.v
System.v
NftLifecycle.v
NftLedger.v
NftProgress.v
Workspaces.v
Simulation.v
