(* ===== verification/Prelude.v ===== *)
(** * A verification development of the NEAR NFT marketplace ([src/market])

    The market contract ([src/market/src]) lists NFTs of approved NFT
    contracts for sale at fixed prices in NEAR or fungible tokens, keeps
    per-currency bid ledgers on each sale, runs English auctions with a
    soft close and a buyout price, and settles every purchase in two
    phases: phase 1 removes the listing and asks the NFT contract for
    [nft_transfer_payout]; phase 2, a callback, checks the payout it
    answers with and pays it out, or refunds the buyer.  Fees ([fee.rs])
    are basis points: a 3% protocol fee plus the buyer's and seller's
    origins (royalty-like shares).

    Files, in dependency order:
    - [Prelude] (this file): [result] (a panic, [Err msg], reverts the
      whole call), the state-and-error monad [st] with its notations
      [let!], [do! ;;] and [let*], checked [u32]/[u64]/[u128] arithmetic
      written out on [Z] (the contracts build with overflow checks), sums,
      [.skip(n)]/[.take(n)] with counts on [Z], and the [st_inv] and
      [checked_inv] tactics that take a successful run apart.
    - [Fee] (Module [Fee]): [calculate_origins], [calculate_actual_amount],
      [calculate_price_with_fees] of [fee.rs]; their exact arithmetic
      [actual_of]/[with_fees_of].  Theorems: the round trip is exact under
      the 4_700 origins cap (C1); when the multiplication overflows (C2).
    - [State]: the [Market] record of [lib.rs] (sales, the three directory
      indices, supported tokens, storage deposits, bid history length,
      auctions, next auction id) extended with [promises], the list of
      cross-contract calls and transfers ([Action]) the call has created,
      in order; the [Bid], [Sale] and [Auction] structs; [refund_bid] and
      [refund_all_bids] of [bid.rs]; a small concrete market ([Demo]).
    - [Bids] (Module [BidLedger]): [add_bid], [internal_remove_bid],
      [remove_bid], [cancel_bid], [cancel_expired_bids] ([bid.rs],
      [inner.rs]).  The ledger invariant [sale_bids_ok]: every bucket is
      non-empty, at most [bid_history_length] long, strictly increasing in
      fee-exclusive value.  Theorems C3-C7.
    - [Sales] (Module [Sales]): [start_sale], [internal_remove_sale],
      [remove_sale], [update_price], [offer], [accept_offer],
      [process_purchase] ([sale.rs], [inner.rs]).  Theorems C8-C10: the
      exact effect of [internal_remove_sale] on the sales and the three
      indices, a purchase at the listed price, [accept_offer] ignoring its
      caller; C22: [remove_sale] (owner only within the window, anyone
      after it, every bid refunded).
    - [Settlement] (Module [Settlement]): phase 2, [resolve_purchase],
      [resolve_finish_auction], [resolve_token_buy], with the answer of the
      NFT contract as an [option Payout] ([None]: failed transfer or
      unparsable payout).  Theorems C12-C15: the payout check is the
      reference condition in every iteration order (C12), disbursement,
      the failure branch, conservation of value in NEAR (C15); C37: both
      branches of [resolve_finish_auction].
    - [Auctions] (Module [Auctions]): [start_auction], [auction_add_bid],
      [cancel_auction], [finish_auction] ([auction.rs]) and the views they
      call ([auction_views.rs]).  Theorems C18, C20, C21 and C23: the
      closing time after a bid (soft close, or now on a buyout), refund
      of the previous bid, minimal increment, finishing; C36: when
      [cancel_auction] succeeds and what it does; C40: what
      [start_auction] checks and stores.
    - [Storage] (Module [Storage]): [storage_deposit], [storage_withdraw]
      ([lib.rs]) and the entry point [nft_on_approve] ([market_core.rs]),
      with the storage-coverage predicate [storage_ok].  Theorem C25: any
      contract can list tokens.
    - [Hack] (Module [Hack]): the unrestricted test hooks of [hack.rs].
      Theorem C26: anyone can cut an auction short and remove anyone's
      sale.
    - [Lifecycle] (Module [Lifecycle]): every public method as a [call],
      [exec] the dispatcher, [step] a successful call by anyone at any time,
      [reachable] the states reachable from [Market::new].  The invariant
      [market_ok] (ledger, storage coverage, fresh auction ids) is proved
      for every reachable state by induction on [rtc step], from one
      preservation lemma per handler, composed with [preserves_bind].
      Theorems C28-C31: sorted bounded buckets in every reachable state,
      [storage_withdraw] never fails, auction ids never collide, and
      re-listing a listed token drops its bids.
    - [Views] (Module [Views]): the read-only views of [sale_views.rs]
      and [auction_views.rs] ([get_sale], the supply counters, the
      paginated listings, [get_auction(s)]), which answer the
      [SaleJson] and [AuctionJson] of [State] ([json_from_sale],
      [json_from_auction] leave out the approval id, and an auction's
      origins).  Theorem C16: a listing by index reads exactly the page of
      [limit] entries from [from_index] of its set, panics when one of
      them has no sale and when [from_index + limit] overflows [u64];
      C17: from any state, re-listing a listed token by a new owner and
      removing that sale leaves the previous owner's index naming a
      missing sale, so [get_sales_by_owner_id] of that owner panics and
      its storage stays held.  [get_sales] and [get_auctions] cast their
      [from_index] and [limit] to the 32-bit [usize] of wasm32
      ([as_usize]), so a limit of [2^32] lists nothing.
    - [Permissions] (class [ContractAutorize], Module [PrivateMint]): the
      trait of [permissions.rs] as a type class whose [&mut self] methods
      answer the new state, the laws the NFT contract relies on
      ([ContractAutorizeLaws]), and [PrivateMint] with its instance.
    - [NftContract] (Modules [TokenSeries], [Nft], [NftContract]): the NFT
      contract of [src/nft/src]: its state ([Nft] of [lib.rs] with the
      parts of near-contract-standards' [NonFungibleToken] it uses and its
      [PrivateMint]), [nft_create_series], [nft_mint], [grant]/[deny]/
      [set_private_minting] ([permissions.rs]) through the class,
      [nft_transfer] and the [nft_token] view ([nft_core.rs]), the series
      views ([series_views.rs]), and the library's [internal_transfer] and
      [nft_approve] written from their contract.  Theorem C27: access
      control of minting, proved from the class laws only.
    - [Payouts] (Module [Payouts]): [royalty_to_payout], [nft_payout],
      [nft_transfer_payout] with the parse of its fees memo
      ([payouts.rs]).  Theorems C32-C33: a payout
      computed with fees for a balance [B] with [k] shares sums to a value
      in [(B - k, B + 1]]; a successful call moves the token; C35: without
      a memo, [nft_transfer_payout] pays exactly what [nft_payout]
      announces.
    - [System] (Module [System]): both contracts together; [settle] is
      the runtime delivering a settlement promise of the market to the
      NFT contract and the callback its answer; [approve_and_list] is
      [nft_approve] followed by the market's [nft_on_approve].  A concrete
      listing ([System.Demo]: a series with a 10% royalty, minted, listed,
      bought).  Theorem C34: a refused payout leaves the buyer with the
      token and the refund; a lemma counts the prices of the demo listing
      where the NFT contract's rounding makes that happen (45 of 100
      consecutive prices).
    - [NftLifecycle] (Module [NftLifecycle]): every state-changing method
      of the NFT contract as an [nft_call], [nft_step] a successful call
      with arguments of their Rust types, [nft_reachable] the states
      reachable from [Nft::new].  The invariant [nft_ok] (series ids are
      1..n, the tokens of series s are s:1..s:k, every owned token
      belongs to the series its id names, royalties are capped at 5_000)
      is proved by induction.  Theorems C19: every reachable state is well
      formed and every call keeps it; C38-C39: minting and series
      creation never overwrite; [nft_payout] never misses a series and
      pays the balance up to one unit per share.
    - [NftLedger] (Modules [Ledger], [Refinement]): the abstract token
      ledger a NEP-171 contract promises (mint a fresh token, move an
      owned token to another account), labelled by the event each call
      shows, and the refinement: with [abs] = [owner_by_id], every call
      of the NFT contract from a reachable state is the ledger step it
      shows or leaves the ledger alone (C11, a stuttering simulation);
      hence no sequence of calls destroys a token.
    - [NftProgress] (Module [Progress]): the converse for owners.  The
      invariant [tpo_ok] (every owned token is in its owner's
      [tokens_per_owner] set, which [internal_transfer_unguarded] unwraps)
      holds in every reachable state, so the owner of a token can always
      transfer it to another account (C24, liveness).
    - [Workspaces] (Modules [Sandbox], [Utils], and one Module per test
      file: [SaleTests], [BidTests], [AuctionTests], [AuctionViewTests],
      [SaleViewTests], [FeeTests], [MarketTests], [NftTests],
      [SeriesViewTests], [PermissionTests]): all 46 sandbox tests of
      [src/tests-workspaces] translated on both contracts.  [Sandbox] is the
      world a test sees (a block clock advancing one second per
      transaction, the two contracts' accounts and states); [call] runs
      one method and answers the final execution status ([nft_approve]
      with a message answers the market's [nft_on_approve]; settlement
      promises are delivered with [System.settle]).  [Utils] translates
      [utils.rs]; each test is a [W unit] run where a failed assertion is
      an [Err]; [sandbox_tests] lists the 46 tests, the 33 of the market
      ([sale.rs], [bid.rs], [auction.rs], [auction_views.rs],
      [sale_views.rs], [fee.rs], [market.rs]) and the 13 of the NFT
      contract ([nft.rs], [series_views.rs], [permissions.rs]).  The last
      step of [offer_negative] is a bid, not the purchase its comment says
      it tests ([offer_negative_last_offer_is_a_bid]).
    - [Simulation] (Modules [Simulator], [SimNftTests], [SimMarketTests]):
      the near-sdk-sim tests of [src/market/tests] translated on the same
      world with the simulator's clock (one-minute blocks, a transaction
      runs in the next block, [init] and [prod_block] of [utils.rs]).
      [Workspaces] and [Simulation] translate test code and state no
      claim about the contracts.

    How state and effects correspond to the code: each [#[payable]] or
    [&mut self] handler is a function [Env -> args -> st Market.t A]; the
    [Env] record carries [env::block_timestamp], [predecessor_account_id],
    [signer_account_id], [attached_deposit] and [current_account_id].
    [Promise::new(..).transfer], [ext_contract::ft_transfer] and
    [nft_transfer_payout(..).then(resolve_..)] append an [Action] to
    [promises].  [HashMap], [UnorderedMap], [LookupMap] and
    [UnorderedSet] are stdpp [gmap]/[gset]; a vector of bids is a list.
    The iteration order of a [HashMap] is modelled as that of
    [map_to_list], that of the auctions' [UnorderedMap] as increasing id
    (its insertion order while no auction is removed); the theorems that list promises in order are stated for
    that order, and those about amounts only use sums, which do not depend
    on it.

    Bounds: amounts are [u128], times [u64] nanoseconds, origin weights
    [u32]; the origins cap of [add_bid] is 4_700 basis points; [usize]
    is the 32-bit one of wasm32, the target the contracts are compiled
    to, and [x as usize] keeps the low 32 bits ([as_usize]).  The
    contract models use no fuel: every loop is structural recursion on a
    list, and a count of [usize::MAX] or [u64::MAX] stays a [Z]
    ([take_n]).  The one unbounded loop, the block loop of the simulator
    test, runs with fuel [blocks_to now end + 1]: one block per turn, so
    [blocks_to now end] turns reach the end.

    Not modelled: in [Settlement] and [Lifecycle] the answer of the NFT
    contract to [nft_transfer_payout] is an arbitrary [option Payout]
    ([System] replaces it by the modelled NFT contract); the NFT
    contract's [nft_transfer_call] and [nft_resolve_transfer] ([nft_core.rs]
    delegates them to near-contract-standards), [nft_revoke],
    [nft_revoke_all] and the enumeration views (generated by the
    library's macros): their code is not in [src/] and the spec does not
    describe them, so no faithful model can be written; events and
    storage refunds; the JSON parsing of the approval message (given
    parsed, [None] when it fails), the JSON encoding of the views'
    answers ([SaleJson], [AuctionJson] are modelled as records), balances,
    gas and logging, hence the assertions of the sandbox tests on
    balances; the order of [UnorderedMap::values] after a [swap_remove];
    the extra blocks the simulator produces for the receipts of a
    transaction (no assertion of its tests observes them).  Between
    phase 1 and phase 2 of a settlement any other call may run: [Lifecycle] allows
    every call, callbacks included, in any order; it does not restrict a
    callback to the promises actually emitted, so its invariants hold a
    fortiori for the runtime's schedules. *)

From stdpp Require Export base gmap strings list fin_maps sorting.
From Stdlib Require Export ZArith Lia.

Open Scope Z_scope.

Declare Scope market_scope.
Delimit Scope market_scope with market.

Create HintDb market discriminated.
Create Rewrite HintDb market_rw.

(** ** Results of a call *)

Inductive result (A : Type) : Type :=
| Ok (a : A)
| Err (msg : string).

Arguments Ok {A} a.
Arguments Err {A} msg.

Definition rbind {A B} (c : result A) (k : A -> result B) : result B :=
  match c with
  | Ok a => k a
  | Err m => Err m
  end.

Definition is_ok {A} (r : result A) : bool :=
  match r with Ok _ => true | Err _ => false end.

(** [require!(cond, msg)] *)
Definition require (cond : bool) (msg : string) : result unit :=
  if cond then Ok tt else Err msg.

(** [opt.expect(msg)] and [unwrap_or_else(|| env::panic_str(msg))] *)
Definition expect {A} (o : option A) (msg : string) : result A :=
  match o with
  | Some a => Ok a
  | None => Err msg
  end.

Notation "'let*' x ':=' c1 'in' c2" := (rbind c1 (fun x => c2))
  (at level 10, x name, c1 at level 100, c2 at level 200) : market_scope.
Notation "'check' c1 ';;' c2" := (rbind c1 (fun _ : unit => c2))
  (at level 10, c1 at level 99, c2 at level 200) : market_scope.

Open Scope market_scope.

(** ** Explicit state passing with failure *)

Definition st (S A : Type) : Type := S -> result (A * S).

Definition st_ret {S A} (a : A) : st S A := fun s => Ok (a, s).

Definition st_bind {S A B} (c : st S A) (k : A -> st S B) : st S B :=
  fun s => match c s with
           | Ok (a, s') => k a s'
           | Err m => Err m
           end.

Definition st_lift {S A} (r : result A) : st S A :=
  fun s => match r with Ok a => Ok (a, s) | Err m => Err m end.

Definition st_get {S} : st S S := fun s => Ok (s, s).
Definition st_put {S} (s' : S) : st S unit := fun _ => Ok (tt, s').
Definition st_modify {S} (f : S -> S) : st S unit := fun s => Ok (tt, f s).

Notation "'let!' x ':=' c1 'in' c2" := (st_bind c1 (fun x => c2))
  (at level 10, x name, c1 at level 100, c2 at level 200) : market_scope.
Notation "'do!' c1 ';;' c2" := (st_bind c1 (fun _ : unit => c2))
  (at level 10, c1 at level 99, c2 at level 200) : market_scope.

(** Iterating a stateful body over a list ([for x in xs { body(x) }]). *)
Fixpoint st_iter {S A} (body : A -> st S unit) (xs : list A) : st S unit :=
  match xs with
  | [] => st_ret tt
  | x :: xs' => do! body x ;; st_iter body xs'
  end.

(** ** Iterator adaptors with counts on [Z]

    [.skip(n)] and [.take(n)] with the count as the code has it (a [usize]
    or [u64], far beyond what [nat] can hold), and their agreement with
    stdpp's [drop] and [take]. *)
Fixpoint skip_n {A} (n : Z) (l : list A) : list A :=
  match l with
  | [] => []
  | _ :: l' => if Z.leb n 0 then l else skip_n (n - 1) l'
  end.
Fixpoint take_n {A} (n : Z) (l : list A) : list A :=
  match l with
  | [] => []
  | x :: l' => if Z.leb n 0 then [] else x :: take_n (n - 1) l'
  end.

Lemma take_n_take {A} n (l : list A) : take_n n l = take (Z.to_nat n) l.
Proof.
  revert n. induction l as [|x l IH]; intros n; simpl; [by rewrite take_nil|].
  destruct (Z.leb_spec n 0).
  - by replace (Z.to_nat n) with 0%nat by lia.
  - replace (Z.to_nat n) with (S (Z.to_nat (n - 1))) by lia. simpl. by rewrite IH.
Qed.

Lemma skip_n_drop {A} n (l : list A) : skip_n n l = drop (Z.to_nat n) l.
Proof.
  revert n. induction l as [|x l IH]; intros n; simpl; [by rewrite drop_nil|].
  destruct (Z.leb_spec n 0).
  - by replace (Z.to_nat n) with 0%nat by lia.
  - replace (Z.to_nat n) with (S (Z.to_nat (n - 1))) by lia. simpl. by rewrite IH.
Qed.

(** ** Machine integers *)

Definition u32_max : Z := 2 ^ 32 - 1.
Definition u64_max : Z := 2 ^ 64 - 1.
Definition u128_max : Z := 2 ^ 128 - 1.

(** The contracts are compiled to wasm32, where [usize] has 32 bits:
    [usize::MAX], and the cast [x as usize] of a wider unsigned integer,
    which keeps its low 32 bits. *)
Definition usize_max : Z := 2 ^ 32 - 1.
Definition as_usize (x : Z) : Z := x mod 2 ^ 32.

Definition in_range (max z : Z) : bool := (0 <=? z) && (z <=? max).

(** [a + b], [a * b], [a - b] at width [max] with Rust's overflow checks. *)
Definition checked_add (max a b : Z) : result Z :=
  if a + b <=? max then Ok (a + b) else Err "attempt to add with overflow".
Definition checked_mul (max a b : Z) : result Z :=
  if a * b <=? max then Ok (a * b) else Err "attempt to multiply with overflow".
Definition checked_sub (a b : Z) : result Z :=
  if b <=? a then Ok (a - b) else Err "attempt to subtract with overflow".

(** [u128::checked_sub], which returns an [Option] instead of panicking. *)
Definition opt_sub (a b : Z) : option Z := if b <=? a then Some (a - b) else None.

(** ** Sums *)

Definition sum_list (l : list Z) : Z := fold_right Z.add 0 l.

Definition all_nonneg (l : list Z) : Prop := Forall (fun z => 0 <= z) l.

(** Summation with a check after every addition, as [total += v] in a
    loop with overflow checks. *)
Fixpoint checked_sum (max acc : Z) (l : list Z) : result Z :=
  match l with
  | [] => Ok acc
  | v :: l' => let* acc' := checked_add max acc v in checked_sum max acc' l'
  end.

(** [for v in values { remainder = remainder.checked_sub(v)?; }] *)
Fixpoint sub_all (rem : Z) (l : list Z) : option Z :=
  match l with
  | [] => Some rem
  | v :: l' => match opt_sub rem v with
               | Some r => sub_all r l'
               | None => None
               end
  end.

(** ** Generic lemmas *)

Lemma rbind_ok {A B} (c : result A) (k : A -> result B) b :
  rbind c k = Ok b <-> exists a, c = Ok a /\ k a = Ok b.
Proof.
  destruct c as [a|m]; simpl; split.
  - eauto.
  - by intros (? & [= <-] & ?).
  - done.
  - by intros (? & ? & _).
Qed.

Lemma checked_add_spec max a b :
  checked_add max a b = if a + b <=? max then Ok (a + b) else Err "attempt to add with overflow".
Proof. reflexivity. Qed.

Lemma sum_list_cons x l : sum_list (x :: l) = x + sum_list l.
Proof. reflexivity. Qed.

Lemma sum_list_app l1 l2 : sum_list (l1 ++ l2) = sum_list l1 + sum_list l2.
Proof. induction l1; simpl; lia. Qed.

Lemma sum_list_nonneg l : all_nonneg l -> 0 <= sum_list l.
Proof. induction 1; simpl; lia. Qed.

Lemma sum_list_perm l1 l2 : l1 ≡ₚ l2 -> sum_list l1 = sum_list l2.
Proof. induction 1; simpl; lia. Qed.

#[export] Instance sum_list_proper : Proper ((≡ₚ) ==> (=)) sum_list.
Proof. intros l1 l2 ?. by apply sum_list_perm. Qed.

Lemma checked_add_inv max a b r : checked_add max a b = Ok r -> r = a + b /\ a + b <= max.
Proof. unfold checked_add. destruct (Z.leb_spec (a + b) max); [intros [= <-]; lia | done]. Qed.

Lemma checked_mul_inv max a b r : checked_mul max a b = Ok r -> r = a * b /\ a * b <= max.
Proof. unfold checked_mul. destruct (Z.leb_spec (a * b) max); [intros [= <-]; lia | done]. Qed.

Lemma checked_sub_inv a b r : checked_sub a b = Ok r -> r = a - b /\ b <= a.
Proof. unfold checked_sub. destruct (Z.leb_spec b a); [intros [= <-]; lia | done]. Qed.

(** A successful [checked_sum] is the plain sum. *)
Lemma checked_sum_sum max acc l r : checked_sum max acc l = Ok r -> r = acc + sum_list l.
Proof.
  revert acc. induction l as [|v l IH]; intros acc; simpl.
  - intros [= <-]. lia.
  - unfold checked_add. destruct (_ <=? _); simpl; [|done]. intros H. apply IH in H. lia.
Qed.

Lemma checked_sum_ok max acc l :
  0 <= acc <= max -> all_nonneg l ->
  checked_sum max acc l = if acc + sum_list l <=? max then Ok (acc + sum_list l)
                          else Err "attempt to add with overflow".
Proof.
  intros Hacc Hl. revert acc Hacc. induction Hl as [|v l Hv Hl IH]; intros acc Hacc; simpl.
  - rewrite Z.add_0_r. destruct (Z.leb_spec acc max); [done | lia].
  - unfold checked_add. pose proof (sum_list_nonneg l Hl).
    destruct (Z.leb_spec (acc + v) max); simpl.
    + rewrite IH by lia. by rewrite Z.add_assoc.
    + destruct (Z.leb_spec (acc + (v + sum_list l)) max); [lia | done].
Qed.

Lemma sub_all_spec rem l :
  0 <= rem -> all_nonneg l ->
  sub_all rem l = if sum_list l <=? rem then Some (rem - sum_list l) else None.
Proof.
  intros Hrem Hl. revert rem Hrem. induction Hl as [|v l Hv Hl IH]; intros rem Hrem; simpl.
  - rewrite Z.sub_0_r. destruct (Z.leb_spec 0 rem); [done | lia].
  - unfold opt_sub. pose proof (sum_list_nonneg l Hl).
    destruct (Z.leb_spec v rem).
    + rewrite IH by lia.
      destruct (Z.leb_spec (sum_list l) (rem - v)), (Z.leb_spec (v + sum_list l) rem);
        try lia; f_equal; lia.
    + destruct (Z.leb_spec (v + sum_list l) rem); [lia | done].
Qed.

#[export] Hint Resolve sum_list_nonneg : market.

(** ** Running the monad in proofs *)

Lemma st_bind_ok {S A B} (c : st S A) (k : A -> st S B) s r :
  st_bind c k s = Ok r <-> exists a s', c s = Ok (a, s') /\ k a s' = Ok r.
Proof.
  unfold st_bind. destruct (c s) as [[a s']|m]; split.
  - eauto.
  - by intros (? & ? & [= -> ->] & ?).
  - done.
  - by intros (? & ? & ? & _).
Qed.

Lemma st_lift_ok {S A} (r : result A) (s : S) x :
  st_lift r s = Ok x <-> exists a, r = Ok a /\ x = (a, s).
Proof.
  destruct r as [a|m]; simpl; split.
  - intros [= <-]. eauto.
  - by intros (? & [= <-] & ->).
  - done.
  - by intros (? & ? & _).
Qed.

Lemma require_ok c msg : require c msg = Ok tt <-> c = true.
Proof. destruct c; simpl; split; congruence. Qed.

(** Turn successful checked operations into their equations. *)
Ltac checked_inv :=
  repeat match goal with
  | H : checked_add _ _ _ = Ok _ |- _ => apply checked_add_inv in H as [-> ?]
  | H : checked_mul _ _ _ = Ok _ |- _ => apply checked_mul_inv in H as [-> ?]
  | H : checked_sub _ _ = Ok _ |- _ => apply checked_sub_inv in H as [-> ?]
  | H : checked_sum _ _ _ = Ok _ |- _ => apply checked_sum_sum in H as ->
  end.

(** Break a successful run of a stateful computation into its steps. *)
Ltac st_inv :=
  repeat match goal with
  | H : st_bind _ _ _ = Ok _ |- _ => apply st_bind_ok in H as (? & ? & ? & ?)
  | H : st_lift _ _ = Ok _ |- _ => apply st_lift_ok in H as (? & ? & ?)
  | H : rbind _ _ = Ok _ |- _ => apply rbind_ok in H as (? & ? & ?)
  | H : require _ _ = Ok _ |- _ => apply require_ok in H
  | H : expect ?o _ = Ok _ |- _ =>
      let E := fresh "E" in unfold expect in H; destruct o eqn:E; [injection H as H | discriminate H]
  | H : match ?o with Some a => Ok a | None => Err _ end = Ok _ |- _ =>
      let E := fresh "E" in destruct o eqn:E; [injection H as H | discriminate H]
  | H : st_get _ = Ok _ |- _ => unfold st_get in H
  | H : st_ret _ _ = Ok _ |- _ => unfold st_ret in H
  | H : st_modify _ _ = Ok _ |- _ => unfold st_modify in H
  | H : Ok _ = Ok _ |- _ => injection H as H
  | H : (_, _) = (_, _) |- _ => injection H as H
  | H : Err _ = Ok _ |- _ => discriminate H
  | H : ?x = ?x |- _ => clear H
  | H : bool_decide _ = true |- _ => apply bool_decide_eq_true in H
  | H : bool_decide _ = false |- _ => apply bool_decide_eq_false in H
  | u : unit |- _ => destruct u
  | _ => progress subst
  end.
