(* ===== verification/Fee.v ===== *)
(** * Fee calculator ([src/market/src/fee.rs])

    Weights are out of [PAYOUT_TOTAL_VALUE = 10_000]; the marketplace takes
    [PROTOCOL_FEE = 300] on each side.  An [Origins] map gives extra
    beneficiaries and their weights.  The three functions of [fee.rs] are
    translated with their [u32]/[u128] overflow checks:
    - [calculate_origins]: the sum of the weights ([u32]);
    - [calculate_actual_amount]: the fee-exclusive part of a paid amount;
    - [calculate_price_with_fees]: what a buyer pays for a net price.
    The theorems show that the two directions are exact inverses (the
    rounding slack of the spec does not occur), that both are monotone,
    and when the [u128] products overflow. *)

From S2P Require Import Prelude.

Module Fee.

(** [pub const PAYOUT_TOTAL_VALUE: u128 = 10_000;] *)
Definition PAYOUT_TOTAL_VALUE : Z := 10000.
(** [pub const PROTOCOL_FEE: u128 = 300;] *)
Definition PROTOCOL_FEE : Z := 300.

(** [pub type Origins = HashMap<AccountId, u32>;] *)
Abbreviation Origins := (gmap string Z).

(** [pub struct Fees { buyer, seller }], serialized into the memo of
    [nft_transfer_payout]. *)
Record Fees := mkFees {
  fees_buyer : Origins;
  fees_seller : Origins;
}.

(** A well-formed [Origins]: every weight is a [u32]. *)
Definition origins_wf (o : Origins) : Prop := map_Forall (fun _ v => 0 <= v <= u32_max) o.
#[export] Instance origins_wf_dec o : Decision (origins_wf o).
Proof. unfold origins_wf. apply _. Defined.

(** The weights in the iteration order of [origins.values()]. *)
Definition origin_values (o : Origins) : list Z := (map_to_list o).*2.

(** [calculate_origins]: [total += val] on [u32]. *)
Definition calculate_origins (origins : Origins) : result Z :=
  checked_sum u32_max 0 (origin_values origins).

(** [calculate_actual_amount]: [amount - amount * (w + 300) / (10_000 + w + 300)] on [u128]. *)
Definition calculate_actual_amount (amount total_origins : Z) : result Z :=
  let* prod := checked_mul u128_max amount (total_origins + PROTOCOL_FEE) in
  let origin_fee := prod / (PAYOUT_TOTAL_VALUE + total_origins + PROTOCOL_FEE) in
  checked_sub amount origin_fee.

(** [if let Some(origins) = origins { calculate_origins(origins) } else { 0 }] *)
Definition total_of (origins : option Origins) : result Z :=
  match origins with
  | Some o => calculate_origins o
  | None => Ok 0
  end.

(** [calculate_price_with_fees]: [price * (10_000 + 300 + w) / 10_000] on [u128]. *)
Definition calculate_price_with_fees (price : Z) (origins : option Origins) : result Z :=
  let* total_origins := total_of origins in
  let* prod := checked_mul u128_max price (PAYOUT_TOTAL_VALUE + PROTOCOL_FEE + total_origins) in
  Ok (prod / PAYOUT_TOTAL_VALUE).

(** The exact arithmetic the two functions compute when nothing overflows. *)
Definition actual_of (amount w : Z) : Z :=
  amount - amount * (w + PROTOCOL_FEE) / (PAYOUT_TOTAL_VALUE + w + PROTOCOL_FEE).
Definition with_fees_of (price w : Z) : Z :=
  price * (PAYOUT_TOTAL_VALUE + PROTOCOL_FEE + w) / PAYOUT_TOTAL_VALUE.

(** ** Lemmas *)

Lemma origin_values_nonneg o : origins_wf o -> all_nonneg (origin_values o).
Proof.
  intros Hwf. apply Forall_forall. intros v Hv.
  apply list_elem_of_fmap in Hv as ([k v'] & -> & Hin).
  apply elem_of_map_to_list in Hin. simpl. by destruct (Hwf k v' Hin).
Qed.

Definition origins_total (o : Origins) : Z := sum_list (origin_values o).

Lemma calculate_origins_spec o :
  origins_wf o ->
  calculate_origins o = if origins_total o <=? u32_max then Ok (origins_total o)
                        else Err "attempt to add with overflow".
Proof.
  intros Hwf. unfold calculate_origins, origins_total.
  rewrite checked_sum_ok; [done | unfold u32_max; lia | by apply origin_values_nonneg].
Qed.

Lemma origins_total_nonneg o : origins_wf o -> 0 <= origins_total o.
Proof. intros. by apply sum_list_nonneg, origin_values_nonneg. Qed.

Lemma calculate_actual_amount_spec a w :
  0 <= a -> 0 <= w ->
  calculate_actual_amount a w =
    if a * (w + PROTOCOL_FEE) <=? u128_max then Ok (actual_of a w)
    else Err "attempt to multiply with overflow".
Proof.
  intros Ha Hw. unfold calculate_actual_amount, checked_mul, actual_of.
  destruct (Z.leb_spec (a * (w + PROTOCOL_FEE)) u128_max); simpl; [|done].
  unfold checked_sub.
  assert (a * (w + PROTOCOL_FEE) / (PAYOUT_TOTAL_VALUE + w + PROTOCOL_FEE) <= a).
  { apply Z.div_le_upper_bound; unfold PAYOUT_TOTAL_VALUE, PROTOCOL_FEE in *; nia. }
  by destruct (Z.leb_spec (a * (w + PROTOCOL_FEE) / (PAYOUT_TOTAL_VALUE + w + PROTOCOL_FEE)) a); [|lia].
Qed.

Lemma calculate_price_with_fees_spec p o w :
  total_of o = Ok w ->
  calculate_price_with_fees p o =
    if p * (PAYOUT_TOTAL_VALUE + PROTOCOL_FEE + w) <=? u128_max then Ok (with_fees_of p w)
    else Err "attempt to multiply with overflow".
Proof.
  intros Hw. unfold calculate_price_with_fees, checked_mul, with_fees_of. rewrite Hw. simpl.
  by destruct (Z.leb_spec (p * (PAYOUT_TOTAL_VALUE + PROTOCOL_FEE + w)) u128_max).
Qed.

(** The two directions invert each other exactly on the arithmetic. *)
Lemma actual_of_with_fees_of p w :
  0 <= p -> 0 <= w -> actual_of (with_fees_of p w) w = p.
Proof.
  intros Hp Hw. unfold actual_of, with_fees_of, PAYOUT_TOTAL_VALUE, PROTOCOL_FEE.
  set (N := 10000 + w + 300). set (g := p * (10000 + 300 + w) / 10000).
  assert (HgD : 10000 * g <= p * N /\ p * N < 10000 * (g + 1)).
  { pose proof (Z.div_mod (p * (10000 + 300 + w)) 10000 ltac:(lia)) as E.
    pose proof (Z.mod_pos_bound (p * (10000 + 300 + w)) 10000 ltac:(lia)).
    subst N g. lia. }
  assert (Hq : g * (w + 300) / N = g - p).
  { symmetry. apply Z.div_unique with (r := g * (w + 300) - (g - p) * N); [left|]; subst N; nia. }
  rewrite Hq. lia.
Qed.

Lemma actual_of_bounds a w : 0 <= a -> 0 <= w -> 0 <= actual_of a w <= a.
Proof.
  intros Ha Hw. unfold actual_of, PAYOUT_TOTAL_VALUE, PROTOCOL_FEE. split.
  - assert (a * (w + 300) / (10000 + w + 300) <= a); [|lia].
    apply Z.div_le_upper_bound; nia.
  - assert (0 <= a * (w + 300) / (10000 + w + 300)); [apply Z.div_pos; nia|lia].
Qed.

Lemma actual_of_mono a1 a2 w :
  0 <= a1 <= a2 -> 0 <= w -> actual_of a1 w <= actual_of a2 w.
Proof.
  intros Ha Hw. unfold actual_of, PAYOUT_TOTAL_VALUE, PROTOCOL_FEE.
  set (N := 10000 + w + 300).
  pose proof (Z.div_mod (a1 * (w + 300)) N ltac:(lia)).
  pose proof (Z.mod_pos_bound (a1 * (w + 300)) N ltac:(lia)).
  pose proof (Z.div_mod (a2 * (w + 300)) N ltac:(lia)).
  pose proof (Z.mod_pos_bound (a2 * (w + 300)) N ltac:(lia)).
  subst N. nia.
Qed.

Lemma with_fees_of_mono p1 p2 w :
  p1 <= p2 -> 0 <= w -> with_fees_of p1 w <= with_fees_of p2 w.
Proof.
  intros. unfold with_fees_of. apply Z.div_le_mono; [done|].
  unfold PAYOUT_TOTAL_VALUE, PROTOCOL_FEE. nia.
Qed.

#[export] Hint Resolve origins_total_nonneg actual_of_bounds : market.

(** ** Properties *)

(** C1: Round trip of the fee arithmetic: for a bidder's origins of total
    weight below the 4_700 cap that [add_bid] enforces, the fee-exclusive
    amount of the price-with-fees of a net price [p] is exactly [p] (the
    spec allows [p - 1]; no rounding loss occurs). *)
Theorem price_with_fees_roundtrip p o w g :
  0 <= p -> origins_wf o -> calculate_origins o = Ok w -> w < 4700 ->
  calculate_price_with_fees p (Some o) = Ok g ->
  calculate_actual_amount g w = Ok p.
Proof.
  intros Hp Hwf Hw Hcap Hg.
  assert (Hw0 : 0 <= w).
  { rewrite calculate_origins_spec in Hw by done.
    destruct (_ <=? _); [injection Hw as <-; by apply origins_total_nonneg | done]. }
  rewrite (calculate_price_with_fees_spec p (Some o) w Hw) in Hg.
  destruct (Z.leb_spec (p * (PAYOUT_TOTAL_VALUE + PROTOCOL_FEE + w)) u128_max) as [Hb|]; [|done].
  injection Hg as <-.
  assert (Hg0 : 0 <= with_fees_of p w) by (apply Z.div_pos; unfold PAYOUT_TOTAL_VALUE, PROTOCOL_FEE in *; nia).
  rewrite calculate_actual_amount_spec by lia.
  assert (Hle : 10000 * with_fees_of p w <= p * (PAYOUT_TOTAL_VALUE + PROTOCOL_FEE + w))
    by (apply Z.mul_div_le; unfold PAYOUT_TOTAL_VALUE; lia).
  destruct (Z.leb_spec (with_fees_of p w * (w + PROTOCOL_FEE)) u128_max).
  - by rewrite actual_of_with_fees_of.
  - unfold PROTOCOL_FEE in *. nia.
Qed.

(** C2: Overflow of [calculate_price_with_fees]: with origins of total weight
    [w], it returns the price with fees exactly when
    [price * (10_300 + w)] fits in a [u128], and panics otherwise; in
    particular it never panics on a price up to [u128::MAX / 15_000] when
    the origins stay under the 4_700 cap. *)
Theorem price_with_fees_bounds p o w :
  0 <= p -> 0 <= w -> total_of o = Ok w ->
  (is_ok (calculate_price_with_fees p o) = true <->
     p * (PAYOUT_TOTAL_VALUE + PROTOCOL_FEE + w) <= u128_max) /\
  (w < 4700 -> p <= u128_max / 15000 -> is_ok (calculate_price_with_fees p o) = true).
Proof.
  intros Hp Hw Ho. rewrite (calculate_price_with_fees_spec p o w Ho).
  assert (Hiff : is_ok (if p * (PAYOUT_TOTAL_VALUE + PROTOCOL_FEE + w) <=? u128_max
                        then Ok (with_fees_of p w) else Err "attempt to multiply with overflow") = true
                 <-> p * (PAYOUT_TOTAL_VALUE + PROTOCOL_FEE + w) <= u128_max).
  { destruct (Z.leb_spec (p * (PAYOUT_TOTAL_VALUE + PROTOCOL_FEE + w)) u128_max); simpl; split; try done; lia. }
  split; [exact Hiff|]. intros Hcap Hsmall. apply Hiff.
  pose proof (Z.mul_div_le u128_max 15000 ltac:(lia)).
  unfold PAYOUT_TOTAL_VALUE, PROTOCOL_FEE, u128_max in *. nia.
Qed.

Lemma price_with_fees_roundtrip_witness :
  calculate_actual_amount 10400 100 = Ok 10000.
Proof.
  apply (price_with_fees_roundtrip 10000 {[ "alice.near" := 100 ]} 100 10400).
  - lia.
  - refine (bool_decide_unpack _ _). vm_compute. reflexivity.
  - vm_compute. reflexivity.
  - lia.
  - vm_compute. reflexivity.
Defined.

Lemma price_with_fees_bounds_witness :
  is_ok (calculate_price_with_fees 10000 (Some {[ "alice.near" := 100 ]})) = true.
Proof.
  refine (proj2 (price_with_fees_bounds 10000 (Some {[ "alice.near" := 100 ]}) 100 _ _ _) _ _).
  - lia.
  - lia.
  - vm_compute. reflexivity.
  - lia.
  - vm_compute. discriminate.
Defined.

End Fee.
