(* ===== verification/State.v ===== *)
(** * The marketplace state ([src/market/src/lib.rs], [bid.rs], [sale.rs], [auction.rs])

    The records the contract stores and the effects it emits:
    - [Bid.t] ([struct Bid], bid.rs), [Sale.t] ([struct Sale], sale.rs),
      [Auction.t] ([struct Auction], auction.rs);
    - [SaleJson.t] and [AuctionJson.t], what the views answer, with
      [json_from_sale] and [json_from_auction];
    - [Market.t]: [struct Market] with its [MarketSales], the persistent
      collections as [gmap]/[gset] ([UnorderedMap], [LookupMap],
      [UnorderedSet]), together with the list of promises the current
      call created ([promises]);
    - [Action]: the promises ([Promise::new(..).transfer(..)],
      [ext_contract::ft_transfer], [ext_contract::nft_transfer_payout] with
      its [.then(ext_self::resolve_..)] callback, whose arguments are the
      context captured for the second phase of a settlement);
    - [Env]: what [env::] returns during a call;
    - [refund_bid] and [refund_all_bids] (bid.rs), the one primitive that
      moves a bidder's money back. *)

From S2P Require Import Prelude Fee.
Import Fee.

(** [pub static DELIMETER: &str = "||";] *)
Definition DELIMETER : string := "||".

(** [format!("{}{}{}", nft_contract_id, DELIMETER, token_id)] *)
Definition contract_and_token_id (nft_contract_id token_id : string) : string :=
  nft_contract_id +:+ DELIMETER +:+ token_id.

(** The account id of the native currency, ["near"]. *)
Definition NEAR : string := "near".

(** What [env::] answers during one call. *)
Record Env := mkEnv {
  block_timestamp : Z;
  predecessor_account_id : string;
  signer_account_id : string;
  attached_deposit : Z;
  current_account_id : string;
}.

Module Bid.
(** [pub struct Bid] *)
Record t := mk {
  owner_id : string;
  price : Z;
  start : Z;
  end_ : option Z;
  origins : Origins;
}.

(** [Bid::in_limits]: [start < now] and, with an end, [now < end]. *)
Definition in_limits (now : Z) (b : t) : bool :=
  bool_decide (start b < now) &&
  match end_ b with Some e => bool_decide (now < e) | None => true end.
End Bid.

(** [pub type Bids = HashMap<FungibleTokenId, Vec<Bid>>;] *)
Abbreviation Bids := (gmap string (list Bid.t)).

Module Sale.
(** [pub struct Sale] *)
Record t := mk {
  owner_id : string;
  approval_id : Z;
  nft_contract_id : string;
  token_id : string;
  sale_conditions : gmap string Z;
  bids : Bids;
  created_at : Z;
  token_type : option string;
  start : option Z;
  end_ : option Z;
  origins : Origins;
}.

Definition set_bids (bs : Bids) (s : t) : t :=
  mk (owner_id s) (approval_id s) (nft_contract_id s) (token_id s) (sale_conditions s)
     bs (created_at s) (token_type s) (start s) (end_ s) (origins s).
Definition set_sale_conditions (c : gmap string Z) (s : t) : t :=
  mk (owner_id s) (approval_id s) (nft_contract_id s) (token_id s) c
     (bids s) (created_at s) (token_type s) (start s) (end_ s) (origins s).
Definition set_end (e : option Z) (s : t) : t :=
  mk (owner_id s) (approval_id s) (nft_contract_id s) (token_id s) (sale_conditions s)
     (bids s) (created_at s) (token_type s) (start s) e (origins s).

(** [Sale::in_limits] *)
Definition in_limits (now : Z) (s : t) : bool :=
  match start s with Some st => bool_decide (st < now) | None => true end &&
  match end_ s with Some e => bool_decide (now < e) | None => true end.

(** [Sale::extend]: push the end of a bounded sale by [time] ([u64]). *)
Definition extend (time : Z) (s : t) : result (bool * t) :=
  match end_ s with
  | Some e => let* e' := checked_add u64_max e time in Ok (true, set_end (Some e') s)
  | None => Ok (false, s)
  end.
End Sale.

Module Auction.
(** [pub struct Auction] *)
Record t := mk {
  owner_id : string;
  approval_id : Z;
  nft_contract_id : string;
  token_id : string;
  bid : option Bid.t;
  created_at : Z;
  ft_token_id : string;
  minimal_step : Z;
  start_price : Z;
  buy_out_price : option Z;
  start : Z;
  end_ : Z;
  origins : Origins;
}.

Definition set_bid (b : option Bid.t) (a : t) : t :=
  mk (owner_id a) (approval_id a) (nft_contract_id a) (token_id a) b (created_at a)
     (ft_token_id a) (minimal_step a) (start_price a) (buy_out_price a) (start a) (end_ a)
     (origins a).
Definition set_end (e : Z) (a : t) : t :=
  mk (owner_id a) (approval_id a) (nft_contract_id a) (token_id a) (bid a) (created_at a)
     (ft_token_id a) (minimal_step a) (start_price a) (buy_out_price a) (start a) e
     (origins a).
End Auction.

(** [pub struct SaleJson]: a [Sale] without its [approval_id], the
    integers as the strings of [U64] (a change of representation only). *)
Module SaleJson.
Record t := mk {
  owner_id : string;
  nft_contract_id : string;
  token_id : string;
  sale_conditions : gmap string Z;
  bids : Bids;
  created_at : Z;
  token_type : option string;
  start : option Z;
  end_ : option Z;
  origins : Origins;
}.
End SaleJson.

(** [Market::json_from_sale] *)
Definition json_from_sale (sale : Sale.t) : SaleJson.t :=
  SaleJson.mk (Sale.owner_id sale) (Sale.nft_contract_id sale) (Sale.token_id sale)
    (Sale.sale_conditions sale) (Sale.bids sale) (Sale.created_at sale) (Sale.token_type sale)
    (Sale.start sale) (Sale.end_ sale) (Sale.origins sale).

(** [pub struct AuctionJson]: an [Auction] without its [approval_id] and
    its [origins]. *)
Module AuctionJson.
Record t := mk {
  owner_id : string;
  nft_contract_id : string;
  token_id : string;
  bid : option Bid.t;
  created_at : Z;
  ft_token_id : string;
  minimal_step : Z;
  start_price : Z;
  buy_out_price : option Z;
  start : Z;
  end_ : Z;
}.
End AuctionJson.

(** [Market::json_from_auction] *)
Definition json_from_auction (auction : Auction.t) : AuctionJson.t :=
  AuctionJson.mk (Auction.owner_id auction) (Auction.nft_contract_id auction) (Auction.token_id auction)
    (Auction.bid auction) (Auction.created_at auction) (Auction.ft_token_id auction)
    (Auction.minimal_step auction) (Auction.start_price auction) (Auction.buy_out_price auction)
    (Auction.start auction) (Auction.end_ auction).

(** The continuation of a settlement: the [ext_self::resolve_..] call
    chained with [.then(..)], with the context it captures. *)
Inductive Callback :=
| ResolvePurchase (ft_token_id buyer_id : string) (sale : Sale.t) (price : Z)
| ResolveFinishAuction (ft_token_id buyer_id : string) (price : Z).

(** The promises a call creates. *)
Inductive Action :=
| Transfer (receiver : string) (amount : Z)
| FtTransfer (ft_token_id receiver : string) (amount : Z)
| NftTransferPayout (nft_contract_id receiver token_id : string) (approval_id : Z)
    (memo : Fees) (balance : Z) (max_len_payout : Z) (then_ : Callback).

Module Market.
(** [struct Market { non_fungible_token_account_ids, market: MarketSales }],
    with the promises created by the current call. *)
Record t := mk {
  non_fungible_token_account_ids : gset string;
  owner_id : string;
  sales : gmap string Sale.t;
  by_owner_id : gmap string (gset string);
  by_nft_contract_id : gmap string (gset string);
  by_nft_token_type : gmap string (gset string);
  ft_token_ids : gset string;
  storage_deposits : gmap string Z;
  bid_history_length : Z;
  auctions : gmap Z Auction.t;
  next_auction_id : Z;
  promises : list Action;
}.

Definition set_sales x m := mk (non_fungible_token_account_ids m) (owner_id m) x (by_owner_id m) (by_nft_contract_id m) (by_nft_token_type m) (ft_token_ids m) (storage_deposits m) (bid_history_length m) (auctions m) (next_auction_id m) (promises m).
Definition set_by_owner_id x m := mk (non_fungible_token_account_ids m) (owner_id m) (sales m) x (by_nft_contract_id m) (by_nft_token_type m) (ft_token_ids m) (storage_deposits m) (bid_history_length m) (auctions m) (next_auction_id m) (promises m).
Definition set_by_nft_contract_id x m := mk (non_fungible_token_account_ids m) (owner_id m) (sales m) (by_owner_id m) x (by_nft_token_type m) (ft_token_ids m) (storage_deposits m) (bid_history_length m) (auctions m) (next_auction_id m) (promises m).
Definition set_by_nft_token_type x m := mk (non_fungible_token_account_ids m) (owner_id m) (sales m) (by_owner_id m) (by_nft_contract_id m) x (ft_token_ids m) (storage_deposits m) (bid_history_length m) (auctions m) (next_auction_id m) (promises m).
Definition set_storage_deposits x m := mk (non_fungible_token_account_ids m) (owner_id m) (sales m) (by_owner_id m) (by_nft_contract_id m) (by_nft_token_type m) (ft_token_ids m) x (bid_history_length m) (auctions m) (next_auction_id m) (promises m).
Definition set_auctions x m := mk (non_fungible_token_account_ids m) (owner_id m) (sales m) (by_owner_id m) (by_nft_contract_id m) (by_nft_token_type m) (ft_token_ids m) (storage_deposits m) (bid_history_length m) x (next_auction_id m) (promises m).
Definition set_next_auction_id x m := mk (non_fungible_token_account_ids m) (owner_id m) (sales m) (by_owner_id m) (by_nft_contract_id m) (by_nft_token_type m) (ft_token_ids m) (storage_deposits m) (bid_history_length m) (auctions m) x (promises m).
Definition set_promises x m := mk (non_fungible_token_account_ids m) (owner_id m) (sales m) (by_owner_id m) (by_nft_contract_id m) (by_nft_token_type m) (ft_token_ids m) (storage_deposits m) (bid_history_length m) (auctions m) (next_auction_id m) x.

(** [pub const BID_HISTORY_LENGTH_DEFAULT: u8 = 5;] *)
Definition BID_HISTORY_LENGTH_DEFAULT : Z := 5.

(** [Market::new]: ["near"] is the only supported currency. *)
Definition new (nft_ids : list string) (owner : string) : t :=
  mk (list_to_set nft_ids) owner ∅ ∅ ∅ ∅ {[ NEAR ]} ∅ BID_HISTORY_LENGTH_DEFAULT ∅ 0 [].
End Market.

Abbreviation M := (st Market.t).

(** Create a promise. *)
Definition emit (a : Action) : M unit :=
  st_modify (fun m => Market.set_promises (Market.promises m ++ [a]) m).

(** [Market::refund_bid]: NEAR is sent back directly, a fungible token
    through [ft_transfer] on the token's contract. *)
Definition refund_bid (bid_ft owner_id : string) (price : Z) : M unit :=
  if bool_decide (bid_ft = NEAR) then emit (Transfer owner_id price)
  else emit (FtTransfer bid_ft owner_id price).

(** [Market::refund_all_bids]: every bid of every currency. *)
Definition refund_all_bids (bids_map : Bids) : M unit :=
  st_iter (fun '(ft, bids) => st_iter (fun b => refund_bid ft (Bid.owner_id b) (Bid.price b)) bids)
          (map_to_list bids_map).

(** ** Money that leaves the contract *)

Definition action_amount (a : Action) : Z :=
  match a with
  | Transfer _ x => x
  | FtTransfer _ _ x => x
  | NftTransferPayout _ _ _ _ _ _ _ _ => 0
  end.

Definition paid_to (who : string) (a : Action) : Z :=
  match a with
  | Transfer r x => if bool_decide (r = who) then x else 0
  | FtTransfer _ r x => if bool_decide (r = who) then x else 0
  | NftTransferPayout _ _ _ _ _ _ _ _ => 0
  end.

Definition total_sent (acts : list Action) : Z := sum_list (map action_amount acts).

(** The refunds a list of bids of one currency is owed. *)
Definition refunds_of (ft : string) (bs : list Bid.t) : list Action :=
  map (fun b => if bool_decide (ft = NEAR) then Transfer (Bid.owner_id b) (Bid.price b)
                else FtTransfer ft (Bid.owner_id b) (Bid.price b)) bs.

(** ** Lemmas *)

Lemma emit_run a m : emit a m = Ok (tt, Market.set_promises (Market.promises m ++ [a]) m).
Proof. reflexivity. Qed.

Lemma refund_bid_run ft o p m :
  refund_bid ft o p m = Ok (tt, Market.set_promises (Market.promises m ++ refunds_of ft [Bid.mk o p 0 None ∅]) m).
Proof. unfold refund_bid, refunds_of. simpl. by case_bool_decide. Qed.

Lemma set_promises_set_promises x y m :
  Market.set_promises x (Market.set_promises y m) = Market.set_promises x m.
Proof. by destruct m. Qed.

Lemma set_promises_promises x m : Market.promises (Market.set_promises x m) = x.
Proof. by destruct m. Qed.

Lemma set_promises_id m : Market.set_promises (Market.promises m) m = m.
Proof. by destruct m. Qed.

(** The frames of the handlers: [m'] differs from [m] at most in the
    listed fields. *)
Definition only_sales_promises (m m' : Market.t) : Prop :=
  m' = Market.set_sales (Market.sales m') (Market.set_promises (Market.promises m') m).
Definition only_auctions_promises (m m' : Market.t) : Prop :=
  m' = Market.set_next_auction_id (Market.next_auction_id m')
         (Market.set_auctions (Market.auctions m') (Market.set_promises (Market.promises m') m)).

(** Prove a frame by taking the market records apart. *)
Ltac frame_solve :=
  unfold only_sales_promises, only_auctions_promises;
  repeat match goal with m : Market.t |- _ => destruct m end; reflexivity.

Lemma refund_bids_run ft bs m :
  st_iter (fun b => refund_bid ft (Bid.owner_id b) (Bid.price b)) bs m
  = Ok (tt, Market.set_promises (Market.promises m ++ refunds_of ft bs) m).
Proof.
  revert m. induction bs as [|b bs IH]; intros m; simpl.
  - by rewrite app_nil_r, set_promises_id.
  - unfold st_bind. rewrite refund_bid_run, IH. simpl.
    by rewrite set_promises_set_promises, <- app_assoc.
Qed.

(** All refunds of a bid map, currency by currency. *)
Definition all_refunds (bids_map : Bids) : list Action :=
  (map_to_list bids_map) ≫= (fun '(ft, bs) => refunds_of ft bs).

Lemma refund_all_bids_run bids_map m :
  refund_all_bids bids_map m
  = Ok (tt, Market.set_promises (Market.promises m ++ all_refunds bids_map) m).
Proof.
  unfold refund_all_bids, all_refunds. generalize (map_to_list bids_map) as l.
  intros l. revert m. induction l as [|[ft bs] l IH]; intros m; simpl.
  - by rewrite app_nil_r, set_promises_id.
  - unfold st_bind. rewrite refund_bids_run, IH. simpl.
    by rewrite set_promises_set_promises, <- app_assoc.
Qed.

Lemma total_sent_app l1 l2 : total_sent (l1 ++ l2) = total_sent l1 + total_sent l2.
Proof. unfold total_sent. by rewrite map_app, sum_list_app. Qed.

Lemma total_sent_refunds ft bs :
  total_sent (refunds_of ft bs) = sum_list (map Bid.price bs).
Proof. induction bs; simpl; [done|]. unfold total_sent in *. simpl. case_bool_decide; simpl; lia. Qed.

(** Reduce projections of updated market and sale records. *)
Ltac market_simpl :=
  cbn [Market.set_sales Market.set_by_owner_id Market.set_by_nft_contract_id
       Market.set_by_nft_token_type Market.set_storage_deposits Market.set_auctions
       Market.set_next_auction_id Market.set_promises Market.sales Market.by_owner_id
       Market.by_nft_contract_id Market.by_nft_token_type Market.storage_deposits
       Market.auctions Market.next_auction_id Market.promises Market.bid_history_length
       Market.ft_token_ids Market.owner_id Market.non_fungible_token_account_ids
       Sale.set_bids Sale.set_sale_conditions Sale.set_end Sale.bids Sale.owner_id
       Sale.sale_conditions Sale.end_ Sale.start Sale.origins Sale.token_type Sale.approval_id
       Auction.set_bid Auction.set_end Auction.bid Auction.end_ Auction.start
       Auction.owner_id] in *.

(** ** A concrete market, used by the witnesses *)

Module Demo.
Definition key : string := contract_and_token_id "nft.near" "1:1".
Definition env (who : string) (now deposit : Z) : Env :=
  mkEnv now who who deposit "market.near".
Definition alice_bid : Bid.t := Bid.mk "alice.near" 10300 0 (Some 50) ∅.
(** A sale of token [1:1] listed at 10_000 NEAR with one bid of alice. *)
Definition sale : Sale.t :=
  Sale.mk "seller.near" 0 "nft.near" "1:1" {[ NEAR := 10000 ]} {[ NEAR := [alice_bid] ]}
          0 None (Some 0) None ∅.
Definition market : Market.t :=
  Market.set_by_nft_contract_id {[ "nft.near" := {[ "1:1" ]} ]}
    (Market.set_by_owner_id {[ "seller.near" := {[ key ]} ]}
      (Market.set_sales {[ key := sale ]} (Market.new ["nft.near"] "market.near"))).
End Demo.
