(* ===== verification/Bids.v ===== *)
(** * Bid ledger ([src/market/src/bid.rs], [internal_remove_bid] of [inner.rs])

    For each sale and each currency the contract keeps a [Vec<Bid>],
    oldest first.  [add_bid] appends a bid whose fee-exclusive value is
    strictly above the last one and, past [bid_history_length] entries,
    refunds and drops the oldest; [internal_remove_bid], [remove_bid],
    [cancel_bid] and [cancel_expired_bids] take bids out.

    The invariant [bucket_ok]: a bucket is non-empty, strictly increasing
    in value, each bid's value computes, and it holds at most
    [bid_history_length] bids.  Every operation preserves it.  The
    functional theorems give the exact bucket and the exact refunds of
    each operation, and the error theorems the rejections. *)

From stdpp Require Import pretty.
From S2P Require Import Prelude Fee State.
Import Fee.

Module BidLedger.

(** The cap on a bidder's origins ([require!(total_origins < 4_700, ..)]). *)
Definition MAX_ORIGINS : Z := 4700.

(** The fee-exclusive value of a stored bid, as [add_bid] computes it for
    [current_bid]. *)
Definition bid_value (b : Bid.t) : result Z :=
  let* w := calculate_origins (Bid.origins b) in
  calculate_actual_amount (Bid.price b) w.

(** [if let Some(current_bid) = bids_for_token_id.last() { .. require!(actual_amount > current_amount, ..) }];
    the message names the bid's price. *)
Definition check_higher (actual_amount : Z) (bs : list Bid.t) : result unit :=
  match last bs with
  | Some current_bid =>
      let* current_amount := bid_value current_bid in
      require (bool_decide (actual_amount > current_amount))
        ("Can't pay less than or equal to current bid price: " +:+ pretty (Bid.price current_bid))
  | None => Ok tt
  end.

(** [if bids_for_token_id.len() > self.market.bid_history_length as usize { refund_bid(bids[0]); bids.remove(0); }] *)
Definition evict_oldest (ft_token_id : string) (history : Z) (bs : list Bid.t) : M (list Bid.t) :=
  if bool_decide (history < Z.of_nat (length bs)) then
    match bs with
    | early_bid :: rest =>
        do! refund_bid ft_token_id (Bid.owner_id early_bid) (Bid.price early_bid) ;;
        st_ret rest
    | [] => st_lift (Err "index out of bounds")
    end
  else st_ret bs.

(** [Market::add_bid] *)
Definition add_bid (contract_and_token_id : string) (amount : Z) (ft_token_id buyer_id : string)
    (sale : Sale.t) (start : Z) (end_ : option Z) (origins : option Origins) : M unit :=
  let! m := st_get in
  do! st_lift (require (bool_decide (ft_token_id ∈ Market.ft_token_ids m))
                 ("Token " +:+ ft_token_id +:+ " not supported by this market")) ;;
  let! total_origins := st_lift (total_of origins) in
  do! st_lift (require (bool_decide (total_origins < MAX_ORIGINS)) "Max origins exceeded") ;;
  let! actual_amount := st_lift (calculate_actual_amount amount total_origins) in
  let new_bid := Bid.mk buyer_id amount start end_ (default ∅ origins) in
  let bids_for_token_id := default [] (Sale.bids sale !! ft_token_id) in
  do! st_lift (check_higher actual_amount bids_for_token_id) ;;
  let! kept := evict_oldest ft_token_id (Market.bid_history_length m) (bids_for_token_id ++ [new_bid]) in
  let sale' := Sale.set_bids (<[ft_token_id := kept]> (Sale.bids sale)) sale in
  st_modify (fun m => Market.set_sales (<[contract_and_token_id := sale']> (Market.sales m)) m).

(** The bucket left once the bid at [index] is taken out: an emptied
    bucket is removed from the map. *)
Definition bids_without (ft_token_id : string) (index : nat) (bid_vec : list Bid.t) (bids : Bids) : Bids :=
  if bool_decide (length bid_vec = 1%nat) then delete ft_token_id bids
  else <[ft_token_id := delete index bid_vec]> bids.

(** [Market::internal_remove_bid]: the first bid of [owner_id] at [price]. *)
Definition internal_remove_bid (nft_contract_id ft_token_id token_id owner_id : string) (price : Z)
    : M (option Bid.t) :=
  let key := contract_and_token_id nft_contract_id token_id in
  let! m := st_get in
  let! sale := st_lift (expect (Market.sales m !! key) "No sale") in
  let! bid_vec := st_lift (expect (Sale.bids sale !! ft_token_id) "No token") in
  match list_find (fun b => Bid.owner_id b = owner_id /\ Bid.price b = price) bid_vec with
  | Some (index, bid_from_vec) =>
      let sale' := Sale.set_bids (bids_without ft_token_id index bid_vec (Sale.bids sale)) sale in
      do! st_modify (fun m => Market.set_sales (<[key := sale']> (Market.sales m)) m) ;;
      st_ret (Some bid_from_vec)
  | None => st_ret None
  end.

(** [assert_one_yocto()] *)
Definition assert_one_yocto (env : Env) : result unit :=
  require (bool_decide (attached_deposit env = 1)) "Requires attached deposit of exactly 1 yoctoNEAR".

(** [Market::remove_bid]: the caller withdraws a bid of theirs. *)
Definition remove_bid (env : Env) (nft_contract_id token_id ft_token_id : string) (price : Z) : M unit :=
  do! st_lift (assert_one_yocto env) ;;
  let owner_id := predecessor_account_id env in
  let! _ := internal_remove_bid nft_contract_id ft_token_id token_id owner_id price in
  refund_bid ft_token_id owner_id price.

(** [Market::cancel_bid]: anyone cancels a bid whose end has passed. *)
Definition cancel_bid (env : Env) (nft_contract_id token_id ft_token_id owner_id : string) (price : Z)
    : M unit :=
  let! removed := internal_remove_bid nft_contract_id ft_token_id token_id owner_id price in
  let! bid := st_lift (expect removed "No such bid") in
  match Bid.end_ bid with
  | Some e =>
      do! st_lift (require (bool_decide (block_timestamp env >= e)) "The bid hasn't ended yet") ;;
      refund_bid ft_token_id owner_id price
  | None => st_lift (Err "The bid doesn't have an end")
  end.

(** Whether a bid has expired at [now] ([bid.end] set and [now >= end]). *)
Definition expired (now : Z) (b : Bid.t) : bool :=
  match Bid.end_ b with Some e => bool_decide (now >= e) | None => false end.

(** [bid_vec.retain(|bid| ..)]: visit the bids in order, refund and drop the expired ones. *)
Fixpoint retain_unexpired (ft_token_id : string) (now : Z) (bs : list Bid.t) : M (list Bid.t) :=
  match bs with
  | [] => st_ret []
  | b :: bs' =>
      let! not_finished :=
        match Bid.end_ b with
        | Some e =>
            if bool_decide (now >= e)
            then do! refund_bid ft_token_id (Bid.owner_id b) (Bid.price b) ;; st_ret false
            else st_ret true
        | None => st_ret true
        end in
      let! rest := retain_unexpired ft_token_id now bs' in
      st_ret (if not_finished then b :: rest else rest)
  end.

(** [Market::cancel_expired_bids] *)
Definition cancel_expired_bids (env : Env) (nft_contract_id token_id ft_token_id : string) : M unit :=
  let key := contract_and_token_id nft_contract_id token_id in
  let! m := st_get in
  let! sale := st_lift (expect (Market.sales m !! key) "No sale") in
  let! bid_vec := st_lift (expect (Sale.bids sale !! ft_token_id) "No token") in
  let! kept := retain_unexpired ft_token_id (block_timestamp env) bid_vec in
  let bids' := match kept with
               | [] => delete ft_token_id (Sale.bids sale)
               | _ => <[ft_token_id := kept]> (Sale.bids sale)
               end in
  st_modify (fun m => Market.set_sales (<[key := Sale.set_bids bids' sale]> (Market.sales m)) m).

(** ** The ledger invariant *)

(** The bucket of one currency ([sale.bids.get(ft)], empty when absent). *)
Definition bucket (ft_token_id : string) (sale : Sale.t) : list Bid.t :=
  default [] (Sale.bids sale !! ft_token_id).

Definition bid_ltb (b1 b2 : Bid.t) : bool :=
  match bid_value b1, bid_value b2 with
  | Ok a1, Ok a2 => bool_decide (a1 < a2)
  | _, _ => false
  end.
Definition bid_lt (b1 b2 : Bid.t) : Prop := bid_ltb b1 b2 = true.
#[export] Instance bid_lt_dec b1 b2 : Decision (bid_lt b1 b2).
Proof. unfold bid_lt. apply _. Defined.

(** A bucket: non-empty, at most [N] bids, each bid's value computes,
    strictly increasing in value. *)
Definition bucket_ok (N : Z) (l : list Bid.t) : Prop :=
  l <> [] /\ Z.of_nat (length l) <= N /\
  Forall (fun b => is_ok (bid_value b) = true) l /\ StronglySorted bid_lt l.
#[export] Instance bucket_ok_dec N l : Decision (bucket_ok N l).
Proof. unfold bucket_ok. apply _. Defined.

Definition sale_bids_ok (N : Z) (sale : Sale.t) : Prop :=
  map_Forall (fun _ l => bucket_ok N l) (Sale.bids sale).
#[export] Instance sale_bids_ok_dec N sale : Decision (sale_bids_ok N sale).
Proof. unfold sale_bids_ok. apply _. Defined.

(** ** Lemmas *)

Lemma bid_lt_trans : Transitive bid_lt.
Proof.
  intros x y z. unfold bid_lt, bid_ltb.
  destruct (bid_value x), (bid_value y), (bid_value z); try done.
  rewrite !bool_decide_eq_true. lia.
Qed.

Lemma Forall_sublist' {A} (P : A -> Prop) l1 l2 :
  l1 `sublist_of` l2 -> Forall P l2 -> Forall P l1.
Proof.
  intros Hs H2. apply Forall_forall. intros x Hx.
  rewrite Forall_forall in H2. eauto using elem_of_sublist.
Qed.

Lemma StronglySorted_sublist {A} (R : relation A) l1 l2 :
  l1 `sublist_of` l2 -> StronglySorted R l2 -> StronglySorted R l1.
Proof.
  induction 1 as [|x l1 l2 Hs IH|x l1 l2 Hs IH]; intros H2; [done| |].
  - apply StronglySorted_cons in H2 as [Hf H2]. apply StronglySorted_cons. split; [|by apply IH].
    eapply Forall_sublist'; eauto.
  - apply IH. by apply StronglySorted_cons in H2 as [_ ?].
Qed.

Lemma bucket_ok_sublist N l1 l2 :
  l1 `sublist_of` l2 -> l1 <> [] -> bucket_ok N l2 -> bucket_ok N l1.
Proof.
  intros Hs Hne (_ & Hlen & Hv & Hsort). split_and!; [done| |eapply Forall_sublist'; eauto|].
  - apply sublist_length in Hs. lia.
  - by eapply StronglySorted_sublist.
Qed.

(** The last bid of a sorted bucket is above all the others. *)
Lemma sorted_last_max l x y :
  StronglySorted bid_lt l -> last l = Some y -> x ∈ l -> x = y \/ bid_lt x y.
Proof.
  induction 1 as [|z l Hs IH Hf]; [by rewrite elem_of_nil|].
  intros Hlast Hx. apply elem_of_cons in Hx as [->|Hx].
  - destruct l as [|w l]; simpl in Hlast; [by left; simplify_eq|].
    right. rewrite Forall_forall in Hf. apply Hf. apply last_Some_elem_of. by rewrite <- Hlast.
  - destruct l as [|w l]; [by apply elem_of_nil in Hx|]. by apply IH.
Qed.

(** A bucket passing [check_higher] at value [a] is below a bid of value [a]. *)
Lemma check_higher_below a l nb :
  StronglySorted bid_lt l -> Forall (fun b => is_ok (bid_value b) = true) l ->
  check_higher a l = Ok tt -> bid_value nb = Ok a -> Forall (fun x => bid_lt x nb) l.
Proof.
  intros Hs Hv Hc Hnb. unfold check_higher in Hc.
  destruct (last l) as [y|] eqn:Hlast; [|by apply last_None in Hlast as ->].
  apply rbind_ok in Hc as (cur & Hcur & Hreq). apply require_ok, bool_decide_eq_true in Hreq.
  assert (Hy : bid_lt y nb) by (unfold bid_lt, bid_ltb; rewrite Hcur, Hnb; apply bool_decide_eq_true; lia).
  apply Forall_forall. intros x Hx. destruct (sorted_last_max l x y Hs Hlast Hx) as [->|Hxy]; [done|].
  by eapply bid_lt_trans.
Qed.

Lemma calculate_origins_empty : calculate_origins ∅ = Ok 0.
Proof. unfold calculate_origins, origin_values. by rewrite map_to_list_empty. Qed.

Lemma bid_value_new buyer amount start e origins w :
  total_of origins = Ok w ->
  bid_value (Bid.mk buyer amount start e (default ∅ origins)) =
  calculate_actual_amount amount w.
Proof.
  unfold bid_value. destruct origins; simpl; intros Hw.
  - by rewrite Hw.
  - rewrite calculate_origins_empty. by injection Hw as <-.
Qed.

Lemma evict_oldest_spec ft N bs m r :
  evict_oldest ft N bs m = Ok r ->
  if bool_decide (N < Z.of_nat (length bs))
  then r = (drop 1 bs, Market.set_promises (Market.promises m ++ refunds_of ft (take 1 bs)) m)
  else r = (bs, m).
Proof.
  unfold evict_oldest. case_bool_decide; intros Hr; [|by st_inv].
  destruct bs as [|early rest]; st_inv. rewrite refund_bid_run in *. by st_inv.
Qed.

Lemma add_bid_inv key amount ft buyer sale start e origins m r :
  add_bid key amount ft buyer sale start e origins m = Ok r ->
  exists w a kept m1,
    ft ∈ Market.ft_token_ids m /\ total_of origins = Ok w /\ w < MAX_ORIGINS /\
    calculate_actual_amount amount w = Ok a /\
    check_higher a (bucket ft sale) = Ok tt /\
    evict_oldest ft (Market.bid_history_length m)
      (bucket ft sale ++ [Bid.mk buyer amount start e (default ∅ origins)]) m = Ok (kept, m1) /\
    r = (tt, Market.set_sales (<[key := Sale.set_bids (<[ft := kept]> (Sale.bids sale)) sale]>
                                 (Market.sales m1)) m1).
Proof.
  unfold add_bid. intros H. st_inv. eexists _, _, _, _. split_and!; eauto.
Qed.

Lemma set_sales_promises x m : Market.promises (Market.set_sales x m) = Market.promises m.
Proof. by destruct m. Qed.
Lemma set_promises_sales x m : Market.sales (Market.set_promises x m) = Market.sales m.
Proof. by destruct m. Qed.
Lemma set_sales_sales x m : Market.sales (Market.set_sales x m) = x.
Proof. by destruct m. Qed.
Lemma set_sales_history x m :
  Market.bid_history_length (Market.set_sales x m) = Market.bid_history_length m.
Proof. by destruct m. Qed.
Lemma set_promises_history x m :
  Market.bid_history_length (Market.set_promises x m) = Market.bid_history_length m.
Proof. by destruct m. Qed.
Lemma set_bids_bids bs s : Sale.bids (Sale.set_bids bs s) = bs.
Proof. by destruct s. Qed.

#[export] Hint Rewrite set_sales_promises set_promises_sales set_sales_sales set_sales_history
  set_promises_history set_bids_bids : market_rw.

(** The bucket after pushing a bid that passed [check_higher]. *)
Lemma push_sorted N l nb a :
  (l = [] \/ bucket_ok N l) -> check_higher a l = Ok tt -> bid_value nb = Ok a ->
  StronglySorted bid_lt (l ++ [nb]) /\ Forall (fun b => is_ok (bid_value b) = true) (l ++ [nb]).
Proof.
  intros Hl Hc Hnb.
  assert (Hok : StronglySorted bid_lt l /\ Forall (fun b => is_ok (bid_value b) = true) l).
  { destruct Hl as [->|(_ & _ & ? & ?)]; [split; constructor | done]. }
  destruct Hok as [Hs Hv]. split.
  - apply StronglySorted_app_2; [|done|repeat constructor].
    intros x1 x2 Hx1 ->%list_elem_of_singleton.
    pose proof (check_higher_below a l nb Hs Hv Hc Hnb) as Hb. rewrite Forall_forall in Hb. eauto.
  - apply Forall_app. split; [done|]. repeat constructor. by rewrite Hnb.
Qed.

(** Eviction keeps a bucket of at most [N] bids whose last bid is the new one. *)
Lemma evicted_bucket_ok N l nb :
  1 <= N -> Z.of_nat (length l) <= N ->
  StronglySorted bid_lt (l ++ [nb]) -> Forall (fun b => is_ok (bid_value b) = true) (l ++ [nb]) ->
  let pushed := l ++ [nb] in
  let kept := if bool_decide (N < Z.of_nat (length pushed)) then drop 1 pushed else pushed in
  bucket_ok N kept /\ last kept = Some nb.
Proof.
  intros HN Hlen Hs Hv pushed kept. subst pushed kept. unfold bucket_ok. rewrite length_app. simpl.
  case_bool_decide as Hfull.
  - destruct l as [|b0 l]; simpl in *; [lia|]. rewrite drop_0.
    split; [split_and! | by rewrite last_snoc].
    + by destruct l.
    + rewrite length_app. simpl. lia.
    + by apply Forall_cons in Hv as [_ ?].
    + by apply StronglySorted_cons in Hs as [_ ?].
  - split; [split_and!; try done | by rewrite last_snoc].
    + by destruct l.
    + rewrite length_app. simpl. lia.
Qed.

(** C4: [add_bid] stores exactly the old bucket with the new bid appended,
    minus its oldest entry when that exceeds [bid_history_length], and the
    only promise it creates is the refund of that evicted bid, for its full
    stored price. *)
Theorem add_bid_effect key amount ft buyer sale start e origins m m' :
  add_bid key amount ft buyer sale start e origins m = Ok (tt, m') ->
  let pushed := bucket ft sale ++ [Bid.mk buyer amount start e (default ∅ origins)] in
  let full := bool_decide (Market.bid_history_length m < Z.of_nat (length pushed)) in
  Market.sales m' !! key =
    Some (Sale.set_bids (<[ft := if full then drop 1 pushed else pushed]> (Sale.bids sale)) sale) /\
  Market.promises m' = Market.promises m ++ (if full then refunds_of ft (take 1 pushed) else []).
Proof.
  intros H. cbv zeta. apply add_bid_inv in H as (w & a & kept & m1 & _ & _ & _ & _ & _ & Hev & Hr).
  injection Hr as ->. apply evict_oldest_spec in Hev.
  destruct (bool_decide _); injection Hev as -> ->; autorewrite with market_rw;
    rewrite lookup_insert_eq; by rewrite ?app_nil_r.
Qed.

(** What [add_bid] does to the market: it replaces the sale by one that
    again satisfies the ledger invariant, with the new bid last of its
    bucket, and changes nothing but [sales] and [promises]. *)
Lemma add_bid_stores key amount ft buyer sale start e origins m m' :
  1 <= Market.bid_history_length m ->
  sale_bids_ok (Market.bid_history_length m) sale ->
  add_bid key amount ft buyer sale start e origins m = Ok (tt, m') ->
  exists sale', Market.sales m' = <[key := sale']> (Market.sales m) /\
    sale_bids_ok (Market.bid_history_length m) sale' /\
    last (bucket ft sale') = Some (Bid.mk buyer amount start e (default ∅ origins)) /\
    only_sales_promises m m'.
Proof.
  intros HN Hok H.
  apply add_bid_inv in H as (w & a & kept & m1 & _ & Hw & _ & Ha & Hc & Hev & Hr).
  injection Hr as ->. apply evict_oldest_spec in Hev.
  assert (Hl : bucket ft sale = [] \/ bucket_ok (Market.bid_history_length m) (bucket ft sale)).
  { unfold bucket. destruct (Sale.bids sale !! ft) eqn:E; [right; by eapply Hok | by left]. }
  assert (Hlen : Z.of_nat (length (bucket ft sale)) <= Market.bid_history_length m).
  { destruct Hl as [->|(_ & ? & _)]; simpl; lia. }
  rewrite <- (bid_value_new buyer amount start e origins w Hw) in Ha.
  destruct (push_sorted _ _ _ _ Hl Hc Ha) as [Hsort Hval].
  destruct (evicted_bucket_ok _ _ _ HN Hlen Hsort Hval) as [Hk Hlast]. cbv zeta in Hk, Hlast.
  assert (Hh : Market.bid_history_length m1 = Market.bid_history_length m /\
               kept = if bool_decide (Market.bid_history_length m <
                                      Z.of_nat (length (bucket ft sale ++ [Bid.mk buyer amount start e (default ∅ origins)])))
                      then drop 1 (bucket ft sale ++ [Bid.mk buyer amount start e (default ∅ origins)])
                      else bucket ft sale ++ [Bid.mk buyer amount start e (default ∅ origins)]).
  { revert Hev. case_bool_decide; intros [= -> ->]; by autorewrite with market_rw. }
  assert (Hm1 : only_sales_promises m m1 /\ Market.sales m1 = Market.sales m).
  { revert Hev. case_bool_decide; intros [= _ ->]; split; try frame_solve; by autorewrite with market_rw. }
  destruct Hh as [Hh ->]. destruct Hm1 as [Hm1 Hs1].
  eexists. autorewrite with market_rw. rewrite Hs1. split; [done|]. split_and!; cycle 2.
  { rewrite Hm1. frame_solve. }
  - unfold sale_bids_ok. rewrite set_bids_bids. by apply map_Forall_insert_2.
  - unfold bucket. by rewrite set_bids_bids, lookup_insert_eq.
Qed.

(** C3: The ledger invariant is preserved by [add_bid]: when the bid history
    length is at least one and every bucket of the sale is non-empty,
    strictly increasing in fee-exclusive value and within the history
    length, the stored sale again satisfies this, and the new bid is the
    last of its bucket. *)
Theorem add_bid_preserves_ledger key amount ft buyer sale start e origins m m' :
  1 <= Market.bid_history_length m ->
  sale_bids_ok (Market.bid_history_length m) sale ->
  add_bid key amount ft buyer sale start e origins m = Ok (tt, m') ->
  exists sale', Market.sales m' !! key = Some sale' /\
    sale_bids_ok (Market.bid_history_length m') sale' /\
    last (bucket ft sale') = Some (Bid.mk buyer amount start e (default ∅ origins)).
Proof.
  intros HN Hok H.
  destruct (add_bid_stores _ _ _ _ _ _ _ _ _ _ HN Hok H) as (sale' & Hs & Hok' & Hlast & Hfr).
  exists sale'. rewrite Hs, lookup_insert_eq. split_and!; [done| |done].
  rewrite Hfr. by autorewrite with market_rw.
Qed.

(** C5: A bid whose fee-exclusive value does not exceed that of the last bid
    of its currency is rejected ([add_bid] fails; nothing is stored). *)
Theorem add_bid_rejects_not_higher key amount ft buyer sale start e origins m cur a_cur w a :
  last (bucket ft sale) = Some cur -> bid_value cur = Ok a_cur ->
  total_of origins = Ok w -> calculate_actual_amount amount w = Ok a -> a <= a_cur ->
  is_ok (add_bid key amount ft buyer sale start e origins m) = false.
Proof.
  intros Hlast Hcur Hw Ha Hle. destruct (add_bid _ _ _ _ _ _ _ _ m) as [[[] m']|] eqn:H; [|done].
  apply add_bid_inv in H as (w' & a' & _ & _ & _ & Hw' & _ & Ha' & Hc & _).
  rewrite Hw in Hw'. injection Hw' as <-. rewrite Ha in Ha'. injection Ha' as <-.
  unfold check_higher in Hc. rewrite Hlast in Hc. st_inv. rewrite Hcur in H. injection H as ->. lia.
Qed.

(** C6: [remove_bid] refunds the caller whatever [price] they name: on a sale
    with bids in [ft], if none of them is the caller's at that price,
    [internal_remove_bid] returns [None], which is ignored, nothing is
    removed, and a transfer of [price] to the caller is still created. *)
Theorem remove_bid_refunds_unmatched env nft tok ft price m sale bs :
  attached_deposit env = 1 ->
  Market.sales m !! contract_and_token_id nft tok = Some sale ->
  Sale.bids sale !! ft = Some bs ->
  Forall (fun b => ~ (Bid.owner_id b = predecessor_account_id env /\ Bid.price b = price)) bs ->
  remove_bid env nft tok ft price m =
    Ok (tt, Market.set_promises
              (Market.promises m ++ refunds_of ft [Bid.mk (predecessor_account_id env) price 0 None ∅]) m).
Proof.
  intros H1 Hsale Hbs Hnone. unfold remove_bid, internal_remove_bid, assert_one_yocto, st_bind, st_get, st_lift.
  rewrite bool_decide_eq_true_2 by done. simpl. rewrite Hsale. simpl. rewrite Hbs. simpl.
  rewrite (proj2 (list_find_None _ bs) Hnone). simpl. by rewrite refund_bid_run.
Qed.

Lemma retain_step_run ft now b m :
  (match Bid.end_ b with
   | Some e => if bool_decide (now >= e)
               then do! refund_bid ft (Bid.owner_id b) (Bid.price b) ;; st_ret false
               else st_ret true
   | None => st_ret true
   end) m =
  Ok (negb (expired now b),
      if expired now b then Market.set_promises (Market.promises m ++ refunds_of ft [b]) m else m).
Proof.
  unfold expired. destruct (Bid.end_ b); [case_bool_decide|]; try done.
  unfold st_bind. rewrite refund_bid_run. unfold refunds_of. simpl. by case_bool_decide.
Qed.

Lemma retain_unexpired_run ft now bs m :
  retain_unexpired ft now bs m =
    Ok (filter (fun b => expired now b = false) bs,
        Market.set_promises (Market.promises m ++ refunds_of ft (filter (fun b => expired now b = true) bs)) m).
Proof.
  revert m. induction bs as [|b bs IH]; intros m; cbn [retain_unexpired].
  - simpl. by rewrite app_nil_r, set_promises_id.
  - unfold st_bind at 1. rewrite retain_step_run. rewrite !filter_cons.
    destruct (expired now b); unfold st_bind; simpl; rewrite IH; unfold st_ret.
    + by rewrite set_promises_set_promises, set_promises_promises, <- app_assoc.
    + done.
Qed.

(** C7: [cancel_expired_bids] keeps exactly the bids of the bucket that have
    not expired (in their order), drops the bucket when none is left, and
    refunds every expired bid, in order, for its stored price. *)
Theorem cancel_expired_bids_effect env nft tok ft m sale bs :
  Market.sales m !! contract_and_token_id nft tok = Some sale -> Sale.bids sale !! ft = Some bs ->
  let now := block_timestamp env in
  let kept := filter (fun b => expired now b = false) bs in
  cancel_expired_bids env nft tok ft m =
    Ok (tt, Market.set_sales
              (<[contract_and_token_id nft tok :=
                   Sale.set_bids (match kept with
                                  | [] => delete ft (Sale.bids sale)
                                  | _ => <[ft := kept]> (Sale.bids sale)
                                  end) sale]> (Market.sales m))
              (Market.set_promises
                 (Market.promises m ++ refunds_of ft (filter (fun b => expired now b = true) bs)) m)).
Proof.
  intros Hs Hb. unfold cancel_expired_bids, st_bind, st_get, st_lift. simpl.
  rewrite Hs. simpl. rewrite Hb. simpl. rewrite retain_unexpired_run. unfold st_modify.
  by rewrite set_promises_sales.
Qed.

Lemma filter_sublist' {A} (P : A -> Prop) `{!forall x, Decision (P x)} l : filter P l `sublist_of` l.
Proof. apply sublist_filter. Qed.

(** [cancel_expired_bids] preserves the ledger invariant. *)
Lemma cancel_expired_bids_preserves env nft tok ft m m' sale :
  Market.sales m !! contract_and_token_id nft tok = Some sale ->
  sale_bids_ok (Market.bid_history_length m) sale ->
  cancel_expired_bids env nft tok ft m = Ok (tt, m') ->
  exists sale', Market.sales m' = <[contract_and_token_id nft tok := sale']> (Market.sales m) /\
    sale_bids_ok (Market.bid_history_length m) sale' /\ only_sales_promises m m'.
Proof.
  intros Hs Hok H. destruct (Sale.bids sale !! ft) as [bs|] eqn:Hb.
  2: { unfold cancel_expired_bids, st_bind, st_get, st_lift in H. simpl in H.
       rewrite Hs in H. simpl in H. by rewrite Hb in H. }
  unfold cancel_expired_bids, st_bind, st_get, st_lift in H. simpl in H.
  rewrite Hs in H. simpl in H. rewrite Hb in H. simpl in H. rewrite retain_unexpired_run in H.
  unfold st_modify in H. injection H as <-.
  eexists. autorewrite with market_rw. split_and!; [done| |frame_solve].
  unfold sale_bids_ok. rewrite set_bids_bids.
  destruct (filter _ bs) as [|b l] eqn:Hf.
  - by apply map_Forall_delete.
  - apply map_Forall_insert_2; [|done]. rewrite <- Hf.
    apply bucket_ok_sublist with bs; [apply sublist_filter | by rewrite Hf | by eapply Hok].
Qed.

(** [internal_remove_bid] preserves the ledger invariant. *)
Lemma internal_remove_bid_preserves nft ft tok owner price m r m' sale :
  Market.sales m !! contract_and_token_id nft tok = Some sale ->
  sale_bids_ok (Market.bid_history_length m) sale ->
  internal_remove_bid nft ft tok owner price m = Ok (r, m') ->
  exists sale', Market.sales m' = <[contract_and_token_id nft tok := sale']> (Market.sales m) /\
    sale_bids_ok (Market.bid_history_length m) sale' /\ only_sales_promises m m'.
Proof.
  intros Hs Hok H. unfold internal_remove_bid in H.
  apply st_bind_ok in H as (m0 & ? & [= <- <-] & H).
  apply st_bind_ok in H as (sale0 & ? & Hs0 & H). apply st_lift_ok in Hs0 as (? & Hs0 & [= <- <-]).
  rewrite Hs in Hs0. injection Hs0 as <-.
  apply st_bind_ok in H as (bv & ? & Hb & H). apply st_lift_ok in Hb as (? & Hb & [= <- <-]).
  destruct (Sale.bids sale !! ft) as [bs|] eqn:Hbs; [injection Hb as <-|done].
  destruct (list_find _ _) as [[i b]|] eqn:Hf; st_inv.
  2: { exists sale. rewrite insert_id by done. split_and!; [done|done|frame_solve]. }
  eexists. autorewrite with market_rw. split_and!; [done| |frame_solve].

  unfold sale_bids_ok, bids_without. rewrite set_bids_bids. case_bool_decide.
  - by apply map_Forall_delete.
  - apply map_Forall_insert_2; [|done].
    apply list_find_Some in Hf as (Hi & _ & _).
    apply bucket_ok_sublist with bs; [apply sublist_delete| |by eapply Hok].
    intros Hd. apply (f_equal length) in Hd. rewrite length_delete in Hd by eauto.
    destruct bs as [|? [|]]; simpl in *; try lia. by rewrite lookup_nil in Hi.
Qed.

(** ** Witnesses *)

(** Bob outbids alice's 10_300 with 20_600, no origins. *)
Definition demo_after_bob : Market.t :=
  match add_bid Demo.key 20600 NEAR "bob.near" Demo.sale 10 None None Demo.market with
  | Ok (_, m) => m
  | Err _ => Demo.market
  end.

Lemma add_bid_preserves_ledger_witness :
  exists sale', Market.sales demo_after_bob !! Demo.key = Some sale' /\
    sale_bids_ok (Market.bid_history_length demo_after_bob) sale' /\
    last (bucket NEAR sale') = Some (Bid.mk "bob.near" 20600 10 None (default ∅ None)).
Proof.
  apply (add_bid_preserves_ledger Demo.key 20600 NEAR "bob.near" Demo.sale 10 None None
           Demo.market demo_after_bob).
  - vm_compute. discriminate.
  - refine (bool_decide_unpack _ _). vm_compute. reflexivity.
  - vm_compute. reflexivity.
Defined.

Lemma add_bid_effect_witness :
  Market.promises demo_after_bob = [].
Proof.
  refine (eq_trans (proj2 (add_bid_effect Demo.key 20600 NEAR "bob.near" Demo.sale 10 None None
                             Demo.market demo_after_bob _)) _).
  - vm_compute. reflexivity.
  - vm_compute. reflexivity.
Defined.

Lemma add_bid_rejects_not_higher_witness :
  is_ok (add_bid Demo.key 10300 NEAR "bob.near" Demo.sale 10 None None Demo.market) = false.
Proof.
  apply (add_bid_rejects_not_higher Demo.key 10300 NEAR "bob.near" Demo.sale 10 None None
           Demo.market Demo.alice_bid 10000 0 10000).
  - vm_compute. reflexivity.
  - vm_compute. reflexivity.
  - vm_compute. reflexivity.
  - vm_compute. reflexivity.
  - lia.
Defined.

Lemma remove_bid_refunds_unmatched_witness :
  remove_bid (Demo.env "mallory.near" 10 1) "nft.near" "1:1" NEAR (10 ^ 24) Demo.market =
    Ok (tt, Market.set_promises [Transfer "mallory.near" (10 ^ 24)] Demo.market).
Proof.
  refine (eq_trans (remove_bid_refunds_unmatched (Demo.env "mallory.near" 10 1) "nft.near" "1:1" NEAR
                      (10 ^ 24) Demo.market Demo.sale [Demo.alice_bid] _ _ _ _) _).
  - reflexivity.
  - vm_compute. reflexivity.
  - vm_compute. reflexivity.
  - refine (bool_decide_unpack _ _). vm_compute. reflexivity.
  - vm_compute. reflexivity.
Defined.

Lemma cancel_expired_bids_effect_witness :
  cancel_expired_bids (Demo.env "anyone.near" 60 0) "nft.near" "1:1" NEAR Demo.market =
    Ok (tt, Market.set_sales (<[Demo.key := Sale.set_bids ∅ Demo.sale]> {[ Demo.key := Demo.sale ]})
              (Market.set_promises [Transfer "alice.near" 10300] Demo.market)).
Proof.
  refine (eq_trans (cancel_expired_bids_effect (Demo.env "anyone.near" 60 0) "nft.near" "1:1" NEAR
                      Demo.market Demo.sale [Demo.alice_bid] _ _) _).
  - vm_compute. reflexivity.
  - vm_compute. reflexivity.
  - vm_compute. reflexivity.
Defined.

End BidLedger.
