(* ===== verification/Sales.v ===== *)
(** * Sale entity and directory ([src/market/src/sale.rs], [internal_remove_sale] of [inner.rs])

    A [Sale] is created by [start_sale] (called from [nft_on_approve]),
    registered under its key [contract||token] in [sales] and in the three
    secondary indices [by_owner_id], [by_nft_contract_id] (which holds the
    bare token id) and [by_nft_token_type].  The owner changes prices with
    [update_price]; buyers call [offer], which buys at once when the
    deposit equals the price with fees and otherwise records a bid through
    [add_bid]; the latest bid is taken by [accept_offer]; [remove_sale]
    withdraws the sale and refunds every bid.  Buying goes through
    [process_purchase], the first phase of a settlement: the sale leaves
    storage and every index, then [nft_transfer_payout] is called with
    [resolve_purchase] chained to it (see [Settlement.v]).

    The theorems: the exact effect of an instant purchase, the removal of
    a sale from every index, [remove_sale]'s refunds and its owner check,
    and that [accept_offer] does not depend on who calls it. *)

From S2P Require Import Prelude Fee State Bids.
Import Fee BidLedger.

Module Sales.

(** [const STORAGE_PER_SALE: u128 = 1000 * STORAGE_PRICE_PER_BYTE;] with
    near-sdk's [STORAGE_PRICE_PER_BYTE = 10^19] yoctoNEAR. *)
Definition STORAGE_PER_SALE : Z := 1000 * 10 ^ 19.

(** [pub struct SaleArgs] *)
Record SaleArgs := mkSaleArgs {
  sale_conditions : gmap string Z;
  token_type : option string;
  start : option Z;
  end_ : option Z;
  origins : option Origins;
}.

(** [token_id.contains(token_type.as_str())] *)
Definition contains (haystack needle : string) : bool :=
  match String.index 0 needle haystack with Some _ => true | None => false end.

(** One index update of [start_sale]: [set.insert(elem)] into the set
    stored under [key], created empty when absent. *)
Definition index_insert (key elem : string) (idx : gmap string (gset string)) : gmap string (gset string) :=
  <[key := {[ elem ]} ∪ default ∅ (idx !! key)]> idx.

(** One index update of [internal_remove_sale]: [get(key).expect(msg)],
    remove [elem], drop the set when it becomes empty. *)
Definition index_remove (key elem msg : string) (idx : gmap string (gset string))
    : result (gmap string (gset string)) :=
  let* s := expect (idx !! key) msg in
  let s' := s ∖ {[ elem ]} in
  Ok (if bool_decide (s' = ∅) then delete key idx else <[key := s']> idx).

(** The loop over [sale_conditions.keys()] of [start_sale]: the first
    currency the market does not support, in the map's iteration order,
    is named in the panic. *)
Definition check_sale_conditions (ft_token_ids : gset string) (sale_conditions : gmap string Z)
    : result unit :=
  match filter (fun ft => ft ∉ ft_token_ids) (map_to_list sale_conditions).*1 with
  | [] => Ok tt
  | ft :: _ => Err ("Token " +:+ ft +:+ " not supported by this market")
  end.

(** [Market::start_sale] *)
Definition start_sale (env : Env) (args : SaleArgs) (token_id owner_id : string) (approval_id : Z)
    (nft_contract_id : string) : M SaleJson.t :=
  let! m := st_get in
  do! st_lift (check_sale_conditions (Market.ft_token_ids m) (sale_conditions args)) ;;
  let key := contract_and_token_id nft_contract_id token_id in
  let start := default (block_timestamp env) (start args) in
  let sale := Sale.mk owner_id approval_id nft_contract_id token_id (sale_conditions args) ∅
                (block_timestamp env) (token_type args) (Some start) (end_ args)
                (default ∅ (origins args)) in
  let by_owner_id := default ∅ (Market.by_owner_id m !! owner_id) in
  let owner_paid_storage := default 0 (Market.storage_deposits m !! signer_account_id env) in
  let! owner_occupied_storage :=
    st_lift (checked_mul u128_max (Z.of_nat (size by_owner_id)) STORAGE_PER_SALE) in
  do! st_lift (require (bool_decide (owner_paid_storage > owner_occupied_storage))
                 "User has more sales than storage paid") ;;
  let! by_type :=
    match token_type args with
    | Some ty =>
        do! st_lift (require (contains token_id ty) "TokenType should be substr of TokenId") ;;
        st_ret (index_insert ty key (Market.by_nft_token_type m))
    | None => st_ret (Market.by_nft_token_type m)
    end in
  do! st_put (Market.set_by_nft_token_type by_type
               (Market.set_by_nft_contract_id (index_insert nft_contract_id token_id (Market.by_nft_contract_id m))
                 (Market.set_by_owner_id (index_insert owner_id key (Market.by_owner_id m))
                   (Market.set_sales (<[key := sale]> (Market.sales m)) m)))) ;;
  st_ret (json_from_sale sale).

(** [Market::internal_remove_sale]: out of [sales] and of the three indices. *)
Definition internal_remove_sale (nft_contract_id token_id : string) : M Sale.t :=
  let key := contract_and_token_id nft_contract_id token_id in
  let! m := st_get in
  let! sale := st_lift (expect (Market.sales m !! key) "No sale") in
  let! by_owner := st_lift (index_remove (Sale.owner_id sale) key "No sale by_owner_id"
                              (Market.by_owner_id m)) in
  let! by_contract := st_lift (index_remove nft_contract_id token_id "No sale by nft_contract_id"
                                 (Market.by_nft_contract_id m)) in
  let! by_type := st_lift (match Sale.token_type sale with
                           | Some ty => index_remove ty key "No sale by nft_token_type"
                                          (Market.by_nft_token_type m)
                           | None => Ok (Market.by_nft_token_type m)
                           end) in
  do! st_put (Market.set_by_nft_token_type by_type
               (Market.set_by_nft_contract_id by_contract
                 (Market.set_by_owner_id by_owner
                   (Market.set_sales (delete key (Market.sales m)) m)))) ;;
  st_ret sale.

(** [Market::remove_sale] *)
Definition remove_sale (env : Env) (nft_contract_id token_id : string) : M unit :=
  do! st_lift (assert_one_yocto env) ;;
  let! sale := internal_remove_sale nft_contract_id token_id in
  let owner_id := predecessor_account_id env in
  do! st_lift (if Sale.in_limits (block_timestamp env) sale
               then require (bool_decide (owner_id = Sale.owner_id sale))
                      "Until the sale is finished, it can only be removed by the sale owner"
               else Ok tt) ;;
  refund_all_bids (Sale.bids sale).

(** [Market::update_price] *)
Definition update_price (env : Env) (nft_contract_id token_id ft_token_id : string) (price : Z) : M unit :=
  do! st_lift (assert_one_yocto env) ;;
  let key := contract_and_token_id nft_contract_id token_id in
  let! m := st_get in
  let! sale := st_lift (expect (Market.sales m !! key) "No sale") in
  do! st_lift (require (bool_decide (predecessor_account_id env = Sale.owner_id sale)) "Must be sale owner") ;;
  do! st_lift (require (bool_decide (ft_token_id ∈ Market.ft_token_ids m))
                 ("Token '" +:+ ft_token_id +:+ "' is not supported by this market")) ;;
  st_modify (fun m => Market.set_sales
    (<[key := Sale.set_sale_conditions (<[ft_token_id := price]> (Sale.sale_conditions sale)) sale]>
       (Market.sales m)) m).

(** [Market::process_purchase]: phase 1 of a settlement. *)
Definition process_purchase (env : Env) (nft_contract_id token_id ft_token_id : string) (price : Z)
    (buyer_id : string) (origins : Origins) : M unit :=
  let! sale := internal_remove_sale nft_contract_id token_id in
  let buyer := <[current_account_id env := PROTOCOL_FEE]> origins in
  let seller_fee := <[current_account_id env := PROTOCOL_FEE]> (Sale.origins sale) in
  emit (NftTransferPayout nft_contract_id buyer_id token_id (Sale.approval_id sale)
          (mkFees buyer seller_fee) price 10 (ResolvePurchase ft_token_id buyer_id sale price)).

(** [Market::offer] *)
Definition offer (env : Env) (nft_contract_id token_id ft_token_id : string)
    (start duration : option Z) (origins : option Origins) : M unit :=
  let key := contract_and_token_id nft_contract_id token_id in
  let! m := st_get in
  let! sale := st_lift (expect (Market.sales m !! key) "No sale") in
  do! st_lift (require (Sale.in_limits (block_timestamp env) sale)
                 "Either the sale is finished or it hasn't started yet") ;;
  let buyer_id := predecessor_account_id env in
  do! st_lift (require (bool_decide (Sale.owner_id sale <> buyer_id)) "Cannot bid on your own sale.") ;;
  let! price := st_lift (expect (Sale.sale_conditions sale !! ft_token_id) "Not supported ft") in
  let deposit := attached_deposit env in
  do! st_lift (require (bool_decide (deposit > 0)) "Attached deposit must be greater than 0") ;;
  let! with_fees := st_lift (calculate_price_with_fees price origins) in
  if bool_decide (deposit = with_fees) then
    process_purchase env nft_contract_id token_id ft_token_id deposit buyer_id (default ∅ origins)
  else
    let start := default (block_timestamp env) start in
    let! end_ := match duration with
                 | Some d => let! e := st_lift (checked_add u64_max d start) in st_ret (Some e)
                 | None => st_ret None
                 end in
    add_bid key deposit ft_token_id buyer_id sale start end_ origins.

(** [Market::accept_offer]: the last bid of [ft_token_id] buys the token. *)
Definition accept_offer (env : Env) (nft_contract_id token_id ft_token_id : string) : M unit :=
  let key := contract_and_token_id nft_contract_id token_id in
  let! m := st_get in
  let! sale := st_lift (expect (Market.sales m !! key) "No sale") in
  do! st_lift (require (Sale.in_limits (block_timestamp env) sale)
                 "Either the sale is finished or it hasn't started yet") ;;
  let! bids_for_token_id := st_lift (expect (Sale.bids sale !! ft_token_id) "No bids") in
  let sale' := Sale.set_bids (delete ft_token_id (Sale.bids sale)) sale in
  let! bid := st_lift (expect (last bids_for_token_id) "attempt to subtract with overflow") in
  do! st_lift (require (Bid.in_limits (block_timestamp env) bid) "Out of time limit of the bid") ;;
  do! st_modify (fun m => Market.set_sales (<[key := sale']> (Market.sales m)) m) ;;
  process_purchase env nft_contract_id token_id ft_token_id (Bid.price bid) (Bid.owner_id bid)
    (Bid.origins bid).

(** ** Lemmas *)

(** What removing [elem] from the set of [key] means for an index: the
    set was there, what is left of it under [key] is the set without
    [elem] (an empty set is not kept), and every other key keeps its
    set. *)
Definition index_removed (key elem : string) (idx idx' : gmap string (gset string)) : Prop :=
  exists s, idx !! key = Some s /\ default ∅ (idx' !! key) = s ∖ {[ elem ]} /\ idx' !! key <> Some ∅ /\
    forall k, k <> key -> idx' !! k = idx !! k.

Lemma index_remove_removed key elem msg idx idx' :
  index_remove key elem msg idx = Ok idx' -> index_removed key elem idx idx'.
Proof.
  unfold index_remove. intros H. st_inv. eexists. split; [done|].
  case_bool_decide as Hemp.
  - rewrite lookup_delete_eq. split_and!; [done|done|]. intros k Hk. by rewrite lookup_delete_ne.
  - rewrite lookup_insert_eq. split_and!; [done|congruence|]. intros k Hk. by rewrite lookup_insert_ne.
Qed.

Lemma internal_remove_sale_inv nft tok m sale m' :
  internal_remove_sale nft tok m = Ok (sale, m') ->
  exists by_owner by_contract by_type,
    Market.sales m !! contract_and_token_id nft tok = Some sale /\
    index_remove (Sale.owner_id sale) (contract_and_token_id nft tok) "No sale by_owner_id"
      (Market.by_owner_id m) = Ok by_owner /\
    index_remove nft tok "No sale by nft_contract_id" (Market.by_nft_contract_id m) = Ok by_contract /\
    match Sale.token_type sale with
    | Some ty => index_remove ty (contract_and_token_id nft tok) "No sale by nft_token_type"
                   (Market.by_nft_token_type m) = Ok by_type
    | None => by_type = Market.by_nft_token_type m
    end /\
    m' = Market.set_by_nft_token_type by_type (Market.set_by_nft_contract_id by_contract
           (Market.set_by_owner_id by_owner
             (Market.set_sales (delete (contract_and_token_id nft tok) (Market.sales m)) m))).
Proof.
  unfold internal_remove_sale. intros H. st_inv. unfold st_put in *. st_inv.
  do 3 eexists. split_and!; [eassumption | eassumption | eassumption | | reflexivity].
  destruct (Sale.token_type sale); [eassumption|].
  match goal with H : Ok _ = Ok _ |- _ => by injection H end.
Qed.

(** What the settlement relies on: the sale was stored, it is deleted, and
    no promise is created. *)
Lemma internal_remove_sale_deletes nft tok m sale m' :
  internal_remove_sale nft tok m = Ok (sale, m') ->
  Market.sales m !! contract_and_token_id nft tok = Some sale /\
  Market.sales m' = delete (contract_and_token_id nft tok) (Market.sales m) /\
  Market.promises m' = Market.promises m.
Proof.
  intros H. apply internal_remove_sale_inv in H as (bo & bc & bt & Hs & _ & _ & _ & ->).
  by market_simpl.
Qed.

(** C8: Phase 1 of a settlement removes the listing from storage and from
    every secondary index before anything else happens: after
    [internal_remove_sale] the sale is deleted from [sales]; in
    [by_owner_id] its owner's set loses exactly the listing's key, in
    [by_nft_contract_id] the contract's set loses exactly the token, and
    in [by_nft_token_type] the set of its token type (if it has one) loses
    exactly the key, each set being dropped once it is empty and every
    other entry of the three indices staying as it was; the deposits, the
    auctions and the promises are untouched. *)
Theorem internal_remove_sale_clears nft tok m sale m' :
  internal_remove_sale nft tok m = Ok (sale, m') ->
  let key := contract_and_token_id nft tok in
  Market.sales m !! key = Some sale /\ Market.sales m' = delete key (Market.sales m) /\
  index_removed (Sale.owner_id sale) key (Market.by_owner_id m) (Market.by_owner_id m') /\
  index_removed nft tok (Market.by_nft_contract_id m) (Market.by_nft_contract_id m') /\
  match Sale.token_type sale with
  | Some ty => index_removed ty key (Market.by_nft_token_type m) (Market.by_nft_token_type m')
  | None => Market.by_nft_token_type m' = Market.by_nft_token_type m
  end /\
  Market.storage_deposits m' = Market.storage_deposits m /\ Market.auctions m' = Market.auctions m /\
  Market.promises m' = Market.promises m.
Proof.
  intros H key. apply internal_remove_sale_inv in H as (bo & bc & bt & Hs & Ho & Hc & Ht & ->).
  apply index_remove_removed in Ho. apply index_remove_removed in Hc.
  market_simpl. split_and!; try done.
  destruct (Sale.token_type sale); [by eapply index_remove_removed | done].
Qed.

Lemma process_purchase_inv env nft tok ft price buyer origins m m' :
  process_purchase env nft tok ft price buyer origins m = Ok (tt, m') ->
  exists sale m1, internal_remove_sale nft tok m = Ok (sale, m1) /\
    m' = Market.set_promises (Market.promises m1 ++
           [NftTransferPayout nft buyer tok (Sale.approval_id sale)
              (mkFees (<[current_account_id env := PROTOCOL_FEE]> origins)
                      (<[current_account_id env := PROTOCOL_FEE]> (Sale.origins sale)))
              price 10 (ResolvePurchase ft buyer sale price)]) m1.
Proof.
  unfold process_purchase. intros H. apply st_bind_ok in H as (sale & m1 & Hr & He).
  rewrite emit_run in He. injection He as <-. eauto.
Qed.

(** C9: An offer whose deposit equals [calculate_price_with_fees] of the
    listed price in that currency buys at once: the sale is removed from
    storage, and the call creates exactly one promise, the
    [nft_transfer_payout] of the token to the buyer for the full deposit,
    with the protocol fee added to both fee maps and [resolve_purchase]
    chained to it carrying the removed sale. *)
Theorem offer_buys_at_listed_price env nft tok ft start duration origins m m' sale price :
  Market.sales m !! contract_and_token_id nft tok = Some sale ->
  Sale.sale_conditions sale !! ft = Some price ->
  calculate_price_with_fees price origins = Ok (attached_deposit env) ->
  offer env nft tok ft start duration origins m = Ok (tt, m') ->
  Market.sales m' !! contract_and_token_id nft tok = None /\
  Market.promises m' = Market.promises m ++
    [NftTransferPayout nft (predecessor_account_id env) tok (Sale.approval_id sale)
       (mkFees (<[current_account_id env := PROTOCOL_FEE]> (default ∅ origins))
               (<[current_account_id env := PROTOCOL_FEE]> (Sale.origins sale)))
       (attached_deposit env) 10
       (ResolvePurchase ft (predecessor_account_id env) sale (attached_deposit env))].
Proof.
  intros Hs Hp Hf H. unfold offer in H. st_inv.
  rewrite Hs in *; simplify_eq. try (rewrite Hp in *; simplify_eq). try (rewrite Hf in *; simplify_eq).
  match goal with
  | H : (if bool_decide _ then _ else _) _ = Ok _ |- _ =>
      rewrite bool_decide_eq_true_2 in H by done; apply process_purchase_inv in H as (sale' & m1 & Hr & ->)
  end.
  pose proof (internal_remove_sale_deletes _ _ _ _ _ Hr) as (Hs' & Hsales & Hprom).
  rewrite Hs in Hs'. injection Hs' as <-. market_simpl. rewrite Hsales, Hprom.
  split; [apply lookup_delete_eq | done].
Qed.

(** C10: [accept_offer] never looks at its caller: whoever calls it, the
    outcome is the same, so anyone, not only the sale owner, can make a
    sale accept its latest bid (the comment on [process_purchase] claims
    that [internal_remove_sale] rejects other callers; it does not). *)
Theorem accept_offer_ignores_caller env who nft tok ft m :
  accept_offer env nft tok ft m =
  accept_offer (mkEnv (block_timestamp env) who (signer_account_id env) (attached_deposit env)
                  (current_account_id env)) nft tok ft m.
Proof. reflexivity. Qed.

(** A successful [remove_sale] is [internal_remove_sale] followed by the
    refunds of the removed sale's bids. *)
Lemma remove_sale_inv env nft tok m m' :
  remove_sale env nft tok m = Ok (tt, m') ->
  exists sale m1, internal_remove_sale nft tok m = Ok (sale, m1) /\
    (Sale.in_limits (block_timestamp env) sale = true -> predecessor_account_id env = Sale.owner_id sale) /\
    m' = Market.set_promises (Market.promises m1 ++ all_refunds (Sale.bids sale)) m1.
Proof.
  unfold remove_sale. intros H. st_inv.
  match goal with Hr : refund_all_bids _ _ = Ok _ |- _ => rewrite refund_all_bids_run in Hr end.
  simplify_eq. do 2 eexists. split; [eassumption|]. split; [|done].
  intros Hl. rewrite Hl in *. cbn iota in *. st_inv. done.
Qed.

(** C22: [remove_sale] of a listed sale: while the sale is within its
    time window only its owner can remove it; a successful removal deletes
    the sale and creates exactly one refund per outstanding bid, of every
    currency, for the bid's stored price; and once the window has passed
    any account that attaches one yoctoNEAR removes it. *)
Theorem remove_sale_spec env nft tok m sale :
  Market.sales m !! contract_and_token_id nft tok = Some sale ->
  (Sale.in_limits (block_timestamp env) sale = true -> predecessor_account_id env <> Sale.owner_id sale ->
     is_ok (remove_sale env nft tok m) = false) /\
  (forall m', remove_sale env nft tok m = Ok (tt, m') ->
     Market.sales m' = delete (contract_and_token_id nft tok) (Market.sales m) /\
     Market.promises m' = Market.promises m ++ all_refunds (Sale.bids sale)) /\
  (Sale.in_limits (block_timestamp env) sale = false -> attached_deposit env = 1 ->
     is_ok (internal_remove_sale nft tok m) = true -> is_ok (remove_sale env nft tok m) = true).
Proof.
  intros Hs. split_and!.
  - intros Hl Ho. destruct (remove_sale env nft tok m) as [[[] m']|] eqn:H; [|done].
    apply remove_sale_inv in H as (sale' & m1 & Hr & Hown & _).
    apply internal_remove_sale_deletes in Hr as (Hs' & _). rewrite Hs in Hs'. simplify_eq. tauto.
  - intros m' H. apply remove_sale_inv in H as (sale' & m1 & Hr & _ & ->).
    apply internal_remove_sale_deletes in Hr as (Hs' & Hsales & Hprom).
    rewrite Hs in Hs'. simplify_eq. market_simpl. by rewrite Hsales, Hprom.
  - intros Hl Hd Hok. destruct (internal_remove_sale nft tok m) as [[sale' m1]|] eqn:Hr; [|done].
    pose proof (internal_remove_sale_deletes _ _ _ _ _ Hr) as (Hs' & _). rewrite Hs in Hs'. simplify_eq.
    unfold remove_sale, assert_one_yocto, require, st_bind, st_lift. rewrite bool_decide_eq_true_2 by done.
    simpl. rewrite Hr. simpl. rewrite Hl. simpl. by rewrite refund_all_bids_run.
Qed.

(** ** Witnesses *)

Definition after (r : result (unit * Market.t)) : Market.t :=
  match r with Ok (_, m) => m | Err _ => Demo.market end.

Definition demo_removed : Market.t :=
  match internal_remove_sale "nft.near" "1:1" Demo.market with
  | Ok (_, m) => m
  | Err _ => Demo.market
  end.

Lemma internal_remove_sale_clears_witness :
  Market.sales demo_removed = delete Demo.key (Market.sales Demo.market).
Proof.
  exact (proj1 (proj2 (internal_remove_sale_clears "nft.near" "1:1" Demo.market Demo.sale demo_removed
                         ltac:(vm_compute; reflexivity)))).
Defined.

(** Bob pays exactly the 10_300 that 10_000 NEAR costs with the 3% fee. *)
Definition demo_bob_buys : Market.t :=
  after (offer (Demo.env "bob.near" 10 10300) "nft.near" "1:1" NEAR None None None Demo.market).

Lemma offer_buys_at_listed_price_witness :
  Market.sales demo_bob_buys !! Demo.key = None.
Proof.
  exact (proj1 (offer_buys_at_listed_price (Demo.env "bob.near" 10 10300) "nft.near" "1:1" NEAR None None
                  None Demo.market demo_bob_buys Demo.sale 10000
                  ltac:(vm_compute; reflexivity) ltac:(vm_compute; reflexivity)
                  ltac:(vm_compute; reflexivity) ltac:(vm_compute; reflexivity))).
Defined.

(** Mallory cannot remove the running demo sale; once it has ended
    (its end is moved to time 5), she can, paying one yoctoNEAR. *)
Definition demo_ended : Market.t :=
  Market.set_sales (<[Demo.key := Sale.set_end (Some 5) Demo.sale]> (Market.sales Demo.market)) Demo.market.

Lemma remove_sale_spec_witness :
  is_ok (remove_sale (Demo.env "mallory.near" 10 1) "nft.near" "1:1" Demo.market) = false /\
  is_ok (remove_sale (Demo.env "mallory.near" 10 1) "nft.near" "1:1" demo_ended) = true.
Proof.
  split.
  - apply (proj1 (remove_sale_spec (Demo.env "mallory.near" 10 1) "nft.near" "1:1" Demo.market Demo.sale
                    ltac:(vm_compute; reflexivity)));
      [vm_compute; reflexivity | vm_compute; discriminate].
  - apply (proj2 (proj2 (remove_sale_spec (Demo.env "mallory.near" 10 1) "nft.near" "1:1" demo_ended
                           (Sale.set_end (Some 5) Demo.sale) ltac:(vm_compute; reflexivity))));
      vm_compute; reflexivity.
Defined.

End Sales.
