(* ===== verification/Settlement.v ===== *)
(** * Settlement, phase 2 ([resolve_purchase], [resolve_token_buy] of
    [src/market/src/sale.rs], [resolve_finish_auction] of [auction.rs])

    Phase 1 ([process_purchase], [finish_auction]) has removed the listing
    and called [nft_transfer_payout] on the token contract; the callback
    receives the promise result, here [option Payout]: [None] when the
    remote call failed or its answer does not parse as a [Payout].
    The payout is accepted when it has between 1 and 10 entries (for a
    sale, counting [sale.bids.len()] too) and its values, subtracted one by
    one from the price with [checked_sub], leave at most 1.  Accepted: the
    sale's other bids are refunded and each payee is paid.  Rejected: the
    buyer gets the price back (NEAR), or the amount is returned to the
    fungible-token contract (the return value).

    The theorems: the exact promises of each branch, conservation of the
    buyer's money (everything paid out is the price up to the 1-unit
    slack), the refund on failure, and the finding that a failed purchase
    strands the sale's other bids. *)

From S2P Require Import Prelude Fee State Bids.
Import Fee.

Module Settlement.

(** [pub struct Payout { payout: HashMap<AccountId, U128> }] *)
Abbreviation Payout := (gmap string Z).

(** The amounts in the iteration order of [payout.payout.values()]. *)
Definition payout_values (p : Payout) : list Z := (map_to_list p).*2.

(** [let mut remainder = price; for v in values { remainder = remainder.checked_sub(v)?; }
     if remainder <= 1 { Some(payout) } else { None }] *)
Definition covers_price (price : Z) (p : Payout) : option Payout :=
  match sub_all price (payout_values p) with
  | Some remainder => if bool_decide (remainder <= 1) then Some p else None
  | None => None
  end.

(** The validation closure of [resolve_purchase] ([extra = sale.bids.len()])
    and of [resolve_finish_auction] ([extra = 0]). *)
Definition validate_payout (extra : nat) (price : Z) (p : Payout) : option Payout :=
  if bool_decide (10 < size p + extra)%nat || bool_decide (size p = 0%nat) then None
  else covers_price price p.

(** Pay every payee, NEAR directly, a fungible token by [ft_transfer]. *)
Definition pay_all (ft_token_id : string) (p : Payout) : M unit :=
  st_iter (fun '(receiver_id, amount) =>
             if bool_decide (ft_token_id = NEAR) then emit (Transfer receiver_id amount)
             else emit (FtTransfer ft_token_id receiver_id amount))
          (map_to_list p).

(** [Market::resolve_purchase] *)
Definition resolve_purchase (ft_token_id buyer_id : string) (sale : Sale.t) (price : Z)
    (promise_result : option Payout) : M Z :=
  match promise_result ≫= validate_payout (size (Sale.bids sale)) price with
  | None =>
      do! (if bool_decide (ft_token_id = NEAR) then emit (Transfer buyer_id price) else st_ret tt) ;;
      st_ret price
  | Some payout =>
      do! refund_all_bids (Sale.bids sale) ;;
      do! pay_all ft_token_id payout ;;
      st_ret (if bool_decide (ft_token_id = NEAR) then price else 0)
  end.

(** [Market::resolve_finish_auction] *)
Definition resolve_finish_auction (ft_token_id buyer_id : string) (price : Z)
    (promise_result : option Payout) : M Z :=
  match promise_result ≫= validate_payout 0 price with
  | None =>
      do! (if bool_decide (ft_token_id = NEAR) then emit (Transfer buyer_id price) else st_ret tt) ;;
      st_ret price
  | Some payout =>
      do! pay_all ft_token_id payout ;;
      st_ret (if bool_decide (ft_token_id = NEAR) then price else 0)
  end.

(** [Market::resolve_token_buy]: no bound on the number of payees. *)
Definition resolve_token_buy (buyer_id : string) (deposit price : Z) (promise_result : option Payout) : M Z :=
  match promise_result ≫= covers_price price with
  | None => do! emit (Transfer buyer_id deposit) ;; st_ret price
  | Some payout =>
      do! st_iter (fun '(receiver_id, amount) => emit (Transfer receiver_id amount)) (map_to_list payout) ;;
      st_ret price
  end.

(** ** Lemmas *)

(** The promises [pay_all] creates. *)
Definition payments (ft_token_id : string) (p : Payout) : list Action :=
  map (fun '(r, a) => if bool_decide (ft_token_id = NEAR) then Transfer r a else FtTransfer ft_token_id r a)
      (map_to_list p).

Lemma pay_all_run ft p m :
  pay_all ft p m = Ok (tt, Market.set_promises (Market.promises m ++ payments ft p) m).
Proof.
  unfold pay_all, payments. generalize (map_to_list p) as l. intros l. revert m.
  induction l as [|[r a] l IH]; intros m; simpl.
  - by rewrite app_nil_r, set_promises_id.
  - unfold st_bind. case_bool_decide; rewrite emit_run, IH; simpl;
      by rewrite set_promises_set_promises, ?set_promises_promises, <- app_assoc.
Qed.

Lemma total_sent_payments ft p : total_sent (payments ft p) = sum_list (payout_values p).
Proof.
  unfold payments, payout_values, total_sent. generalize (map_to_list p) as l. intros l.
  induction l as [|[r a] l IH]; [done|]. csimpl. unfold sum_list in *. simpl in *.
  case_bool_decide; simpl; lia.
Qed.

(** A payout is well formed when every amount is a [u128]. *)
Definition payout_wf (p : Payout) : Prop := map_Forall (fun _ v => 0 <= v <= u128_max) p.
#[export] Instance payout_wf_dec p : Decision (payout_wf p).
Proof. unfold payout_wf. apply _. Defined.

Lemma payout_values_nonneg p : payout_wf p -> all_nonneg (payout_values p).
Proof.
  intros Hwf. apply Forall_forall. intros v Hv. apply list_elem_of_fmap in Hv as ([k v'] & -> & Hin).
  apply elem_of_map_to_list in Hin. simpl. by destruct (Hwf k v' Hin).
Qed.

Lemma covers_price_spec price p :
  0 <= price -> payout_wf p ->
  covers_price price p =
    if bool_decide (price - 1 <= sum_list (payout_values p) <= price) then Some p else None.
Proof.
  intros Hp Hwf. unfold covers_price. rewrite sub_all_spec by auto using payout_values_nonneg.
  destruct (Z.leb_spec (sum_list (payout_values p)) price);
    repeat case_bool_decide; try done; lia.
Qed.

(** The acceptance condition, as a proposition on the payout. *)
Definition acceptable (extra : nat) (price : Z) (p : Payout) : Prop :=
  (size p + extra <= 10)%nat /\ size p <> 0%nat /\ price - 1 <= sum_list (payout_values p) <= price.

Lemma validate_payout_spec extra price p :
  0 <= price -> payout_wf p ->
  validate_payout extra price p = if bool_decide (acceptable extra price p) then Some p else None.
Proof.
  intros Hp Hwf. unfold validate_payout, acceptable. rewrite covers_price_spec by done.
  repeat case_bool_decide; simpl; try done; exfalso; intuition lia.
Qed.

(** C13: Phase 2 of a purchase, accepted branch: when the token contract
    answers with a payout of 1 to 10 entries (counting [sale.bids.len()])
    whose amounts add up to the price or to one unit less, the callback
    refunds every other outstanding bid of the sale and then pays each
    payee exactly its amount, and nothing else. *)
Theorem resolve_purchase_disburses ft buyer sale price p m :
  0 <= price -> payout_wf p -> acceptable (size (Sale.bids sale)) price p ->
  resolve_purchase ft buyer sale price (Some p) m =
    Ok (if bool_decide (ft = NEAR) then price else 0,
        Market.set_promises (Market.promises m ++ all_refunds (Sale.bids sale) ++ payments ft p) m).
Proof.
  intros Hp Hwf Hacc. unfold resolve_purchase. simpl.
  rewrite validate_payout_spec, bool_decide_eq_true_2 by done.
  unfold st_bind. rewrite refund_all_bids_run. simpl. rewrite pay_all_run. simpl.
  by rewrite set_promises_set_promises, ?set_promises_promises, app_assoc.
Qed.

(** C14: Phase 2 of a purchase, rejected branch: when the transfer of the
    token failed, the callback returns the price (for a fungible token, to
    be handed back by the token contract) and, in NEAR, creates one
    transfer of the full price back to the buyer and no other promise.  In
    particular the other outstanding bids carried by the removed sale are
    not refunded, and since phase 1 deleted the sale, nothing records them
    any more. *)
Theorem resolve_purchase_failure_refunds_buyer_only ft buyer sale price m :
  resolve_purchase ft buyer sale price None m =
    Ok (price, if bool_decide (ft = NEAR)
               then Market.set_promises (Market.promises m ++ [Transfer buyer price]) m
               else m).
Proof. unfold resolve_purchase. simpl. unfold st_bind. case_bool_decide; by rewrite ?emit_run. Qed.

Lemma resolve_purchase_reject_same ft buyer sale price p m :
  0 <= price -> payout_wf p -> ~ acceptable (size (Sale.bids sale)) price p ->
  resolve_purchase ft buyer sale price (Some p) m = resolve_purchase ft buyer sale price None m.
Proof.
  intros Hp Hwf Hn. unfold resolve_purchase. simpl.
  by rewrite validate_payout_spec, bool_decide_eq_false_2.
Qed.

(** C15: No value is created or lost by the NEAR settlement of a purchase:
    whatever the token contract answers, the promises the callback creates
    either return the full price to the buyer, or pay out the price minus
    at most one unit of rounding together with exactly the stored prices
    of the refunded bids. *)
Theorem resolve_purchase_conserves buyer sale price res m r m' :
  0 <= price -> (forall p, res = Some p -> payout_wf p) ->
  resolve_purchase NEAR buyer sale price res m = Ok (r, m') ->
  exists new, Market.promises m' = Market.promises m ++ new /\
    ((exists d, 0 <= d <= 1 /\
        total_sent new = price - d + total_sent (all_refunds (Sale.bids sale))) \/
     new = [Transfer buyer price]).
Proof.
  intros Hp Hwf H.
  assert (Hfail : forall m1, resolve_purchase NEAR buyer sale price None m = Ok (r, m1) ->
            Market.promises m1 = Market.promises m ++ [Transfer buyer price]).
  { intros m1 H1. unfold resolve_purchase, st_bind in H1. simpl in H1.
    unfold st_ret in H1.
    injection H1 as _ <-. by rewrite set_promises_promises. }
  destruct res as [p|]; [|eexists; split; [by apply Hfail | by right]].
  pose proof (Hwf p eq_refl) as Hw.
  destruct (bool_decide (acceptable (size (Sale.bids sale)) price p)) eqn:Ha.
  - apply bool_decide_eq_true in Ha. unfold resolve_purchase in H. simpl in H.
    rewrite validate_payout_spec, bool_decide_eq_true_2 in H by done.
    unfold st_bind in H. rewrite refund_all_bids_run in H. simpl in H. rewrite pay_all_run in H.
    injection H as _ <-. eexists. rewrite !set_promises_promises, <- app_assoc. split; [done|]. left.
    destruct Ha as (_ & _ & Hs). exists (price - sum_list (payout_values p)). split; [lia|].
    rewrite total_sent_app, total_sent_payments. lia.
  - apply bool_decide_eq_false in Ha. rewrite resolve_purchase_reject_same in H by done.
    eexists. split; [by apply Hfail | by right].
Qed.

(** C37: Phase 2 of an auction ([resolve_finish_auction]), both
    branches: when the token contract answers with a payout of 1 to 10
    entries adding up to the price or to one unit less, each payee is paid
    exactly its amount (in NEAR, or by [ft_transfer]) and nothing else is
    created; when the transfer failed, or the payout is empty, too long,
    over the price or more than one unit short of it, the callback returns
    the price and, in NEAR, creates exactly one transfer of the whole
    price back to the buyer. *)
Theorem resolve_finish_auction_spec ft buyer price res m :
  0 <= price -> (forall p, res = Some p -> payout_wf p) ->
  (forall p, res = Some p -> acceptable 0 price p ->
     resolve_finish_auction ft buyer price res m =
       Ok (if bool_decide (ft = NEAR) then price else 0,
           Market.set_promises (Market.promises m ++ payments ft p) m)) /\
  ((forall p, res = Some p -> ~ acceptable 0 price p) ->
     resolve_finish_auction ft buyer price res m =
       Ok (price, if bool_decide (ft = NEAR)
                  then Market.set_promises (Market.promises m ++ [Transfer buyer price]) m else m)).
Proof.
  intros Hp Hwf. split.
  - intros p -> Hacc. unfold resolve_finish_auction. simpl.
    rewrite validate_payout_spec, bool_decide_eq_true_2 by auto.
    unfold st_bind. rewrite pay_all_run. done.
  - intros Hrej. unfold resolve_finish_auction.
    replace (res ≫= validate_payout 0 price) with (@None Payout).
    + unfold st_bind. simpl. case_bool_decide; by rewrite ?emit_run.
    + destruct res as [p|]; [|done]. simpl.
      rewrite validate_payout_spec, bool_decide_eq_false_2; auto.
Qed.

(** C12: The payout check of the market is the reference condition,
    whatever order the [HashMap] yields the amounts in: running
    [remainder.checked_sub(v)?] over any ordering [l] of the payout's
    values gives what [covers_price] gives, and it accepts exactly when
    the amounts add up to the price or to one unit less. *)
Theorem covers_price_order_independent price p l :
  0 <= price -> payout_wf p -> l ≡ₚ payout_values p ->
  match sub_all price l with
  | Some remainder => if bool_decide (remainder <= 1) then Some p else None
  | None => None
  end = covers_price price p /\
  (covers_price price p = Some p <-> price - 1 <= sum_list l <= price).
Proof.
  intros Hp Hwf Hl.
  assert (Hnn : all_nonneg l) by (unfold all_nonneg; rewrite Hl; apply payout_values_nonneg, Hwf).
  assert (Hs : sum_list l = sum_list (payout_values p)) by (by rewrite Hl).
  rewrite covers_price_spec, sub_all_spec, Hs by done. split.
  - destruct (Z.leb_spec (sum_list (payout_values p)) price); repeat case_bool_decide; try done; lia.
  - case_bool_decide; naive_solver.
Qed.

(** ** Witnesses *)

Definition demo_payout : Payout := {[ "seller.near" := 9400; "market.near" := 600; "royalty.near" := 300 ]}.

Lemma resolve_purchase_disburses_witness :
  resolve_purchase NEAR "bob.near" Demo.sale 10300 (Some demo_payout) Demo.market =
    Ok (10300, Market.set_promises ([] ++ all_refunds (Sale.bids Demo.sale) ++ payments NEAR demo_payout)
                 Demo.market).
Proof.
  apply (resolve_purchase_disburses NEAR "bob.near" Demo.sale 10300 demo_payout Demo.market).
  - lia.
  - refine (bool_decide_unpack _ _). vm_compute. reflexivity.
  - refine (bool_decide_unpack _ _). vm_compute. reflexivity.
Defined.

Lemma resolve_purchase_conserves_witness :
  exists new, Market.promises (Market.set_promises [Transfer "bob.near" 10300] Demo.market) =
    Market.promises Demo.market ++ new /\
    ((exists d, 0 <= d <= 1 /\
        total_sent new = 10300 - d + total_sent (all_refunds (Sale.bids Demo.sale))) \/
     new = [Transfer "bob.near" 10300]).
Proof.
  apply (resolve_purchase_conserves "bob.near" Demo.sale 10300 None Demo.market 10300).
  - lia.
  - intros p Hp. discriminate Hp.
  - vm_compute. reflexivity.
Defined.

Lemma resolve_finish_auction_spec_witness :
  resolve_finish_auction NEAR "bob.near" 10300 (Some demo_payout) Demo.market =
    Ok (10300, Market.set_promises ([] ++ payments NEAR demo_payout) Demo.market).
Proof.
  apply (proj1 (resolve_finish_auction_spec NEAR "bob.near" 10300 (Some demo_payout) Demo.market
                  ltac:(lia) ltac:(intros p [= <-]; refine (bool_decide_unpack _ _); vm_compute; reflexivity))
                demo_payout eq_refl).
  refine (bool_decide_unpack _ _). vm_compute. reflexivity.
Defined.


Lemma covers_price_order_independent_witness :
  match sub_all 10300 (reverse (payout_values demo_payout)) with
  | Some remainder => if bool_decide (remainder <= 1) then Some demo_payout else None
  | None => None
  end = covers_price 10300 demo_payout /\
  (covers_price 10300 demo_payout = Some demo_payout <->
   10300 - 1 <= sum_list (reverse (payout_values demo_payout)) <= 10300).
Proof.
  exact (covers_price_order_independent 10300 demo_payout (reverse (payout_values demo_payout))
           ltac:(lia) ltac:(refine (bool_decide_unpack _ _); vm_compute; reflexivity)
           (reverse_Permutation _)).
Defined.

End Settlement.
