(* ===== verification/Auctions.v ===== *)
(** * Auction entity ([src/market/src/auction.rs], [auction_views.rs])

    An [Auction] holds at most one bid.  [start_auction] opens it for a
    duration between [EXTENSION_DURATION] (15 minutes) and [MAX_DURATION]
    (1000 days) under the next auction id; [auction_add_bid] accepts a
    deposit of at least the price with fees of [get_minimal_next_bid],
    refunds the previous bid, ends the auction at once when the deposit
    reaches the buyout price with fees, and otherwise pushes a closing
    time less than 15 minutes away to [now + 15 minutes]; [cancel_auction]
    withdraws an auction without bids; [finish_auction], after the end,
    removes the auction and starts the settlement of its bid.

    Times are nanoseconds in [u64]; amounts are [u128]. *)

From stdpp Require Import pretty.
From S2P Require Import Prelude Fee State Bids.
Import Fee BidLedger.

Module Auctions.

(** [pub const NANOS_PER_SEC: u64 = 1_000_000_000;] (common.rs) *)
Definition NANOS_PER_SEC : Z := 1000000000.
(** [pub const EXTENSION_DURATION: u64 = 15 * 60 * NANOS_PER_SEC;] *)
Definition EXTENSION_DURATION : Z := 15 * 60 * NANOS_PER_SEC.
(** [pub const MAX_DURATION: u64 = 1000 * 60 * 60 * 24 * NANOS_PER_SEC;] *)
Definition MAX_DURATION : Z := 1000 * 60 * 60 * 24 * NANOS_PER_SEC.

(** [pub struct AuctionArgs] *)
Record AuctionArgs := mkAuctionArgs {
  token_type : option string;
  minimal_step : Z;
  start_price : Z;
  start : option Z;
  duration : Z;
  buy_out_price : option Z;
  origins : option Origins;
}.

(** [Market::token_type_to_ft_token_type]: ["near"] by default, and supported. *)
Definition token_type_to_ft_token_type (m : Market.t) (token_type : option string) : result string :=
  let ft := default NEAR token_type in
  let* _ := require (bool_decide (ft ∈ Market.ft_token_ids m)) "token not supported" in
  Ok ft.

(** [Market::start_auction] *)
Definition start_auction (env : Env) (args : AuctionArgs) (token_id owner_id : string) (approval_id : Z)
    (nft_contract_id : string) : M (Z * AuctionJson.t) :=
  do! st_lift (require (bool_decide (EXTENSION_DURATION <= duration args <= MAX_DURATION))
                 ("Incorrect duration. Should be at least " +:+ pretty EXTENSION_DURATION)) ;;
  let! m := st_get in
  let! ft_token_id := st_lift (token_type_to_ft_token_type m (token_type args)) in
  let now := block_timestamp env in
  let start := default now (start args) in
  do! st_lift (require (bool_decide (start >= now)) "incorrect start time") ;;
  let! end_ := st_lift (checked_add u64_max start (duration args)) in
  let auction_id := Market.next_auction_id m in
  let auction := Auction.mk owner_id approval_id nft_contract_id token_id None now ft_token_id
                   (minimal_step args) (start_price args) (buy_out_price args) start end_
                   (default ∅ (origins args)) in
  let! next := st_lift (checked_add u128_max auction_id 1) in
  do! st_modify (fun m => Market.set_next_auction_id next
                            (Market.set_auctions (<[auction_id := auction]> (Market.auctions m)) m)) ;;
  st_ret (auction_id, json_from_auction auction).

(** [Market::check_auction_in_progress] *)
Definition check_auction_in_progress (m : Market.t) (now auction_id : Z) : result bool :=
  let* auction := expect (Market.auctions m !! auction_id) "Auction does not exist" in
  Ok (bool_decide (Auction.end_ auction >= now) && bool_decide (Auction.start auction < now)).

(** [Market::get_minimal_next_bid]: the current bid's fee-exclusive value
    plus the minimal step, or the start price. *)
Definition get_minimal_next_bid (m : Market.t) (auction_id : Z) : result Z :=
  let* auction := expect (Market.auctions m !! auction_id) "Auction does not exist" in
  match Auction.bid auction with
  | Some bid =>
      let* total_origins := calculate_origins (Bid.origins bid) in
      let* actual_amount := calculate_actual_amount (Bid.price bid) total_origins in
      checked_add u128_max actual_amount (Auction.minimal_step auction)
  | None => Ok (Auction.start_price auction)
  end.

(** [Market::get_current_bid] *)
Definition get_current_bid (m : Market.t) (auction_id : Z) : result (option Z) :=
  let* auction := expect (Market.auctions m !! auction_id) "Auction does not exist" in
  match Auction.bid auction with
  | Some bid =>
      let* total_origins := calculate_origins (Bid.origins bid) in
      let* actual_amount := calculate_actual_amount (Bid.price bid) total_origins in
      Ok (Some actual_amount)
  | None => Ok None
  end.

(** [Market::get_current_buyer] *)
Definition get_current_buyer (m : Market.t) (auction_id : Z) : result (option string) :=
  let* auction := expect (Market.auctions m !! auction_id) "Auction does not exist" in
  Ok (Bid.owner_id <$> Auction.bid auction).

(** The closing time after a bid: [now] on a buyout; otherwise pushed to
    [now + EXTENSION_DURATION] when less than that is left. *)
Definition new_end (now end_ : Z) (bought_out : bool) : result Z :=
  let* left := checked_sub end_ now in
  if bool_decide (left < EXTENSION_DURATION) && negb bought_out
  then checked_add u64_max now EXTENSION_DURATION
  else Ok end_.

(** [if let Some(buy_out_price) = auction.buy_out_price {
       if calculate_price_with_fees(buy_out_price, origins) <= deposit { .. bought_out = true } }] *)
Definition is_bought_out (auction : Auction.t) (origins : option Origins) (deposit : Z) : result bool :=
  match Auction.buy_out_price auction with
  | Some buy_out_price =>
      let* p := calculate_price_with_fees buy_out_price origins in
      Ok (bool_decide (p <= deposit))
  | None => Ok false
  end.

(** [if let Some(previous_bid) = auction.bid { self.refund_bid(ft_token_id, ..) }] *)
Definition refund_previous (ft_token_id : string) (auction : Auction.t) : M unit :=
  match Auction.bid auction with
  | Some previous_bid => refund_bid ft_token_id (Bid.owner_id previous_bid) (Bid.price previous_bid)
  | None => st_ret tt
  end.

(** [Market::auction_add_bid] *)
Definition auction_add_bid (env : Env) (auction_id : Z) (token_type : option string)
    (origins : option Origins) : M unit :=
  let! m := st_get in
  let now := block_timestamp env in
  let! ft_token_id := st_lift (token_type_to_ft_token_type m token_type) in
  do! st_lift (require (bool_decide (ft_token_id ∈ Market.ft_token_ids m)) "token not supported") ;;
  let! in_progress := st_lift (check_auction_in_progress m now auction_id) in
  do! st_lift (require in_progress "Auction is not in progress") ;;
  let! auction := st_lift (expect (Market.auctions m !! auction_id) "auction not active") in
  do! st_lift (require (bool_decide (Auction.owner_id auction <> predecessor_account_id env))
                 "Cannot bid on your own auction") ;;
  let deposit := attached_deposit env in
  let! minimal_next_bid := st_lift (get_minimal_next_bid m auction_id) in
  let! min_deposit := st_lift (calculate_price_with_fees minimal_next_bid origins) in
  do! st_lift (require (bool_decide (deposit >= min_deposit)) ("Should bid at least " +:+ pretty min_deposit)) ;;
  do! refund_previous ft_token_id auction ;;
  let! bought_out := st_lift (is_bought_out auction origins deposit) in
  let auction := if bought_out then Auction.set_end now auction else auction in
  let bid := Bid.mk (predecessor_account_id env) deposit now None (default ∅ origins) in
  let auction := Auction.set_bid (Some bid) auction in
  let! end_ := st_lift (new_end now (Auction.end_ auction) bought_out) in
  st_modify (fun m => Market.set_auctions (<[auction_id := Auction.set_end end_ auction]>
                                             (Market.auctions m)) m).

(** [Market::cancel_auction] *)
Definition cancel_auction (env : Env) (auction_id : Z) : M unit :=
  do! st_lift (assert_one_yocto env) ;;
  let! m := st_get in
  let! auction := st_lift (expect (Market.auctions m !! auction_id) "Auction is not active") in
  do! st_lift (require (bool_decide (Auction.owner_id auction = predecessor_account_id env))
                 "Only the auction owner can cancel the auction") ;;
  do! st_lift (require (bool_decide (Auction.bid auction = None))
                 "Can't cancel the auction after the first bid is made") ;;
  st_modify (fun m => Market.set_auctions (delete auction_id (Market.auctions m)) m).

(** [Market::finish_auction]: phase 1 of the settlement of an auction. *)
Definition finish_auction (env : Env) (auction_id : Z) : M unit :=
  let! m := st_get in
  let! auction := st_lift (expect (Market.auctions m !! auction_id) "Auction is not active") in
  do! st_put (Market.set_auctions (delete auction_id (Market.auctions m)) m) ;;
  do! st_lift (require (bool_decide (block_timestamp env > Auction.end_ auction))
                 "Auction can be finalized only after the end time") ;;
  let! final_bid := st_lift (expect (Auction.bid auction) "Can finalize only if there is a bid") in
  let buyer := <[current_account_id env := PROTOCOL_FEE]> (Bid.origins final_bid) in
  let seller_fee := <[current_account_id env := PROTOCOL_FEE]> (Auction.origins auction) in
  emit (NftTransferPayout (Auction.nft_contract_id auction) (Bid.owner_id final_bid)
          (Auction.token_id auction) (Auction.approval_id auction) (mkFees buyer seller_fee)
          (Bid.price final_bid) 10
          (ResolveFinishAuction (Auction.ft_token_id auction) (Bid.owner_id final_bid) (Bid.price final_bid))).

(** ** Lemmas *)

Lemma refund_previous_run ft a m :
  refund_previous ft a m =
    Ok (tt, Market.set_promises (Market.promises m ++
              match Auction.bid a with Some p => refunds_of ft [p] | None => [] end) m).
Proof.
  unfold refund_previous. destruct (Auction.bid a) as [p|].
  - rewrite refund_bid_run. unfold refunds_of. simpl. by case_bool_decide.
  - by rewrite app_nil_r, set_promises_id.
Qed.

(** The bid [auction_add_bid] stores. *)
Definition new_bid (env : Env) (origins : option Origins) : Bid.t :=
  Bid.mk (predecessor_account_id env) (attached_deposit env) (block_timestamp env) None (default ∅ origins).

Lemma auction_add_bid_inv env id ty origins m m' :
  auction_add_bid env id ty origins m = Ok (tt, m') ->
  let now := block_timestamp env in
  exists ft a mnb min_dep bought e,
    token_type_to_ft_token_type m ty = Ok ft /\
    check_auction_in_progress m now id = Ok true /\
    Market.auctions m !! id = Some a /\
    Auction.owner_id a <> predecessor_account_id env /\
    get_minimal_next_bid m id = Ok mnb /\
    calculate_price_with_fees mnb origins = Ok min_dep /\ attached_deposit env >= min_dep /\
    is_bought_out a origins (attached_deposit env) = Ok bought /\
    new_end now (Auction.end_ (if bought then Auction.set_end now a else a)) bought = Ok e /\
    m' = Market.set_auctions
           (<[id := Auction.set_end e (Auction.set_bid (Some (new_bid env origins))
                                         (if bought then Auction.set_end now a else a))]>
              (Market.auctions m))
           (Market.set_promises (Market.promises m ++
              match Auction.bid a with Some p => refunds_of ft [p] | None => [] end) m).
Proof.
  intros H now. unfold auction_add_bid in H. st_inv.
  match goal with Hr : refund_previous _ _ _ = Ok _ |- _ => rewrite refund_previous_run in Hr end.
  st_inv. do 6 eexists. split_and!; try eassumption; try done.
Qed.

Lemma is_bought_out_spec a origins deposit b :
  is_bought_out a origins deposit = Ok b ->
  b = true <-> exists bo pb, Auction.buy_out_price a = Some bo /\
                 calculate_price_with_fees bo origins = Ok pb /\ pb <= deposit.
Proof.
  unfold is_bought_out. destruct (Auction.buy_out_price a) as [bo|]; intros H.
  - st_inv. rewrite bool_decide_eq_true. split.
    + eauto.
    + intros (? & ? & [= <-] & Hp & ?). congruence.
  - simplify_eq. split; [done|]. by intros (? & ? & ? & _).
Qed.

(** The bid of a successful [auction_add_bid] passed [check_auction_in_progress]. *)
Lemma check_auction_in_progress_true m now id a :
  Market.auctions m !! id = Some a ->
  check_auction_in_progress m now id = Ok true -> Auction.start a < now <= Auction.end_ a.
Proof.
  unfold check_auction_in_progress. intros Ha. rewrite Ha. simpl. intros [= H].
  apply andb_prop in H as [H1 H2]. apply bool_decide_eq_true in H1, H2. lia.
Qed.

Lemma new_end_spec now e b r :
  new_end now e b = Ok r ->
  now <= e /\ r = if negb b && bool_decide (e - now < EXTENSION_DURATION)
                  then now + EXTENSION_DURATION else e.
Proof.
  unfold new_end, checked_sub, checked_add. intros H.
  destruct (Z.leb_spec now e); [|done]. simpl in H. split; [done|].
  destruct b, (bool_decide _); simpl in *; simplify_eq; try done.
  by destruct (_ <=? _); simplify_eq.
Qed.

Lemma token_type_to_ft_token_type_ok m ty ft :
  token_type_to_ft_token_type m ty = Ok ft -> ft = default NEAR ty /\ ft ∈ Market.ft_token_ids m.
Proof. unfold token_type_to_ft_token_type. intros H. by st_inv. Qed.

(** A successful bid on the auction [a], with what it leaves. *)
Ltac add_bid_inv H Ha :=
  apply auction_add_bid_inv in H as (ft & a0 & mnb & min_dep & bought & e & Hft & Hprog & Ha0 &
                                      Hown & Hmnb & Hmin & Hdep & Hbo & He & ->);
  rewrite Ha in Ha0; injection Ha0 as <-.

(** A bid that is not a buyout records the new bid and moves the
    closing time to the later of the old end and [now + EXTENSION_DURATION]
    (the soft close); the rest of the auction is unchanged. *)
Lemma auction_add_bid_soft_close env id ty origins m m' a :
  Market.auctions m !! id = Some a ->
  is_bought_out a origins (attached_deposit env) = Ok false ->
  auction_add_bid env id ty origins m = Ok (tt, m') ->
  Market.auctions m' !! id =
    Some (Auction.set_end (Z.max (Auction.end_ a) (block_timestamp env + EXTENSION_DURATION))
            (Auction.set_bid (Some (new_bid env origins)) a)).
Proof.
  intros Ha Hb H. add_bid_inv H Ha.
  rewrite Hb in Hbo. simplify_eq. apply new_end_spec in He as [_ ->].
  market_simpl. rewrite lookup_insert_eq. do 2 f_equal.
  case_bool_decide; simpl; lia.
Qed.

(** A buyout records the new bid and ends the auction at the current
    time; the auction still counts as in progress at that instant, and no
    longer from the next nanosecond on. *)
Lemma auction_add_bid_buyout env id ty origins m m' a :
  Market.auctions m !! id = Some a ->
  is_bought_out a origins (attached_deposit env) = Ok true ->
  auction_add_bid env id ty origins m = Ok (tt, m') ->
  Market.auctions m' !! id =
    Some (Auction.set_end (block_timestamp env) (Auction.set_bid (Some (new_bid env origins)) a)) /\
  check_auction_in_progress m' (block_timestamp env) id = Ok true /\
  (forall t, block_timestamp env < t -> check_auction_in_progress m' t id = Ok false).
Proof.
  intros Ha Hb H. add_bid_inv H Ha.
  rewrite Hb in Hbo. simplify_eq. apply new_end_spec in He as [_ ->].
  pose proof (check_auction_in_progress_true _ _ _ _ Ha Hprog).
  unfold check_auction_in_progress. market_simpl. rewrite lookup_insert_eq. simpl.
  split_and!; [done| |].
  - by rewrite !bool_decide_eq_true_2 by lia.
  - intros t Ht. by rewrite bool_decide_eq_false_2 by lia.
Qed.

(** C18: The closing time after a successful bid.  A bid that is not a
    buyout records the new bid and moves the end to the later of the old
    end and [now + EXTENSION_DURATION] (the soft close).  A buyout records
    the bid and ends the auction now; the auction still counts as in
    progress at that instant, and no longer from the next nanosecond on.
    The rest of the auction is unchanged. *)
Theorem auction_add_bid_closing env id ty origins m m' a bo :
  Market.auctions m !! id = Some a ->
  is_bought_out a origins (attached_deposit env) = Ok bo ->
  auction_add_bid env id ty origins m = Ok (tt, m') ->
  Market.auctions m' !! id =
    Some (Auction.set_end (if bo then block_timestamp env
                           else Z.max (Auction.end_ a) (block_timestamp env + EXTENSION_DURATION))
            (Auction.set_bid (Some (new_bid env origins)) a)) /\
  (bo = true ->
   check_auction_in_progress m' (block_timestamp env) id = Ok true /\
   forall t, block_timestamp env < t -> check_auction_in_progress m' t id = Ok false).
Proof.
  intros Ha Hb H. destruct bo.
  - by destruct (auction_add_bid_buyout env id ty origins m m' a Ha Hb H) as (-> & Hnow & Hlater).
  - split; [by apply (auction_add_bid_soft_close env id ty origins m m' a) | done].
Qed.

(** C20: A successful bid refunds the auction's previous bid, to its owner
    and for its full price, in the currency named by the new bid's
    [token_type], and makes no other payment. *)
Theorem auction_add_bid_refunds_previous env id ty origins m m' a :
  Market.auctions m !! id = Some a ->
  auction_add_bid env id ty origins m = Ok (tt, m') ->
  Market.promises m' = Market.promises m ++
    match Auction.bid a with Some p => refunds_of (default NEAR ty) [p] | None => [] end.
Proof.
  intros Ha H. add_bid_inv H Ha.
  apply token_type_to_ft_token_type_ok in Hft as [-> _]. by market_simpl.
Qed.

Lemma total_of_nonneg o w : origins_wf (default ∅ o) -> total_of o = Ok w -> 0 <= w.
Proof.
  destruct o as [o|]; simpl; intros Hwf H; [|by simplify_eq].
  rewrite calculate_origins_spec in H by done.
  destruct (_ <=? _); simplify_eq. by apply origins_total_nonneg.
Qed.

Lemma calculate_origins_nonneg o w : origins_wf o -> calculate_origins o = Ok w -> 0 <= w.
Proof. intros. by apply (total_of_nonneg (Some o)). Qed.

(** The minimal next bid over a bid [p]: its fee-exclusive value plus the step. *)
Lemma get_minimal_next_bid_some m id a p wp mnb :
  Market.auctions m !! id = Some a -> Auction.bid a = Some p ->
  0 <= Bid.price p -> origins_wf (Bid.origins p) -> calculate_origins (Bid.origins p) = Ok wp ->
  get_minimal_next_bid m id = Ok mnb -> mnb = actual_of (Bid.price p) wp + Auction.minimal_step a.
Proof.
  unfold get_minimal_next_bid. intros Ha Hp Hpr Hwf Hw H. rewrite Ha in H. simpl in H. rewrite Hp in H.
  st_inv. rewrite Hw in *. simplify_eq.
  rewrite calculate_actual_amount_spec in * by eauto using calculate_origins_nonneg.
  destruct (_ <=? _); simplify_eq. unfold checked_add in *. by destruct (_ <=? _); simplify_eq.
Qed.

(** C21: Each accepted bid outbids the previous one by at least the
    auction's minimal step, comparing fee-exclusive values: the new deposit
    net of its fees is at least the previous bid's net value plus the step. *)
Theorem auction_add_bid_min_increment env id ty origins m m' a p wp w :
  Market.auctions m !! id = Some a -> Auction.bid a = Some p ->
  0 <= Bid.price p -> 0 <= Auction.minimal_step a ->
  origins_wf (Bid.origins p) -> calculate_origins (Bid.origins p) = Ok wp ->
  origins_wf (default ∅ origins) -> total_of origins = Ok w ->
  auction_add_bid env id ty origins m = Ok (tt, m') ->
  actual_of (Bid.price p) wp + Auction.minimal_step a <= actual_of (attached_deposit env) w.
Proof.
  intros Ha Hp Hpr Hst Hwfp Hwp Hwf Hw H. add_bid_inv H Ha.
  pose proof (calculate_origins_nonneg _ _ Hwfp Hwp). pose proof (total_of_nonneg _ _ Hwf Hw).
  rewrite <- (get_minimal_next_bid_some m id a p wp mnb) by done.
  rewrite (calculate_price_with_fees_spec _ _ _ Hw) in Hmin.
  destruct (_ <=? _); simplify_eq.
  assert (0 <= mnb).
  { erewrite get_minimal_next_bid_some by eauto. pose proof (actual_of_bounds (Bid.price p) wp). lia. }
  rewrite <- (actual_of_with_fees_of mnb w) at 1 by done.
  apply actual_of_mono; [|done]. split; [|lia].
  unfold with_fees_of. apply Z.div_pos; [|unfold PAYOUT_TOTAL_VALUE; lia].
  unfold PAYOUT_TOTAL_VALUE, PROTOCOL_FEE. nia.
Qed.

(** A deposit below the price with fees of the minimal next bid is
    rejected. *)
Theorem auction_add_bid_rejects_low env id ty origins m mnb min_dep :
  get_minimal_next_bid m id = Ok mnb ->
  calculate_price_with_fees mnb origins = Ok min_dep ->
  attached_deposit env < min_dep ->
  is_ok (auction_add_bid env id ty origins m) = false.
Proof.
  intros Hm Hp Hlt. destruct (auction_add_bid _ _ _ _ _) as [[[] m']|] eqn:H; [|done].
  apply auction_add_bid_inv in H as (? & ? & ? & ? & ? & ? & _ & _ & _ & _ & Hm' & Hp' & Hge & _).
  rewrite Hm in Hm'. simplify_eq. rewrite Hp in Hp'. simplify_eq. lia.
Qed.

(** The payout transfer [finish_auction] starts for the final bid [b] of [a]. *)
Definition finish_transfer (env : Env) (a : Auction.t) (b : Bid.t) : Action :=
  NftTransferPayout (Auction.nft_contract_id a) (Bid.owner_id b) (Auction.token_id a)
    (Auction.approval_id a)
    (mkFees (<[current_account_id env := PROTOCOL_FEE]> (Bid.origins b))
            (<[current_account_id env := PROTOCOL_FEE]> (Auction.origins a)))
    (Bid.price b) 10 (ResolveFinishAuction (Auction.ft_token_id a) (Bid.owner_id b) (Bid.price b)).

(** C23: [finish_auction] succeeds exactly after the end time of an auction
    with a bid; it then removes the auction and starts one payout transfer
    of the token to the bidder, for the bid's price, with the settlement
    callback. *)
Theorem finish_auction_spec env id m a :
  Market.auctions m !! id = Some a ->
  match finish_auction env id m with
  | Ok (_, m') =>
      exists b, Auction.end_ a < block_timestamp env /\ Auction.bid a = Some b /\
        m' = Market.set_promises (Market.promises m ++ [finish_transfer env a b])
               (Market.set_auctions (delete id (Market.auctions m)) m)
  | Err _ => block_timestamp env <= Auction.end_ a \/ Auction.bid a = None
  end.
Proof.
  intros Ha. unfold finish_auction, st_bind, st_get, st_lift, st_put, require, emit.
  rewrite Ha. simpl. case_bool_decide; simpl; [|lia].
  destruct (Auction.bid a) as [b|]; simpl; [|by right].
  exists b. split_and!; [lia|done|]. by market_simpl.
Qed.

Lemma start_auction_inv env args tok owner appr nft m r m' :
  start_auction env args tok owner appr nft m = Ok (r, m') ->
  let now := block_timestamp env in
  exists ft st e a,
    EXTENSION_DURATION <= duration args <= MAX_DURATION /\
    token_type_to_ft_token_type m (token_type args) = Ok ft /\
    st = default now (start args) /\ now <= st /\
    checked_add u64_max st (duration args) = Ok e /\
    checked_add u128_max (Market.next_auction_id m) 1 = Ok (Market.next_auction_id m + 1) /\
    a = Auction.mk owner appr nft tok None now ft (minimal_step args) (start_price args)
          (buy_out_price args) st e (default ∅ (origins args)) /\
    r = (Market.next_auction_id m, json_from_auction a) /\
    m' = Market.set_next_auction_id (Market.next_auction_id m + 1)
           (Market.set_auctions (<[Market.next_auction_id m := a]> (Market.auctions m)) m).
Proof.
  intros H now. unfold start_auction in H. st_inv.
  match goal with Hn : checked_add u128_max _ 1 = Ok _ |- _ =>
    pose proof Hn; unfold checked_add in Hn; destruct (_ <=? _); simplify_eq end.
  do 4 eexists. split_and!; try eassumption; try done; try lia.
Qed.

(** C40: [start_auction] ([nft_on_approve] with auction arguments)
    succeeds only for a duration between [EXTENSION_DURATION] and
    [MAX_DURATION], a start (default: now) not in the past and a currency
    (default: NEAR) the market supports; it then stores, under the current
    [next_auction_id], which it increments, a bidless auction owned by the
    approver that runs from that start for [duration], answers the id with
    the auction's JSON, and touches neither the sales nor the promises. *)
Theorem start_auction_spec env args tok owner appr nft m r m' :
  start_auction env args tok owner appr nft m = Ok (r, m') ->
  let now := block_timestamp env in
  let st := default now (start args) in
  let a := Auction.mk owner appr nft tok None now (default NEAR (token_type args)) (minimal_step args)
             (start_price args) (buy_out_price args) st (st + duration args) (default ∅ (origins args)) in
  EXTENSION_DURATION <= duration args <= MAX_DURATION /\ now <= st /\
  default NEAR (token_type args) ∈ Market.ft_token_ids m /\
  r = (Market.next_auction_id m, json_from_auction a) /\
  Market.auctions m' = <[Market.next_auction_id m := a]> (Market.auctions m) /\
  Market.next_auction_id m' = Market.next_auction_id m + 1 /\
  Market.sales m' = Market.sales m /\ Market.promises m' = Market.promises m.
Proof.
  intros H now st a. apply start_auction_inv in H as (ft & st' & e & a' & Hd & Hft & -> & Hst & He & _ & -> & -> & ->).
  apply token_type_to_ft_token_type_ok in Hft as [-> Hin].
  unfold checked_add in He. destruct (_ <=? _); simplify_eq. by market_simpl.
Qed.

(** C36: [cancel_auction] succeeds exactly when one yoctoNEAR is attached
    and the auction exists, belongs to the caller and has no bid yet; it
    then deletes the auction and changes nothing else (no promise: there
    is no bid to refund). *)
Theorem cancel_auction_spec env id m :
  ((exists m', cancel_auction env id m = Ok (tt, m')) <->
    attached_deposit env = 1 /\ exists a, Market.auctions m !! id = Some a /\
      Auction.owner_id a = predecessor_account_id env /\ Auction.bid a = None) /\
  (forall m', cancel_auction env id m = Ok (tt, m') ->
     m' = Market.set_auctions (delete id (Market.auctions m)) m).
Proof.
  split; [|intros m' H; unfold cancel_auction in H; st_inv; unfold st_modify in *; by st_inv].
  unfold cancel_auction, assert_one_yocto, require, expect, st_bind, st_lift, st_get, st_modify.
  case_bool_decide as Hd; [|split; [intros [? ?]; done | intros [? _]; done]]. simpl.
  destruct (Market.auctions m !! id) as [a|]; simpl; [|split; [intros [? ?]; done | intros (_ & ? & ? & _); done]].
  repeat case_bool_decide; simpl; split; try (intros [? ?]; done); try naive_solver.
Qed.


(** ** A concrete auction

    The seller auctions token ["1:2"] for an hour at time 0 (start price
    1000, step 100, buyout 100000); bob bids 1030 a minute before the end,
    carol buys out one nanosecond later, and dave finishes the auction. *)

Definition after {A} (r : result (A * Market.t)) : Market.t :=
  match r with Ok (_, m) => m | Err _ => Demo.market end.

Definition demo_args : AuctionArgs :=
  mkAuctionArgs None 100 1000 None (4 * EXTENSION_DURATION) (Some 100000) None.
Definition demo_auctioned : Market.t :=
  after (start_auction (Demo.env "seller.near" 0 0) demo_args "1:2" "seller.near" 1 "nft.near" Demo.market).
Definition demo_auction : Auction.t :=
  Auction.mk "seller.near" 1 "nft.near" "1:2" None 0 NEAR 100 1000 (Some 100000) 0
    (4 * EXTENSION_DURATION) ∅.
Definition bob_time : Z := 4 * EXTENSION_DURATION - 60 * NANOS_PER_SEC.
Definition bob_env : Env := Demo.env "bob.near" bob_time 1030.
Definition demo_bob : Market.t := after (auction_add_bid bob_env 0 None None demo_auctioned).
Definition carol_env : Env := Demo.env "carol.near" (bob_time + 1) 103000.
Definition demo_carol : Market.t := after (auction_add_bid carol_env 0 None None demo_bob).
Definition demo_bob_auction : Auction.t :=
  Auction.set_end (bob_time + EXTENSION_DURATION) (Auction.set_bid (Some (new_bid bob_env None)) demo_auction).

Lemma start_auction_spec_witness :
  EXTENSION_DURATION <= duration demo_args <= MAX_DURATION /\
  Market.auctions demo_auctioned = <[0 := demo_auction]> (Market.auctions Demo.market).
Proof.
  destruct (start_auction_spec (Demo.env "seller.near" 0 0) demo_args "1:2" "seller.near" 1 "nft.near"
              Demo.market (0, json_from_auction demo_auction) demo_auctioned ltac:(vm_compute; reflexivity))
    as (Hd & _ & _ & _ & Ha & _).
  split; [exact Hd | exact Ha].
Defined.

Lemma auction_add_bid_closing_witness :
  Market.auctions demo_carol !! 0 =
    Some (Auction.set_end (if true then bob_time + 1
                           else Z.max (Auction.end_ demo_bob_auction) (bob_time + 1 + EXTENSION_DURATION))
            (Auction.set_bid (Some (new_bid carol_env None)) demo_bob_auction)) /\
  check_auction_in_progress demo_carol (bob_time + 1) 0 = Ok true /\
  check_auction_in_progress demo_carol (bob_time + 2) 0 = Ok false.
Proof.
  destruct (auction_add_bid_closing carol_env 0 None None demo_bob demo_carol demo_bob_auction true
              ltac:(vm_compute; reflexivity) ltac:(vm_compute; reflexivity)
              ltac:(vm_compute; reflexivity)) as (Hend & Hbuy).
  destruct (Hbuy eq_refl) as [Hnow Hlater].
  split_and!; [exact Hend | exact Hnow | apply Hlater; simpl; lia].
Defined.

Lemma auction_add_bid_refunds_previous_witness :
  Market.promises demo_carol = Market.promises demo_bob ++ [Transfer "bob.near" 1030].
Proof.
  exact (auction_add_bid_refunds_previous carol_env 0 None None demo_bob demo_carol demo_bob_auction
           ltac:(vm_compute; reflexivity) ltac:(vm_compute; reflexivity)).
Defined.

Lemma auction_add_bid_min_increment_witness :
  actual_of 1030 0 + 100 <= actual_of 103000 0.
Proof.
  exact (auction_add_bid_min_increment carol_env 0 None None demo_bob demo_carol demo_bob_auction
           (new_bid bob_env None) 0 0 ltac:(vm_compute; reflexivity) ltac:(vm_compute; reflexivity)
           ltac:(vm_compute; discriminate) ltac:(vm_compute; discriminate)
           ltac:(refine (bool_decide_unpack _ _); vm_compute; reflexivity) ltac:(vm_compute; reflexivity)
           ltac:(refine (bool_decide_unpack _ _); vm_compute; reflexivity) ltac:(vm_compute; reflexivity)
           ltac:(vm_compute; reflexivity)).
Defined.

Lemma auction_add_bid_rejects_low_witness :
  is_ok (auction_add_bid (Demo.env "dave.near" 1 1029) 0 None None demo_auctioned) = false.
Proof.
  exact (auction_add_bid_rejects_low (Demo.env "dave.near" 1 1029) 0 None None demo_auctioned 1000 1030
           ltac:(vm_compute; reflexivity) ltac:(vm_compute; reflexivity) ltac:(vm_compute; reflexivity)).
Defined.

Lemma finish_auction_spec_witness :
  match finish_auction (Demo.env "dave.near" (bob_time + 2) 0) 0 demo_carol with
  | Ok (_, m') =>
      exists b, Auction.end_ (Auction.set_end (bob_time + 1) (Auction.set_bid (Some (new_bid carol_env None)) demo_bob_auction)) < bob_time + 2 /\
        Auction.bid (Auction.set_end (bob_time + 1) (Auction.set_bid (Some (new_bid carol_env None)) demo_bob_auction)) = Some b /\
        m' = Market.set_promises (Market.promises demo_carol ++
               [finish_transfer (Demo.env "dave.near" (bob_time + 2) 0)
                  (Auction.set_end (bob_time + 1) (Auction.set_bid (Some (new_bid carol_env None)) demo_bob_auction)) b])
               (Market.set_auctions (delete 0 (Market.auctions demo_carol)) demo_carol)
  | Err _ => bob_time + 2 <= bob_time + 1 \/ Some (new_bid carol_env None) = None
  end.
Proof.
  exact (finish_auction_spec (Demo.env "dave.near" (bob_time + 2) 0) 0 demo_carol
           (Auction.set_end (bob_time + 1) (Auction.set_bid (Some (new_bid carol_env None)) demo_bob_auction))
           ltac:(vm_compute; reflexivity)).
Defined.

End Auctions.
