(* ===== verification/Storage.v ===== *)
(** * Storage deposits and the approval entry point ([src/market/src/lib.rs], [market_core.rs])

    An account pays [STORAGE_PER_SALE] per listing in advance with
    [storage_deposit]; [storage_withdraw] returns what is not held for the
    account's current listings ([by_owner_id]).  [nft_on_approve], called
    by an NFT contract when an owner approves the market, checks that the
    owner signed the transaction and has paid for one more listing, then
    starts a sale or an auction from the parsed message.

    The lemmas: the exact run of [storage_withdraw] on a market whose
    deposits cover its listings ([storage_ok]), and that [nft_on_approve]
    keeps [storage_ok] (both used by [Lifecycle.v], which shows that
    [storage_ok] always holds); the theorem: the entry point accepts any
    calling contract. *)

From stdpp Require Import pretty.
From S2P Require Import Prelude Fee State Bids Sales Auctions.
Import Fee BidLedger.

Module Storage.

Abbreviation STORAGE_PER_SALE := Sales.STORAGE_PER_SALE.

(** [Market::get_supply_by_owner_id] (sale_views.rs). *)
Definition get_supply_by_owner_id (m : Market.t) (account_id : string) : Z :=
  Z.of_nat (size (default ∅ (Market.by_owner_id m !! account_id))).

(** [Market::storage_deposit] *)
Definition storage_deposit (env : Env) (account_id : option string) : M unit :=
  let storage_account_id := default (predecessor_account_id env) account_id in
  let deposit := attached_deposit env in
  do! st_lift (require (bool_decide (deposit >= STORAGE_PER_SALE)) ("Requires minimum deposit of " +:+ pretty STORAGE_PER_SALE)) ;;
  let! m := st_get in
  let balance := default 0 (Market.storage_deposits m !! storage_account_id) in
  let! balance := st_lift (checked_add u128_max balance deposit) in
  st_modify (fun m => Market.set_storage_deposits
                        (<[storage_account_id := balance]> (Market.storage_deposits m)) m).

(** [Market::storage_withdraw] *)
Definition storage_withdraw (env : Env) : M unit :=
  do! st_lift (assert_one_yocto env) ;;
  let owner_id := predecessor_account_id env in
  let! m := st_get in
  let amount := default 0 (Market.storage_deposits m !! owner_id) in
  do! st_put (Market.set_storage_deposits (delete owner_id (Market.storage_deposits m)) m) ;;
  let len := get_supply_by_owner_id m owner_id in
  let! diff := st_lift (checked_mul u128_max len STORAGE_PER_SALE) in
  let! amount := st_lift (checked_sub amount diff) in
  do! (if bool_decide (amount > 0) then emit (Transfer owner_id amount) else st_ret tt) ;;
  if bool_decide (diff > 0)
  then st_modify (fun m => Market.set_storage_deposits
                             (<[owner_id := diff]> (Market.storage_deposits m)) m)
  else st_ret tt.

(** [pub enum ArgsKind { Sale(SaleArgs), Auction(AuctionArgs) }] *)
Inductive ArgsKind :=
| ArgsSale (args : Sales.SaleArgs)
| ArgsAuction (args : Auctions.AuctionArgs).

(** [Market::nft_on_approve].  The message is given parsed: [None] when
    [serde_json::from_str] fails ("Not valid args"). *)
Definition nft_on_approve (env : Env) (token_id owner_id : string) (approval_id : Z)
    (msg : option ArgsKind) : M unit :=
  let nft_contract_id := predecessor_account_id env in
  let signer_id := signer_account_id env in
  do! st_lift (require (bool_decide (nft_contract_id <> signer_id))
                 "nft_on_approve should only be called via cross-contract call") ;;
  do! st_lift (require (bool_decide (owner_id = signer_id)) "owner_id should be signer_id") ;;
  let! m := st_get in
  let owner_paid_storage := default 0 (Market.storage_deposits m !! signer_id) in
  let! supply := st_lift (checked_add u64_max (get_supply_by_owner_id m signer_id) 1) in
  let! signer_storage_required := st_lift (checked_mul u128_max supply STORAGE_PER_SALE) in
  do! st_lift (require (bool_decide (owner_paid_storage >= signer_storage_required))
                 "Insufficient storage paid") ;;
  let! args := st_lift (expect msg "Not valid args") in
  match args with
  | ArgsSale sale_args =>
      let! _ := Sales.start_sale env sale_args token_id owner_id approval_id nft_contract_id in
      st_ret tt
  | ArgsAuction auction_args =>
      let! _ := Auctions.start_auction env auction_args token_id owner_id approval_id nft_contract_id in
      st_ret tt
  end.

(** ** The storage ledger covers every account's listings *)

(** Every deposit is a [u128], and every account holds at least
    [STORAGE_PER_SALE] for each of its listings in [by_owner_id]. *)
Definition storage_ok (m : Market.t) : Prop :=
  map_Forall (fun _ v => 0 <= v <= u128_max) (Market.storage_deposits m) /\
  map_Forall (fun o s => Z.of_nat (size s) * STORAGE_PER_SALE <= default 0 (Market.storage_deposits m !! o))
    (Market.by_owner_id m).
#[export] Instance storage_ok_dec m : Decision (storage_ok m).
Proof. unfold storage_ok. apply _. Defined.

Lemma storage_ok_supply m o :
  storage_ok m -> get_supply_by_owner_id m o * STORAGE_PER_SALE <= default 0 (Market.storage_deposits m !! o).
Proof.
  intros [Hd Ho]. unfold get_supply_by_owner_id.
  destruct (Market.by_owner_id m !! o) as [s|] eqn:E.
  - by apply (Ho o s).
  - change (default ∅ None) with (∅ : gset string). rewrite size_empty.
    destruct (Market.storage_deposits m !! o) eqn:E2; simpl; [|lia].
    destruct (Hd o _ E2). lia.
Qed.

Lemma storage_ok_deposit_bound m o :
  storage_ok m -> 0 <= default 0 (Market.storage_deposits m !! o) <= u128_max.
Proof.
  intros [Hd _]. destruct (Market.storage_deposits m !! o) eqn:E; simpl; [by apply (Hd o)|].
  unfold u128_max. lia.
Qed.

Lemma size_index_insert_le (k : string) (s : gset string) : (size ({[k]} ∪ s) <= S (size s))%nat.
Proof.
  rewrite size_union_alt, size_singleton.
  pose proof (subseteq_size (s ∖ {[k]}) s (subseteq_difference_l _ _ _ (reflexivity s))). lia.
Qed.

Lemma size_index_remove_le (k : string) (s : gset string) : (size (s ∖ {[k]}) <= size s)%nat.
Proof. apply subseteq_size, subseteq_difference_l. reflexivity. Qed.

Lemma start_sale_effect env a tok owner appr nft m sale m' :
  Sales.start_sale env a tok owner appr nft m = Ok (sale, m') ->
  Market.by_owner_id m' = Sales.index_insert owner (contract_and_token_id nft tok) (Market.by_owner_id m) /\
  Market.storage_deposits m' = Market.storage_deposits m.
Proof.
  unfold Sales.start_sale. intros H. st_inv.
  destruct (Sales.token_type a); st_inv; unfold st_put in *; st_inv; by market_simpl.
Qed.

Lemma storage_per_sale_pos : 0 < STORAGE_PER_SALE.
Proof. unfold Sales.STORAGE_PER_SALE. lia. Qed.

(** The constants as literals, for [lia]. *)
Lemma storage_constants :
  STORAGE_PER_SALE = 10000000000000000000000 /\ u64_max = 18446744073709551615 /\
  u128_max = 340282366920938463463374607431768211455.
Proof. vm_compute. auto. Qed.

Lemma get_supply_nonneg m o : 0 <= get_supply_by_owner_id m o.
Proof. unfold get_supply_by_owner_id. lia. Qed.

(** [storage_withdraw] on a market whose storage ledger covers the
    listings, with the one yoctoNEAR attached: it pays the caller what they
    deposited beyond [STORAGE_PER_SALE] per current listing, keeps exactly
    that much, and forgets the account when it has no listing. *)
Lemma storage_withdraw_run env m :
  storage_ok m -> attached_deposit env = 1 ->
  let o := predecessor_account_id env in
  let paid := default 0 (Market.storage_deposits m !! o) in
  let held := get_supply_by_owner_id m o * STORAGE_PER_SALE in
  storage_withdraw env m =
    Ok (tt, Market.set_storage_deposits
              (if bool_decide (held > 0) then <[o := held]> (delete o (Market.storage_deposits m))
               else delete o (Market.storage_deposits m))
              (Market.set_promises
                 (Market.promises m ++ if bool_decide (paid - held > 0) then [Transfer o (paid - held)] else [])
                 m)).
Proof.
  intros Hok H1 o paid held.
  pose proof (storage_ok_supply m o Hok). pose proof (storage_ok_deposit_bound m o Hok).
  pose proof (get_supply_nonneg m o). pose proof storage_per_sale_pos.
  unfold storage_withdraw, assert_one_yocto, st_bind, st_lift, st_get, st_put.
  rewrite bool_decide_eq_true_2 by done. simpl.
  unfold checked_mul, checked_sub. fold o paid held.
  rewrite (proj2 (Z.leb_le held u128_max)) by nia. simpl.
  rewrite (proj2 (Z.leb_le held paid)) by nia. simpl.
  destruct (bool_decide (paid - held > 0)), (bool_decide (held > 0));
    unfold emit, st_modify, st_ret; destruct m; simpl; by rewrite ?app_nil_r.
Qed.

(** [nft_on_approve] keeps the storage ledger covering every account's
    listings: a new sale adds one listing to an owner who has paid for one
    more. *)
Lemma nft_on_approve_storage env tok owner appr msg m m' :
  storage_ok m -> nft_on_approve env tok owner appr msg m = Ok (tt, m') -> storage_ok m'.
Proof.
  intros [Hd Ho] H. unfold nft_on_approve in H. st_inv.
  match goal with Hm : match ?a with ArgsSale _ => _ | ArgsAuction _ => _ end _ = Ok _ |- _ =>
    destruct a as [a|a]; st_inv end.
  - match goal with Hs : Sales.start_sale _ _ _ _ _ _ _ = Ok _ |- _ =>
      apply start_sale_effect in Hs as [Hby Hdep] end.
    split; rewrite Hdep; [done|]. rewrite Hby. unfold Sales.index_insert.
    apply map_Forall_insert_2; [|done].
    lazymatch goal with |- context [size ({[?k]} ∪ ?t)] => pose proof (size_index_insert_le k t) end.
    unfold checked_add, checked_mul, get_supply_by_owner_id in *.
    repeat match goal with H : (if _ then _ else _) = Ok _ |- _ =>
      destruct (_ <=? _) in H; simplify_eq end.
    pose proof storage_per_sale_pos. nia.
  - match goal with Hs : Auctions.start_auction _ _ _ _ _ _ _ = Ok _ |- _ =>
      apply Auctions.start_auction_inv in Hs as (? & ? & ? & ? & _ & _ & _ & _ & _ & _ & _ & _ & ->) end.
    split; by market_simpl.
Qed.

(** C25: [nft_on_approve] checks only that it is a cross-contract call
    from the owner's transaction and that the owner has paid storage for
    one more listing; it never consults [non_fungible_token_account_ids],
    so any contract, approved or not, can list tokens: the call is then
    exactly [start_sale] with the calling contract as NFT contract. *)
Theorem nft_on_approve_any_contract env tok appr a m :
  storage_ok m ->
  predecessor_account_id env <> signer_account_id env ->
  let owner := signer_account_id env in
  (get_supply_by_owner_id m owner + 1) * STORAGE_PER_SALE <= default 0 (Market.storage_deposits m !! owner) ->
  nft_on_approve env tok owner appr (Some (ArgsSale a)) m =
    st_bind (Sales.start_sale env a tok owner appr (predecessor_account_id env)) (fun _ => st_ret tt) m.
Proof.
  intros Hok Hc owner Hpaid. subst owner.
  pose proof (storage_ok_deposit_bound m (signer_account_id env) Hok).
  pose proof (get_supply_nonneg m (signer_account_id env)).
  destruct storage_constants as (ES & E64 & E128).
  unfold nft_on_approve, st_bind, st_lift, st_get, require, checked_add, checked_mul.
  rewrite ES, E64, E128 in *.
  rewrite !bool_decide_eq_true_2 by done. cbn -[get_supply_by_owner_id Sales.start_sale].
  rewrite (proj2 (Z.leb_le _ 18446744073709551615)) by lia.
  rewrite (proj2 (Z.leb_le _ 340282366920938463463374607431768211455)) by lia.
  rewrite bool_decide_eq_true_2 by lia. reflexivity.
Qed.

(** ** Witnesses *)

(** The demo market with the seller's storage paid for two listings. *)
Definition storage_demo : Market.t :=
  Market.set_storage_deposits {[ "seller.near" := 2 * STORAGE_PER_SALE ]} Demo.market.


(** A contract outside the market's list ("evil.near") lists a token of
    its own for the seller. *)
Definition evil_env : Env := mkEnv 0 "evil.near" "seller.near" 0 "market.near".
Definition evil_args : Sales.SaleArgs := Sales.mkSaleArgs {[ NEAR := 1 ]} None None None None.


Lemma nft_on_approve_any_contract_witness :
  ("evil.near" ∉ Market.non_fungible_token_account_ids storage_demo) /\
  nft_on_approve evil_env "fake" "seller.near" 0 (Some (ArgsSale evil_args)) storage_demo =
    st_bind (Sales.start_sale evil_env evil_args "fake" "seller.near" 0 "evil.near") (fun _ => st_ret tt)
      storage_demo.
Proof.
  split; [refine (bool_decide_unpack _ _); vm_compute; reflexivity|].
  exact (nft_on_approve_any_contract evil_env "fake" 0 evil_args storage_demo
           ltac:(refine (bool_decide_unpack _ _); vm_compute; reflexivity)
           ltac:(vm_compute; discriminate) ltac:(vm_compute; discriminate)).
Defined.

End Storage.
