(* ===== verification/Hack.v ===== *)
(** * Test-only entry points ([src/market/src/hack.rs])

    Three public methods, left in the contract without any check of the
    caller, set the end of a sale, of the last NEAR bid of a sale, or of an
    auction to the current time.  The theorems show what they open up:
    any account can cut an auction short and settle it at the next block,
    and any account can remove anyone's sale. *)

From S2P Require Import Prelude Fee State Bids Sales Auctions.
Import Fee BidLedger.

Module Hack.

(** [Market::hack_finish_sale] *)
Definition hack_finish_sale (env : Env) (nft_contract_token : string) : M unit :=
  let! m := st_get in
  let! sale := st_lift (expect (Market.sales m !! nft_contract_token) "no sale") in
  let sale := Sale.set_end (Some (block_timestamp env)) sale in
  st_modify (fun m => Market.set_sales (<[nft_contract_token := sale]> (Market.sales m)) m).

(** [bid.end = Some(U64(env::block_timestamp()))] *)
Definition bid_set_end (e : Z) (b : Bid.t) : Bid.t :=
  Bid.mk (Bid.owner_id b) (Bid.price b) (Bid.start b) (Some e) (Bid.origins b).

(** [Market::hack_finish_bid]: the last bid of the NEAR bucket, in place. *)
Definition hack_finish_bid (env : Env) (nft_contract_token : string) : M unit :=
  let! m := st_get in
  let! sale := st_lift (expect (Market.sales m !! nft_contract_token) "no sale") in
  let! bs := st_lift (expect (Sale.bids sale !! NEAR) "no bids") in
  let bs := match last bs with
            | Some b => removelast bs ++ [bid_set_end (block_timestamp env) b]
            | None => bs
            end in
  let sale := Sale.set_bids (<[NEAR := bs]> (Sale.bids sale)) sale in
  st_modify (fun m => Market.set_sales (<[nft_contract_token := sale]> (Market.sales m)) m).

(** [Market::hack_finish_auction] *)
Definition hack_finish_auction (env : Env) (auction_id : Z) : M unit :=
  let! m := st_get in
  let! auction := st_lift (expect (Market.auctions m !! auction_id) "no auction") in
  let auction := Auction.set_end (block_timestamp env) auction in
  st_modify (fun m => Market.set_auctions (<[auction_id := auction]> (Market.auctions m)) m).

(** ** Theorems *)

(** Anyone can cut an auction short: after [hack_finish_auction] by
    any account at time [t], [finish_auction] by any account at any later
    time succeeds on an auction with a bid, whatever its scheduled end,
    removes it and starts the transfer of the token to the bidder. *)
Lemma hack_finish_auction_cuts_short env env2 id m a b :
  Market.auctions m !! id = Some a -> Auction.bid a = Some b ->
  block_timestamp env < block_timestamp env2 ->
  match hack_finish_auction env id m with
  | Ok (_, m1) =>
      exists m2, Auctions.finish_auction env2 id m1 = Ok (tt, m2) /\ Market.auctions m2 !! id = None /\
        Market.promises m2 = Market.promises m1 ++
          [Auctions.finish_transfer env2 (Auction.set_end (block_timestamp env) a) b]
  | Err _ => False
  end.
Proof.
  intros Ha Hb Ht. unfold hack_finish_auction, st_bind, st_get, st_lift, st_modify.
  rewrite Ha. simpl.
  unfold Auctions.finish_auction, st_bind, st_get, st_lift, st_put, require, emit, st_modify. market_simpl.
  rewrite lookup_insert_eq. simpl. rewrite bool_decide_eq_true_2 by (simpl; lia).
  simpl. rewrite Hb. simpl. eexists. split; [reflexivity|]. market_simpl.
  split; [apply lookup_delete_eq | done].
Qed.

(** Anyone can remove anyone's sale: once [hack_finish_sale] (callable
    by any account) has set the end of a sale to now, [remove_sale] at that
    time or later no longer looks at its caller; a stranger removing the
    sale gets exactly the outcome of the owner removing it. *)
Lemma hack_finish_sale_opens_removal env env2 who nft tok m :
  block_timestamp env <= block_timestamp env2 ->
  match hack_finish_sale env (contract_and_token_id nft tok) m with
  | Ok (_, m1) =>
      Sales.remove_sale env2 nft tok m1 =
      Sales.remove_sale (mkEnv (block_timestamp env2) who (signer_account_id env2)
                           (attached_deposit env2) (current_account_id env2)) nft tok m1
  | Err _ => True
  end.
Proof.
  intros Ht. unfold hack_finish_sale, st_bind, st_get, st_lift, st_modify.
  destruct (Market.sales m !! contract_and_token_id nft tok) as [sale|] eqn:Hs; [|done]. simpl.
  unfold Sales.remove_sale, st_bind, st_lift, assert_one_yocto. simpl.
  destruct (bool_decide _); simpl; [|done].
  destruct (Sales.internal_remove_sale nft tok _) as [[sale' m2]|] eqn:Hr; [|done].
  apply Sales.internal_remove_sale_deletes in Hr as (Hs' & _ & _).
  market_simpl. rewrite lookup_insert_eq in Hs'. injection Hs' as <-.
  unfold Sale.in_limits. market_simpl.
  rewrite (bool_decide_eq_false_2 (block_timestamp env2 < block_timestamp env)) by lia.
  by rewrite andb_false_r.
Qed.

(** C26: The hack entry points are open to every account.  After
    [hack_finish_auction] by any account, [finish_auction] by any account
    at any later time settles an auction with a bid, whatever its
    scheduled end: it removes the auction and starts the transfer of the
    token to the bidder.  After [hack_finish_sale] by any account,
    [remove_sale] at that time or later no longer looks at its caller: a
    stranger removing the sale gets exactly the outcome of the owner
    removing it. *)
Theorem hack_entry_points_unrestricted :
  (forall env env2 id m a b,
     Market.auctions m !! id = Some a -> Auction.bid a = Some b ->
     block_timestamp env < block_timestamp env2 ->
     match hack_finish_auction env id m with
     | Ok (_, m1) =>
         exists m2, Auctions.finish_auction env2 id m1 = Ok (tt, m2) /\ Market.auctions m2 !! id = None /\
           Market.promises m2 = Market.promises m1 ++
             [Auctions.finish_transfer env2 (Auction.set_end (block_timestamp env) a) b]
     | Err _ => False
     end) /\
  (forall env env2 who nft tok m,
     block_timestamp env <= block_timestamp env2 ->
     match hack_finish_sale env (contract_and_token_id nft tok) m with
     | Ok (_, m1) =>
         Sales.remove_sale env2 nft tok m1 =
         Sales.remove_sale (mkEnv (block_timestamp env2) who (signer_account_id env2)
                              (attached_deposit env2) (current_account_id env2)) nft tok m1
     | Err _ => True
     end).
Proof. split; [apply hack_finish_auction_cuts_short | apply hack_finish_sale_opens_removal]. Qed.

(** ** Witnesses *)

Lemma hack_entry_points_unrestricted_witness :
  match hack_finish_auction (Demo.env "mallory.near" (Auctions.bob_time + 1) 0) 0 Auctions.demo_bob with
  | Ok (_, m1) =>
      exists m2, Auctions.finish_auction (Demo.env "mallory.near" (Auctions.bob_time + 2) 0) 0 m1 = Ok (tt, m2) /\
        Market.auctions m2 !! 0 = None /\
        Market.promises m2 = Market.promises m1 ++
          [Auctions.finish_transfer (Demo.env "mallory.near" (Auctions.bob_time + 2) 0)
             (Auction.set_end (Auctions.bob_time + 1) Auctions.demo_bob_auction)
             (Auctions.new_bid Auctions.bob_env None)]
  | Err _ => False
  end /\
  match hack_finish_sale (Demo.env "mallory.near" 10 0) Demo.key Demo.market with
  | Ok (_, m1) =>
      Sales.remove_sale (Demo.env "mallory.near" 10 1) "nft.near" "1:1" m1 =
      Sales.remove_sale (mkEnv 10 "seller.near" "mallory.near" 1 "market.near") "nft.near" "1:1" m1
  | Err _ => True
  end.
Proof.
  destruct hack_entry_points_unrestricted as [Hauction Hsale]. split.
  - exact (Hauction (Demo.env "mallory.near" (Auctions.bob_time + 1) 0)
             (Demo.env "mallory.near" (Auctions.bob_time + 2) 0) 0 Auctions.demo_bob
             Auctions.demo_bob_auction (Auctions.new_bid Auctions.bob_env None)
             ltac:(vm_compute; reflexivity) ltac:(vm_compute; reflexivity) ltac:(vm_compute; reflexivity)).
  - exact (Hsale (Demo.env "mallory.near" 10 0) (Demo.env "mallory.near" 10 1)
             "seller.near" "nft.near" "1:1" Demo.market ltac:(vm_compute; discriminate)).
Defined.

End Hack.
