(* ===== verification/Lifecycle.v ===== *)
(** * The market as a transition system ([#[near_bindgen] impl Market])

    Every public method of the market contract is a [call]; [exec] runs it
    on the state, and a [step] is any successful call by any account at
    any time with any deposit.  The settlement callbacks ([#[private]]
    [resolve_purchase], [resolve_finish_auction], [resolve_token_buy]) are
    steps with arbitrary arguments and arbitrary answers of the NFT
    contract, which over-approximates the runtime, where only the market
    itself schedules them.  A failed call reverts, so it is no step.

    [market_ok] collects what holds in every reachable state: the bid
    history length stays 5, every bucket of every sale satisfies the
    ledger invariant, the storage deposits cover every owner's listings,
    and every auction id is below [next_auction_id].  It is proved by
    induction on the reflexive-transitive closure of [step] from
    [Market::new]. *)

From S2P Require Import Prelude Fee State Bids Sales Settlement Auctions Storage Hack.
Import Fee BidLedger.

Module Lifecycle.

(** The public methods of the market, with their arguments. *)
Inductive call :=
| StorageDeposit (account_id : option string)
| StorageWithdraw
| NftOnApprove (token_id owner_id : string) (approval_id : Z) (msg : option Storage.ArgsKind)
| RemoveSale (nft_contract_id token_id : string)
| UpdatePrice (nft_contract_id token_id ft_token_id : string) (price : Z)
| Offer (nft_contract_id token_id ft_token_id : string) (start duration : option Z)
        (origins : option Origins)
| AcceptOffer (nft_contract_id token_id ft_token_id : string)
| RemoveBid (nft_contract_id token_id ft_token_id : string) (price : Z)
| CancelBid (nft_contract_id token_id ft_token_id owner_id : string) (price : Z)
| CancelExpiredBids (nft_contract_id token_id ft_token_id : string)
| AuctionAddBid (auction_id : Z) (token_type : option string) (origins : option Origins)
| CancelAuction (auction_id : Z)
| FinishAuction (auction_id : Z)
| ResolvePurchase (ft_token_id buyer_id : string) (sale : Sale.t) (price : Z)
                  (result : option Settlement.Payout)
| ResolveFinishAuction (ft_token_id buyer_id : string) (price : Z) (result : option Settlement.Payout)
| ResolveTokenBuy (buyer_id : string) (deposit price : Z) (result : option Settlement.Payout)
| HackFinishSale (nft_contract_token : string)
| HackFinishBid (nft_contract_token : string)
| HackFinishAuction (auction_id : Z).

Definition discard {A} (c : M A) : M unit := let! _ := c in st_ret tt.

(** The dispatcher of [#[near_bindgen]]. *)
Definition exec (env : Env) (c : call) : M unit :=
  match c with
  | StorageDeposit a => Storage.storage_deposit env a
  | StorageWithdraw => Storage.storage_withdraw env
  | NftOnApprove tok owner appr msg => Storage.nft_on_approve env tok owner appr msg
  | RemoveSale nft tok => Sales.remove_sale env nft tok
  | UpdatePrice nft tok ft p => Sales.update_price env nft tok ft p
  | Offer nft tok ft st d o => Sales.offer env nft tok ft st d o
  | AcceptOffer nft tok ft => Sales.accept_offer env nft tok ft
  | RemoveBid nft tok ft p => remove_bid env nft tok ft p
  | CancelBid nft tok ft o p => cancel_bid env nft tok ft o p
  | CancelExpiredBids nft tok ft => cancel_expired_bids env nft tok ft
  | AuctionAddBid id ty o => Auctions.auction_add_bid env id ty o
  | CancelAuction id => Auctions.cancel_auction env id
  | FinishAuction id => Auctions.finish_auction env id
  | ResolvePurchase ft b s p r => discard (Settlement.resolve_purchase ft b s p r)
  | ResolveFinishAuction ft b p r => discard (Settlement.resolve_finish_auction ft b p r)
  | ResolveTokenBuy b d p r => discard (Settlement.resolve_token_buy b d p r)
  | HackFinishSale k => Hack.hack_finish_sale env k
  | HackFinishBid k => Hack.hack_finish_bid env k
  | HackFinishAuction id => Hack.hack_finish_auction env id
  end.

Inductive step : Market.t -> Market.t -> Prop :=
| step_call env c m m' : exec env c m = Ok (tt, m') -> step m m'.

(** The states reachable from the contract's initialisation. *)
Definition reachable (m : Market.t) : Prop :=
  exists nft_ids owner, rtc step (Market.new nft_ids owner) m.

(** ** The invariant *)

Definition sales_ok (m : Market.t) : Prop :=
  map_Forall (fun _ s => sale_bids_ok Market.BID_HISTORY_LENGTH_DEFAULT s) (Market.sales m).

Definition auction_ids_ok (m : Market.t) : Prop :=
  0 <= Market.next_auction_id m /\
  map_Forall (fun id _ => 0 <= id < Market.next_auction_id m) (Market.auctions m).

Definition market_ok (m : Market.t) : Prop :=
  Market.bid_history_length m = Market.BID_HISTORY_LENGTH_DEFAULT /\
  sales_ok m /\ Storage.storage_ok m /\ auction_ids_ok m.

(** ** Preservation, compositionally *)

(** A computation preserves the invariant when every successful run from a
    state that satisfies it ends in one that does. *)
Definition preserves {A} (c : M A) : Prop :=
  forall m r m', market_ok m -> c m = Ok (r, m') -> market_ok m'.

Lemma preserves_bind {A B} (c : M A) (k : A -> M B) :
  preserves c -> (forall a, preserves (k a)) -> preserves (st_bind c k).
Proof.
  intros Hc Hk m r m' Hm H. apply st_bind_ok in H as (a & s' & H1 & H2).
  eapply Hk; [eapply Hc|]; eauto.
Qed.

Lemma preserves_lift {A} (x : result A) : preserves (st_lift x).
Proof. intros m r m' Hm H. by st_inv. Qed.

Lemma preserves_ret {A} (a : A) : preserves (st_ret a).
Proof. intros m r m' Hm H. by st_inv. Qed.

Lemma preserves_get : preserves st_get.
Proof. intros m r m' Hm H. by st_inv. Qed.

Lemma market_ok_set_promises P m : market_ok m -> market_ok (Market.set_promises P m).
Proof. by destruct m. Qed.

Lemma preserves_emit a : preserves (emit a).
Proof. intros m r m' Hm H. rewrite emit_run in H. injection H as _ <-. by apply market_ok_set_promises. Qed.

Lemma preserves_iter {A} (f : A -> M unit) l : (forall x, preserves (f x)) -> preserves (st_iter f l).
Proof.
  intros Hf. induction l as [|x l IH]; simpl; [apply preserves_ret|].
  apply preserves_bind; [apply Hf | intros; apply IH].
Qed.

Lemma preserves_refund_bid ft o p : preserves (refund_bid ft o p).
Proof.
  intros m r m' Hm H. rewrite refund_bid_run in H. injection H as _ <-. by apply market_ok_set_promises.
Qed.

#[export] Hint Resolve preserves_bind preserves_lift preserves_ret preserves_get preserves_emit
  preserves_iter preserves_refund_bid : market.

(** Decompose a computation built from the effect-only combinators. *)
Ltac preserves_auto :=
  repeat first [ apply preserves_bind; [|intros []] | apply preserves_bind; [|intro]
               | apply preserves_iter; intros [? ?] | apply preserves_iter; intro
               | progress (eauto with market) ].

Lemma preserves_refund_all_bids bs : preserves (refund_all_bids bs).
Proof. unfold refund_all_bids. preserves_auto. Qed.

Lemma preserves_resolve_purchase ft b s p r : preserves (Settlement.resolve_purchase ft b s p r).
Proof.
  unfold Settlement.resolve_purchase, Settlement.pay_all.
  destruct (_ ≫= _); [|case_bool_decide]; preserves_auto; apply preserves_refund_all_bids.
Qed.

Lemma preserves_resolve_finish_auction ft b p r :
  preserves (Settlement.resolve_finish_auction ft b p r).
Proof.
  unfold Settlement.resolve_finish_auction, Settlement.pay_all.
  destruct (_ ≫= _); [|case_bool_decide]; preserves_auto.
Qed.

Lemma preserves_resolve_token_buy b d p r : preserves (Settlement.resolve_token_buy b d p r).
Proof. unfold Settlement.resolve_token_buy. destruct (_ ≫= _); preserves_auto. Qed.

(** ** Handlers that change only the sales *)

Lemma market_ok_sales m m' :
  market_ok m -> only_sales_promises m m' -> sales_ok m' -> market_ok m'.
Proof.
  intros (Hh & _ & Hst & Hid) Hfr Hs. rewrite Hfr in Hs |- *. unfold market_ok.
  by destruct m.
Qed.

(** A sale is replaced by one whose bids satisfy the ledger invariant. *)
Lemma sales_ok_insert m m' key sale' :
  sales_ok m -> Market.sales m' = <[key := sale']> (Market.sales m) ->
  sale_bids_ok Market.BID_HISTORY_LENGTH_DEFAULT sale' -> sales_ok m'.
Proof. intros Hs Heq Hok. unfold sales_ok. rewrite Heq. by apply map_Forall_insert_2. Qed.

Lemma sales_ok_lookup m key sale :
  market_ok m -> Market.sales m !! key = Some sale ->
  sale_bids_ok (Market.bid_history_length m) sale.
Proof. intros (-> & Hs & _) Hl. by apply (Hs key). Qed.

Lemma preserves_internal_remove_bid nft ft tok owner price :
  preserves (internal_remove_bid nft ft tok owner price).
Proof.
  intros m r m' Hm H.
  destruct (Market.sales m !! contract_and_token_id nft tok) as [sale|] eqn:Hs.
  - destruct (internal_remove_bid_preserves _ _ _ _ _ _ _ _ _ Hs (sales_ok_lookup _ _ _ Hm Hs) H)
      as (sale' & Heq & Hok & Hfr).
    apply (market_ok_sales m m'); [done|done|]. destruct Hm as (Hh & Hso & _).
    rewrite Hh in Hok. by eapply sales_ok_insert.
  - unfold internal_remove_bid, st_bind, st_get, st_lift in H. simpl in H. by rewrite Hs in H.
Qed.

Lemma preserves_cancel_expired_bids env nft tok ft : preserves (cancel_expired_bids env nft tok ft).
Proof.
  intros m r m' Hm H. destruct r.
  destruct (Market.sales m !! contract_and_token_id nft tok) as [sale|] eqn:Hs.
  - destruct (cancel_expired_bids_preserves _ _ _ _ _ _ _ Hs (sales_ok_lookup _ _ _ Hm Hs) H)
      as (sale' & Heq & Hok & Hfr).
    apply (market_ok_sales m m'); [done|done|]. destruct Hm as (Hh & Hso & _).
    rewrite Hh in Hok. by eapply sales_ok_insert.
  - unfold cancel_expired_bids, st_bind, st_get, st_lift in H. simpl in H. by rewrite Hs in H.
Qed.

Lemma preserves_add_bid key amount ft buyer sale start e origins m m' :
  market_ok m -> sale_bids_ok Market.BID_HISTORY_LENGTH_DEFAULT sale ->
  add_bid key amount ft buyer sale start e origins m = Ok (tt, m') -> market_ok m'.
Proof.
  intros Hm Hsale H. pose proof Hm as (Hh & Hso & _). rewrite <- Hh in Hsale.
  destruct (add_bid_stores _ _ _ _ _ _ _ _ _ _ ltac:(rewrite Hh; done) Hsale H)
    as (sale' & Heq & Hok & _ & Hfr).
  apply (market_ok_sales m m'); [done|done|]. rewrite Hh in Hok. by eapply sales_ok_insert.
Qed.

Lemma preserves_remove_bid env nft tok ft price : preserves (remove_bid env nft tok ft price).
Proof.
  unfold remove_bid. apply preserves_bind; [apply preserves_lift|intros _].
  apply preserves_bind; [apply preserves_internal_remove_bid|intros _]. apply preserves_refund_bid.
Qed.

Lemma preserves_cancel_bid env nft tok ft owner price : preserves (cancel_bid env nft tok ft owner price).
Proof.
  unfold cancel_bid. apply preserves_bind; [apply preserves_internal_remove_bid|intros removed].
  apply preserves_bind; [apply preserves_lift|intros b].
  destruct (Bid.end_ b); preserves_auto.
Qed.

(** A sale replaced by one with the same bids. *)
Lemma market_ok_same_bids m key sale sale' :
  market_ok m -> Market.sales m !! key = Some sale -> Sale.bids sale' = Sale.bids sale ->
  market_ok (Market.set_sales (<[key := sale']> (Market.sales m)) m).
Proof.
  intros Hm Hs Hb. apply (market_ok_sales m); [done|frame_solve|].
  eapply sales_ok_insert; [apply Hm|by market_simpl|].
  pose proof (sales_ok_lookup _ _ _ Hm Hs) as Hok. rewrite (proj1 Hm) in Hok.
  unfold sale_bids_ok in *. by rewrite Hb.
Qed.

Lemma preserves_update_price env nft tok ft price : preserves (Sales.update_price env nft tok ft price).
Proof.
  intros m r m' Hm H. unfold Sales.update_price in H. st_inv.
  eapply market_ok_same_bids; eauto.
Qed.

Lemma preserves_hack_finish_sale env key : preserves (Hack.hack_finish_sale env key).
Proof.
  intros m r m' Hm H. unfold Hack.hack_finish_sale in H. st_inv.
  eapply market_ok_same_bids; eauto.
Qed.

Lemma bid_value_set_end e b : bid_value (Hack.bid_set_end e b) = bid_value b.
Proof. reflexivity. Qed.

(** Setting the end of the last bid keeps a bucket well formed: the value
    of a bid does not depend on its end. *)
Lemma bucket_ok_set_end_last N l b e :
  last l = Some b -> bucket_ok N l -> bucket_ok N (removelast l ++ [Hack.bid_set_end e b]).
Proof.
  intros Hl (Hne & Hlen & Hv & Hs). apply last_Some in Hl as [l' ->]. rewrite removelast_last.
  rewrite length_app in Hlen. apply Forall_app in Hv as [Hv1 Hv2].
  apply StronglySorted_app in Hs as (Hx & Hs1 & _). split_and!.
  - by destruct l'.
  - rewrite length_app. simpl in *. lia.
  - apply Forall_app. split; [done|]. constructor; [|constructor].
    inversion Hv2. by rewrite bid_value_set_end.
  - apply StronglySorted_app_2; [|done|repeat constructor].
    intros x1 x2 Hx1 ->%list_elem_of_singleton. unfold bid_lt, bid_ltb. rewrite bid_value_set_end.
    apply (Hx x1 b Hx1). by apply list_elem_of_singleton.
Qed.

Lemma preserves_hack_finish_bid env key : preserves (Hack.hack_finish_bid env key).
Proof.
  intros m r m' Hm H. unfold Hack.hack_finish_bid in H. st_inv.
  eapply market_ok_sales; [eassumption|frame_solve|].
  eapply sales_ok_insert; [apply Hm|by market_simpl|].
  pose proof (sales_ok_lookup _ _ _ Hm ltac:(eassumption)) as Hok. rewrite (proj1 Hm) in Hok.
  unfold sale_bids_ok in *. cbn [Sale.bids Sale.set_bids]. apply map_Forall_insert_2; [|done].
  match goal with Hb : Sale.bids _ !! NEAR = Some ?bs |- _ => pose proof (Hok _ _ Hb) end.
  destruct (last _) eqn:Hl; [by apply bucket_ok_set_end_last | done].
Qed.

(** ** Removing a sale *)

Lemma index_remove_shrinks k e msg idx idx' :
  Sales.index_remove k e msg idx = Ok idx' ->
  forall o s', idx' !! o = Some s' -> exists s, idx !! o = Some s /\ (size s' <= size s)%nat.
Proof.
  unfold Sales.index_remove. intros H o s' Hs'. st_inv.
  destruct (decide (o = k)) as [->|Hne]; case_bool_decide.
  - by rewrite lookup_delete_eq in Hs'.
  - rewrite lookup_insert_eq in Hs'. injection Hs' as <-. eexists. split; [done|].
    apply Storage.size_index_remove_le.
  - rewrite lookup_delete_ne in Hs' by done. eauto.
  - rewrite lookup_insert_ne in Hs' by done. eauto.
Qed.

Lemma preserves_internal_remove_sale nft tok : preserves (Sales.internal_remove_sale nft tok).
Proof.
  intros m r m' Hm H. destruct r as [sale m0].
  apply Sales.internal_remove_sale_inv in H as (bo & bc & bt & Hs & Ho & _ & _ & ->).
  destruct Hm as (Hh & Hso & [Hd Hst] & [Hid1 Hid2]).
  unfold market_ok, sales_ok, Storage.storage_ok, auction_ids_ok in *.
  market_simpl. split_and!; try done.
  - by apply map_Forall_delete.
  - intros o s' Hs'. destruct (index_remove_shrinks _ _ _ _ _ Ho o s' Hs') as (s & Hs0 & Hle).
    etrans; [|exact (Hst o s Hs0)].
    apply Z.mul_le_mono_nonneg_r; [pose proof Storage.storage_per_sale_pos; lia | lia].
Qed.

Lemma preserves_process_purchase env nft tok ft price buyer origins :
  preserves (Sales.process_purchase env nft tok ft price buyer origins).
Proof.
  unfold Sales.process_purchase. apply preserves_bind; [apply preserves_internal_remove_sale|intros].
  apply preserves_emit.
Qed.

Lemma preserves_remove_sale env nft tok : preserves (Sales.remove_sale env nft tok).
Proof.
  unfold Sales.remove_sale. apply preserves_bind; [apply preserves_lift|intros _].
  apply preserves_bind; [apply preserves_internal_remove_sale|intros sale].
  apply preserves_bind; [apply preserves_lift|intros _]. apply preserves_refund_all_bids.
Qed.

Lemma preserves_accept_offer env nft tok ft : preserves (Sales.accept_offer env nft tok ft).
Proof.
  intros m r m' Hm H. unfold Sales.accept_offer in H. st_inv.
  unfold st_modify in *. st_inv.
  eapply preserves_process_purchase; [|eassumption].
  eapply market_ok_sales; [eassumption|frame_solve|].
  eapply sales_ok_insert; [apply Hm|by market_simpl|].
  pose proof (sales_ok_lookup _ _ _ Hm ltac:(eassumption)) as Hok. rewrite (proj1 Hm) in Hok.
  unfold sale_bids_ok in *. cbn [Sale.bids Sale.set_bids]. by apply map_Forall_delete.
Qed.

Lemma preserves_offer env nft tok ft start duration origins :
  preserves (Sales.offer env nft tok ft start duration origins).
Proof.
  intros m r m' Hm H. destruct r. unfold Sales.offer in H. st_inv.
  match goal with Hs : Market.sales _ !! _ = Some ?sale |- _ =>
    pose proof (sales_ok_lookup _ _ _ Hm Hs) as Hok end.
  rewrite (proj1 Hm) in Hok.
  destruct (bool_decide _).
  - by eapply preserves_process_purchase.
  - st_inv. destruct duration; st_inv; by eapply preserves_add_bid.
Qed.

(** ** Opening listings *)

Lemma start_sale_frame env a tok owner appr nft m json m' :
  Sales.start_sale env a tok owner appr nft m = Ok (json, m') ->
  exists sale, json = json_from_sale sale /\ Sale.owner_id sale = owner /\
  Market.sales m' = <[contract_and_token_id nft tok := sale]> (Market.sales m) /\ Sale.bids sale = ∅ /\
  Market.auctions m' = Market.auctions m /\ Market.next_auction_id m' = Market.next_auction_id m /\
  Market.bid_history_length m' = Market.bid_history_length m /\ Market.promises m' = Market.promises m.
Proof.
  unfold Sales.start_sale. intros H. st_inv.
  destruct (Sales.token_type a); st_inv; unfold st_put in *; st_inv; eexists; split_and!; try done; by market_simpl.
Qed.

Lemma auction_ids_ok_insert_next m m' a :
  auction_ids_ok m ->
  Market.next_auction_id m' = Market.next_auction_id m + 1 ->
  Market.auctions m' = <[Market.next_auction_id m := a]> (Market.auctions m) -> auction_ids_ok m'.
Proof.
  intros [Hn Hid] Hn' Ha. unfold auction_ids_ok. rewrite Hn', Ha. split; [lia|].
  apply map_Forall_insert_2; [lia|]. intros i x Hi. pose proof (Hid i x Hi). simpl in *. lia.
Qed.

Lemma preserves_nft_on_approve env tok owner appr msg :
  preserves (Storage.nft_on_approve env tok owner appr msg).
Proof.
  intros m r m' Hm H. destruct r.
  pose proof (Storage.nft_on_approve_storage _ _ _ _ _ _ _ (proj1 (proj2 (proj2 Hm))) H) as Hst.
  destruct Hm as (Hh & Hso & _ & Hid). unfold Storage.nft_on_approve in H. st_inv.
  match goal with Hm : match ?a with Storage.ArgsSale _ => _ | Storage.ArgsAuction _ => _ end _ = Ok _ |- _ =>
    destruct a as [a|a]; st_inv end.
  - match goal with Hss : Sales.start_sale _ _ _ _ _ _ _ = Ok _ |- _ =>
      apply start_sale_frame in Hss as (? & _ & _ & Hs & Hb & Ha & Hn & Hh' & _) end.
    split_and!; [by rewrite Hh'| |done|].
    + unfold sales_ok. rewrite Hs. apply map_Forall_insert_2; [|done].
      unfold sale_bids_ok. rewrite Hb. apply map_Forall_empty.
    + unfold auction_ids_ok. by rewrite Ha, Hn.
  - match goal with Hs : Auctions.start_auction _ _ _ _ _ _ _ = Ok _ |- _ =>
      apply Auctions.start_auction_inv in Hs as (? & ? & ? & ? & _ & _ & _ & _ & _ & _ & _ & _ & ->) end.
    split_and!; [by market_simpl|by market_simpl|done|].
    eapply auction_ids_ok_insert_next; [done|by market_simpl|by market_simpl].
Qed.

(** ** Storage deposits *)

Lemma preserves_storage_deposit env acc : preserves (Storage.storage_deposit env acc).
Proof.
  intros m r m' Hm H. unfold Storage.storage_deposit in H. st_inv. unfold st_modify in *. st_inv.
  destruct Hm as (Hh & Hso & [Hd Ho] & [Hn Hid]).
  match goal with Hc : checked_add _ _ _ = Ok _ |- _ =>
    unfold checked_add in Hc; destruct (_ <=? _) eqn:E in Hc; [injection Hc as <-|done];
    apply Z.leb_le in E end.
  set (o := default (predecessor_account_id env) acc) in *.
  pose proof (Storage.storage_ok_deposit_bound _ o (conj Hd Ho)). pose proof Storage.storage_per_sale_pos.
  unfold market_ok, sales_ok, Storage.storage_ok, auction_ids_ok in *. market_simpl.
  split_and!; try done.
  - apply map_Forall_insert_2; [lia|done].
  - intros o' s Hs. pose proof (Ho o' s Hs).
    destruct (decide (o' = o)) as [->|Hne]; [rewrite lookup_insert_eq; simpl; lia|].
    by rewrite lookup_insert_ne.
Qed.

Lemma preserves_storage_withdraw env : preserves (Storage.storage_withdraw env).
Proof.
  intros m r m' Hm H. destruct (decide (attached_deposit env = 1)) as [H1|H1].
  2: { unfold Storage.storage_withdraw, assert_one_yocto, st_bind, st_lift in H.
       by rewrite bool_decide_eq_false_2 in H. }
  destruct Hm as (Hh & Hso & Hst & Hid).
  rewrite (Storage.storage_withdraw_run env m Hst H1) in H. injection H as _ <-.
  set (o := predecessor_account_id env) in *.
  pose proof (Storage.storage_ok_supply m o Hst). pose proof (Storage.storage_ok_deposit_bound m o Hst).
  pose proof (Storage.get_supply_nonneg m o). pose proof Storage.storage_per_sale_pos.
  destruct Hst as [Hd Ho]. destruct Hid as [Hn Hid].
  unfold market_ok, sales_ok, Storage.storage_ok, auction_ids_ok in *. market_simpl.
  split_and!; try done.
  - case_bool_decide; [apply map_Forall_insert_2; [nia|]|]; by apply map_Forall_delete.
  - intros o' s Hs. destruct (decide (o' = o)) as [->|Hne].
    + unfold Storage.get_supply_by_owner_id in *. rewrite Hs in *. simpl in *.
      case_bool_decide; [rewrite lookup_insert_eq; simpl; lia|].
      rewrite lookup_delete_eq. simpl. nia.
    + pose proof (Ho o' s Hs).
      case_bool_decide; rewrite ?lookup_insert_ne, lookup_delete_ne by done; done.
Qed.

(** ** Auctions *)

Lemma market_ok_auctions m auctions' :
  market_ok m ->
  map_Forall (fun id _ => 0 <= id < Market.next_auction_id m) auctions' ->
  market_ok (Market.set_auctions auctions' m).
Proof. intros (Hh & Hso & Hst & [Hn _]) Hid. by destruct m. Qed.

Lemma auction_ids_update m id a :
  auction_ids_ok m -> is_Some (Market.auctions m !! id) ->
  map_Forall (fun id _ => 0 <= id < Market.next_auction_id m) (<[id := a]> (Market.auctions m)).
Proof.
  intros [_ Hid] [a0 Ha0]. apply map_Forall_insert_2; [|done]. by apply (Hid id a0).
Qed.

Lemma auction_ids_delete m id :
  auction_ids_ok m ->
  map_Forall (fun id _ => 0 <= id < Market.next_auction_id m) (delete id (Market.auctions m)).
Proof. intros [_ Hid]. by apply map_Forall_delete. Qed.

Lemma preserves_auction_add_bid env id ty origins : preserves (Auctions.auction_add_bid env id ty origins).
Proof.
  intros m r m' Hm H. destruct r.
  apply Auctions.auction_add_bid_inv in H as (? & a & ? & ? & ? & ? & _ & _ & Ha & _ & _ & _ & _ & _ & _ & ->).
  apply market_ok_auctions; [by apply market_ok_set_promises|]. market_simpl.
  apply auction_ids_update; [apply Hm|by eexists].
Qed.

Lemma preserves_cancel_auction env id : preserves (Auctions.cancel_auction env id).
Proof.
  intros m r m' Hm H. unfold Auctions.cancel_auction in H. st_inv. unfold st_modify in *. st_inv.
  apply market_ok_auctions; [done|]. apply auction_ids_delete, Hm.
Qed.

Lemma preserves_finish_auction env id : preserves (Auctions.finish_auction env id).
Proof.
  intros m r m' Hm H. unfold Auctions.finish_auction in H. st_inv. unfold st_put in *. st_inv.
  eapply preserves_emit; [|eassumption].
  apply market_ok_auctions; [done|]. apply auction_ids_delete, Hm.
Qed.

Lemma preserves_hack_finish_auction env id : preserves (Hack.hack_finish_auction env id).
Proof.
  intros m r m' Hm H. unfold Hack.hack_finish_auction in H. st_inv. unfold st_modify in *. st_inv.
  apply market_ok_auctions; [done|]. apply auction_ids_update; [apply Hm|by eexists].
Qed.

(** ** Every call preserves the invariant *)

Lemma preserves_discard {A} (c : M A) : preserves c -> preserves (discard c).
Proof. intros Hc. unfold discard. apply preserves_bind; [done|intros; apply preserves_ret]. Qed.

Lemma exec_preserves env c : preserves (exec env c).
Proof.
  destruct c; simpl;
    eauto using preserves_storage_deposit, preserves_storage_withdraw, preserves_nft_on_approve,
      preserves_remove_sale, preserves_update_price, preserves_offer, preserves_accept_offer,
      preserves_remove_bid, preserves_cancel_bid, preserves_cancel_expired_bids,
      preserves_auction_add_bid, preserves_cancel_auction, preserves_finish_auction,
      preserves_discard, preserves_resolve_purchase, preserves_resolve_finish_auction,
      preserves_resolve_token_buy, preserves_hack_finish_sale, preserves_hack_finish_bid,
      preserves_hack_finish_auction.
Qed.

Lemma market_ok_new nft_ids owner : market_ok (Market.new nft_ids owner).
Proof.
  split_and!; try done; unfold sales_ok, Storage.storage_ok, auction_ids_ok; simpl;
    try split; try apply map_Forall_empty; done.
Qed.

(** The invariant of the whole contract: it holds in every reachable state. *)
Lemma reachable_market_ok m : reachable m -> market_ok m.
Proof.
  intros (ids & owner & Hr). remember (Market.new ids owner) as m0 eqn:E.
  assert (market_ok m0) as H0 by (subst; apply market_ok_new). clear E.
  induction Hr as [m0|m0 m1 m2 [env c ? ? Hs] _ IH]; [done|].
  apply IH. by eapply exec_preserves.
Qed.

(** ** Runs *)

(** A sequence of calls, each by its own environment. *)
Fixpoint run (m : Market.t) (calls : list (Env * call)) : result Market.t :=
  match calls with
  | [] => Ok m
  | (env, c) :: calls' =>
      match exec env c m with
      | Ok (_, m') => run m' calls'
      | Err e => Err e
      end
  end.

Lemma run_rtc m calls m' : run m calls = Ok m' -> rtc step m m'.
Proof.
  revert m. induction calls as [|[env c] calls IH]; intros m H; simpl in H; [by injection H as ->|].
  destruct (exec env c m) as [[[] m1]|] eqn:E; [|done].
  eapply rtc_l; [by econstructor|]. by apply IH.
Qed.

Lemma run_reachable ids owner calls m : run (Market.new ids owner) calls = Ok m -> reachable m.
Proof. intros H. exists ids, owner. by eapply run_rtc. Qed.

(** ** Consequences *)

(** C28: In every reachable state, every currency bucket of every sale is
    non-empty, holds at most [BID_HISTORY_LENGTH_DEFAULT] (5) bids and is
    strictly increasing in fee-exclusive value, whatever sequence of calls,
    callbacks and test hooks led there. *)
Theorem reachable_buckets_sorted m key sale ft bs :
  reachable m -> Market.sales m !! key = Some sale -> Sale.bids sale !! ft = Some bs ->
  bs <> [] /\ Z.of_nat (length bs) <= Market.BID_HISTORY_LENGTH_DEFAULT /\ StronglySorted bid_lt bs.
Proof.
  intros Hr Hs Hb. destruct (reachable_market_ok m Hr) as (_ & Hso & _).
  destruct (Hso key sale Hs ft bs Hb) as (? & ? & _ & ?). done.
Qed.

(** C29: In every reachable state, [storage_withdraw] with one yoctoNEAR
    never fails: the deposit covers [STORAGE_PER_SALE] for each of the
    caller's listings, the caller gets back everything beyond that, and
    exactly that much stays deposited. *)
Theorem reachable_storage_withdraw env m :
  reachable m -> attached_deposit env = 1 ->
  let o := predecessor_account_id env in
  let paid := default 0 (Market.storage_deposits m !! o) in
  let held := Storage.get_supply_by_owner_id m o * Storage.STORAGE_PER_SALE in
  (0 <= held <= paid) /\
  (Storage.storage_withdraw env m =
    Ok (tt, Market.set_storage_deposits
              (if bool_decide (held > 0) then <[o := held]> (delete o (Market.storage_deposits m))
               else delete o (Market.storage_deposits m))
              (Market.set_promises
                 (Market.promises m ++ if bool_decide (paid - held > 0) then [Transfer o (paid - held)] else [])
                 m))).
Proof.
  intros Hr H1 o paid held. destruct (reachable_market_ok m Hr) as (_ & _ & Hst & _).
  pose proof (Storage.get_supply_nonneg m o). pose proof Storage.storage_per_sale_pos.
  split; [split; [nia | apply Storage.storage_ok_supply, Hst]|].
  by apply Storage.storage_withdraw_run.
Qed.

(** C30: In every reachable state, [start_auction] never overwrites an
    auction: the id it hands out is free, and every existing auction is
    kept. *)
Theorem reachable_start_auction_fresh env args tok owner appr nft m id a m' :
  reachable m ->
  Auctions.start_auction env args tok owner appr nft m = Ok ((id, a), m') ->
  Market.auctions m !! id = None /\ Market.auctions m ⊆ Market.auctions m'.
Proof.
  intros Hr H. destruct (reachable_market_ok m Hr) as (_ & _ & _ & [_ Hid]).
  apply Auctions.start_auction_inv in H as (? & ? & ? & ? & _ & _ & _ & _ & _ & _ & _ & [= -> _] & ->).
  market_simpl. assert (Hfree : Market.auctions m !! Market.next_auction_id m = None).
  { destruct (_ !! _) as [y|] eqn:E; [|done]. pose proof (Hid _ y E). simpl in *. lia. }
  split; [done|]. by apply insert_subseteq.
Qed.

(** A successful sale listing through [nft_on_approve] is a successful
    [start_sale] on the same state. *)
Lemma nft_on_approve_sale env tok owner appr a m m' :
  Storage.nft_on_approve env tok owner appr (Some (Storage.ArgsSale a)) m = Ok (tt, m') ->
  exists sale, Sales.start_sale env a tok owner appr (predecessor_account_id env) m = Ok (sale, m').
Proof.
  unfold Storage.nft_on_approve, st_bind, st_lift, st_get, st_ret, expect.
  repeat (case_match; simplify_eq; try done). intros [= ->]. eauto.
Qed.

(** C31: Approving an already listed token again (its new owner after a
    transfer outside the market, or the same owner) replaces the listing:
    [nft_on_approve], through [start_sale], overwrites the sale with an empty bid map, creates no
    refund for the bids of the old sale, and leaves the key in the old
    owner's [by_owner_id] set, where it keeps [STORAGE_PER_SALE] of that
    owner's deposit held. *)
Theorem relisting_drops_bids env a tok owner appr m old m' :
  let key := contract_and_token_id (predecessor_account_id env) tok in
  Market.sales m !! key = Some old ->
  key ∈ default ∅ (Market.by_owner_id m !! Sale.owner_id old) ->
  exec env (NftOnApprove tok owner appr (Some (Storage.ArgsSale a))) m = Ok (tt, m') ->
  exists sale, Market.sales m' !! key = Some sale /\ Sale.bids sale = ∅ /\
    Market.promises m' = Market.promises m /\
    key ∈ default ∅ (Market.by_owner_id m' !! Sale.owner_id old).
Proof.
  intros key Hold Hidx H. apply nft_on_approve_sale in H as [json H]. pose proof H as H'.
  apply start_sale_frame in H as (sale & _ & _ & Hs & Hb & _ & _ & _ & Hp). apply Storage.start_sale_effect in H' as [Hby _].
  exists sale. rewrite Hs, lookup_insert_eq. split_and!; [done|done|done|].
  rewrite Hby. unfold Sales.index_insert.
  destruct (decide (owner = Sale.owner_id old)) as [->|Hne].
  - rewrite lookup_insert_eq. simpl. set_solver.
  - by rewrite lookup_insert_ne.
Qed.

(** ** A concrete run

    The seller pays storage for two listings and lists token ["1:1"] of
    ["nft.near"] at 10000 NEAR; alice and bob bid; carol, the token's new
    owner, pays storage and approves the market for the same token. *)

Definition S_demo : Z := Storage.STORAGE_PER_SALE.
Definition sale_args : Sales.SaleArgs := Sales.mkSaleArgs {[ NEAR := 10000 ]} None None None None.
Definition env_of (now : Z) (pred signer : string) (deposit : Z) : Env :=
  mkEnv now pred signer deposit "market.near".

Definition listing_calls : list (Env * call) :=
  [(env_of 0 "seller.near" "seller.near" (2 * S_demo), StorageDeposit None);
   (env_of 1 "nft.near" "seller.near" 0, NftOnApprove "1:1" "seller.near" 0 (Some (Storage.ArgsSale sale_args)));
   (env_of 2 "alice.near" "alice.near" 5150, Offer "nft.near" "1:1" NEAR None None None);
   (env_of 3 "bob.near" "bob.near" 6180, Offer "nft.near" "1:1" NEAR None None None);
   (env_of 4 "nft.near" "seller.near" 0, NftOnApprove "1:2" "seller.near" 1
      (Some (Storage.ArgsAuction (Auctions.mkAuctionArgs None 100 1000 None
                                   (4 * Auctions.EXTENSION_DURATION) None None))))].
Definition relist_calls : list (Env * call) :=
  [(env_of 5 "carol.near" "carol.near" S_demo, StorageDeposit None)].

Definition state_of (r : result Market.t) : Market.t :=
  match r with Ok m => m | Err _ => Market.new [] "" end.
Definition listed : Market.t := state_of (run (Market.new ["nft.near"] "market.near") listing_calls).
Definition before_relist : Market.t :=
  state_of (run (Market.new ["nft.near"] "market.near") (listing_calls ++ relist_calls)).
Definition listed_sale : Sale.t := default Demo.sale (Market.sales listed !! Demo.key).

Lemma reachable_buckets_sorted_witness :
  default [] (Sale.bids listed_sale !! NEAR) <> [] /\
  Z.of_nat (length (default [] (Sale.bids listed_sale !! NEAR))) <= Market.BID_HISTORY_LENGTH_DEFAULT /\
  StronglySorted bid_lt (default [] (Sale.bids listed_sale !! NEAR)).
Proof.
  exact (reachable_buckets_sorted listed Demo.key listed_sale NEAR (default [] (Sale.bids listed_sale !! NEAR))
           (run_reachable ["nft.near"] "market.near" listing_calls listed ltac:(vm_compute; reflexivity))
           ltac:(vm_compute; reflexivity) ltac:(vm_compute; reflexivity)).
Defined.

Lemma reachable_storage_withdraw_witness :
  is_ok (Storage.storage_withdraw (env_of 6 "seller.near" "seller.near" 1) listed) = true.
Proof.
  rewrite (proj2 (reachable_storage_withdraw (env_of 6 "seller.near" "seller.near" 1) listed
                    (run_reachable ["nft.near"] "market.near" listing_calls listed
                       ltac:(vm_compute; reflexivity)) eq_refl)).
  reflexivity.
Defined.

Definition auction_args : Auctions.AuctionArgs :=
  Auctions.mkAuctionArgs None 100 1000 None (4 * Auctions.EXTENSION_DURATION) None None.
Definition started : result ((Z * AuctionJson.t) * Market.t) :=
  Auctions.start_auction (env_of 7 "nft.near" "seller.near" 0) auction_args "1:3" "seller.near" 2 "nft.near"
    listed.
Definition started_id : Z := match started with Ok ((id, _), _) => id | Err _ => 0 end.
Definition started_auction : AuctionJson.t :=
  match started with Ok ((_, a), _) => a | Err _ => json_from_auction Auctions.demo_auction end.
Definition started_market : Market.t := match started with Ok (_, m) => m | Err _ => listed end.

Lemma reachable_start_auction_fresh_witness :
  Market.auctions listed !! started_id = None /\ Market.auctions listed ⊆ Market.auctions started_market.
Proof.
  exact (reachable_start_auction_fresh (env_of 7 "nft.near" "seller.near" 0) auction_args "1:3" "seller.near" 2
           "nft.near" listed started_id started_auction started_market
           (run_reachable ["nft.near"] "market.near" listing_calls listed ltac:(vm_compute; reflexivity))
           ltac:(vm_compute; reflexivity)).
Defined.

(** Carol, the token's new owner, approves the market for token ["1:1"]. *)
Definition relist_call : call := NftOnApprove "1:1" "carol.near" 2 (Some (Storage.ArgsSale sale_args)).
Definition relisted_market : Market.t :=
  match exec (env_of 6 "nft.near" "carol.near" 0) relist_call before_relist with
  | Ok (_, m) => m
  | Err _ => before_relist
  end.

Lemma relisting_drops_bids_witness :
  Sale.bids listed_sale <> ∅ /\
  exists sale, Market.sales relisted_market !! Demo.key = Some sale /\ Sale.bids sale = ∅ /\
    Market.promises relisted_market = Market.promises before_relist /\
    Demo.key ∈ default ∅ (Market.by_owner_id relisted_market !! "seller.near").
Proof.
  split; [vm_compute; discriminate|].
  exact (relisting_drops_bids (env_of 6 "nft.near" "carol.near" 0) sale_args "1:1" "carol.near" 2
           before_relist listed_sale relisted_market
           ltac:(vm_compute; reflexivity)
           ltac:(refine (bool_decide_unpack _ _); vm_compute; reflexivity)
           ltac:(vm_compute; reflexivity)).
Defined.

End Lifecycle.
