(* ===== verification/Views.v ===== *)
(** * The read-only views of the market ([sale_views.rs], [auction_views.rs])

    [get_sale], the supply counters and the paginated listings of
    [sale_views.rs], [get_auction] and [get_auctions].  A view answers
    the [SaleJson] or [AuctionJson] of the records it reads
    ([json_from_sale], [json_from_auction]), which leave out the approval
    id (and an auction's origins).  The iteration order of an [UnorderedSet] ([as_vector])
    is modelled as [elements], that of the [UnorderedMap] of sales as
    [map_to_list], that of the auctions by increasing id.
    A paginated listing looks every key of an index up in [sales] and
    unwraps the answer, so it panics when an index names a key that has no
    sale any more; the theorem shows that the market reaches such a state. *)

From stdpp Require Import sorting.
From S2P Require Import Prelude Fee State Bids Sales Settlement Auctions Storage Hack Lifecycle.

Module Views.

(** [Market::storage_amount] *)
Definition storage_amount : Z := Sales.STORAGE_PER_SALE.

(** [Market::get_supply_sales] *)
Definition get_supply_sales (m : Market.t) : Z := Z.of_nat (size (Market.sales m)).

(** [Market::get_supply_by_nft_contract_id] *)
Definition get_supply_by_nft_contract_id (m : Market.t) (nft_contract_id : string) : Z :=
  Z.of_nat (size (default ∅ (Market.by_nft_contract_id m !! nft_contract_id))).

(** [Market::get_supply_by_nft_token_type] *)
Definition get_supply_by_nft_token_type (m : Market.t) (token_type : string) : Z :=
  Z.of_nat (size (default ∅ (Market.by_nft_token_type m !! token_type))).

(** [Market::get_sale] *)
Definition get_sale (m : Market.t) (nft_contract_id token_id : string) : option SaleJson.t :=
  json_from_sale <$> Market.sales m !! contract_and_token_id nft_contract_id token_id.

(** [.skip(start).take(limit)] *)
Definition page {A} (start limit : Z) (l : list A) : list A :=
  take_n limit (skip_n start l).

(** [Market::get_sales]: [from_index] ([u128], default 0) and [limit]
    ([u64], default [usize::MAX]) are cast to [usize]. *)
Definition get_sales (m : Market.t) (from_index limit : option Z) : list SaleJson.t :=
  json_from_sale <$> page (as_usize (default 0 from_index)) (default usize_max (as_usize <$> limit))
                       (map_to_list (Market.sales m)).*2.

(** [tmp.push(self.json_from_sale(self.market.sales.get(&key).unwrap()))]
    for each key, in order. *)
Fixpoint fetch_sales (m : Market.t) (keys : list string) : result (list SaleJson.t) :=
  match keys with
  | [] => Ok []
  | k :: keys' =>
      let* sale := expect (Market.sales m !! k) "called `Option::unwrap()` on a `None` value" in
      let* rest := fetch_sales m keys' in
      Ok (json_from_sale sale :: rest)
  end.

(** The loop of the three listings by index: [end = min(start + limit,
    len)] on [u64], then the keys [start..end] of the set, turned into
    sale keys by [to_key]. *)
Definition listing (m : Market.t) (set : option (gset string)) (to_key : string -> string)
    (from_index limit : Z) : result (list SaleJson.t) :=
  match set with
  | None => Ok []
  | Some sales =>
      let keys := elements sales in
      let* e := checked_add u64_max from_index limit in
      let end_ := Z.min e (Z.of_nat (size sales)) in
      fetch_sales m (map to_key (page from_index (end_ - from_index) keys))
  end.

(** [Market::get_sales_by_owner_id] *)
Definition get_sales_by_owner_id (m : Market.t) (account_id : string) (from_index limit : Z)
    : result (list SaleJson.t) :=
  listing m (Market.by_owner_id m !! account_id) id from_index limit.

(** [Market::get_sales_by_nft_contract_id]: this index holds token ids,
    the sale key is formatted from the contract id. *)
Definition get_sales_by_nft_contract_id (m : Market.t) (nft_contract_id : string) (from_index limit : Z)
    : result (list SaleJson.t) :=
  listing m (Market.by_nft_contract_id m !! nft_contract_id) (contract_and_token_id nft_contract_id)
    from_index limit.

(** [Market::get_sales_by_nft_token_type] *)
Definition get_sales_by_nft_token_type (m : Market.t) (token_type : string) (from_index limit : Z)
    : result (list SaleJson.t) :=
  listing m (Market.by_nft_token_type m !! token_type) id from_index limit.

(** [Market::get_auction] *)
Definition get_auction (m : Market.t) (auction_id : Z) : result AuctionJson.t :=
  let* auction := expect (Market.auctions m !! auction_id) "Auction does not exist" in
  Ok (json_from_auction auction).

(** The order in which [auctions.values()] iterates: the auctions by
    increasing id.  Ids are allocated in increasing order, so this is the
    insertion order of the [UnorderedMap] as long as no auction has been
    removed; a removal ([swap_remove]) moves the last auction into the
    freed slot, which the model does not track. *)
Definition auction_values (m : Market.t) : list Auction.t :=
  omap (fun id => Market.auctions m !! id) (merge_sort Z.le (elements (dom (Market.auctions m)))).

(** [Market::get_auctions] *)
Definition get_auctions (m : Market.t) (from_index limit : option Z) : list AuctionJson.t :=
  json_from_auction <$> page (as_usize (default 0 from_index)) (default usize_max (as_usize <$> limit))
                          (auction_values m).

(** ** The paginated listings

    What [listing] computes, for any index set and any map from its
    entries to sale keys: the page of the set's entries, [limit] of them
    from [from_index], each looked up in [sales]. *)
Section Listing.
Context (m : Market.t).
Implicit Types (keys : list string).

(** The sales of the keys, in order, where they exist. *)
Definition sales_of keys : list Sale.t := omap (fun k => Market.sales m !! k) keys.

Lemma fetch_sales_ok keys :
  Forall (fun k => is_Some (Market.sales m !! k)) keys ->
  fetch_sales m keys = Ok (json_from_sale <$> sales_of keys).
Proof.
  unfold sales_of. induction 1 as [|k keys [s Hs] _ IH]; [done|].
  simpl. rewrite Hs. simpl. by rewrite IH.
Qed.

Lemma fetch_sales_missing keys :
  Exists (fun k => Market.sales m !! k = None) keys -> is_ok (fetch_sales m keys) = false.
Proof.
  induction 1 as [k keys Hk|k keys _ IH]; simpl.
  - by rewrite Hk.
  - destruct (Market.sales m !! k); simpl; [|done]. by destruct (fetch_sales m keys).
Qed.

(** The loop [start..min(start + limit, len)] reads the page of [limit]
    entries from [start], or nothing when [start] is past the end. *)
Lemma page_window {A} (l : list A) from limit :
  0 <= from -> 0 <= limit ->
  page from (Z.min (from + limit) (Z.of_nat (length l)) - from) l =
    take (Z.to_nat limit) (drop (Z.to_nat from) l).
Proof.
  intros Hf Hl. unfold page. rewrite take_n_take, skip_n_drop.
  destruct (decide (Z.of_nat (length l) <= from)).
  - rewrite drop_ge by lia. by rewrite !take_nil.
  - replace (Z.to_nat (Z.min (from + limit) (Z.of_nat (length l)) - from))
      with (Nat.min (Z.to_nat limit) (length (drop (Z.to_nat from) l))) by (rewrite length_drop; lia).
    rewrite <- take_take. f_equal. by apply take_ge.
Qed.
(** A listing from index 0 with room for the whole set panics as soon as
    one entry of the set has no sale. *)
Lemma listing_whole_set_missing (set : gset string) k limit :
  Z.of_nat (size set) <= limit <= u64_max -> k ∈ set -> Market.sales m !! k = None ->
  is_ok (listing m (Some set) id 0 limit) = false.
Proof.
  intros Hlim Hk Hnone. unfold listing, checked_add.
  rewrite (proj2 (Z.leb_le _ _)) by lia. simpl.
  pose proof (page_window (elements set) 0 limit ltac:(lia) ltac:(lia)) as Hp.
  change (length (elements set)) with (size set) in Hp. rewrite Hp, drop_0, take_ge
    by (change (length (elements set)) with (size set); lia).
  apply fetch_sales_missing, Exists_exists. exists k. rewrite list_fmap_id. split; [|done].
  by apply elem_of_elements.
Qed.
End Listing.

(** ** A stale index

    The seller lists token "1:1"; the token changes hands outside the
    market and its new owner, carol, lists it too, which overwrites the
    sale but leaves the key in the seller's [by_owner_id]; carol removes
    her sale. *)
Definition stale_setup : list (Env * Lifecycle.call) :=
  [(Lifecycle.env_of 0 "seller.near" "seller.near" Lifecycle.S_demo, Lifecycle.StorageDeposit None);
   (Lifecycle.env_of 1 "nft.near" "seller.near" 0,
      Lifecycle.NftOnApprove "1:1" "seller.near" 0 (Some (Storage.ArgsSale Lifecycle.sale_args)));
   (Lifecycle.env_of 2 "carol.near" "carol.near" Lifecycle.S_demo, Lifecycle.StorageDeposit None)].
Definition stale_listed : Market.t :=
  Lifecycle.state_of (Lifecycle.run (Market.new ["nft.near"] "market.near") stale_setup).
Definition stale_old : Sale.t := default Demo.sale (Market.sales stale_listed !! "nft.near||1:1").
Definition carol_env : Env := Lifecycle.env_of 3 "nft.near" "carol.near" 0.
Definition carol_relists : Lifecycle.call :=
  Lifecycle.NftOnApprove "1:1" "carol.near" 1 (Some (Storage.ArgsSale Lifecycle.sale_args)).
Definition stale_relisted : Market.t :=
  match Lifecycle.exec carol_env carol_relists stale_listed with Ok (_, m) => m | Err _ => stale_listed end.
Definition carol_remove_env : Env := Lifecycle.env_of 4 "carol.near" "carol.near" 1.
Definition stale : Market.t :=
  match Lifecycle.exec carol_remove_env (Lifecycle.RemoveSale "nft.near" "1:1") stale_relisted with
  | Ok (_, m) => m
  | Err _ => stale_relisted
  end.

(** ** Theorems *)

(** C16: The three listings by index ([get_sales_by_owner_id],
    [get_sales_by_nft_contract_id], [get_sales_by_nft_token_type]) read
    one page of their index set: with [from_index + limit] within [u64],
    they answer the JSON of the sales of the [limit] entries from
    [from_index] (fewer at the end of the set, none past it) when each has
    a sale, and panic when one of them has none; beyond [u64], the
    addition [from_index + limit] panics, whatever the page. *)
Theorem listing_page m set to_key from_index limit :
  0 <= from_index -> 0 <= limit ->
  let keys := map to_key (take (Z.to_nat limit) (drop (Z.to_nat from_index) (elements set))) in
  (from_index + limit <= u64_max ->
     Forall (fun k => is_Some (Market.sales m !! k)) keys ->
     listing m (Some set) to_key from_index limit = Ok (json_from_sale <$> sales_of m keys) /\
     length keys = Nat.min (Z.to_nat limit) (size set - Z.to_nat from_index)) /\
  (from_index + limit <= u64_max ->
     Exists (fun k => Market.sales m !! k = None) keys ->
     is_ok (listing m (Some set) to_key from_index limit) = false) /\
  (u64_max < from_index + limit ->
     listing m (Some set) to_key from_index limit = Err "attempt to add with overflow").
Proof.
  intros Hf Hl keys. unfold listing, checked_add.
  pose proof (page_window (elements set) from_index limit Hf Hl) as Hp.
  change (length (elements set)) with (size set) in Hp. fold keys.
  split_and!; intros Hmax; [intros Hall|intros Hmiss|].
  - rewrite (proj2 (Z.leb_le _ _) Hmax). simpl. rewrite Hp. split; [by apply fetch_sales_ok|].
    unfold keys. rewrite length_map, length_take, length_drop. change (size set) with (length (elements set)). lia.
  - rewrite (proj2 (Z.leb_le _ _) Hmax). simpl. rewrite Hp. by apply fetch_sales_missing.
  - by rewrite (proj2 (Z.leb_gt _ _) Hmax).
Qed.

(** C17: The listing of a seller can be broken for good by ordinary
    calls, from any state: when a listed token is approved again by a new
    owner (a transfer outside the market) and that owner then removes the
    sale, the sale is gone, but the previous owner's [by_owner_id] set is
    exactly as before, so it still names the listing's key (and
    [get_supply_by_owner_id] still counts it, keeping one
    [STORAGE_PER_SALE] of the deposit held), and [get_sales_by_owner_id]
    of the previous owner panics on the [unwrap] of the missing sale for
    every limit that covers the set. *)
Theorem relisted_listing_panics env1 env2 tok o2 appr a m m1 m2 old limit :
  let nft := predecessor_account_id env1 in
  let key := contract_and_token_id nft tok in
  Market.sales m !! key = Some old ->
  key ∈ default ∅ (Market.by_owner_id m !! Sale.owner_id old) ->
  o2 <> Sale.owner_id old ->
  Lifecycle.exec env1 (Lifecycle.NftOnApprove tok o2 appr (Some (Storage.ArgsSale a))) m = Ok (tt, m1) ->
  Lifecycle.exec env2 (Lifecycle.RemoveSale nft tok) m1 = Ok (tt, m2) ->
  Z.of_nat (size (default ∅ (Market.by_owner_id m !! Sale.owner_id old))) <= limit <= u64_max ->
  Market.sales m2 !! key = None /\
  Market.by_owner_id m2 !! Sale.owner_id old = Market.by_owner_id m !! Sale.owner_id old /\
  is_ok (get_sales_by_owner_id m2 (Sale.owner_id old) 0 limit) = false.
Proof.
  intros nft key Hold Hidx Hne H1 H2 Hlim. cbn [Lifecycle.exec] in H1, H2.
  apply Lifecycle.nft_on_approve_sale in H1 as [json H1]. pose proof H1 as H1'.
  apply Lifecycle.start_sale_frame in H1 as (sale & _ & Hown & Hs1 & _).
  apply Storage.start_sale_effect in H1' as [Hby1 _].
  apply Sales.remove_sale_inv in H2 as (sale' & m1' & Hr & _ & ->).
  apply Sales.internal_remove_sale_inv in Hr as (bo & bc & bt & Hs' & Ho & _ & _ & ->).
  rewrite Hs1, lookup_insert_eq in Hs'. injection Hs' as <-. rewrite Hown in Ho.
  apply Sales.index_remove_removed in Ho as (so & _ & _ & _ & Hother).
  assert (Hby : bo !! Sale.owner_id old = Market.by_owner_id m !! Sale.owner_id old).
  { rewrite Hother by done. rewrite Hby1. unfold Sales.index_insert. by rewrite lookup_insert_ne by done. }
  market_simpl. split_and!; [rewrite Hs1; apply lookup_delete_eq | done |].
  unfold get_sales_by_owner_id. market_simpl. rewrite Hby.
  destruct (Market.by_owner_id m !! Sale.owner_id old) as [set|] eqn:Hset; [|set_solver].
  apply (listing_whole_set_missing _ set key); [exact Hlim | exact Hidx |].
  rewrite Hs1. apply lookup_delete_eq.
Qed.

(** ** Witnesses *)

(** In [stale], the seller's page names the sale carol removed. *)
Lemma listing_page_witness :
  is_ok (listing stale (Some (default ∅ (Market.by_owner_id stale !! "seller.near"))) id 0 10) = false.
Proof.
  destruct (listing_page stale (default ∅ (Market.by_owner_id stale !! "seller.near")) id 0 10
              ltac:(lia) ltac:(lia)) as (_ & Hmiss & _).
  apply Hmiss; [unfold u64_max; lia|]. vm_compute. constructor. reflexivity.
Defined.

Lemma relisted_listing_panics_witness :
  Market.sales stale !! "nft.near||1:1" = None /\
  Market.by_owner_id stale !! "seller.near" = Market.by_owner_id stale_listed !! "seller.near" /\
  is_ok (get_sales_by_owner_id stale "seller.near" 0 10) = false.
Proof.
  exact (relisted_listing_panics carol_env carol_remove_env "1:1" "carol.near" 1 Lifecycle.sale_args
           stale_listed stale_relisted stale
           stale_old 10
           ltac:(vm_compute; reflexivity) ltac:(vm_compute; set_solver) ltac:(vm_compute; discriminate)
           ltac:(vm_compute; reflexivity) ltac:(vm_compute; reflexivity) ltac:(vm_compute; split; discriminate)).
Defined.

End Views.
