(* ===== verification/Permissions.v ===== *)
(** * Private minting ([src/nft/src/permissions.rs])

    The NFT contract asks an authorizer whether an account may create a
    series or mint.  The source states the interface as the trait
    [ContractAutorize]; here it is the class [ContractAutorize], whose
    [&mut self] methods answer their result with the new state.  The class
    [ContractAutorizeLaws] states what the contract relies on: the panic
    guard fails exactly for the accounts that are not allowed; [grant]
    allows its account and no other; after [deny] and with the check on,
    the account is refused; with the check off, everyone is allowed.
    [PrivateMint] ([enabled], [private_minters]) implements the trait, and
    its instance discharges the laws.  Section [Laws] derives, for any
    authorizer, the facts about the guard the contract's proofs use.  [NftContract] calls the methods
    through the class, and its access-control theorem is proved from the
    laws only. *)

From S2P Require Import Prelude.

(** [pub trait ContractAutorize] *)
Class ContractAutorize (S : Type) := {
  is_allowed : S -> string -> bool;
  panic_if_not_allowed : S -> string -> result unit;
  grant : S -> string -> bool * S;
  deny : S -> string -> bool * S;
  set_authorization : S -> bool -> S;
}.

(** The contract of an authorizer. *)
Class ContractAutorizeLaws (S : Type) `{ContractAutorize S} := {
  panic_if_not_allowed_ok s a : panic_if_not_allowed s a = Ok tt <-> is_allowed s a = true;
  grant_allows s a : is_allowed (grant s a).2 a = true;
  grant_frame s a b : b <> a -> is_allowed (grant s a).2 b = is_allowed s b;
  deny_frame s a b : b <> a -> is_allowed (deny s a).2 b = is_allowed s b;
  deny_refuses s a : is_allowed (set_authorization (deny s a).2 true) a = false;
  authorization_off s a : is_allowed (set_authorization s false) a = true;
}.

(** What a client derives from the laws alone, for any authorizer. *)
Section Laws.
Context {S : Type} `{ContractAutorizeLaws S}.

(** The guard passed: the account is allowed. *)
Lemma panic_if_not_allowed_passed (s : S) a (u : unit) : panic_if_not_allowed s a = Ok u -> is_allowed s a = true.
Proof. destruct u. apply panic_if_not_allowed_ok. Qed.

(** The guard fails exactly for a refused account. *)
Lemma panic_if_not_allowed_refused (s : S) a : is_allowed s a = false -> exists e, panic_if_not_allowed s a = Err e.
Proof.
  intros Hno. destruct (panic_if_not_allowed s a) as [[]|e] eqn:Hp; [|by eexists].
  apply panic_if_not_allowed_ok in Hp. congruence.
Qed.
End Laws.

Module PrivateMint.
(** [pub struct PrivateMint { enabled, private_minters: LookupSet<AccountId> }] *)
Record t := mk {
  enabled : bool;
  private_minters : gset string;
}.

(** [PrivateMint::new] *)
Definition new (enabled : bool) (private_minters : gset string) : t := mk enabled private_minters.

(** [is_allowed]: [!self.enabled || self.private_minters.contains(account_id)] *)
Definition is_allowed (pm : t) (account_id : string) : bool :=
  negb (enabled pm) || bool_decide (account_id ∈ private_minters pm).

(** [panic_if_not_allowed] *)
Definition panic_if_not_allowed (pm : t) (account_id : string) : result unit :=
  require (is_allowed pm account_id) "Access to mint is denied for this contract".

(** [grant]: [LookupSet::insert] answers whether the account is new. *)
Definition grant (pm : t) (account_id : string) : bool * t :=
  (bool_decide (account_id ∉ private_minters pm), mk (enabled pm) ({[account_id]} ∪ private_minters pm)).

(** [deny]: [LookupSet::remove] answers whether the account was there. *)
Definition deny (pm : t) (account_id : string) : bool * t :=
  (bool_decide (account_id ∈ private_minters pm), mk (enabled pm) (private_minters pm ∖ {[account_id]})).

(** [set_authorization] *)
Definition set_authorization (pm : t) (enabled : bool) : t := mk enabled (private_minters pm).
End PrivateMint.

(** [impl ContractAutorize for PrivateMint] *)
#[export] Instance private_mint_autorize : ContractAutorize PrivateMint.t := {|
  is_allowed := PrivateMint.is_allowed;
  panic_if_not_allowed := PrivateMint.panic_if_not_allowed;
  grant := PrivateMint.grant;
  deny := PrivateMint.deny;
  set_authorization := PrivateMint.set_authorization;
|}.

#[export] Instance private_mint_autorize_laws : ContractAutorizeLaws PrivateMint.t.
Proof.
  split; intros; cbn.
  - unfold PrivateMint.panic_if_not_allowed, require. destruct (PrivateMint.is_allowed s a); naive_solver.
  - unfold PrivateMint.is_allowed. cbn. rewrite orb_true_iff. right. apply bool_decide_eq_true. set_solver.
  - unfold PrivateMint.is_allowed. cbn. do 2 f_equal. apply bool_decide_ext. set_solver.
  - unfold PrivateMint.is_allowed. cbn. do 2 f_equal. apply bool_decide_ext. set_solver.
  - unfold PrivateMint.is_allowed. cbn. apply bool_decide_eq_false. set_solver.
  - done.
Qed.
