(* ===== verification/NftContract.v ===== *)
(** * The NFT contract ([src/nft/src]): state, series, minting, transfer

    The token contract the market settles against.  Its state ([Nft] of
    [lib.rs]) is the [NonFungibleToken] of near-contract-standards (owner
    of each token, metadata, tokens per owner, approvals) plus the token
    series of this repository and the private-mint switch
    ([permissions.rs]).  The handlers of [src/nft/src] are translated from
    the source; the library routines they delegate to
    ([NonFungibleToken::nft_transfer], [internal_transfer],
    [internal_transfer_unguarded], [nft_approve]) are written from the
    library's contract, as the spec describes the token contract.
    Storage refunds, events and the JSON metadata are not modelled. *)

From S2P Require Import Prelude State Bids Permissions.
From stdpp Require Import pretty.
From Stdlib Require Import Ascii.
Open Scope Z_scope.

(** [TokenMetadata]: the fields the contract reads or writes. *)
Record TokenMetadata := mkMetadata {
  title : option string;
  media : option string;
  copies : option Z;
  issued_at : option Z;
}.

#[export] Instance token_metadata_eq_dec : EqDecision TokenMetadata.
Proof. solve_decision. Defined.

(** [near_contract_standards::non_fungible_token::Token], what [nft_token]
    answers. *)
Module Token.
Record t := mk {
  token_id : string;
  owner_id : string;
  metadata : option TokenMetadata;
  approved_account_ids : option (gmap string Z);
}.
End Token.
#[export] Instance token_eq_dec : EqDecision Token.t.
Proof. solve_decision. Defined.

(** [pub struct TokenSeriesJson { metadata, owner_id, royalty }] *)
Module TokenSeriesJson.
Record t := mk {
  metadata : TokenMetadata;
  owner_id : string;
  royalty : gmap string Z;
}.
End TokenSeriesJson.

Module TokenSeries.
(** [pub struct TokenSeries { metadata, owner_id, tokens, royalty }] *)
Record t := mk {
  metadata : TokenMetadata;
  owner_id : string;
  tokens : gset string;
  royalty : gmap string Z;
}.
Definition set_tokens (x : gset string) (s : t) : t := mk (metadata s) (owner_id s) x (royalty s).
End TokenSeries.

Module Nft.
(** [pub struct Nft { tokens: NonFungibleToken, metadata, token_series_by_id,
    private_mint }], with the parts of [NonFungibleToken] the contract
    uses. *)
Record t := mk {
  owner_id : string;
  owner_by_id : gmap string string;
  token_metadata_by_id : gmap string TokenMetadata;
  tokens_per_owner : gmap string (gset string);
  approvals_by_id : gmap string (gmap string Z);
  next_approval_id_by_id : gmap string Z;
  token_series_by_id : gmap string TokenSeries.t;
  private_mint : PrivateMint.t;
}.

Definition set_owner_by_id x n := mk (owner_id n) x (token_metadata_by_id n) (tokens_per_owner n) (approvals_by_id n) (next_approval_id_by_id n) (token_series_by_id n) (private_mint n).
Definition set_token_metadata_by_id x n := mk (owner_id n) (owner_by_id n) x (tokens_per_owner n) (approvals_by_id n) (next_approval_id_by_id n) (token_series_by_id n) (private_mint n).
Definition set_tokens_per_owner x n := mk (owner_id n) (owner_by_id n) (token_metadata_by_id n) x (approvals_by_id n) (next_approval_id_by_id n) (token_series_by_id n) (private_mint n).
Definition set_approvals_by_id x n := mk (owner_id n) (owner_by_id n) (token_metadata_by_id n) (tokens_per_owner n) x (next_approval_id_by_id n) (token_series_by_id n) (private_mint n).
Definition set_next_approval_id_by_id x n := mk (owner_id n) (owner_by_id n) (token_metadata_by_id n) (tokens_per_owner n) (approvals_by_id n) x (token_series_by_id n) (private_mint n).
Definition set_token_series_by_id x n := mk (owner_id n) (owner_by_id n) (token_metadata_by_id n) (tokens_per_owner n) (approvals_by_id n) (next_approval_id_by_id n) x (private_mint n).
Definition set_private_mint x n := mk (owner_id n) (owner_by_id n) (token_metadata_by_id n) (tokens_per_owner n) (approvals_by_id n) (next_approval_id_by_id n) (token_series_by_id n) x.

(** [Nft::new(owner_id, metadata, private_minters, private_minting_enabled)] *)
Definition new (owner : string) (minters : list string) (enabled : bool) : t :=
  mk owner ∅ ∅ ∅ ∅ ∅ ∅ (PrivateMint.new enabled (list_to_set minters)).

(** [Nft::new_default_meta(owner_id)]: no private minters, private
    minting disabled. *)
Definition new_default_meta (owner_id : string) : t := new owner_id [] false.
End Nft.

Module NftContract.
Import BidLedger.

(** Calls of the NFT contract thread its state. *)
Abbreviation NM := (st Nft.t).

(** [pub const MAXIMUM_ROYALTY: u32 = 5_000;] *)
Definition MAXIMUM_ROYALTY : Z := 5000.

(** [pub const TOKEN_DELIMETER: char = ':';] *)
Definition TOKEN_DELIMETER : Ascii.ascii := "058"%char.

(** [token_id.split(TOKEN_DELIMETER).next().unwrap()]: the text before the
    first delimiter, or the whole id. *)
Fixpoint series_id_of (token_id : string) : string :=
  match token_id with
  | EmptyString => EmptyString
  | String c s => if bool_decide (c = TOKEN_DELIMETER) then EmptyString else String c (series_id_of s)
  end.

(** [Nft::is_allowed] *)
Definition is_allowed (n : Nft.t) (account_id : string) : bool :=
  Permissions.is_allowed (Nft.private_mint n) account_id.

(** [Nft::grant]: the owner grants through [ContractAutorize::grant]. *)
Definition grant (env : Env) (account_id : string) : NM bool :=
  let! n := st_get in
  do! st_lift (require (bool_decide (predecessor_account_id env = Nft.owner_id n)) "only owner can grant") ;;
  let granted := Permissions.grant (Nft.private_mint n) account_id in
  do! st_put (Nft.set_private_mint granted.2 n) ;;
  st_ret granted.1.

(** [Nft::deny] *)
Definition deny (env : Env) (account_id : string) : NM bool :=
  let! n := st_get in
  do! st_lift (require (bool_decide (predecessor_account_id env = Nft.owner_id n)) "only owner can deny") ;;
  let denied := Permissions.deny (Nft.private_mint n) account_id in
  do! st_put (Nft.set_private_mint denied.2 n) ;;
  st_ret denied.1.

(** [Nft::set_private_minting] *)
Definition set_private_minting (env : Env) (enabled : bool) : NM unit :=
  let! n := st_get in
  do! st_lift (require (bool_decide (predecessor_account_id env = Nft.owner_id n))
                 "only owner can enable/disable private minting") ;;
  st_put (Nft.set_private_mint (Permissions.set_authorization (Nft.private_mint n) enabled) n).

(** [Nft::nft_create_series]: the id is [(len + 1).to_string()], the
    royalty weights are summed on [u32]. *)
Definition nft_create_series (env : Env) (token_metadata : TokenMetadata)
    (royalty : option (gmap string Z)) : NM string :=
  let! n := st_get in
  do! st_lift (Permissions.panic_if_not_allowed (Nft.private_mint n) (predecessor_account_id env)) ;;
  let owner := predecessor_account_id env in
  let token_series_id := pretty (N.of_nat (size (Nft.token_series_by_id n)) + 1)%N in
  do! st_lift (require (bool_decide (is_Some (title token_metadata))) "title is missing from token metadata") ;;
  let royalty_res := default ∅ royalty in
  let! total_payouts := st_lift (checked_sum u32_max 0 (map_to_list royalty_res).*2) in
  do! st_lift (require (bool_decide (total_payouts <= MAXIMUM_ROYALTY)) "maximum royalty cap exceeded 5000") ;;
  do! st_put (Nft.set_token_series_by_id
                (<[token_series_id := TokenSeries.mk token_metadata owner ∅ royalty_res]>
                   (Nft.token_series_by_id n)) n) ;;
  st_ret token_series_id.

(** [Nft::nft_mint]: the token id is [series:k] for the [k]-th token of
    the series; the owner, metadata, tokens-per-owner and series are
    updated as in [internal_mint_with_refund].  [refund_id] only names
    the account of the storage refund, which is not modelled. *)
Definition nft_mint (env : Env) (token_series_id receiver_id : string) (refund_id : option string) : NM string :=
  let! n := st_get in
  do! st_lift (Permissions.panic_if_not_allowed (Nft.private_mint n) (predecessor_account_id env)) ;;
  let! series := st_lift (expect (Nft.token_series_by_id n !! token_series_id) "Token series does not exist") in
  do! st_lift (require (bool_decide (predecessor_account_id env = TokenSeries.owner_id series)) "permission denied") ;;
  let len := Z.of_nat (size (TokenSeries.tokens series)) in
  do! st_lift (require (bool_decide (len < default u64_max (copies (TokenSeries.metadata series)))) "Max token minted") ;;
  let token_id := token_series_id +:+ String TOKEN_DELIMETER EmptyString +:+ pretty (Z.to_N (len + 1)) in
  let metadata := mkMetadata None None None (Some (block_timestamp env)) in
  let receiver_tokens := {[token_id]} ∪ default ∅ (Nft.tokens_per_owner n !! receiver_id) in
  do! st_put (Nft.set_token_series_by_id
                (<[token_series_id := TokenSeries.set_tokens ({[token_id]} ∪ TokenSeries.tokens series) series]>
                   (Nft.token_series_by_id n))
             (Nft.set_tokens_per_owner (<[receiver_id := receiver_tokens]> (Nft.tokens_per_owner n))
             (Nft.set_token_metadata_by_id (<[token_id := metadata]> (Nft.token_metadata_by_id n))
             (Nft.set_owner_by_id (<[token_id := receiver_id]> (Nft.owner_by_id n)) n)))) ;;
  st_ret token_id.

(** [NonFungibleToken::internal_transfer_unguarded]: the owner changes,
    the token moves between the two owners' sets (an emptied set is
    removed). *)
Definition internal_transfer_unguarded (token_id from to : string) : NM unit :=
  let! n := st_get in
  let! owner_tokens := st_lift (expect (Nft.tokens_per_owner n !! from)
                                  "Unable to access tokens per owner in unguarded call.") in
  let owner_tokens := owner_tokens ∖ {[token_id]} in
  let tpo := if bool_decide (owner_tokens = ∅) then delete from (Nft.tokens_per_owner n)
             else <[from := owner_tokens]> (Nft.tokens_per_owner n) in
  let receiver_tokens := {[token_id]} ∪ default ∅ (tpo !! to) in
  st_put (Nft.set_tokens_per_owner (<[to := receiver_tokens]> tpo)
            (Nft.set_owner_by_id (<[token_id := to]> (Nft.owner_by_id n)) n)).

(** [NonFungibleToken::internal_transfer]: the approvals of the token are
    cleared; a sender other than the owner must be approved, with the
    given approval id when there is one; the receiver must differ from
    the owner.  Answers the previous owner. *)
Definition internal_transfer (sender_id receiver_id token_id : string) (approval_id : option Z) : NM string :=
  let! n := st_get in
  let! owner_id := st_lift (expect (Nft.owner_by_id n !! token_id) "Token not found") in
  let approved := Nft.approvals_by_id n !! token_id in
  do! st_put (Nft.set_approvals_by_id (delete token_id (Nft.approvals_by_id n)) n) ;;
  do! (if bool_decide (sender_id <> owner_id) then
         let! app := st_lift (expect approved "Unauthorized") in
         let! actual := st_lift (expect (app !! sender_id) "Sender not approved") in
         st_lift (require (match approval_id with None => true | Some a => bool_decide (actual = a) end)
                    "The actual approval_id is different from the given approval_id")
       else st_ret tt) ;;
  do! st_lift (require (bool_decide (owner_id <> receiver_id)) "Current and next owner must differ") ;;
  do! internal_transfer_unguarded token_id owner_id receiver_id ;;
  st_ret owner_id.

(** [NonFungibleToken::nft_transfer]: [assert_one_yocto] and the transfer
    by the predecessor. *)
Definition tokens_nft_transfer (env : Env) (receiver_id token_id : string) (approval_id : option Z) : NM unit :=
  do! st_lift (assert_one_yocto env) ;;
  let! _ := internal_transfer (predecessor_account_id env) receiver_id token_id approval_id in
  st_ret tt.

(** [Nft::nft_transfer] ([nft_core.rs]): looks the owner up for the event,
    then delegates. *)
Definition nft_transfer (env : Env) (receiver_id token_id : string) (approval_id : option Z) : NM unit :=
  let! n := st_get in
  let! _ := st_lift (expect (Nft.owner_by_id n !! token_id) "Token not found") in
  tokens_nft_transfer env receiver_id token_id approval_id.

(** [NonFungibleToken::nft_approve]: the owner approves [account_id]
    under the token's next approval id (starting at 1); answers it (the
    id passed to [nft_on_approve] of the account). *)
Definition nft_approve (env : Env) (token_id account_id : string) : NM Z :=
  do! st_lift (require (bool_decide (1 <= attached_deposit env)) "Requires attached deposit of at least 1 yoctoNEAR") ;;
  let! n := st_get in
  let! owner_id := st_lift (expect (Nft.owner_by_id n !! token_id) "Token not found") in
  do! st_lift (require (bool_decide (predecessor_account_id env = owner_id)) "Predecessor must be token owner.") ;;
  let approved := default ∅ (Nft.approvals_by_id n !! token_id) in
  let approval_id := default 1 (Nft.next_approval_id_by_id n !! token_id) in
  let! next := st_lift (checked_add u64_max approval_id 1) in
  do! st_put (Nft.set_next_approval_id_by_id (<[token_id := next]> (Nft.next_approval_id_by_id n))
                (Nft.set_approvals_by_id (<[token_id := <[account_id := approval_id]> approved]>
                                            (Nft.approvals_by_id n)) n)) ;;
  st_ret approval_id.

(** ** Views *)

(** [Nft::nft_token] ([nft_core.rs]): the series' metadata with the
    token's [issued_at] and no [copies], and the token's approvals (an
    empty map when it has none).  The series is found by the part of the
    id before the delimiter; the unwraps panic when it or the token's
    metadata is missing. *)
Definition nft_token (n : Nft.t) (token_id : string) : result (option Token.t) :=
  match Nft.owner_by_id n !! token_id with
  | None => Ok None
  | Some owner_id =>
      let token_series_id := series_id_of token_id in
      let* series := expect (Nft.token_series_by_id n !! token_series_id)
                       "called `Option::unwrap()` on a `None` value" in
      let* token_metadata := expect (Nft.token_metadata_by_id n !! token_id)
                               "called `Option::unwrap()` on a `None` value" in
      let approved_account_ids := default ∅ (Nft.approvals_by_id n !! token_id) in
      let series_metadata := TokenSeries.metadata series in
      Ok (Some (Token.mk token_id owner_id
                  (Some (mkMetadata (title series_metadata) (media series_metadata) None
                           (issued_at token_metadata)))
                  (Some approved_account_ids)))
  end.

(** The JSON form of a series. *)
Definition series_json (series : TokenSeries.t) : TokenSeriesJson.t :=
  TokenSeriesJson.mk (TokenSeries.metadata series) (TokenSeries.owner_id series) (TokenSeries.royalty series).

(** [Nft::nft_get_series] *)
Definition nft_get_series (n : Nft.t) (token_series_id : string) : result TokenSeriesJson.t :=
  let* series := expect (Nft.token_series_by_id n !! token_series_id) "no series" in
  Ok (series_json series).

(** [Nft::nft_series]: [from_index] below the number of series, a
    [limit] non-zero once cast to [usize] (so [2^32] is refused like 0);
    the series in the map's iteration order (modelled as [map_to_list]). *)
Definition nft_series (n : Nft.t) (from_index : option Z) (limit : option Z) : result (list TokenSeriesJson.t) :=
  let start_index := default 0 from_index in
  check require (bool_decide (start_index < Z.of_nat (size (Nft.token_series_by_id n))))
          "Out of bounds, please use a smaller from_index." ;;
  let limit := default usize_max (as_usize <$> limit) in
  check require (bool_decide (limit <> 0)) "Cannot provide limit of 0." ;;
  Ok (take_n limit (skip_n (as_usize start_index) (series_json <$> (map_to_list (Nft.token_series_by_id n)).*2))).

(** [Nft::nft_supply_for_series] *)
Definition nft_supply_for_series (n : Nft.t) (token_series_id : string) : result Z :=
  let* series := expect (Nft.token_series_by_id n !! token_series_id) "Could not find token series" in
  Ok (Z.of_nat (size (TokenSeries.tokens series))).

(** ** Lemmas *)

(** What a successful [internal_transfer_unguarded] changed. *)
Lemma internal_transfer_unguarded_run tok from to n n' :
  internal_transfer_unguarded tok from to n = Ok (tt, n') ->
  Nft.owner_by_id n' = <[tok := to]> (Nft.owner_by_id n) /\
  Nft.approvals_by_id n' = Nft.approvals_by_id n /\
  Nft.token_series_by_id n' = Nft.token_series_by_id n.
Proof.
  unfold internal_transfer_unguarded, st_bind, st_get, st_put, st_lift, expect.
  destruct (Nft.tokens_per_owner n !! from); simpl; [|done]. by intros [= <-].
Qed.

(** What a successful [internal_transfer] checked and changed: the
    sender is the owner or approved (under the given id), the receiver is
    another account, the token has a new owner and no approvals. *)
Lemma internal_transfer_run sender receiver tok aid n o n' :
  internal_transfer sender receiver tok aid n = Ok (o, n') ->
  Nft.owner_by_id n !! tok = Some o /\ o <> receiver /\
  (sender = o \/ exists app a, Nft.approvals_by_id n !! tok = Some app /\ app !! sender = Some a /\
                               match aid with None => True | Some a' => a = a' end) /\
  Nft.owner_by_id n' = <[tok := receiver]> (Nft.owner_by_id n) /\
  Nft.approvals_by_id n' = delete tok (Nft.approvals_by_id n) /\
  Nft.token_series_by_id n' = Nft.token_series_by_id n.
Proof.
  unfold internal_transfer, st_bind, st_get, st_put, st_lift, st_ret, expect, require.
  destruct (Nft.owner_by_id n !! tok) as [o0|] eqn:Ho; simpl; [|done].
  set (n1 := Nft.set_approvals_by_id _ n).
  destruct (bool_decide (sender <> o0)) eqn:Hs.
  - destruct (Nft.approvals_by_id n !! tok) as [app|] eqn:Happ; simpl; [|done].
    destruct (app !! sender) as [a|] eqn:Ha; simpl; [|done].
    destruct (match aid with Some a' => bool_decide (a = a') | None => true end) eqn:Haid; simpl; [|done].
    destruct (bool_decide (o0 <> receiver)) eqn:Hr; simpl; [|done]. apply bool_decide_eq_true_1 in Hr.
    destruct (internal_transfer_unguarded tok o0 receiver n1) as [[[] n2]|] eqn:Hu; simpl; [|done].
    intros [= <- <-]. apply internal_transfer_unguarded_run in Hu as (-> & -> & ->).
    split_and!; try done. right. exists app, a. split_and!; [done | done |].
    destruct aid; [by apply bool_decide_eq_true_1 in Haid | done].
  - destruct (bool_decide (o0 <> receiver)) eqn:Hr; simpl; [|done]. apply bool_decide_eq_true_1 in Hr.
    destruct (internal_transfer_unguarded tok o0 receiver n1) as [[[] n2]|] eqn:Hu; simpl; [|done].
    intros [= <- <-]. apply internal_transfer_unguarded_run in Hu as (-> & -> & ->).
    split_and!; try done. left. apply bool_decide_eq_false_1 in Hs. destruct (decide (sender = o0)); tauto.
Qed.

(** What a successful [grant], [deny] or [set_private_minting] changed:
    the authorizer, by its own method, after the owner check. *)
Lemma grant_run env a n b n' :
  grant env a n = Ok (b, n') ->
  predecessor_account_id env = Nft.owner_id n /\
  n' = Nft.set_private_mint (Permissions.grant (Nft.private_mint n) a).2 n.
Proof.
  unfold grant, st_bind, st_get, st_put, st_lift, st_ret, require.
  case_bool_decide; simpl; [intros [= _ <-]; done | done].
Qed.

Lemma deny_run env a n b n' :
  deny env a n = Ok (b, n') ->
  predecessor_account_id env = Nft.owner_id n /\
  n' = Nft.set_private_mint (Permissions.deny (Nft.private_mint n) a).2 n.
Proof.
  unfold deny, st_bind, st_get, st_put, st_lift, st_ret, require.
  case_bool_decide; simpl; [intros [= _ <-]; done | done].
Qed.

Lemma set_private_minting_run env e n n' :
  set_private_minting env e n = Ok (tt, n') ->
  predecessor_account_id env = Nft.owner_id n /\
  n' = Nft.set_private_mint (Permissions.set_authorization (Nft.private_mint n) e) n.
Proof.
  unfold set_private_minting, st_bind, st_get, st_put, st_lift, st_ret, require.
  case_bool_decide; simpl; [intros [= <-]; done | done].
Qed.

(** On wasm32 a [limit] of [2^32] is cast to the [usize] 0, which
    [nft_series] refuses as a limit of 0. *)
Lemma nft_series_limit_wraps n from_index :
  from_index < Z.of_nat (size (Nft.token_series_by_id n)) ->
  nft_series n (Some from_index) (Some (2 ^ 32)) = Err "Cannot provide limit of 0.".
Proof.
  intros Hlt. unfold nft_series, require, as_usize. simpl.
  rewrite bool_decide_true by done. simpl. by vm_compute.
Qed.

(** ** Theorems *)

(** C27: Access control of minting.  A successful [nft_create_series]
    or [nft_mint] was called by an account the authorizer allows, and a
    mint by the owner of an existing series; [grant], [deny] and
    [set_private_minting] succeed only for the contract owner; [grant]
    allows its account and changes no other, [deny] changes no other and
    refuses its account once private minting is on, and turning private
    minting off allows everyone.  The proof uses only the laws of
    [ContractAutorize]. *)
Theorem nft_access_control env n :
  (forall meta r sid n', nft_create_series env meta r n = Ok (sid, n') ->
     is_allowed n (predecessor_account_id env) = true) /\
  (forall sid r rid tid n', nft_mint env sid r rid n = Ok (tid, n') ->
     is_allowed n (predecessor_account_id env) = true /\
     exists ser, Nft.token_series_by_id n !! sid = Some ser /\ predecessor_account_id env = TokenSeries.owner_id ser) /\
  (forall a b n', grant env a n = Ok (b, n') ->
     predecessor_account_id env = Nft.owner_id n /\ is_allowed n' a = true /\
     forall c, c <> a -> is_allowed n' c = is_allowed n c) /\
  (forall a b n', deny env a n = Ok (b, n') ->
     predecessor_account_id env = Nft.owner_id n /\
     (forall c, c <> a -> is_allowed n' c = is_allowed n c) /\
     (forall n'', set_private_minting env true n' = Ok (tt, n'') -> is_allowed n'' a = false)) /\
  (forall e n', set_private_minting env e n = Ok (tt, n') ->
     predecessor_account_id env = Nft.owner_id n /\ (e = false -> forall c, is_allowed n' c = true)).
Proof.
  unfold is_allowed. split_and!.
  - intros meta r sid n' H. unfold nft_create_series in H. st_inv. subst. by eapply Permissions.panic_if_not_allowed_passed.
  - intros sid r rid tid n' H. unfold nft_mint in H. st_inv. subst.
    split; [by eapply Permissions.panic_if_not_allowed_passed | eauto].
  - intros a b n' H. apply grant_run in H as [Ho ->]. cbn [Nft.set_private_mint Nft.private_mint].
    split_and!; [done | apply grant_allows | intros c Hc; by apply grant_frame].
  - intros a b n' H. apply deny_run in H as [Ho ->]. cbn [Nft.set_private_mint Nft.private_mint].
    split_and!; [done | intros c Hc; by apply deny_frame |].
    intros n'' H'. apply set_private_minting_run in H' as [_ ->]. cbn [Nft.set_private_mint Nft.private_mint].
    apply deny_refuses.
  - intros e n' H. apply set_private_minting_run in H as [Ho ->]. cbn [Nft.set_private_mint Nft.private_mint].
    split; [done | intros -> c; apply authorization_off].
Qed.

End NftContract.
