(* ===== verification/Payouts.v ===== *)
(** * Payouts of the NFT contract ([src/nft/src/payouts.rs])

    [nft_payout] splits a balance between the series royalty and the
    token owner; [nft_transfer_payout], which the market calls in phase 1
    of every settlement, also takes the market's [Fees] (buyer and seller
    shares, in basis points over 10_000) from the memo, removes the
    buyer's fee from the balance, splits the rest, and transfers the
    token.  Every share is rounded down by [royalty_to_payout], so the
    payout falls short of the balance by up to one unit per share; with
    buyer fees it can also exceed it by one.

    The theorems: the exact sum of a payout up to rounding, the resulting
    bounds (the shortfall grows with the number of shares), and the state
    change of a successful [nft_transfer_payout]. *)

From stdpp Require Import pretty.
From S2P Require Import Prelude Fee State Bids Settlement NftContract.
Import Fee.

Module Payouts.
Import NftContract.

(** [pub const ROYALTY_TOTAL_VALUE: u128 = 10_000;] *)
Definition ROYALTY_TOTAL_VALUE : Z := 10000.

Abbreviation Payout := Settlement.Payout.

(** [fn royalty_to_payout(a: u32, b: Balance) -> U128 { U128(a as u128 * b / ROYALTY_TOTAL_VALUE) }] *)
Definition royalty_to_payout (a b : Z) : result Z :=
  let* x := checked_mul u128_max a b in Ok (x / ROYALTY_TOTAL_VALUE).

(** One turn of the loops over fees and royalty: shares of the token
    owner are skipped; otherwise the share is stored, by
    [payout.insert(k, ..)] ([accumulate = false], the buyer fees of
    [nft_transfer_payout] and the royalty of [nft_payout]) or by
    [*payout.entry(k).or_insert(0) += ..] ([accumulate = true]), and
    [total_payout += v] on [u32]. *)
Definition add_share (accumulate : bool) (token_owner : string) (price : Z) (kv : string * Z)
    : st (Payout * Z) unit :=
  fun '(payout, total_payout) =>
    let '(k, v) := kv in
    if bool_decide (k <> token_owner) then
      let* x := royalty_to_payout v price in
      let* val := if accumulate then checked_add u128_max (default 0 (payout !! k)) x else Ok x in
      let* total' := checked_add u32_max total_payout v in
      Ok (tt, (<[k := val]> payout, total'))
    else Ok (tt, (payout, total_payout)).

(** Lines 57-78 of [nft_payout]: the royalty shares, then the owner gets
    what is left of the 10_000 basis points. *)
Definition payout_of (token_owner : string) (royalty : gmap string Z) (balance : Z) : result Payout :=
  let* r := st_iter (add_share false token_owner balance) (map_to_list royalty) (∅, 0) in
  let '(payout, total_payout) := r.2 in
  check require (bool_decide (total_payout <= ROYALTY_TOTAL_VALUE)) "Royalty total value should be < 10000" ;;
  let* rest := checked_sub ROYALTY_TOTAL_VALUE total_payout in
  let* share := royalty_to_payout rest balance in
  Ok (<[token_owner := share]> payout).

(** [Nft::nft_payout] (a view). *)
Definition nft_payout (n : Nft.t) (token_id : string) (balance max_len_payout : Z) : result Payout :=
  let* token_owner := expect (Nft.owner_by_id n !! token_id) "no token id" in
  let* series := expect (Nft.token_series_by_id n !! series_id_of token_id) "no type" in
  let royalty := TokenSeries.royalty series in
  check require (bool_decide (Z.of_nat (size royalty) <= max_len_payout)) "Too many recievers" ;;
  payout_of token_owner royalty balance.

(** Lines 106-140 of [nft_transfer_payout]: with a memo, [max_payout]
    grows by the buyer's weight [b], the buyer's fee
    [balance * b / (10_000 + b)] is removed from the price the shares are
    taken of, and the buyer then the seller shares are stored.  Answers
    [(max_payout, initial_price, (payout, total_payout))]. *)
Definition fee_shares (token_owner : string) (balance : Z) (memo : option Fees)
    : result (Z * Z * (Payout * Z)) :=
  match memo with
  | None => Ok (ROYALTY_TOTAL_VALUE, balance, (∅, 0))
  | Some fees =>
      let* buyer_value := checked_sum u32_max 0 (origin_values (fees_buyer fees)) in
      let* max_payout := checked_add u32_max ROYALTY_TOTAL_VALUE buyer_value in
      let* prod := checked_mul u128_max balance buyer_value in
      let buyer_fee := prod / (ROYALTY_TOTAL_VALUE + buyer_value) in
      let* initial_price := checked_sub balance buyer_fee in
      let* r := st_iter (add_share false token_owner initial_price) (map_to_list (fees_buyer fees)) (∅, 0) in
      let* r' := st_iter (add_share true token_owner initial_price) (map_to_list (fees_seller fees)) r.2 in
      Ok (max_payout, initial_price, r'.2)
  end.

(** Lines 106-155 of [nft_transfer_payout]: the fee shares, the royalty
    shares, and the owner's share of what is left of [max_payout]. *)
Definition transfer_payout_of (token_owner : string) (royalty : gmap string Z) (memo : option Fees)
    (balance : Z) : result Payout :=
  let* s := fee_shares token_owner balance memo in
  let '(max_payout, initial_price, acc) := s in
  let* r := st_iter (add_share true token_owner initial_price) (map_to_list royalty) acc in
  let '(payout, total_payout) := r.2 in
  check require (bool_decide (total_payout <= max_payout))
    ("Royalty total value should be < " +:+ pretty max_payout) ;;
  let* rest := checked_sub max_payout total_payout in
  let* share := royalty_to_payout rest initial_price in
  Ok (<[token_owner := share]> payout).

(** The memo of [nft_transfer_payout]: absent ([None]), or a string that
    [serde_json::from_str] parses into [Fees] ([Some (Some fees)]) or not
    ([Some None]). *)
Definition parse_memo (memo : option (option Fees)) : result (option Fees) :=
  match memo with
  | None => Ok None
  | Some (Some fees) => Ok (Some fees)
  | Some None => Err "invalid FeesArgs"
  end.

(** [Nft::nft_transfer_payout] *)
Definition nft_transfer_payout (env : Env) (receiver_id token_id : string) (approval_id : Z)
    (memo : option (option Fees)) (balance max_len_payout : Z) : NM Payout :=
  do! st_lift (BidLedger.assert_one_yocto env) ;;
  let! n := st_get in
  let! token_owner := st_lift (expect (Nft.owner_by_id n !! token_id) "no token id") in
  let! series := st_lift (expect (Nft.token_series_by_id n !! series_id_of token_id) "no type") in
  let royalty := TokenSeries.royalty series in
  do! st_lift (require (bool_decide (Z.of_nat (size royalty) <= max_len_payout)) "Too many recievers") ;;
  let! fees := st_lift (parse_memo memo) in
  let! payout := st_lift (transfer_payout_of token_owner royalty fees balance) in
  do! st_lift (require (bool_decide (Z.of_nat (size payout) <= max_len_payout)) "Too many recievers") ;;
  do! nft_transfer env receiver_id token_id (Some approval_id) ;;
  st_ret payout.

(** A payout of the market's usual shape: 3% protocol fee from the buyer
    and from the seller, a 10% royalty, at the price with fees 10_308 of a
    sale at 10_008. *)
Definition demo_fees : Fees := mkFees {[ "market.near" := 300 ]} {[ "market.near" := 300 ]}.
Definition demo_royalty : gmap string Z := {[ "creator.near" := 1000 ]}.
Definition demo_payout : Payout := {[ "creator.near" := 1000; "market.near" := 600; "seller.near" := 8706 ]}.

(** ** Sums of payouts *)

(** The total a payout pays. *)
Definition psum (p : Payout) : Z := sum_list (Settlement.payout_values p).

(** The entries of a list of weights that are not the token owner's: the
    ones that become shares. *)
Definition others (o : string) (l : list (string * Z)) : list (string * Z) :=
  filter (fun kv => kv.1 <> o) l.

(** Their total weight, and the sum of their rounded shares of [ip]. *)
Definition weight (o : string) (l : list (string * Z)) : Z := sum_list (others o l).*2.
Definition floors (o : string) (ip : Z) (l : list (string * Z)) : Z :=
  sum_list (map (fun kv => kv.2 * ip / ROYALTY_TOTAL_VALUE) (others o l)).

(** All the weights [nft_transfer_payout] turns into shares, in the order
    of its loops. *)
Definition shares_of (fees : Fees) (royalty : gmap string Z) : list (string * Z) :=
  map_to_list (fees_buyer fees) ++ map_to_list (fees_seller fees) ++ map_to_list royalty.

Lemma u128_max_nonneg : 0 <= u128_max.
Proof. vm_compute. discriminate. Qed.

Lemma psum_insert_new p k v : p !! k = None -> psum (<[k := v]> p) = v + psum p.
Proof. intros Hk. unfold psum, Settlement.payout_values. by rewrite (map_to_list_insert p k v Hk). Qed.

Lemma psum_insert p k v : psum (<[k := v]> p) = v - default 0 (p !! k) + psum p.
Proof.
  destruct (p !! k) as [x|] eqn:Hk; simpl.
  - rewrite <-insert_delete_eq, psum_insert_new by apply lookup_delete_eq.
    rewrite <-(insert_delete_id p k x Hk) at 2. rewrite psum_insert_new by apply lookup_delete_eq. lia.
  - rewrite psum_insert_new by done. lia.
Qed.

Lemma others_app o l1 l2 : others o (l1 ++ l2) = others o l1 ++ others o l2.
Proof. apply filter_app. Qed.

Lemma weight_app o l1 l2 : weight o (l1 ++ l2) = weight o l1 + weight o l2.
Proof. unfold weight. by rewrite others_app, fmap_app, sum_list_app. Qed.

Lemma floors_app o ip l1 l2 : floors o ip (l1 ++ l2) = floors o ip l1 + floors o ip l2.
Proof. unfold floors. by rewrite others_app, map_app, sum_list_app. Qed.

Lemma royalty_to_payout_ok a b x :
  royalty_to_payout a b = Ok x <-> a * b <= u128_max /\ x = a * b / ROYALTY_TOTAL_VALUE.
Proof.
  unfold royalty_to_payout, checked_mul.
  destruct (Z.leb_spec (a * b) u128_max); simpl; split.
  - intros [= <-]. done.
  - by intros [_ ->].
  - done.
  - lia.
Qed.

(** A share never exceeds the product it is taken of. *)
Lemma share_le x : x <= u128_max -> x / ROYALTY_TOTAL_VALUE <= u128_max.
Proof.
  pose proof u128_max_nonneg. pose proof (Z.mul_div_le x ROYALTY_TOTAL_VALUE ltac:(done)).
  unfold ROYALTY_TOTAL_VALUE in *. lia.
Qed.

(** Rounding a share down loses less than one unit. *)
Lemma share_rounding x : 0 <= x - ROYALTY_TOTAL_VALUE * (x / ROYALTY_TOTAL_VALUE) <= ROYALTY_TOTAL_VALUE - 1.
Proof.
  pose proof (Z.div_mod x ROYALTY_TOTAL_VALUE ltac:(done)).
  pose proof (Z.mod_pos_bound x ROYALTY_TOTAL_VALUE ltac:(done)). lia.
Qed.

(** One successful turn of a loop. *)
Lemma add_share_run acc o ip k v p t r :
  add_share acc o ip (k, v) (p, t) = Ok r ->
  (k = o /\ r = (tt, (p, t))) \/
  (k <> o /\ v * ip / ROYALTY_TOTAL_VALUE <= u128_max /\
   r = (tt, (<[k := (if acc then default 0 (p !! k) else 0) + v * ip / ROYALTY_TOTAL_VALUE]> p, t + v))).
Proof.
  unfold add_share. case_bool_decide as Hk.
  - destruct (royalty_to_payout v ip) as [x|] eqn:Hx; simpl; [|done].
    apply royalty_to_payout_ok in Hx as [Hb ->]. apply share_le in Hb.
    intros H. right. split_and!; [done | done |].
    destruct acc; simpl in H; unfold checked_add in H;
      repeat (destruct (_ <=? _); simpl in H; [|done]); by injection H as <-.
  - intros [= <-]. left. split; [|done]. destruct (decide (k = o)); naive_solver.
Qed.

(** A loop that accumulates adds the rounded shares and the weights of
    the entries that are not the owner's, and never pays the owner. *)
Lemma add_shares_run o ip l p t p' t' :
  st_iter (add_share true o ip) l (p, t) = Ok (tt, (p', t')) ->
  psum p' = psum p + floors o ip l /\ t' = t + weight o l /\ p' !! o = p !! o.
Proof.
  unfold floors, weight, others.
  revert p t. induction l as [|[k v] l IH]; intros p t H; simpl in H.
  - injection H as <- <-. simpl. split_and!; [lia | lia | done].
  - unfold st_bind in H. destruct (add_share true o ip (k, v) (p, t)) as [[[] [p1 t1]]|] eqn:Hs; [|done].
    apply IH in H as (H1 & H2 & H3). rewrite filter_cons.
    apply add_share_run in Hs as [[-> [= -> ->]] | (Hk & _ & [= -> ->])].
    + rewrite decide_False by (simpl; tauto). done.
    + rewrite decide_True by done. simpl.
      rewrite H1, H2, H3, psum_insert, lookup_insert_ne by done. split_and!; [ring | rewrite <-Z.add_assoc; reflexivity | done].
Qed.

(** Storing with [insert] into entries not yet present is accumulating. *)
Lemma add_shares_insert o ip l p t :
  NoDup l.*1 -> Forall (fun kv => p !! kv.1 = None) l ->
  st_iter (add_share false o ip) l (p, t) = st_iter (add_share true o ip) l (p, t).
Proof.
  revert p t. induction l as [|[k v] l IH]; intros p t Hnd Hnone; [done|].
  simpl in Hnd. apply NoDup_cons in Hnd as [Hk Hnd]. apply Forall_cons in Hnone as [Hp Hnone]. simpl in Hp.
  simpl. unfold st_bind, add_share. case_bool_decide; [|by apply IH].
  destruct (royalty_to_payout v ip) as [x|] eqn:Hx; simpl; [|done].
  apply royalty_to_payout_ok in Hx as [Hb ->]. apply share_le in Hb.
  rewrite Hp. simpl.
  assert (Hc : checked_add u128_max 0 (v * ip / ROYALTY_TOTAL_VALUE) = Ok (v * ip / ROYALTY_TOTAL_VALUE))
    by (unfold checked_add; rewrite Z.add_0_l, (proj2 (Z.leb_le _ _) Hb); done).
  rewrite Hc. simpl.
  destruct (checked_add u32_max t v); simpl; [|done].
  apply IH; [done|]. apply Forall_forall. intros [k' v'] Hin. simpl.
  rewrite lookup_insert_ne.
  - by apply (proj1 (Forall_forall _ _) Hnone (k', v')).
  - intros ->. apply Hk. apply list_elem_of_fmap. by exists (k', v').
Qed.

(** The rounded shares of a list lose between 0 and 9_999 units per
    share, counted in basis points. *)
Lemma floors_bounds o ip l :
  0 <= ip * weight o l - ROYALTY_TOTAL_VALUE * floors o ip l <=
       (ROYALTY_TOTAL_VALUE - 1) * Z.of_nat (length (others o l)).
Proof.
  unfold weight, floors. induction (others o l) as [|[k v] l' IH]; [simpl; lia|].
  rewrite fmap_cons, map_cons, !sum_list_cons. cbn [snd length].
  pose proof (share_rounding (v * ip)). lia.
Qed.

Lemma psum_empty : psum ∅ = 0.
Proof. unfold psum, Settlement.payout_values. by rewrite map_to_list_empty. Qed.

(** The buyer loop of [nft_transfer_payout] starts from an empty payout
    over distinct keys: it accumulates. *)
Lemma add_shares_insert_empty o ip (m : gmap string Z) :
  st_iter (add_share false o ip) (map_to_list m) (∅, 0) = st_iter (add_share true o ip) (map_to_list m) (∅, 0).
Proof.
  apply add_shares_insert; [apply NoDup_fst_map_to_list|].
  apply Forall_forall. intros. apply lookup_empty.
Qed.

(** What a successful [transfer_payout_of] with fees pays: the rounded
    shares of every weight that is not the owner's, of the price net of
    the buyer's fee, and the owner's rounded share of the rest of
    [10_000 + b]. *)
Lemma transfer_payout_of_run o royalty fees B p :
  transfer_payout_of o royalty (Some fees) B = Ok p ->
  let b := sum_list (origin_values (fees_buyer fees)) in
  let ip := B - B * b / (ROYALTY_TOTAL_VALUE + b) in
  weight o (shares_of fees royalty) <= ROYALTY_TOTAL_VALUE + b /\
  psum p = floors o ip (shares_of fees royalty) +
           (ROYALTY_TOTAL_VALUE + b - weight o (shares_of fees royalty)) * ip / ROYALTY_TOTAL_VALUE.
Proof.
  unfold transfer_payout_of, fee_shares, shares_of.
  destruct (checked_sum _ _ _) as [bv|] eqn:Hb; simpl; [|done].
  destruct (checked_add u32_max _ bv) as [mx|] eqn:Hmx; simpl; [|done].
  destruct (checked_mul u128_max B bv) as [prod|] eqn:Hprod; simpl; [|done].
  destruct (checked_sub B _) as [ip|] eqn:Hip; simpl; [|done].
  rewrite add_shares_insert_empty.
  destruct (st_iter _ (map_to_list (fees_buyer fees)) _) as [[[] [p1 t1]]|] eqn:H1; simpl; [|done].
  destruct (st_iter _ (map_to_list (fees_seller fees)) _) as [[[] [p2 t2]]|] eqn:H2; simpl; [|done].
  destruct (st_iter _ (map_to_list royalty) _) as [[[] [p3 t3]]|] eqn:H3; simpl; [|done].
  destruct (bool_decide (t3 <= mx)) eqn:Ht; simpl; [|done]. apply bool_decide_eq_true_1 in Ht.
  destruct (checked_sub mx t3) as [rest|] eqn:Hrest; simpl; [|done].
  destruct (royalty_to_payout rest ip) as [share|] eqn:Hshare; simpl; [|done].
  intros [= <-]. checked_inv.
  apply royalty_to_payout_ok in Hshare as [_ ->].
  apply add_shares_run in H1 as (E1 & F1 & G1), H2 as (E2 & F2 & G2), H3 as (E3 & F3 & G3).
  rewrite psum_empty, lookup_empty in *.
  rewrite psum_insert_new by congruence.
  rewrite !Z.add_0_l in *. set (b := sum_list _) in *. set (ip := B - B * b / _) in *.
  subst t1 t2 t3. rewrite E3, E2, E1, !weight_app, !floors_app.
  split; [unfold ROYALTY_TOTAL_VALUE in *; lia|]. rewrite !Z.add_assoc. ring.
Qed.

(** The number of shares of a payout with fees: one per weight that is
    not the owner's, and the owner's. *)
Definition share_count (o : string) (fees : Fees) (royalty : gmap string Z) : Z :=
  Z.of_nat (length (others o (shares_of fees royalty))) + 1.

(** The price net of the buyer's fee, scaled back by [10_000 + b], is the
    gross price up to less than [10_000 + b] basis points. *)
Lemma net_price_bounds B b :
  0 <= b ->
  ROYALTY_TOTAL_VALUE * B <= (ROYALTY_TOTAL_VALUE + b) * (B - B * b / (ROYALTY_TOTAL_VALUE + b))
                           < ROYALTY_TOTAL_VALUE * B + ROYALTY_TOTAL_VALUE + b.
Proof.
  intros Hb. unfold ROYALTY_TOTAL_VALUE.
  pose proof (Z.div_mod (B * b) (10000 + b) ltac:(lia)).
  pose proof (Z.mod_pos_bound (B * b) (10000 + b) ltac:(lia)). nia.
Qed.

(** The sum of a payout with fees, in basis points, is the net price
    scaled by [10_000 + b] less at most 9_999 per share. *)
Lemma transfer_payout_of_psum o royalty fees B p :
  transfer_payout_of o royalty (Some fees) B = Ok p ->
  let b := sum_list (origin_values (fees_buyer fees)) in
  let ip := B - B * b / (ROYALTY_TOTAL_VALUE + b) in
  0 <= (ROYALTY_TOTAL_VALUE + b) * ip - ROYALTY_TOTAL_VALUE * psum p
    <= (ROYALTY_TOTAL_VALUE - 1) * share_count o fees royalty.
Proof.
  intros Hrun b ip. apply transfer_payout_of_run in Hrun as [Hw ->]. fold b ip in Hw |- *.
  pose proof (floors_bounds o ip (shares_of fees royalty)).
  pose proof (share_rounding ((ROYALTY_TOTAL_VALUE + b - weight o (shares_of fees royalty)) * ip)).
  unfold share_count. lia.
Qed.

(** C32: The rounding of [nft_transfer_payout]: when the buyer's weights
    are [u32] and total less than 10_000 basis points, a payout computed
    with fees for a balance [B] pays at most [B + 1] and more than [B]
    minus the number of its shares.  The market accepts only payouts in
    [[B - 1, B]]: one unit of slack does not cover the rounding of three
    shares or more, and one unit too many is refused. *)
Theorem transfer_payout_of_bounds o royalty fees B p :
  origins_wf (fees_buyer fees) ->
  sum_list (origin_values (fees_buyer fees)) < ROYALTY_TOTAL_VALUE ->
  transfer_payout_of o royalty (Some fees) B = Ok p ->
  B - share_count o fees royalty < psum p <= B + 1.
Proof.
  intros Hwf Hlt Hrun.
  pose proof (sum_list_nonneg _ (origin_values_nonneg _ Hwf)) as Hb.
  pose proof (net_price_bounds B _ Hb) as Hip.
  apply transfer_payout_of_psum in Hrun.
  set (b := sum_list _) in *. set (ip := B - B * b / _) in *.
  assert (0 < share_count o fees royalty) by (unfold share_count; lia).
  unfold ROYALTY_TOTAL_VALUE in *. lia.
Qed.

(** ** The payout of [nft_payout] *)

(** The royalty loop succeeds when every share fits a [u128] and the
    weights fit the [u32] total. *)
Lemma add_shares_insert_ok o ip l p t :
  Forall (fun kv => 0 <= kv.2 /\ kv.2 * ip <= u128_max) l -> 0 <= t ->
  t + sum_list l.*2 <= u32_max ->
  exists r, st_iter (add_share false o ip) l (p, t) = Ok (tt, r).
Proof.
  revert p t. induction l as [|[k v] l IH]; intros p t Hl Ht Hsum; [by eexists|].
  apply Forall_cons in Hl as [[Hv Hvip] Hl]. simpl in Hv, Hvip. rewrite fmap_cons, sum_list_cons in Hsum. cbn [snd] in Hsum. simpl.
  assert (0 <= sum_list l.*2).
  { apply sum_list_nonneg. apply Forall_forall. intros x Hx.
    apply list_elem_of_fmap in Hx as ([k' v'] & -> & Hin). by apply (proj1 (Forall_forall _ _) Hl (k', v')). }
  unfold st_bind, add_share. case_bool_decide.
  - unfold royalty_to_payout, checked_mul. rewrite (proj2 (Z.leb_le _ _) Hvip). simpl.
    unfold checked_add. rewrite (proj2 (Z.leb_le (t + v) u32_max)) by lia. simpl.
    apply IH; [done | lia | lia].
  - apply IH; [done | lia | lia].
Qed.

(** What a successful [payout_of] pays: the rounded royalty shares and the
    owner's rounded share of the rest of 10_000. *)
Lemma payout_of_run o royalty B p :
  payout_of o royalty B = Ok p ->
  weight o (map_to_list royalty) <= ROYALTY_TOTAL_VALUE /\
  psum p = floors o B (map_to_list royalty) +
           (ROYALTY_TOTAL_VALUE - weight o (map_to_list royalty)) * B / ROYALTY_TOTAL_VALUE.
Proof.
  unfold payout_of. rewrite add_shares_insert_empty.
  destruct (st_iter _ (map_to_list royalty) _) as [[[] [p1 t1]]|] eqn:H1; simpl; [|done].
  destruct (bool_decide (t1 <= ROYALTY_TOTAL_VALUE)) eqn:Ht; simpl; [|done]. apply bool_decide_eq_true_1 in Ht.
  destruct (checked_sub _ t1) as [rest|] eqn:Hrest; simpl; [|done].
  destruct (royalty_to_payout rest B) as [share|] eqn:Hshare; simpl; [|done].
  intros [= <-]. checked_inv. apply royalty_to_payout_ok in Hshare as [_ ->].
  apply add_shares_run in H1 as (E1 & F1 & G1). rewrite psum_empty, lookup_empty in *.
  rewrite psum_insert_new by done. rewrite !Z.add_0_l in *. subst t1.
  split; [unfold ROYALTY_TOTAL_VALUE in *; lia|]. rewrite E1. ring.
Qed.

(** The sum of a royalty payout, in basis points, is the balance less at
    most 9_999 per share. *)
Lemma payout_of_psum o royalty B p :
  payout_of o royalty B = Ok p ->
  0 <= ROYALTY_TOTAL_VALUE * B - ROYALTY_TOTAL_VALUE * psum p
    <= (ROYALTY_TOTAL_VALUE - 1) * (Z.of_nat (length (others o (map_to_list royalty))) + 1).
Proof.
  intros Hrun. apply payout_of_run in Hrun as [Hw ->].
  pose proof (floors_bounds o B (map_to_list royalty)).
  pose proof (share_rounding ((ROYALTY_TOTAL_VALUE - weight o (map_to_list royalty)) * B)).
  unfold ROYALTY_TOTAL_VALUE in *. lia.
Qed.

Lemma weight_le o l : Forall (fun kv => 0 <= kv.2) l -> 0 <= weight o l <= sum_list l.*2.
Proof.
  unfold weight, others. induction 1 as [|[k v] l Hv Hl IH]; [simpl; lia|].
  rewrite filter_cons, fmap_cons, sum_list_cons. simpl in Hv.
  case_decide; [rewrite fmap_cons, sum_list_cons|]; cbn [snd]; lia.
Qed.

Lemma weight_elem_le (l : list (string * Z)) (k : string) (v : Z) : Forall (fun kv => 0 <= kv.2) l -> (k, v) ∈ l -> v <= sum_list l.*2.
Proof.
  induction 1 as [|[k' v'] l Hv Hl IH]; intros Hin; [by apply not_elem_of_nil in Hin|].
  rewrite fmap_cons, sum_list_cons. simpl in Hv |- *. apply elem_of_cons in Hin as [Heq | Hin].
  - injection Heq as <- <-. pose proof (weight_le "" l Hl). lia.
  - specialize (IH Hin). lia.
Qed.

(** [payout_of] succeeds on [u32] royalty weights totalling at most
    10_000 when 10_000 times the balance fits a [u128]. *)
Lemma payout_of_ok o royalty B :
  map_Forall (fun _ v => 0 <= v <= u32_max) royalty ->
  sum_list (map_to_list royalty).*2 <= ROYALTY_TOTAL_VALUE ->
  0 <= B -> ROYALTY_TOTAL_VALUE * B <= u128_max ->
  exists p, payout_of o royalty B = Ok p.
Proof.
  intros Hwf Hsum HB HTB.
  assert (Hnn : Forall (fun kv => 0 <= kv.2) (map_to_list royalty)).
  { apply map_Forall_to_list in Hwf. eapply Forall_impl; [exact Hwf|]. intros [k v] [? _]. done. }
  pose proof (weight_le o _ Hnn) as Hw.
  destruct (add_shares_insert_ok o B (map_to_list royalty) ∅ 0) as [[p1 t1] H1].
  { apply Forall_forall. intros [k v] Hin. pose proof (weight_elem_le _ k v Hnn Hin).
    assert (0 <= v) by (by apply (proj1 (Forall_forall _ _) Hnn (k, v))).
    split; [done|]. simpl. assert (v * B <= ROYALTY_TOTAL_VALUE * B) by (apply Z.mul_le_mono_nonneg_r; lia). lia. }
  { lia. }
  { unfold ROYALTY_TOTAL_VALUE, u32_max in *. lia. }
  unfold payout_of. rewrite H1. simpl.
  rewrite add_shares_insert_empty in H1. apply add_shares_run in H1 as (_ & -> & _).
  rewrite bool_decide_eq_true_2 by lia. simpl.
  unfold checked_sub. rewrite (proj2 (Z.leb_le _ _)) by lia. simpl.
  unfold royalty_to_payout, checked_mul.
  rewrite (proj2 (Z.leb_le _ _)); [by eexists|]. unfold ROYALTY_TOTAL_VALUE in *. nia.
Qed.

(** ** The token moves with the payout *)

(** The receiver owns the token after a successful [nft_transfer_payout]. *)
(** From a payout that has none of the remaining keys, adding each share
    to its entry ([entry(k).or_insert(0) += ..]) stores the same shares
    as inserting them ([insert(k, ..)]). *)
Lemma add_shares_accumulate_fresh o ip (l : list (string * Z)) p t :
  NoDup l.*1 -> (forall kv, kv ∈ l -> p !! kv.1 = None) ->
  st_iter (add_share true o ip) l (p, t) = st_iter (add_share false o ip) l (p, t).
Proof.
  revert p t. induction l as [|[k v] l IH]; intros p t Hnd Hfresh; [done|].
  apply NoDup_cons in Hnd as [Hk Hnd]. cbn [st_iter]. unfold st_bind, add_share.
  case_bool_decide; [|apply IH; [done | intros kv Hkv; apply Hfresh; set_solver]].
  destruct (royalty_to_payout v ip) as [x|e] eqn:Hx; [|done]. cbn [rbind].
  pose proof (Hfresh (k, v) ltac:(set_solver)) as Hp; simpl in Hp. rewrite Hp. cbn [default].
  apply royalty_to_payout_ok in Hx as [Hprod ->]. unfold checked_add.
  rewrite (proj2 (Z.leb_le _ _)) by (pose proof (share_le _ Hprod); lia). cbn [rbind].
  destruct (t + v <=? u32_max); [|done]. cbn [rbind].
  apply IH; [done|]. intros [k' v'] Hkv. rewrite lookup_insert_ne; [by apply (Hfresh (k', v')); set_solver|].
  intros ->. apply Hk. exact (list_elem_of_fmap_2 fst _ _ Hkv).
Qed.

(** C35: Without a fees memo, the payout [nft_transfer_payout] computes
    for a token is exactly the one the [nft_payout] view announces for the
    same balance, failures included: the [entry(..) +=] of the royalty
    loop of [nft_transfer_payout] and the [insert] of [nft_payout] store
    the same shares, and both refuse royalties above 10_000 basis points
    with the same message. *)
Theorem transfer_payout_without_memo token_owner royalty balance :
  transfer_payout_of token_owner royalty None balance = payout_of token_owner royalty balance.
Proof.
  unfold transfer_payout_of, payout_of. cbn [fee_shares rbind].
  rewrite add_shares_accumulate_fresh; [| apply NoDup_fst_map_to_list | intros kv _; apply lookup_empty].
  destruct (st_iter _ _ _) as [[[] [p t]]|e]; [|done]. cbn [rbind].
  by replace (pretty ROYALTY_TOTAL_VALUE) with "10000" by (vm_compute; reflexivity).
Qed.

Lemma nft_transfer_payout_new_owner env receiver tok aid memo B mx n p n' :
  nft_transfer_payout env receiver tok aid memo B mx n = Ok (p, n') ->
  Nft.owner_by_id n' !! tok = Some receiver.
Proof.
  unfold nft_transfer_payout, nft_transfer, tokens_nft_transfer.
  intros H. st_inv. subst.
  match goal with H : internal_transfer _ _ _ _ _ = Ok _ |- _ =>
    apply internal_transfer_run in H as (_ & _ & _ & -> & _) end.
  apply lookup_insert_eq.
Qed.

(** C33: A successful [nft_transfer_payout] was called with one yocto by
    the owner or by an account approved under [approval_id], with a memo
    that is absent or parses; it answers the payout [transfer_payout_of]
    computes from the token's series royalty and the parsed fees, with at most [max_len_payout] entries, gives the token to
    the receiver (another account than the owner) and clears its
    approvals. *)
Theorem nft_transfer_payout_run env receiver tok aid memo B mx n p n' :
  nft_transfer_payout env receiver tok aid memo B mx n = Ok (p, n') ->
  exists o s fees,
    Nft.owner_by_id n !! tok = Some o /\ o <> receiver /\
    Nft.token_series_by_id n !! series_id_of tok = Some s /\
    parse_memo memo = Ok fees /\ transfer_payout_of o (TokenSeries.royalty s) fees B = Ok p /\
    Z.of_nat (size p) <= mx /\ attached_deposit env = 1 /\
    (predecessor_account_id env = o \/
     exists app, Nft.approvals_by_id n !! tok = Some app /\ app !! predecessor_account_id env = Some aid) /\
    Nft.owner_by_id n' = <[tok := receiver]> (Nft.owner_by_id n) /\
    Nft.approvals_by_id n' = delete tok (Nft.approvals_by_id n).
Proof.
  unfold nft_transfer_payout, nft_transfer, tokens_nft_transfer, BidLedger.assert_one_yocto.
  intros H. st_inv. subst.
  match goal with H : internal_transfer _ _ _ _ _ = Ok _ |- _ =>
    apply internal_transfer_run in H as (Ho & Hne & Hauth & Hown & Happ & _) end.
  repeat match goal with H : bool_decide _ = true |- _ => apply bool_decide_eq_true_1 in H end.
  simplify_eq. eexists _, _, _. split_and!; try eassumption.
  destruct Hauth as [-> | (app & a & ? & ? & ->)]; [by left | right; eauto].
Qed.

(** ** Witnesses *)

Lemma transfer_payout_of_bounds_witness :
  10308 - share_count "seller.near" demo_fees demo_royalty < psum demo_payout <= 10308 + 1.
Proof.
  exact (transfer_payout_of_bounds "seller.near" demo_royalty demo_fees 10308 demo_payout
           ltac:(refine (bool_decide_unpack _ _); vm_compute; reflexivity)
           ltac:(vm_compute; reflexivity) ltac:(vm_compute; reflexivity)).
Defined.

End Payouts.
