(* ===== verification/System.v ===== *)
(** * The market and the NFT contract together

    A settlement crosses the two contracts: phase 1 of the market emits
    [NftTransferPayout] (an [Action]); the runtime runs
    [nft_transfer_payout] on the NFT contract, called by the market with
    one yocto; a panic there reverts the NFT contract and the market's
    callback sees a failed promise ([None]), otherwise the callback sees
    the payout and the token has moved.  Listing goes the other way:
    [nft_approve] on the NFT contract creates the [nft_on_approve] call of
    the market, which runs on its own (its failure does not revert the
    approval).

    The theorems: a payout the market refuses leaves the buyer with the
    token and the full refund, and a concrete listing of the repository's
    shape (3% protocol fee, a 10% series royalty) at price 10_008 ends
    that way. *)

From S2P Require Import Prelude Fee State Bids Sales Settlement Auctions Storage Hack Lifecycle NftContract Payouts.
Import Fee.

Module System.

(** The state of both contracts. *)
Record t := mk {
  nft : Nft.t;
  market : Market.t;
}.

(** What the NFT contract sees when the market calls it: the market is
    the predecessor, the original signer stays, one yocto is attached. *)
Definition nft_env (env : Env) (nft_contract_id : string) : Env :=
  mkEnv (block_timestamp env) (current_account_id env) (signer_account_id env) 1 nft_contract_id.

(** The runtime delivers a settlement promise of the market: the call on
    the NFT contract, then the chained callback with its answer.  Other
    promises do not involve the NFT contract. *)
Definition settle (env : Env) (a : Action) (s : t) : result t :=
  match a with
  | NftTransferPayout nft_contract_id receiver_id token_id approval_id memo balance max_len_payout cb =>
      let '(answer, n') :=
        match Payouts.nft_transfer_payout (nft_env env nft_contract_id) receiver_id token_id approval_id
                (Some (Some memo)) balance max_len_payout (nft s) with
        | Ok (p, n') => (Some p, n')
        | Err _ => (None, nft s)
        end in
      let* r := match cb with
                | ResolvePurchase ft_token_id buyer_id sale price =>
                    Settlement.resolve_purchase ft_token_id buyer_id sale price answer (market s)
                | ResolveFinishAuction ft_token_id buyer_id price =>
                    Settlement.resolve_finish_auction ft_token_id buyer_id price answer (market s)
                end in
      Ok (mk n' r.2)
  | _ => Ok s
  end.

(** [nft_approve(token_id, account_id, Some(msg))] by the token owner,
    then the [nft_on_approve] call it creates on [account_id]: the market
    sees the NFT contract as predecessor and the owner as signer.  When
    the market panics, the approval stays. *)
Definition approve_and_list (env : Env) (nft_contract_id token_id : string) (msg : Storage.ArgsKind)
    (s : t) : result t :=
  let* r := NftContract.nft_approve (mkEnv (block_timestamp env) (predecessor_account_id env)
              (signer_account_id env) (attached_deposit env) nft_contract_id)
              token_id (current_account_id env) (nft s) in
  let '(approval_id, n') := r in
  let market_env := mkEnv (block_timestamp env) nft_contract_id (signer_account_id env) 0 (current_account_id env) in
  match Storage.nft_on_approve market_env token_id (predecessor_account_id env) approval_id (Some msg) (market s) with
  | Ok (_, m') => Ok (mk n' m')
  | Err _ => Ok (mk n' (market s))
  end.

(** A call of the NFT contract, and a call of the market. *)
Definition on_nft {A} (c : NftContract.NM A) (s : t) : result t :=
  let* r := c (nft s) in Ok (mk r.2 (market s)).
Definition on_market (env : Env) (c : Lifecycle.call) (s : t) : result t :=
  let* r := Lifecycle.exec env c (market s) in Ok (mk (nft s) r.2).

(** ** A listing of the repository's shape

    An NFT contract with open minting; [creator.near] creates series "1"
    with a 10% royalty to itself and mints "1:1" to [seller.near]; the
    seller pays the market's storage, approves the market with a sale
    message at [price] NEAR, and [bob.near] buys with exactly the price
    with fees; then the runtime settles the purchase. *)
Module Demo.
Definition env_at (now : Z) (who : string) (deposit : Z) (here : string) : Env :=
  mkEnv now who who deposit here.
Definition royalty : gmap string Z := {[ "creator.near" := 1000 ]}.
Definition s0 : t := mk (Nft.new "admin.near" [] false) (Market.new ["nft.near"] "market.near").
Definition sale_msg (price : Z) : Storage.ArgsKind :=
  Storage.ArgsSale (Sales.mkSaleArgs {[ NEAR := price ]} None None None None).
Definition with_fees (price : Z) : Z :=
  match calculate_price_with_fees price None with Ok d => d | Err _ => 0 end.

Definition listed (price : Z) : result t :=
  let* s := on_nft (NftContract.nft_create_series (env_at 0 "creator.near" 0 "nft.near")
                      (mkMetadata (Some "Arch") None None None) (Some royalty)) s0 in
  let* s := on_nft (NftContract.nft_mint (env_at 1 "creator.near" 0 "nft.near") "1" "seller.near" None) s in
  let* s := on_market (env_at 2 "seller.near" Storage.STORAGE_PER_SALE "market.near")
              (Lifecycle.StorageDeposit None) s in
  approve_and_list (env_at 3 "seller.near" 1 "market.near") "nft.near" "1:1" (sale_msg price) s.

Definition bought (price : Z) : result t :=
  let* s := listed price in
  on_market (env_at 4 "bob.near" (with_fees price) "market.near")
    (Lifecycle.Offer "nft.near" "1:1" NEAR None None None) s.

Definition state_of (r : result t) : t := match r with Ok s => s | Err _ => s0 end.

(** The settlement promise phase 1 left last. *)
Definition pending (s : t) : Action := default (Transfer "" 0) (last (Market.promises (market s))).

Definition settled (price : Z) : result t :=
  let* s := bought price in settle (env_at 5 "bob.near" 0 "market.near") (pending s) s.

(** What an account received from the market's promises. *)
Definition received (who : string) (s : t) : Z := sum_list (map (paid_to who) (Market.promises (market s))).

(** The listing at [price] ends with the buyer holding the token and the
    whole payment returned. *)
Definition strands (price : Z) : bool :=
  match settled price with
  | Ok s => bool_decide (Nft.owner_by_id (nft s) !! "1:1" = Some "bob.near" /\
                         received "bob.near" s = with_fees price)
  | Err _ => false
  end.

(** The state before the settlement of the sale at 10_008, its pending
    promise, and the NFT contract's answer to it. *)
Definition before : t := state_of (bought 10008).
Definition settle_env : Env := env_at 5 "bob.near" 0 "market.near".
Definition bought_sale : Sale.t :=
  match pending before with
  | NftTransferPayout _ _ _ _ _ _ _ (ResolvePurchase _ _ sale _) => sale
  | _ => State.Demo.sale
  end.
Definition answer : result (Settlement.Payout * Nft.t) :=
  Payouts.nft_transfer_payout (nft_env settle_env "nft.near") "bob.near" "1:1" 1 (Some (Some Payouts.demo_fees))
    10308 10 (nft before).
Definition after_nft : Nft.t := match answer with Ok (_, n') => n' | Err _ => nft before end.
End Demo.

(** ** Theorems *)

(** C34: Whenever the NFT contract answers a NEAR purchase with a payout
    the market refuses (more than 10 entries with the sale's bids, none,
    or a total outside [[price - 1, price]]), the token has nevertheless
    gone to the buyer, and the callback sends the buyer the full price
    back: the buyer holds both, the seller and the payees get nothing. *)
Theorem settle_refused_payout env nft_contract_id buyer tok aid fees price mx sale s p n' :
  0 <= price -> Settlement.payout_wf p ->
  Payouts.nft_transfer_payout (nft_env env nft_contract_id) buyer tok aid (Some (Some fees)) price mx (nft s)
    = Ok (p, n') ->
  ~ Settlement.acceptable (size (Sale.bids sale)) price p ->
  settle env (NftTransferPayout nft_contract_id buyer tok aid fees price mx
                (ResolvePurchase NEAR buyer sale price)) s =
    Ok (mk n' (Market.set_promises (Market.promises (market s) ++ [Transfer buyer price]) (market s))) /\
  Nft.owner_by_id n' !! tok = Some buyer.
Proof.
  intros Hp Hwf Hrun Hrej. split; [|by eapply Payouts.nft_transfer_payout_new_owner].
  unfold settle. rewrite Hrun. simpl.
  rewrite Settlement.resolve_purchase_reject_same by done.
  by unfold Settlement.resolve_purchase, st_bind.
Qed.

(** The rounding of the NFT contract defeats the market's one unit of
    slack on an ordinary listing: with the 3% protocol fee and a 10%
    series royalty, of the 100 prices from 1 NEAR to 1 NEAR plus 99
    yoctoNEAR, 45 end with the buyer holding the token and refunded in
    full, and the seller and the royalty holder paid nothing. *)
Theorem royalty_listing_strand_rate :
  length (filter (fun price => Demo.strands price = true)
            (map (fun i => 10 ^ 24 + Z.of_nat i) (seq 0 100))) = 45%nat.
Proof. vm_compute. reflexivity. Qed.

(** ** Witnesses *)

Lemma nft_transfer_payout_run_witness :
  exists o s fees,
    Nft.owner_by_id (nft Demo.before) !! "1:1" = Some o /\ o <> "bob.near" /\
    Nft.token_series_by_id (nft Demo.before) !! NftContract.series_id_of "1:1" = Some s /\
    Payouts.parse_memo (Some (Some Payouts.demo_fees)) = Ok fees /\
    Payouts.transfer_payout_of o (TokenSeries.royalty s) fees 10308 = Ok Payouts.demo_payout /\
    Z.of_nat (size Payouts.demo_payout) <= 10 /\ attached_deposit (nft_env Demo.settle_env "nft.near") = 1 /\
    (predecessor_account_id (nft_env Demo.settle_env "nft.near") = o \/
     exists app, Nft.approvals_by_id (nft Demo.before) !! "1:1" = Some app /\
                 app !! predecessor_account_id (nft_env Demo.settle_env "nft.near") = Some 1) /\
    Nft.owner_by_id Demo.after_nft = <[ "1:1" := "bob.near" ]> (Nft.owner_by_id (nft Demo.before)) /\
    Nft.approvals_by_id Demo.after_nft = delete "1:1" (Nft.approvals_by_id (nft Demo.before)).
Proof.
  exact (Payouts.nft_transfer_payout_run (nft_env Demo.settle_env "nft.near") "bob.near" "1:1" 1
           (Some (Some Payouts.demo_fees)) 10308 10 (nft Demo.before) Payouts.demo_payout Demo.after_nft
           ltac:(vm_compute; reflexivity)).
Defined.

Lemma settle_refused_payout_witness :
  settle Demo.settle_env (NftTransferPayout "nft.near" "bob.near" "1:1" 1 Payouts.demo_fees 10308 10
                            (ResolvePurchase NEAR "bob.near" Demo.bought_sale 10308)) Demo.before =
    Ok (mk Demo.after_nft (Market.set_promises (Market.promises (market Demo.before) ++
                                                  [Transfer "bob.near" 10308]) (market Demo.before))) /\
  Nft.owner_by_id Demo.after_nft !! "1:1" = Some "bob.near".
Proof.
  exact (settle_refused_payout Demo.settle_env "nft.near" "bob.near" "1:1" 1 Payouts.demo_fees 10308 10
           Demo.bought_sale Demo.before Payouts.demo_payout Demo.after_nft
           ltac:(lia) ltac:(refine (bool_decide_unpack _ _); vm_compute; reflexivity)
           ltac:(vm_compute; reflexivity)
           ltac:(unfold Settlement.acceptable; refine (bool_decide_unpack _ _); vm_compute; reflexivity)).
Defined.

End System.
