(* ===== verification/NftLifecycle.v ===== *)
(** * The NFT contract as a transition system

    Every public method of the NFT contract that changes its state is an
    [nft_call]; an [nft_step] is a successful call by any account with
    arguments of the Rust types ([u32] royalty weights).  [nft_ok]
    collects what holds in every state reachable from [Nft::new]: series
    ids are ["1"], ["2"], ... up to the number of series; the tokens of
    series [s] are ["s:1"], ["s:2"], ... up to its size; every owned token
    belongs to the series its id names; every royalty has [u32] weights
    totalling at most [MAXIMUM_ROYALTY].  Hence [nft_mint] and
    [nft_create_series] never overwrite, and [nft_payout] and
    [nft_transfer_payout] never fail to find the series of a token. *)

From S2P Require Import Prelude Fee State Bids Settlement NftContract Payouts.
From stdpp Require Import pretty.
From Stdlib Require Import Ascii.
Import Fee.
Open Scope Z_scope.

Module NftLifecycle.
Import NftContract.

(** The state-changing public methods of the NFT contract. *)
Inductive nft_call :=
| CreateSeries (token_metadata : TokenMetadata) (royalty : option (gmap string Z))
| Mint (token_series_id receiver_id : string) (refund_id : option string)
| Grant (account_id : string)
| Deny (account_id : string)
| SetPrivateMinting (enabled : bool)
| Transfer (receiver_id token_id : string) (approval_id : option Z)
| Approve (token_id account_id : string)
| TransferPayout (receiver_id token_id : string) (approval_id : Z) (memo : option (option Fees))
    (balance max_len_payout : Z).

(** Dispatch, discarding the answers. *)
Definition nft_exec (env : Env) (c : nft_call) : NM unit :=
  match c with
  | CreateSeries meta r => let! _ := nft_create_series env meta r in st_ret tt
  | Mint s r rid => let! _ := nft_mint env s r rid in st_ret tt
  | Grant a => let! _ := grant env a in st_ret tt
  | Deny a => let! _ := deny env a in st_ret tt
  | SetPrivateMinting b => set_private_minting env b
  | Transfer r t a => nft_transfer env r t a
  | Approve t a => let! _ := nft_approve env t a in st_ret tt
  | TransferPayout r t a memo b mx => let! _ := Payouts.nft_transfer_payout env r t a memo b mx in st_ret tt
  end.

(** Arguments of their Rust types: royalty weights are [u32]. *)
Definition args_ok (c : nft_call) : Prop :=
  match c with
  | CreateSeries _ (Some r) => map_Forall (fun _ v => 0 <= v <= u32_max) r
  | _ => True
  end.

#[export] Instance args_ok_dec c : Decision (args_ok c).
Proof. destruct c as [? [r|]| | | | | | |]; simpl; apply _. Defined.

Inductive nft_step : Nft.t -> Nft.t -> Prop :=
| nft_step_call env c n n' : args_ok c -> nft_exec env c n = Ok (tt, n') -> nft_step n n'.

Definition nft_reachable (n : Nft.t) : Prop :=
  exists owner minters enabled, rtc nft_step (Nft.new owner minters enabled) n.

(** ** The invariant *)

(** No delimiter in a string: it is its own series id. *)
Definition delim_free (s : string) : Prop := series_id_of s = s.

(** The id of the [i]-th token of series [sid]. *)
Definition token_id_of (sid : string) (i : N) : string := sid +:+ String TOKEN_DELIMETER (pretty i).

Definition series_ids_ok (n : Nft.t) : Prop :=
  forall k, is_Some (Nft.token_series_by_id n !! k) <->
    exists i : N, (1 <= i <= N.of_nat (size (Nft.token_series_by_id n)))%N /\ k = pretty i.

Definition token_ids_ok (n : Nft.t) : Prop :=
  forall sid ser, Nft.token_series_by_id n !! sid = Some ser ->
    forall tok, tok ∈ TokenSeries.tokens ser <->
      exists i : N, (1 <= i <= N.of_nat (size (TokenSeries.tokens ser)))%N /\ tok = token_id_of sid i.

Definition owners_ok (n : Nft.t) : Prop :=
  forall tok o, Nft.owner_by_id n !! tok = Some o ->
    exists ser, Nft.token_series_by_id n !! series_id_of tok = Some ser /\ tok ∈ TokenSeries.tokens ser.

Definition royalty_ok (n : Nft.t) : Prop :=
  map_Forall (fun _ ser => map_Forall (fun _ v => 0 <= v <= u32_max) (TokenSeries.royalty ser) /\
                           Prelude.sum_list (map_to_list (TokenSeries.royalty ser)).*2 <= MAXIMUM_ROYALTY)
    (Nft.token_series_by_id n).

Definition nft_ok (n : Nft.t) : Prop :=
  series_ids_ok n /\ token_ids_ok n /\ owners_ok n /\ royalty_ok n.

(** ** Token ids *)

Lemma pretty_N_char_delim_free d s : delim_free s -> delim_free (String (pretty_N_char d) s).
Proof.
  unfold delim_free. intros Hs. simpl. rewrite Hs.
  destruct (bool_decide _) eqn:Hd; [|done]. apply bool_decide_eq_true_1 in Hd.
  exfalso. revert Hd. unfold pretty_N_char, TOKEN_DELIMETER. by repeat case_match.
Qed.

Lemma pretty_N_go_delim_free x s : delim_free s -> delim_free (pretty_N_go x s).
Proof.
  revert s. induction (N.lt_wf_0 x) as [x _ IH]; intros s Hs.
  destruct (decide (0 < x)%N) as [Hx|Hx].
  - rewrite pretty_N_go_step by done. apply IH; [by apply N.div_lt | by apply pretty_N_char_delim_free].
  - by replace x with 0%N by lia.
Qed.

(** Decimal numbers contain no delimiter. *)
Lemma pretty_delim_free (i : N) : delim_free (pretty i).
Proof.
  unfold pretty, pretty_N. case_decide; [done|]. by apply pretty_N_go_delim_free.
Qed.

(** The series id of a token id is the text before the delimiter. *)
Lemma series_id_of_token_id sid i : delim_free sid -> series_id_of (token_id_of sid i) = sid.
Proof.
  unfold delim_free, token_id_of. induction sid as [|c s IH]; simpl.
  - done.
  - destruct (bool_decide (c = TOKEN_DELIMETER)); [done|]. intros [= H]. by rewrite IH.
Qed.

Lemma token_id_of_inj sid i j : token_id_of sid i = token_id_of sid j -> i = j.
Proof. unfold token_id_of. intros H. apply (inj (String.append sid)) in H. injection H. apply (inj pretty). Qed.

(** ** What each method changes *)

(** [nft_ok] only reads the owners and the series. *)
Lemma nft_ok_same n n' :
  Nft.owner_by_id n' = Nft.owner_by_id n -> Nft.token_series_by_id n' = Nft.token_series_by_id n ->
  nft_ok n -> nft_ok n'.
Proof. unfold nft_ok, series_ids_ok, token_ids_ok, owners_ok, royalty_ok. intros -> ->. done. Qed.

(** A transfer gives an owned token to a new owner and keeps the series. *)
Lemma nft_ok_move n n' tok o r :
  Nft.owner_by_id n !! tok = Some o ->
  Nft.owner_by_id n' = <[tok := r]> (Nft.owner_by_id n) ->
  Nft.token_series_by_id n' = Nft.token_series_by_id n ->
  nft_ok n -> nft_ok n'.
Proof.
  intros Ho Hown Hser (Hs & Ht & Hw & Hr). split_and!; unfold series_ids_ok, token_ids_ok, royalty_ok;
    rewrite ?Hser; try done.
  intros tok' o'. rewrite Hown, Hser. destruct (decide (tok' = tok)) as [->|Hne].
  - intros _. by apply (Hw tok o).
  - rewrite lookup_insert_ne by done. apply Hw.
Qed.

Lemma nft_transfer_run env r tok aid n n' :
  nft_transfer env r tok aid n = Ok (tt, n') ->
  exists o, Nft.owner_by_id n !! tok = Some o /\ o <> r /\
    Nft.owner_by_id n' = <[tok := r]> (Nft.owner_by_id n) /\
    Nft.token_series_by_id n' = Nft.token_series_by_id n.
Proof.
  unfold nft_transfer, tokens_nft_transfer. intros H. st_inv. subst.
  match goal with H : internal_transfer _ _ _ _ _ = Ok _ |- _ =>
    apply internal_transfer_run in H as (Ho & Hne & _ & Hown & _ & Hser) end.
  eauto.
Qed.

Lemma nft_approve_run env tok a n id n' :
  nft_approve env tok a n = Ok (id, n') ->
  Nft.owner_by_id n' = Nft.owner_by_id n /\ Nft.token_series_by_id n' = Nft.token_series_by_id n.
Proof. unfold nft_approve, st_put. intros H. st_inv. subst. done. Qed.

Lemma nft_create_series_run env meta r n sid n' :
  nft_create_series env meta r n = Ok (sid, n') ->
  sid = pretty (N.of_nat (size (Nft.token_series_by_id n)) + 1)%N /\
  Nft.owner_by_id n' = Nft.owner_by_id n /\
  Nft.token_series_by_id n' =
    <[sid := TokenSeries.mk meta (predecessor_account_id env) ∅ (default ∅ r)]> (Nft.token_series_by_id n) /\
  Prelude.sum_list (map_to_list (default ∅ r)).*2 <= MAXIMUM_ROYALTY.
Proof.
  unfold nft_create_series, st_put. intros H. st_inv. checked_inv. subst.
  repeat match goal with H : bool_decide _ = true |- _ => apply bool_decide_eq_true_1 in H end.
  split_and!; try done; lia.
Qed.

Lemma nft_mint_run env sid r rid n tid n' :
  nft_mint env sid r rid n = Ok (tid, n') ->
  exists ser, Nft.token_series_by_id n !! sid = Some ser /\
    tid = token_id_of sid (N.of_nat (size (TokenSeries.tokens ser)) + 1) /\
    Nft.owner_by_id n' = <[tid := r]> (Nft.owner_by_id n) /\
    Nft.token_series_by_id n' =
      <[sid := TokenSeries.set_tokens ({[tid]} ∪ TokenSeries.tokens ser) ser]> (Nft.token_series_by_id n).
Proof.
  unfold nft_mint, st_put. intros H. st_inv. subst. eexists. split_and!; [done | | done | done].
  unfold token_id_of. do 3 f_equal. lia.
Qed.

(** ** Preservation *)

(** The id [nft_create_series] hands out is not taken. *)
Lemma series_id_fresh n :
  series_ids_ok n -> Nft.token_series_by_id n !! pretty (N.of_nat (size (Nft.token_series_by_id n)) + 1)%N = None.
Proof.
  intros Hs. apply eq_None_not_Some. intros Hsome. apply Hs in Hsome as (i & Hi & Heq).
  apply (inj pretty) in Heq. lia.
Qed.

(** An existing series id is a decimal number, hence has no delimiter. *)
Lemma series_id_delim_free n sid ser :
  series_ids_ok n -> Nft.token_series_by_id n !! sid = Some ser -> delim_free sid.
Proof. intros Hs Hl. destruct (proj1 (Hs sid) (mk_is_Some _ _ Hl)) as (i & _ & ->). apply pretty_delim_free. Qed.

(** The id [nft_mint] hands out is not a token of the series yet. *)
Lemma token_id_fresh n sid ser :
  token_ids_ok n -> Nft.token_series_by_id n !! sid = Some ser ->
  token_id_of sid (N.of_nat (size (TokenSeries.tokens ser)) + 1) ∉ TokenSeries.tokens ser.
Proof.
  intros Ht Hl Hin. apply (Ht _ _ Hl) in Hin as (i & Hi & Heq). apply token_id_of_inj in Heq. lia.
Qed.

Lemma nft_create_series_ok env meta r n sid n' :
  args_ok (CreateSeries meta r) -> nft_ok n -> nft_create_series env meta r n = Ok (sid, n') -> nft_ok n'.
Proof.
  intros Hargs (Hs & Ht & Hw & Hr) H. apply nft_create_series_run in H as (-> & Hown & Hser & Hsum).
  pose proof (series_id_fresh n Hs) as Hfresh.
  set (sid := pretty _) in *.
  split_and!.
  - intros k. rewrite Hser, map_size_insert_None, lookup_insert_is_Some' by done. rewrite (Hs k).
    split.
    + intros [<- | (i & Hi & ->)]; [exists (N.of_nat (size (Nft.token_series_by_id n)) + 1)%N; split; [lia | done]|].
      exists i. split; [lia | done].
    + intros (i & Hi & ->). destruct (decide (i = N.of_nat (size (Nft.token_series_by_id n)) + 1)%N) as [->|Hne]; [by left|].
      right. exists i. split; [lia | done].
  - intros sid' ser'. rewrite Hser. destruct (decide (sid' = sid)) as [->|Hne].
    + rewrite lookup_insert_eq. intros [= <-] tok. cbn [TokenSeries.tokens]. rewrite size_empty. split; [set_solver | intros (i & Hi & _); lia].
    + rewrite lookup_insert_ne by done. apply Ht.
  - intros tok o Ho. rewrite Hown in Ho. destruct (Hw tok o Ho) as (ser & Hl & Hin).
    exists ser. rewrite Hser, lookup_insert_ne; [done|]. intros Heq. rewrite <-Heq in Hl. congruence.
  - unfold royalty_ok. rewrite Hser. apply map_Forall_insert_2; [|done]. simpl. split; [|done].
    destruct r as [r|]; [done | apply map_Forall_empty].
Qed.

Lemma nft_mint_ok env sid r rid n tid n' :
  nft_ok n -> nft_mint env sid r rid n = Ok (tid, n') -> nft_ok n'.
Proof.
  intros (Hs & Ht & Hw & Hr) H. apply nft_mint_run in H as (ser & Hl & -> & Hown & Hser).
  pose proof (token_id_fresh n sid ser Ht Hl) as Hfresh.
  pose proof (series_id_delim_free n sid ser Hs Hl) as Hdf.
  set (T := TokenSeries.tokens ser) in *. set (tid := token_id_of sid _) in *.
  assert (Hsize : size ({[tid]} ∪ T) = S (size T)).
  { rewrite size_union, size_singleton by set_solver. lia. }
  split_and!.
  - intros k. rewrite Hser, map_size_insert_Some by eauto. rewrite lookup_insert_is_Some', (Hs k).
    split; [|by right]. intros [<- | ?]; [|done]. apply Hs. eauto.
  - intros sid' ser'. rewrite Hser. destruct (decide (sid' = sid)) as [->|Hne].
    + rewrite lookup_insert_eq. intros [= <-] tok. simpl. fold T. rewrite Hsize, elem_of_union, elem_of_singleton.
      pose proof (Ht sid ser Hl tok) as Htok. fold T in Htok. rewrite Htok. split.
      * intros [-> | (i & Hi & ->)]; [exists (N.of_nat (size T) + 1)%N; split; [lia | done]|].
        exists i. split; [lia | done].
      * intros (i & Hi & ->). destruct (decide (i = N.of_nat (size T) + 1)%N) as [->|Hne']; [by left|].
        right. exists i. split; [lia | done].
    + rewrite lookup_insert_ne by done. apply Ht.
  - intros tok o. rewrite Hown, Hser. destruct (decide (tok = tid)) as [->|Hne].
    + intros _. unfold tid. rewrite series_id_of_token_id by done. rewrite lookup_insert_eq.
      eexists. split; [done|]. simpl. set_solver.
    + rewrite lookup_insert_ne by done. intros Ho. destruct (Hw tok o Ho) as (ser' & Hl' & Hin).
      destruct (decide (series_id_of tok = sid)) as [Heq|Hne'].
      * rewrite Heq, lookup_insert_eq. rewrite Heq, Hl in Hl'. injection Hl' as <-.
        eexists. split; [done|]. simpl. set_solver.
      * rewrite lookup_insert_ne by done. eauto.
  - unfold royalty_ok. rewrite Hser. apply map_Forall_insert_2; [|done]. apply (Hr sid ser Hl).
Qed.

(** Under the invariant, the token [nft_mint] creates has no owner yet and
    names the series it was minted in. *)
Lemma nft_mint_fresh_owner env sid r rid n tid n' :
  nft_ok n -> nft_mint env sid r rid n = Ok (tid, n') ->
  Nft.owner_by_id n !! tid = None /\ series_id_of tid = sid /\
  Nft.owner_by_id n' = <[tid := r]> (Nft.owner_by_id n).
Proof.
  intros (Hs & Ht & Hw & _) H. apply nft_mint_run in H as (ser & Hl & -> & Hown & _).
  pose proof (token_id_fresh n sid ser Ht Hl) as Hfresh.
  rewrite series_id_of_token_id by by eapply series_id_delim_free. split_and!; [|done|done].
  apply eq_None_not_Some. intros [o Ho]. apply Hw in Ho as (ser' & Hl' & Hin).
  rewrite series_id_of_token_id in Hl' by by eapply series_id_delim_free. congruence.
Qed.

Lemma nft_transfer_payout_moves env r tok aid memo b mx n p n' :
  Payouts.nft_transfer_payout env r tok aid memo b mx n = Ok (p, n') ->
  exists o, Nft.owner_by_id n !! tok = Some o /\ o <> r /\
    Nft.owner_by_id n' = <[tok := r]> (Nft.owner_by_id n) /\
    Nft.token_series_by_id n' = Nft.token_series_by_id n.
Proof.
  unfold Payouts.nft_transfer_payout. intros H. st_inv. subst.
  match goal with H : nft_transfer _ _ _ _ _ = Ok _ |- _ => by apply nft_transfer_run in H end.
Qed.

Lemma st_bind_ret_ok {S A} (c : st S A) s r :
  st_bind c (fun _ => st_ret tt) s = Ok (tt, r) -> exists a, c s = Ok (a, r).
Proof. unfold st_bind, st_ret. destruct (c s) as [[a s']|]; [intros [= <-]; eauto | done]. Qed.

(** Every method keeps the invariant. *)
Lemma nft_exec_ok env c n n' : args_ok c -> nft_ok n -> nft_exec env c n = Ok (tt, n') -> nft_ok n'.
Proof.
  intros Hargs Hok. destruct c; simpl; intros H; try (apply st_bind_ret_ok in H as [? H]).
  - by eapply nft_create_series_ok.
  - by eapply nft_mint_ok.
  - unfold grant, st_put in H. st_inv. subst. eapply nft_ok_same; [reflexivity | reflexivity | exact Hok].
  - unfold deny, st_put in H. st_inv. subst. eapply nft_ok_same; [reflexivity | reflexivity | exact Hok].
  - unfold set_private_minting, st_put in H. st_inv. subst.
    eapply nft_ok_same; [reflexivity | reflexivity | exact Hok].
  - apply nft_transfer_run in H as (o & Ho & _ & Hown & Hser). by eapply nft_ok_move.
  - apply nft_approve_run in H as [Hown Hser]. by apply (nft_ok_same n).
  - apply nft_transfer_payout_moves in H as (o & Ho & _ & Hown & Hser). by eapply nft_ok_move.
Qed.

Lemma nft_ok_new owner minters enabled : nft_ok (Nft.new owner minters enabled).
Proof.
  split_and!.
  - intros k. cbn. rewrite lookup_empty, map_size_empty. split; [by intros []|]. intros (i & Hi & _). lia.
  - intros sid ser. cbn. by rewrite lookup_empty.
  - intros tok o. cbn. by rewrite lookup_empty.
  - apply map_Forall_empty.
Qed.

(** The invariant holds in every reachable state. *)
Lemma nft_reachable_ok n : nft_reachable n -> nft_ok n.
Proof.
  intros (owner & minters & enabled & Hr). generalize (nft_ok_new owner minters enabled).
  induction Hr as [x|x y z Hxy _ IH]; intros Hx; [done|]. apply IH.
  destruct Hxy as [env c n1 n2 Hargs Hexec]. by eapply nft_exec_ok.
Qed.

(** ** Runs *)

(** A sequence of calls, stopping at the first failure. *)
Fixpoint nft_run (n : Nft.t) (calls : list (Env * nft_call)) : result Nft.t :=
  match calls with
  | [] => Ok n
  | (env, c) :: calls' =>
      match nft_exec env c n with
      | Ok (_, n') => nft_run n' calls'
      | Err e => Err e
      end
  end.

Lemma nft_run_rtc n calls n' :
  Forall (fun ec => args_ok ec.2) calls -> nft_run n calls = Ok n' -> rtc nft_step n n'.
Proof.
  revert n. induction calls as [|[env c] calls IH]; intros n Hargs H; simpl in H; [by injection H as ->|].
  apply Forall_cons in Hargs as [Hc Hargs].
  destruct (nft_exec env c n) as [[[] n1]|] eqn:He; [|done].
  eapply rtc_l; [by econstructor|]. by apply IH.
Qed.

Lemma nft_run_reachable owner minters enabled calls n :
  Forall (fun ec => args_ok ec.2) calls -> nft_run (Nft.new owner minters enabled) calls = Ok n ->
  nft_reachable n.
Proof. intros Hargs H. exists owner, minters, enabled. by eapply nft_run_rtc. Qed.

(** Two series, one with a 10% royalty, and a token of each. *)
Module NftDemo.
Definition env (who : string) : Env := mkEnv 0 who who 0 "nft.near".
Definition calls : list (Env * nft_call) :=
  [(env "creator.near", CreateSeries (mkMetadata (Some "Arch") None None None) (Some {[ "creator.near" := 1000 ]}));
   (env "creator.near", Mint "1" "seller.near" None);
   (env "artist.near", CreateSeries (mkMetadata (Some "Bird") None (Some 2) None) None);
   (env "artist.near", Mint "2" "artist.near" None)].
Definition state : Nft.t :=
  match nft_run (Nft.new "admin.near" [] false) calls with Ok n => n | Err _ => Nft.new "" [] false end.
Definition minted : result (string * Nft.t) := nft_mint (env "creator.near") "1" "bob.near" None state.
Definition created : result (string * Nft.t) :=
  nft_create_series (env "carol.near") (mkMetadata (Some "Cat") None None None) None state.
Definition minted_id : string := match minted with Ok (t, _) => t | Err _ => "" end.
Definition minted_state : Nft.t := match minted with Ok (_, n) => n | Err _ => state end.
Definition created_id : string := match created with Ok (s, _) => s | Err _ => "" end.
Definition created_state : Nft.t := match created with Ok (_, n) => n | Err _ => state end.
End NftDemo.

(** ** Theorems *)

(** C39: In every reachable state of the NFT contract, [nft_payout] never
    fails to find the series of an owned token, and with room for the
    series' royalty entries and a balance [B] whose 10_000-fold fits a
    [u128] it succeeds, paying at most [B] and more than [B] minus one
    unit per share: the royalty cap of [nft_create_series] keeps the
    owner's share non-negative. *)
Theorem reachable_nft_payout n tok o B mx :
  nft_reachable n -> Nft.owner_by_id n !! tok = Some o ->
  0 <= B -> Payouts.ROYALTY_TOTAL_VALUE * B <= u128_max ->
  exists ser, Nft.token_series_by_id n !! series_id_of tok = Some ser /\
    (Z.of_nat (size (TokenSeries.royalty ser)) <= mx ->
     exists p, Payouts.nft_payout n tok B mx = Ok p /\
       B - Z.of_nat (size (TokenSeries.royalty ser)) - 1 < Payouts.psum p <= B).
Proof.
  intros Hr Ho HB HTB. apply nft_reachable_ok in Hr as (_ & _ & Hw & Hroy).
  destruct (Hw tok o Ho) as (ser & Hl & _). exists ser. split; [done|]. intros Hmx.
  destruct (Hroy _ ser Hl) as [Hwf Hsum].
  destruct (Payouts.payout_of_ok o (TokenSeries.royalty ser) B Hwf) as [p Hp];
    [unfold MAXIMUM_ROYALTY, Payouts.ROYALTY_TOTAL_VALUE in *; lia | done | done |].
  exists p. split.
  - unfold Payouts.nft_payout. rewrite Ho. simpl. rewrite Hl. simpl.
    rewrite bool_decide_eq_true_2 by done. exact Hp.
  - apply Payouts.payout_of_psum in Hp.
    pose proof (length_filter (fun kv : string * Z => kv.1 <> o) (map_to_list (TokenSeries.royalty ser))).
    rewrite length_map_to_list in *. unfold Payouts.others in Hp.
    unfold Payouts.ROYALTY_TOTAL_VALUE in *. lia.
Qed.

(** C19: Well-formedness of the NFT contract's state, the type the code
    assumes when it unwraps: in every reachable state, series ids are the
    decimals 1..n, the tokens of series [s] are [s:1]..[s:k], every owned
    token belongs to a series that lists it, and every royalty weight is a
    [u32] with a total of at most 5_000 ([nft_ok]); every call, with
    arguments of their Rust types, keeps this and reaches a reachable
    state again. *)
Theorem nft_state_well_formed n :
  nft_reachable n ->
  nft_ok n /\
  forall env c n', args_ok c -> nft_exec env c n = Ok (tt, n') -> nft_ok n' /\ nft_reachable n'.
Proof.
  intros Hr. pose proof (nft_reachable_ok n Hr) as Hok. split; [done|].
  intros env c n' Hargs Hexec. split; [by eapply nft_exec_ok|].
  destruct Hr as (owner & minters & enabled & Hr). exists owner, minters, enabled.
  eapply rtc_r; [exact Hr | by econstructor].
Qed.

(** C38: In every reachable state of the NFT contract, neither minting
    nor series creation overwrites anything.  [nft_mint] hands out the id
    ["s:k"] for the [k]-th token of series [s], which has no owner yet and
    names series [s], and adds only its owner entry.  [nft_create_series]
    hands out the decimal of the number of series plus one, which is
    unused, and stores under it a series with no tokens and the caller
    as owner. *)
Theorem reachable_ids_fresh n :
  nft_reachable n ->
  (forall env sid r rid tid n', nft_mint env sid r rid n = Ok (tid, n') ->
     Nft.owner_by_id n !! tid = None /\ series_id_of tid = sid /\
     Nft.owner_by_id n' = <[tid := r]> (Nft.owner_by_id n)) /\
  (forall env meta r sid n', nft_create_series env meta r n = Ok (sid, n') ->
     Nft.token_series_by_id n !! sid = None /\
     sid = pretty (N.of_nat (size (Nft.token_series_by_id n)) + 1)%N /\
     Nft.token_series_by_id n' !! sid = Some (TokenSeries.mk meta (predecessor_account_id env) ∅ (default ∅ r))).
Proof.
  intros Hr. apply nft_reachable_ok in Hr as Hok. split.
  - intros env sid r rid tid n' H. by apply nft_mint_fresh_owner in H.
  - intros env meta r sid n' H. destruct Hok as (Hs & _).
    apply nft_create_series_run in H as (-> & _ & Hser & _). rewrite Hser, lookup_insert_eq.
    split_and!; [by apply series_id_fresh | done | done].
Qed.

(** ** Witnesses *)

Lemma reachable_nft_payout_witness :
  exists ser, Nft.token_series_by_id NftDemo.state !! series_id_of "1:1" = Some ser /\
    (Z.of_nat (size (TokenSeries.royalty ser)) <= 10 ->
     exists p, Payouts.nft_payout NftDemo.state "1:1" (10 ^ 24) 10 = Ok p /\
       10 ^ 24 - Z.of_nat (size (TokenSeries.royalty ser)) - 1 < Payouts.psum p <= 10 ^ 24).
Proof.
  exact (reachable_nft_payout NftDemo.state "1:1" "seller.near" (10 ^ 24) 10
           (nft_run_reachable "admin.near" [] false NftDemo.calls NftDemo.state
              ltac:(refine (bool_decide_unpack _ _); vm_compute; reflexivity) ltac:(vm_compute; reflexivity))
           ltac:(vm_compute; reflexivity) ltac:(lia) ltac:(vm_compute; discriminate)).
Defined.

(** The demo state is reachable. *)
Lemma demo_state_reachable : nft_reachable NftDemo.state.
Proof.
  exact (nft_run_reachable "admin.near" [] false NftDemo.calls NftDemo.state
           ltac:(refine (bool_decide_unpack _ _); vm_compute; reflexivity) ltac:(vm_compute; reflexivity)).
Defined.

Lemma nft_state_well_formed_witness :
  nft_ok NftDemo.state /\
  (nft_ok NftDemo.minted_state /\ nft_reachable NftDemo.minted_state).
Proof.
  destruct (nft_state_well_formed NftDemo.state demo_state_reachable) as [Hok Hstep].
  split; [exact Hok|].
  exact (Hstep (NftDemo.env "creator.near") (Mint "1" "bob.near" None) NftDemo.minted_state I
           ltac:(vm_compute; reflexivity)).
Defined.

Lemma reachable_ids_fresh_witness :
  (Nft.owner_by_id NftDemo.state !! NftDemo.minted_id = None /\ series_id_of NftDemo.minted_id = "1" /\
   Nft.owner_by_id NftDemo.minted_state = <[NftDemo.minted_id := "bob.near"]> (Nft.owner_by_id NftDemo.state)) /\
  (Nft.token_series_by_id NftDemo.state !! NftDemo.created_id = None /\
   NftDemo.created_id = pretty (N.of_nat (size (Nft.token_series_by_id NftDemo.state)) + 1)%N /\
   Nft.token_series_by_id NftDemo.created_state !! NftDemo.created_id =
     Some (TokenSeries.mk (mkMetadata (Some "Cat") None None None) "carol.near" ∅ (default ∅ None))).
Proof.
  destruct (reachable_ids_fresh NftDemo.state demo_state_reachable) as [Hmint Hseries]. split.
  - exact (Hmint (NftDemo.env "creator.near") "1" "bob.near" None NftDemo.minted_id NftDemo.minted_state
             ltac:(vm_compute; reflexivity)).
  - exact (Hseries (NftDemo.env "carol.near") (mkMetadata (Some "Cat") None None None) None
             NftDemo.created_id NftDemo.created_state ltac:(vm_compute; reflexivity)).
Defined.

End NftLifecycle.
