(* ===== verification/NftLedger.v ===== *)
(** * The NFT contract refines a token ledger

    What the market relies on from the NFT contract, as an abstract
    machine ([Ledger]): a ledger maps each token to its owner; a token is
    created once, for an owner, and afterwards only changes hands, each
    time to an account other than its current owner; a token is never
    destroyed.  The abstraction of a state of the NFT contract is its
    [owner_by_id] ([Refinement.abs]).  Every successful call of the
    contract ([NftLifecycle.nft_exec]) either leaves the ledger as it was
    or makes one ledger step, so every reachable state of the contract
    abstracts to a reachable ledger (a stuttering forward simulation), and
    the ledger's own invariants carry over to the contract. *)

From S2P Require Import Prelude State Bids NftContract Payouts NftLifecycle.

Module Ledger.

Abbreviation t := (gmap string string).

(** What a user sees happen to the ledger. *)
Inductive event :=
| EMint (owner : string)
| ETransfer (token_id receiver : string).

(** The two ways a ledger changes: a mint creates a token that did not
    exist, for its owner; a transfer gives an existing token to another
    account than its owner. *)
Inductive step : event -> t -> t -> Prop :=
| step_mint l tok owner : l !! tok = None -> step (EMint owner) l (<[tok := owner]> l)
| step_transfer l tok o r : l !! tok = Some o -> o <> r -> step (ETransfer tok r) l (<[tok := r]> l).

(** A call that changes nothing the ledger shows is [None]. *)
Definition lstep (e : option event) (l l' : t) : Prop :=
  match e with None => l' = l | Some e => step e l l' end.

Definition any_step (l l' : t) : Prop := exists e, step e l l'.
Definition reachable (l : t) : Prop := rtc any_step ∅ l.

(** A step never removes a token. *)
Lemma step_dom l l' : any_step l l' -> dom l ⊆ dom l'.
Proof. intros [e Hs]. destruct Hs; rewrite dom_insert_L; set_solver. Qed.

Lemma rtc_step_dom l l' : rtc any_step l l' -> dom l ⊆ dom l'.
Proof. induction 1 as [|x y z Hxy _ IH]; [done|]. apply step_dom in Hxy. set_solver. Qed.

(** A step changes the owner of at most one token. *)
Lemma step_one_token l l' : any_step l l' -> exists tok, forall k, k <> tok -> l' !! k = l !! k.
Proof. intros [e Hs]. destruct Hs; exists tok; intros k Hk; by rewrite lookup_insert_ne. Qed.

Lemma lstep_rtc e l l' : lstep e l l' -> rtc any_step l l'.
Proof. destruct e as [e|]; simpl; [intros Hs; apply rtc_once; by exists e | intros ->; done]. Qed.

End Ledger.

Module Refinement.
Import NftContract NftLifecycle.

(** The abstraction function: who owns which token. *)
Definition abs (n : Nft.t) : Ledger.t := Nft.owner_by_id n.

(** A state change that keeps the owners stutters. *)
Lemma abs_same n n' : Nft.owner_by_id n' = Nft.owner_by_id n -> abs n' = abs n.
Proof. done. Qed.

(** What each call of the contract is in the ledger. *)
Definition observe (c : nft_call) : option Ledger.event :=
  match c with
  | Mint _ receiver_id _ => Some (Ledger.EMint receiver_id)
  | Transfer receiver_id token_id _ => Some (Ledger.ETransfer token_id receiver_id)
  | TransferPayout receiver_id token_id _ _ _ _ => Some (Ledger.ETransfer token_id receiver_id)
  | _ => None
  end.

(** A move of an owned token to another account is a ledger transfer. *)
Lemma abs_move n n' tok o r :
  Nft.owner_by_id n !! tok = Some o -> o <> r -> Nft.owner_by_id n' = <[tok := r]> (Nft.owner_by_id n) ->
  Ledger.step (Ledger.ETransfer tok r) (abs n) (abs n').
Proof. intros Ho Hne Hown. unfold abs. rewrite Hown. by econstructor. Qed.

(** Every successful call, from a state satisfying [nft_ok], is the
    ledger step it shows, or none. *)
Lemma nft_exec_refines env c n n' :
  nft_ok n -> nft_exec env c n = Ok (tt, n') -> Ledger.lstep (observe c) (abs n) (abs n').
Proof.
  intros Hok. destruct c; simpl; intros H; try (apply st_bind_ret_ok in H as [? H]).
  - by apply nft_create_series_run in H as (_ & Hown & _).
  - apply nft_mint_fresh_owner in H as (Hfresh & _ & Hown); [|done].
    unfold abs. rewrite Hown. by constructor.
  - unfold grant, st_put in H. st_inv. by subst.
  - unfold deny, st_put in H. st_inv. by subst.
  - unfold set_private_minting, st_put in H. st_inv. by subst.
  - apply nft_transfer_run in H as (o & Ho & Hne & Hown & _). by eapply abs_move.
  - by apply nft_approve_run in H as [Hown _].
  - apply nft_transfer_payout_moves in H as (o & Ho & Hne & Hown & _). by eapply abs_move.
Qed.

(** The simulation, along a run from a state satisfying the invariant. *)
Lemma rtc_nft_step_refines n n' : nft_ok n -> rtc nft_step n n' -> rtc Ledger.any_step (abs n) (abs n').
Proof.
  intros Hok Hr. revert Hok. induction Hr as [x|x y z Hxy _ IH]; intros Hok; [done|].
  destruct Hxy as [env c x y Hargs Hexec].
  pose proof (nft_exec_ok env c x y Hargs Hok Hexec) as Hy.
  apply nft_exec_refines in Hexec; [|done].
  etrans; [by eapply Ledger.lstep_rtc | by apply IH].
Qed.

(** ** Theorems *)

(** C11: The NFT contract refines the token ledger, call by call: in
    every reachable state, a successful [nft_mint] to [r] is a ledger mint
    for [r] (of a token that did not exist), a successful [nft_transfer]
    or [nft_transfer_payout] of [tok] to [r] is a ledger transfer of
    [tok] to [r] (from its owner, another account), and every other call
    leaves the ledger as it was. *)
Theorem nft_exec_simulates n env c n' :
  nft_reachable n -> nft_exec env c n = Ok (tt, n') -> Ledger.lstep (observe c) (abs n) (abs n').
Proof. intros Hr. apply nft_exec_refines, nft_reachable_ok, Hr. Qed.

(** Every reachable state of the contract shows a reachable ledger. *)
Lemma nft_reachable_refines n : nft_reachable n -> Ledger.reachable (abs n).
Proof.
  intros (owner & minters & enabled & Hr). unfold Ledger.reachable.
  change (∅ : Ledger.t) with (abs (Nft.new owner minters enabled)).
  apply rtc_nft_step_refines; [apply nft_ok_new | exact Hr].
Qed.

(** No sequence of calls of the NFT contract destroys a token: a
    token that has an owner in a reachable state still has one after any
    further successful calls, and each call changes the owner of at most
    one token. *)
Theorem nft_tokens_persist n n' :
  nft_reachable n -> rtc nft_step n n' ->
  dom (Nft.owner_by_id n) ⊆ dom (Nft.owner_by_id n') /\
  (nft_step n n' -> exists tok, forall k, k <> tok -> Nft.owner_by_id n' !! k = Nft.owner_by_id n !! k).
Proof.
  intros Hreach Hr. pose proof (nft_reachable_ok n Hreach) as Hok. split.
  - apply (Ledger.rtc_step_dom (abs n) (abs n')). by apply rtc_nft_step_refines.
  - intros Hs. inversion Hs as [env c x y Hargs Hexec]; subst.
    apply nft_exec_refines in Hexec; [|done]. destruct (observe c) as [e|]; simpl in Hexec.
    + apply Ledger.step_one_token. by exists e.
    + exists "". intros k _. unfold abs in Hexec. by rewrite Hexec.
Qed.

(** ** Witnesses *)

Lemma demo_reachable : nft_reachable NftDemo.state.
Proof.
  exact (nft_run_reachable "admin.near" [] false NftDemo.calls NftDemo.state
           ltac:(refine (bool_decide_unpack _ _); vm_compute; reflexivity) ltac:(vm_compute; reflexivity)).
Defined.

Lemma demo_mint_step : nft_step NftDemo.state NftDemo.minted_state.
Proof.
  apply (nft_step_call (NftDemo.env "creator.near") (Mint "1" "bob.near" None)); [exact I|].
  vm_compute. reflexivity.
Defined.

Lemma nft_exec_simulates_witness :
  Ledger.lstep (observe (Mint "1" "bob.near" None)) (abs NftDemo.state) (abs NftDemo.minted_state).
Proof.
  exact (nft_exec_simulates NftDemo.state (NftDemo.env "creator.near") (Mint "1" "bob.near" None)
           NftDemo.minted_state demo_reachable ltac:(vm_compute; reflexivity)).
Defined.

Lemma nft_tokens_persist_witness :
  dom (Nft.owner_by_id NftDemo.state) ⊆ dom (Nft.owner_by_id NftDemo.minted_state) /\
  (nft_step NftDemo.state NftDemo.minted_state ->
   exists tok, forall k, k <> tok -> Nft.owner_by_id NftDemo.minted_state !! k = Nft.owner_by_id NftDemo.state !! k).
Proof.
  exact (nft_tokens_persist NftDemo.state NftDemo.minted_state demo_reachable (rtc_once _ _ demo_mint_step)).
Defined.

End Refinement.
