(* ===== verification/NftProgress.v ===== *)
(** * Progress of the NFT contract: an owner can always transfer

    [NftLedger] shows that the contract does no more than a token ledger.
    This file shows that it does no less for the owner of a token: in
    every reachable state, the owner can give the token to any other
    account with [nft_transfer] and one yoctoNEAR.

    What could block the transfer is [internal_transfer_unguarded]
    ([src/nft/src/nft_core.rs] through near-contract-standards), which
    unwraps the owner's set in [tokens_per_owner] and panics with
    "Unable to access tokens per owner in unguarded call." when it is
    missing.  The invariant [tpo_ok] says that every owned token is in its
    owner's set.  [nft_mint] and the transfer keep it, and the other calls
    leave both maps alone. *)

From S2P Require Import Prelude State Bids NftContract Payouts NftLifecycle NftLedger.

Module Progress.
Import NftContract NftLifecycle.

(** Every owned token is in its owner's set of [tokens_per_owner]. *)
Definition tpo_ok (n : Nft.t) : Prop :=
  forall tok o, Nft.owner_by_id n !! tok = Some o ->
    exists s, Nft.tokens_per_owner n !! o = Some s /\ tok ∈ s.

(** A call that changes neither map keeps the invariant. *)
Lemma tpo_ok_same n n' :
  Nft.owner_by_id n' = Nft.owner_by_id n -> Nft.tokens_per_owner n' = Nft.tokens_per_owner n ->
  tpo_ok n -> tpo_ok n'.
Proof. unfold tpo_ok. by intros -> ->. Qed.

(** Giving [tok] to [to] and adding it to [to]'s set, in maps [tpo] in
    which the other tokens are still in their owners' sets: the shape of
    [nft_mint] and of [internal_transfer_unguarded]. *)
Lemma tpo_ok_give (own : gmap string string) (tpo : gmap string (gset string)) tok to n' :
  (forall tok' o', tok' <> tok -> own !! tok' = Some o' -> exists s, tpo !! o' = Some s /\ tok' ∈ s) ->
  Nft.owner_by_id n' = <[tok := to]> own ->
  Nft.tokens_per_owner n' = <[to := {[tok]} ∪ default ∅ (tpo !! to)]> tpo ->
  tpo_ok n'.
Proof.
  intros Hothers Hown Htpo tok' o'. rewrite Hown, Htpo. destruct (decide (tok' = tok)) as [->|Hne].
  - rewrite lookup_insert_eq. intros [= <-]. rewrite lookup_insert_eq. eexists. split; [done | set_solver].
  - rewrite lookup_insert_ne by done. intros Ho. destruct (Hothers tok' o' Hne Ho) as (s & Hs & Hin).
    destruct (decide (o' = to)) as [->|Hne'].
    + rewrite lookup_insert_eq, Hs. eexists. split; [done | set_solver].
    + rewrite lookup_insert_ne by done. eauto.
Qed.

(** Taking [tok] out of the set of [from] (and dropping an emptied set)
    keeps every other token in its owner's set. *)
Lemma tpo_remove_others n tok from s :
  tpo_ok n -> Nft.tokens_per_owner n !! from = Some s ->
  forall tok' o', tok' <> tok -> Nft.owner_by_id n !! tok' = Some o' ->
    exists s', (if bool_decide (s ∖ {[tok]} = ∅) then delete from (Nft.tokens_per_owner n)
                else <[from := s ∖ {[tok]}]> (Nft.tokens_per_owner n)) !! o' = Some s' /\ tok' ∈ s'.
Proof.
  intros Hok Hs tok' o' Hne Ho. destruct (Hok tok' o' Ho) as (s' & Hs' & Hin).
  destruct (decide (o' = from)) as [->|Hne'].
  - rewrite Hs in Hs'. injection Hs' as <-.
    case_bool_decide; [set_solver|]. rewrite lookup_insert_eq. eexists. split; [done | set_solver].
  - case_bool_decide; [rewrite lookup_delete_ne | rewrite lookup_insert_ne]; eauto.
Qed.

Lemma internal_transfer_unguarded_tpo tok from to n n' :
  tpo_ok n -> internal_transfer_unguarded tok from to n = Ok (tt, n') -> tpo_ok n'.
Proof.
  unfold internal_transfer_unguarded, st_bind, st_get, st_put, st_lift, expect. intros Hok.
  destruct (Nft.tokens_per_owner n !! from) as [s|] eqn:Hs; simpl; [|done]. intros [= <-].
  eapply tpo_ok_give; [by eapply tpo_remove_others | done | done].
Qed.

Lemma nft_transfer_tpo env r tok aid n n' :
  tpo_ok n -> nft_transfer env r tok aid n = Ok (tt, n') -> tpo_ok n'.
Proof.
  unfold nft_transfer, tokens_nft_transfer, internal_transfer, st_put. intros Hok H. st_inv. subst.
  repeat case_match; st_inv; subst;
    (eapply internal_transfer_unguarded_tpo; [|eassumption]);
    (eapply tpo_ok_same; [reflexivity | reflexivity | exact Hok]).
Qed.

(** Every call keeps the invariant. *)
Lemma nft_exec_tpo env c n n' : tpo_ok n -> nft_exec env c n = Ok (tt, n') -> tpo_ok n'.
Proof.
  intros Hok. destruct c; simpl; intros H; try (apply st_bind_ret_ok in H as [? H]).
  - unfold nft_create_series, st_put in H. st_inv. checked_inv. subst. eapply tpo_ok_same; [done | done | exact Hok].
  - unfold nft_mint, st_put in H. st_inv. subst.
    eapply tpo_ok_give; [intros tok' o' _; apply Hok | done | done].
  - unfold grant, st_put in H. st_inv. subst. eapply tpo_ok_same; [done | done | exact Hok].
  - unfold deny, st_put in H. st_inv. subst. eapply tpo_ok_same; [done | done | exact Hok].
  - unfold set_private_minting, st_put in H. st_inv. subst. eapply tpo_ok_same; [done | done | exact Hok].
  - by eapply nft_transfer_tpo.
  - unfold nft_approve, st_put in H. st_inv. subst. eapply tpo_ok_same; [done | done | exact Hok].
  - unfold Payouts.nft_transfer_payout in H. st_inv. by eapply nft_transfer_tpo.
Qed.

Lemma nft_reachable_tpo n : nft_reachable n -> tpo_ok n.
Proof.
  intros (owner & minters & enabled & Hr). assert (H0 : tpo_ok (Nft.new owner minters enabled)).
  { intros tok o. cbn. by rewrite lookup_empty. }
  induction Hr as [x|x y z Hxy _ IH]; [done|]. apply IH.
  destruct Hxy as [env c n1 n2 _ Hexec]. by eapply nft_exec_tpo.
Qed.

(** Under the invariant, the owner's transfer runs to its end. *)
Lemma owner_transfer_runs n env tok o r :
  tpo_ok n -> Nft.owner_by_id n !! tok = Some o -> o <> r ->
  predecessor_account_id env = o -> attached_deposit env = 1 ->
  exists n', nft_transfer env r tok None n = Ok (tt, n') /\ Nft.owner_by_id n' = <[tok := r]> (Nft.owner_by_id n).
Proof.
  intros Hok Ho Hne Hpred Hdep. destruct (Hok tok o Ho) as (s & Hs & _).
  unfold nft_transfer, tokens_nft_transfer, internal_transfer, internal_transfer_unguarded,
    BidLedger.assert_one_yocto, st_bind, st_get, st_put, st_lift, st_ret, expect, require.
  rewrite Hdep, Ho, Hpred. simpl. rewrite Ho. simpl.
  rewrite bool_decide_false by tauto. simpl. rewrite bool_decide_true by done. simpl.
  rewrite Hs. simpl. eexists. split; reflexivity.
Qed.

(** ** Theorems *)

(** C24: Liveness of ownership: in every reachable state of the NFT
    contract, the owner [o] of a token can give it to any other account
    [r]: the state satisfies [tpo_ok], and [nft_transfer] called by [o]
    with one yoctoNEAR (and no approval id) succeeds, after which [r] owns
    the token and nothing else changes owner. *)
Theorem reachable_owner_can_transfer n env tok o r :
  nft_reachable n -> Nft.owner_by_id n !! tok = Some o -> o <> r ->
  predecessor_account_id env = o -> attached_deposit env = 1 ->
  tpo_ok n /\
  exists n', nft_transfer env r tok None n = Ok (tt, n') /\ Nft.owner_by_id n' = <[tok := r]> (Nft.owner_by_id n).
Proof.
  intros Hr Ho Hne Hpred Hdep. apply nft_reachable_tpo in Hr.
  split; [done | by apply (owner_transfer_runs n env tok o r)].
Qed.

(** ** Witnesses *)

Definition seller_env : Env := mkEnv 0 "seller.near" "seller.near" 1 "nft.near".

Lemma reachable_owner_can_transfer_witness :
  tpo_ok NftDemo.state /\
  exists n', nft_transfer seller_env "buyer.near" "1:1" None NftDemo.state = Ok (tt, n') /\
    Nft.owner_by_id n' = <["1:1" := "buyer.near"]> (Nft.owner_by_id NftDemo.state).
Proof.
  exact (reachable_owner_can_transfer NftDemo.state seller_env "1:1" "seller.near" "buyer.near"
           Refinement.demo_reachable ltac:(vm_compute; reflexivity) ltac:(discriminate)
           eq_refl eq_refl).
Defined.

End Progress.
