(* ===== verification/Workspaces.v ===== *)
(** * The sandbox tests of [tests-workspaces] translated onto the model

    Each test of [src/tests-workspaces/src] deploys the two contracts on a
    fresh sandbox, sends transactions and asserts on their outcome and on
    views.  Module [Sandbox] models what the tests see of the sandbox: a
    world with a clock, the account ids of the two contracts and the state
    of both ([System.t]); a transaction of a signer, with its attached
    deposit, runs one method of one contract and answers the final
    execution status; the helpers of [utils.rs] are translated on top of
    it, and each test becomes a [W unit] computation in which a failed
    assertion, a failed [?] or a [panic!] is an [Err].  A test passes on
    the model when it answers [Ok] from the fresh world [sandbox].

    The sandbox: block time advances by one second per transaction and
    [SystemTime::now()] reads the block clock; [nft_approve] with a message
    returns the promise of [nft_on_approve] on [account_id], so its status
    is that of the market's call, and a failure there keeps the approval;
    a market call that creates settlement promises ([offer] at the full
    price, [accept_offer]) does not return them, so its status is its own,
    and the runtime then delivers them with [System.settle].  Balances,
    gas and storage staking are not modelled, so the assertions on
    balances are not replayed. *)

From stdpp Require Import pretty.
From S2P Require Import Prelude Fee State Bids Sales Settlement Auctions Storage Hack Lifecycle Views NftContract Payouts System.
Import Fee.

Module Sandbox.

(** The value a successful call answers, as the tests read it with
    [.json()]. *)
Inductive value :=
| VUnit
| VString (s : string)
| VBool (b : bool)
| VPayout (p : Settlement.Payout).

(** The methods of the NFT contract the tests call. [NftApprove]'s
    message is [None] when absent and [Some None] when the market cannot
    parse it. *)
Inductive nft_method :=
| NftCreateSeries (token_metadata : TokenMetadata) (royalty : option (gmap string Z))
| NftMint (token_series_id receiver_id : string)
| NftApprove (token_id account_id : string) (msg : option (option Storage.ArgsKind))
| NftTransfer (receiver_id token_id : string) (approval_id : option Z)
| NftTransferPayout (receiver_id token_id : string) (approval_id : Z) (memo : option (option Fees))
    (balance max_len_payout : Z)
| Grant (account_id : string)
| Deny (account_id : string)
| SetPrivateMinting (enabled : bool).

Inductive method :=
| OnNft (m : nft_method)
| OnMarket (c : Lifecycle.call).

Record world := mkWorld {
  clock : Z;
  root : string;
  nft_account : string;
  market_account : string;
  sys : System.t;
}.
Definition set_clock x w := mkWorld x (root w) (nft_account w) (market_account w) (sys w).
Definition set_nft_account x w := mkWorld (clock w) (root w) x (market_account w) (sys w).
Definition set_market_account x w := mkWorld (clock w) (root w) (nft_account w) x (sys w).
Definition set_sys x w := mkWorld (clock w) (root w) (nft_account w) (market_account w) x.

Abbreviation W := (st world).

(** One block, in nanoseconds, and the clock of a fresh sandbox. *)
Definition BLOCK : Z := 10 ^ 9.
Definition GENESIS : Z := 1650000000 * 10 ^ 9.

(** [workspaces::sandbox()]: nothing deployed yet. *)
Definition sandbox : world :=
  mkWorld GENESIS "test.near" "" "" (System.mk (Nft.new "" [] false) (Market.new [] "")).

(** [parse_near!]: yoctoNEAR. *)
Definition NEAR_UNIT : Z := 10 ^ 24.

(** [SystemTime::now()], [tokio::time::sleep], [assert!]. *)
Definition now : W Z := let! w := st_get in st_ret (clock w).
Definition sleep (d : Z) : W unit := st_modify (fun w => set_clock (clock w + d) w).
Definition assert (cond : bool) (msg : string) : W unit := st_lift (require cond msg).

(** An NFT call answering [a], read as [f a]. *)
Definition nft_value {A} (f : A -> value) (c : NftContract.NM A) (s : System.t) : result value * System.t :=
  match c (System.nft s) with
  | Ok (a, n') => (Ok (f a), System.mk n' (System.market s))
  | Err e => (Err e, s)
  end.

(** A method of the NFT contract deployed at [nft_id], next to the market
    [market_id]. *)
Definition run_nft (market_id : string) (env : Env) (m : nft_method) (s : System.t)
    : result value * System.t :=
  match m with
  | NftCreateSeries meta royalty => nft_value VString (NftContract.nft_create_series env meta royalty) s
  | NftMint series receiver => nft_value VString (NftContract.nft_mint env series receiver None) s
  | NftTransfer receiver tok aid => nft_value (fun _ => VUnit) (NftContract.nft_transfer env receiver tok aid) s
  | NftTransferPayout receiver tok aid memo balance mx =>
      nft_value VPayout (Payouts.nft_transfer_payout env receiver tok aid memo balance mx) s
  | Grant a => nft_value VBool (NftContract.grant env a) s
  | Deny a => nft_value VBool (NftContract.deny env a) s
  | SetPrivateMinting b => nft_value (fun _ => VUnit) (NftContract.set_private_minting env b) s
  | NftApprove tok account_id msg =>
      match NftContract.nft_approve env tok account_id (System.nft s) with
      | Err e => (Err e, s)
      | Ok (approval_id, n') =>
          let s1 := System.mk n' (System.market s) in
          match msg with
          | None => (Ok VUnit, s1)
          | Some parsed =>
              if bool_decide (account_id = market_id) then
                let menv := mkEnv (block_timestamp env) (current_account_id env) (signer_account_id env)
                              0 market_id in
                match Storage.nft_on_approve menv tok (predecessor_account_id env) approval_id parsed
                        (System.market s) with
                | Ok (_, m') => (Ok VUnit, System.mk n' m')
                | Err e => (Err e, s1)
                end
              else (Err "CodeDoesNotExist", s1)
          end
      end
  end.

(** The runtime delivers the promises a market call created; a promise
    whose execution panics changes nothing. *)
Definition deliver (env : Env) (acts : list Action) (s : System.t) : System.t :=
  fold_left (fun s a => match System.settle env a s with Ok s' => s' | Err _ => s end) acts s.

Definition run_market (env : Env) (c : Lifecycle.call) (s : System.t) : result value * System.t :=
  match Lifecycle.exec env c (System.market s) with
  | Ok (_, m') =>
      let fresh := drop (length (Market.promises (System.market s))) (Market.promises m') in
      (Ok VUnit, deliver env fresh (System.mk (System.nft s) m'))
  | Err e => (Err e, s)
  end.

(** A method of the contract deployed at [receiver]. *)
Definition dispatch (w : world) (env : Env) (receiver : string) (m : method) : result value * System.t :=
  match m with
  | OnNft c =>
      if bool_decide (receiver = nft_account w) then run_nft (market_account w) env c (sys w)
      else (Err "MethodNotFound", sys w)
  | OnMarket c =>
      if bool_decide (receiver = market_account w) then run_market env c (sys w)
      else (Err "MethodNotFound", sys w)
  end.

(** [signer.call(worker, receiver, method).deposit(deposit).transact()]:
    the final execution status; the block clock moves on. *)
Definition call (signer receiver : string) (deposit : Z) (m : method) : W (result value) :=
  let! w := st_get in
  let env := mkEnv (clock w) signer signer deposit receiver in
  let '(status, s') := dispatch w env receiver m in
  do! st_put (set_clock (clock w + BLOCK) (set_sys s' w)) ;;
  st_ret status.

(** [outcome.json()?] *)
Definition json_string (status : result value) : W string :=
  match status with Ok (VString s) => st_ret s | _ => st_lift (Err "json") end.
Definition json_payout (status : result value) : W Settlement.Payout :=
  match status with Ok (VPayout p) => st_ret p | _ => st_lift (Err "json") end.
Definition json_bool (status : result value) : W bool :=
  match status with Ok (VBool b) => st_ret b | _ => st_lift (Err "json") end.

(** The views the tests read. *)
Definition view_get_sale (nft_contract_id token_id : string) : W (option SaleJson.t) :=
  let! w := st_get in st_ret (Views.get_sale (System.market (sys w)) nft_contract_id token_id).
Definition view_price_with_fees (price : Z) (origins : option Origins) : W Z :=
  st_lift (calculate_price_with_fees price origins).
(** A view of the NFT contract: its answer, or the error a panic gives
    the caller. *)
Definition try_view_nft {A} (v : Nft.t -> result A) : W (result A) :=
  let! w := st_get in st_ret (v (System.nft (sys w))).
(** [nft.view(..).await?]: a panic fails the test. *)
Definition view_nft {A} (v : Nft.t -> result A) : W A :=
  let! r := try_view_nft v in st_lift r.
(** A view of the market, at the current block time. *)
Definition try_view_market {A} (v : Market.t -> Z -> result A) : W (result A) :=
  let! w := st_get in st_ret (v (System.market (sys w)) (clock w)).
Definition view_market {A} (v : Market.t -> Z -> result A) : W A :=
  let! r := try_view_market v in st_lift r.
Definition view_nft_token (token_id : string) : W (option Token.t) :=
  view_nft (fun n => NftContract.nft_token n token_id).

End Sandbox.

(** ** The helpers of [utils.rs] *)
Module Utils.
Import Sandbox.

(** The ids [dev_deploy] gives the two contracts. *)
Definition NFT_DEV_ID : string := "dev-20220415000000-1".
Definition MARKET_DEV_ID : string := "dev-20220415000000-2".

(** A transaction that changes no contract (creating an account). *)
Definition tick : W unit := st_modify (fun w => set_clock (clock w + BLOCK) w).

(** [worker.root_account()] *)
Definition root_account : W string := let! w := st_get in st_ret (root w).

(** [init_nft]: deploys the NFT contract and calls [new_default_meta]. *)
Definition init_nft (root_id : string) : W string :=
  let! w := st_get in
  do! st_put (set_clock (clock w + BLOCK)
                (set_sys (System.mk (Nft.new_default_meta root_id) (System.market (sys w)))
                   (set_nft_account NFT_DEV_ID w))) ;;
  st_ret NFT_DEV_ID.

(** [init_market]: deploys the market and calls [new(nft_ids, owner_id)]. *)
Definition init_market (root_id : string) (nft_ids : list string) : W string :=
  let! w := st_get in
  do! st_put (set_clock (clock w + BLOCK)
                (set_sys (System.mk (System.nft (sys w)) (Market.new nft_ids root_id))
                   (set_market_account MARKET_DEV_ID w))) ;;
  st_ret MARKET_DEV_ID.

(** [mint_token]: [nft_mint] with 0.01 NEAR, the token id read back. *)
Definition mint_token (nft_id minter_id receiver_id series : string) : W string :=
  let! o := call minter_id nft_id (10 ^ 22) (OnNft (NftMint series receiver_id)) in
  json_string o.

(** [check_outcome_success] *)
Definition check_outcome_success (status : result value) : W unit :=
  assert (is_ok status) "Panic".

(** [check_outcome_fail]: a failure whose message contains [expected_err]. *)
Definition check_outcome_fail (status : result value) (expected_err : string) : W unit :=
  match status with
  | Err err => assert (Sales.contains err expected_err) "actual error"
  | Ok _ => assert false "Expected failure"
  end.

(** [create_subaccount] *)
Definition create_subaccount (owner user_id : string) : W string :=
  do! tick ;; st_ret (user_id +:+ "." +:+ owner).

(** The metadata the tests give a series: a title, a media link,
    [copies]. *)
Definition MEDIA : string := "ipfs://QmTqZsmhZLLbi8vxZwm21wjKRFRBUQFzMFtTiyh3DJ2CCz".
Definition series_metadata (copies : option Z) : TokenMetadata :=
  mkMetadata (Some "some title") (Some MEDIA) copies None.

(** [create_series]: ten copies, a 10% royalty to [owner]. *)
Definition create_series (nft user owner : string) : W string :=
  let! o := call user nft (5 * 10 ^ 21)
              (OnNft (NftCreateSeries (series_metadata (Some 10)) (Some {[ owner := 1000 ]}))) in
  json_string o.

(** [deposit]: [storage_deposit] with 1 NEAR; the outcome is not read. *)
Definition deposit (market user : string) : W unit :=
  let! _ := call user market NEAR_UNIT (OnMarket (Lifecycle.StorageDeposit None)) in st_ret tt.

(** [serde_json::json!(ArgsKind::Sale(SaleArgs { .. })).to_string()], as
    the market parses it back. *)
Definition sale_msg (sale_conditions : gmap string Z) (token_type : option string) (start end_ : option Z)
    : option Storage.ArgsKind :=
  Some (Storage.ArgsSale (Sales.mkSaleArgs sale_conditions token_type start end_ None)).

(** [nft_approve]: approves the market with a sale message, 1 NEAR
    attached; the outcome is not read. *)
Definition nft_approve (nft market user token : string) (sale_conditions : gmap string Z) (series : string)
    : W unit :=
  let! _ := call user nft NEAR_UNIT
              (OnNft (NftApprove token market (Some (sale_msg sale_conditions (Some series) None None)))) in
  st_ret tt.

(** [price_with_fees]: the view at the NEAR price of the conditions. *)
Definition price_with_fees (sale_conditions : gmap string Z) : W Z :=
  let! price := st_lift (expect (sale_conditions !! NEAR) "called `Option::unwrap()` on a `None` value") in
  view_price_with_fees price None.

(** [offer]: an offer in NEAR with [price] attached; the outcome is not
    read. *)
Definition offer (nft market user token : string) (price : Z) : W unit :=
  let! _ := call user market price (OnMarket (Lifecycle.Offer nft token NEAR None None None)) in st_ret tt.

(** [create_series_raw] *)
Definition create_series_raw (nft owner : string) (copies : option Z) (royalty : gmap string Z) : W string :=
  let! o := call owner nft (5 * 10 ^ 21) (OnNft (NftCreateSeries (series_metadata copies) (Some royalty))) in
  json_string o.

(** [offer_with_duration] *)
Definition offer_with_duration (nft market user token : string) (price duration : Z) : W unit :=
  let! _ := call user market price (OnMarket (Lifecycle.Offer nft token NEAR None (Some duration) None)) in
  st_ret tt.

(** [nft_transfer_payout_helper]: [user1] creates a series of four and
    mints a token, approves [user2], which transfers it to [user3] with
    [nft_transfer_payout]; the payout is read back. *)
Definition nft_transfer_payout_helper (nft user1 user2 user3 : string) (royalty : gmap string Z)
    (fees : Fees) (balance : Z) : W Settlement.Payout :=
  let! series := create_series_raw nft user1 (Some 4) royalty in
  let! token_id := mint_token nft user1 user1 series in
  let! _ := call user1 nft NEAR_UNIT (OnNft (NftApprove token_id user2 None)) in
  let! token := view_nft_token token_id in
  let! token := st_lift (expect token "json") in
  let! approval_account_ids := st_lift (expect (Token.approved_account_ids token)
                                          "called `Option::unwrap()` on a `None` value") in
  let! approval_id := st_lift (expect (approval_account_ids !! user2)
                                 "called `Option::unwrap()` on a `None` value") in
  let! o := call user2 nft 1 (OnNft (NftTransferPayout user3 token_id approval_id (Some (Some fees)) balance 10)) in
  json_payout o.

End Utils.

(** ** The tests of [sale.rs] *)
Module SaleTests.
Import Sandbox Utils.

#[local] Instance bid_eq_dec : EqDecision Bid.t.
Proof. solve_decision. Defined.

(** [.json()?] of a view answering [Option<T>] read as [T]. *)
Definition some_json {A} (o : option A) : W A := st_lift (expect o "json").

(** [nft_on_approve_negative]: a direct call, an approval without
    storage paid, one with an unsupported currency and one with a message
    that does not parse all fail with the market's messages. *)
Definition nft_on_approve_negative : W unit :=
  let! owner := root_account in
  let! nft := init_nft owner in
  let! market := init_market owner [nft] in
  let! user1 := create_subaccount owner "user1" in
  let! o := call user1 nft (5 * 10 ^ 21)
              (OnNft (NftCreateSeries (series_metadata (Some 10)) (Some {[ owner := 1000 ]}))) in
  let! series := json_string o in
  let! token1 := mint_token nft user1 user1 series in
  let! o := call user1 market 0
              (OnMarket (Lifecycle.NftOnApprove token1 user1 1 (sale_msg {[ NEAR := 10000 ]} (Some series) None None))) in
  do! check_outcome_fail o "nft_on_approve should only be called via cross-contract call" ;;
  let! o := call user1 nft NEAR_UNIT
              (OnNft (NftApprove token1 market (Some (sale_msg {[ NEAR := 10000 ]} (Some series) None None)))) in
  do! check_outcome_fail o "Insufficient storage paid" ;;
  do! deposit market user1 ;;
  let! o := call user1 nft NEAR_UNIT
              (OnNft (NftApprove token1 market (Some (sale_msg {[ "ft.near" := 10000 ]} (Some series) None None)))) in
  do! check_outcome_fail o "Token ft.near not supported by this market" ;;
  let! o := call user1 nft NEAR_UNIT (OnNft (NftApprove token1 market (Some None))) in
  check_outcome_fail o "Not valid args".

(** [nft_on_approve_positive]: the sale starts at the block of the
    approval. *)
Definition nft_on_approve_positive : W unit :=
  let! owner := root_account in
  let! nft := init_nft owner in
  let! market := init_market owner [nft] in
  let! user1 := create_subaccount owner "user1" in
  let! o := call user1 nft (5 * 10 ^ 21)
              (OnNft (NftCreateSeries (series_metadata (Some 10)) (Some {[ owner := 1000 ]}))) in
  let! series := json_string o in
  let! token1 := mint_token nft user1 user1 series in
  do! deposit market user1 ;;
  let! _ := call user1 nft NEAR_UNIT
              (OnNft (NftApprove token1 market (Some (sale_msg {[ NEAR := 10000 ]} (Some series) None None)))) in
  let! since_the_epoch := now in
  let! sale := view_get_sale nft token1 in
  let! sale_json := some_json sale in
  let! start := st_lift (expect (SaleJson.start sale_json) "called `Option::unwrap()` on a `None` value") in
  do! assert (bool_decide (start <= since_the_epoch)) "overflow when subtracting durations" ;;
  assert (bool_decide (since_the_epoch - start < 60 * 10 ^ 9)) "time_passed < 60s".

(** The twelve origins of 100 of [offer_negative]. *)
Definition too_much_origins : Origins :=
  list_to_map (map (fun i => ("acc" +:+ pretty (N.of_nat i) +:+ ".near", 100)) (seq 1 12)).

(** The offers of [offer_negative] refused for their amount or their
    origins, and the last one, meant to exceed ten payouts. *)
Definition offer_negative_bids (nft market token1 user2 : string) : W unit :=
  let! _ := call user2 market 500 (OnMarket (Lifecycle.Offer nft token1 NEAR None None None)) in
  let! o := call user2 market 400 (OnMarket (Lifecycle.Offer nft token1 NEAR None None None)) in
  do! check_outcome_fail o "Can't pay less than or equal to current bid price:" ;;
  let! o := call user2 market 500 (OnMarket (Lifecycle.Offer nft token1 NEAR None None None)) in
  do! check_outcome_fail o "Can't pay less than or equal to current bid price:" ;;
  let! o := call user2 market 2000
              (OnMarket (Lifecycle.Offer nft token1 NEAR None None (Some ({[ "user1" := 4701 ]} : Origins)))) in
  do! check_outcome_fail o "Max origins exceeded" ;;
  let! price := view_price_with_fees 10000 (Some too_much_origins) in
  let! o := call user2 market price (OnMarket (Lifecycle.Offer nft token1 NEAR None None None)) in
  match o with
  | Ok v => assert (match v with VUnit => true | _ => false end) "empty_string.is_empty()"
  | Err _ => assert false "Expected failure"
  end.

(** [offer_negative]: an offer panics without a sale, before the sale
    starts, on the owner's own sale, without deposit, in an unlisted
    currency, at or below the last bid, and with origins of 47%; the test
    ends with an offer of [price_with_fees(10000, too_much_origins)]
    without origins, which must succeed with an empty value. *)
Definition offer_negative : W unit :=
  let! owner := root_account in
  let! nft := init_nft owner in
  let! market := init_market owner [nft] in
  let! user1 := create_subaccount owner "user1" in
  let! user2 := create_subaccount owner "user2" in
  let! o := call user1 market 0 (OnMarket (Lifecycle.Offer nft "1:1" NEAR None None None)) in
  do! check_outcome_fail o "No sale" ;;
  let! series := create_series nft user1 owner in
  let! token1 := mint_token nft user1 user1 series in
  do! deposit market user1 ;;
  let! since_the_epoch := now in
  let waiting_time := 15 * 10 ^ 9 in
  let epoch_plus_waiting_time := since_the_epoch + waiting_time in
  let sale_conditions : gmap string Z := {[ NEAR := 10000 ]} in
  let! _ := call user1 nft NEAR_UNIT
              (OnNft (NftApprove token1 market
                        (Some (sale_msg sale_conditions (Some series) (Some epoch_plus_waiting_time) None)))) in
  let! o := call user2 market 0 (OnMarket (Lifecycle.Offer nft token1 NEAR None None None)) in
  do! check_outcome_fail o "Either the sale is finished or it hasn't started yet" ;;
  do! sleep waiting_time ;;
  let! price := view_price_with_fees 10000 None in
  let! o := call user1 market price (OnMarket (Lifecycle.Offer nft token1 NEAR None None None)) in
  do! check_outcome_fail o "Cannot bid on your own sale." ;;
  let! o := call user2 market 0 (OnMarket (Lifecycle.Offer nft token1 NEAR None None None)) in
  do! check_outcome_fail o "Attached deposit must be greater than 0" ;;
  let! o := call user2 market 1000 (OnMarket (Lifecycle.Offer nft token1 "nearcoin" None None None)) in
  do! check_outcome_fail o "Not supported ft" ;;
  offer_negative_bids nft market token1 user2.

(** [sale_json.bids.get("near").unwrap()] *)
Definition near_bids (sale : SaleJson.t) : W (list Bid.t) :=
  st_lift (expect (SaleJson.bids sale !! NEAR) "called `Option::unwrap()` on a `None` value").

(** The second half of [offer_positive]: bids on a second token are
    kept, the earliest until the history of [BID_HISTORY_LENGTH_DEFAULT]
    bids is full, and evicted by the next. *)
Definition offer_positive_history (nft market user1 user2 series : string) (sale_conditions : gmap string Z)
    : W unit :=
  let! token2 := mint_token nft user1 user1 series in
  do! nft_approve nft market user1 token2 sale_conditions series ;;
  let initial_price := 100 in
  let! _ := call user2 market initial_price (OnMarket (Lifecycle.Offer nft token2 NEAR None None None)) in
  let! sale_json := view_get_sale nft token2 in
  let! sale_json := some_json sale_json in
  let! bids := near_bids sale_json in
  do! assert (bool_decide (is_Some (bids !! 0%nat))) "Bid not added" ;;
  let! first_bid := st_lift (expect (bids !! 0%nat) "called `Option::unwrap()` on a `None` value") in
  do! st_iter (fun i =>
         let! _ := call user2 market (initial_price * (i + 1))
                     (OnMarket (Lifecycle.Offer nft token2 NEAR None None None)) in
         let! sale_json := view_get_sale nft token2 in
         let! sale_json := some_json sale_json in
         let! bids := near_bids sale_json in
         if bool_decide (i < Market.BID_HISTORY_LENGTH_DEFAULT)
         then assert (bool_decide (bids !! 0%nat = Some first_bid)) "assert_eq!(bids[0], first_bid)"
         else st_ret tt)
        (map Z.of_nat (seq 1 (Z.to_nat Market.BID_HISTORY_LENGTH_DEFAULT))) ;;
  let! sale_json := view_get_sale nft token2 in
  let! sale_json := some_json sale_json in
  let! bids := near_bids sale_json in
  assert (bool_decide (bids !! 0%nat <> Some first_bid)) "assert_ne!(bids[0], first_bid)".

(** [offer_positive]: an offer of exactly [price_with_fees] moves the
    token to the buyer and removes the sale; on a second token, six
    increasing offers keep the first bid until the sixth evicts it. *)
Definition offer_positive : W unit :=
  let! owner := root_account in
  let! nft := init_nft owner in
  let! market := init_market owner [nft] in
  let! user1 := create_subaccount owner "user1" in
  let! user2 := create_subaccount owner "user2" in
  let! series := create_series nft user1 owner in
  let! token1 := mint_token nft user1 user1 series in
  do! deposit market user1 ;;
  let sale_conditions : gmap string Z := {[ NEAR := 10000 ]} in
  do! nft_approve nft market user1 token1 sale_conditions series ;;
  let! price := view_price_with_fees 10000 None in
  let! before_sell := view_get_sale nft token1 in
  let! _ := call user2 market price (OnMarket (Lifecycle.Offer nft token1 NEAR None None None)) in
  let! token := view_nft_token token1 in
  let! token := some_json token in
  do! assert (bool_decide (Token.owner_id token = user2)) "assert_eq!(token.owner_id, user2)" ;;
  let! after_sell := view_get_sale nft token1 in
  do! assert (bool_decide (after_sell = None)) "Sale is still active, when it shouldn't" ;;
  do! assert (bool_decide (is_Some before_sell)) "Sale is not active, when it should be" ;;
  offer_positive_history nft market user1 user2 series sale_conditions.

(** [accept_offer_negative]: [accept_offer] panics without a sale,
    without bids, when the last bid has expired, and after the sale's
    end. *)
Definition accept_offer_negative : W unit :=
  let! owner := root_account in
  let! nft := init_nft owner in
  let! market := init_market owner [nft] in
  let! user1 := create_subaccount owner "user1" in
  let! user2 := create_subaccount owner "user2" in
  let! series := create_series_raw nft user1 (Some 4) {[ user1 := 500 ]} in
  let! token1 := mint_token nft user1 user1 series in
  do! deposit market user1 ;;
  let! o := call user1 market 0 (OnMarket (Lifecycle.AcceptOffer nft token1 NEAR)) in
  do! check_outcome_fail o "No sale" ;;
  let sale_conditions : gmap string Z := {[ NEAR := 42000 ]} in
  let! since_the_epoch := now in
  let waiting_time := 10 * 10 ^ 9 in
  let epoch_plus_waiting_time := since_the_epoch + waiting_time in
  let! _ := call user1 nft NEAR_UNIT
              (OnNft (NftApprove token1 market
                        (Some (sale_msg sale_conditions (Some series) None (Some epoch_plus_waiting_time))))) in
  let! o := call user1 market 0 (OnMarket (Lifecycle.AcceptOffer nft token1 NEAR)) in
  do! check_outcome_fail o "No bids" ;;
  let! _ := call user2 market 200 (OnMarket (Lifecycle.Offer nft token1 NEAR None (Some 1) None)) in
  do! sleep 1 ;;
  let! o := call user1 market 0 (OnMarket (Lifecycle.AcceptOffer nft token1 NEAR)) in
  do! check_outcome_fail o "Out of time limit of the bid" ;;
  do! sleep waiting_time ;;
  let! o := call user1 market 0 (OnMarket (Lifecycle.AcceptOffer nft token1 NEAR)) in
  check_outcome_fail o "Either the sale is finished or it hasn't started yet".

(** [accept_offer_positive]: the seller accepts a bid of 200 and the
    token goes to the bidder. *)
Definition accept_offer_positive : W unit :=
  let! owner := root_account in
  let! nft := init_nft owner in
  let! market := init_market owner [nft] in
  let! user1 := create_subaccount owner "user1" in
  let! user2 := create_subaccount owner "user2" in
  let! series := create_series_raw nft user1 (Some 4) {[ user1 := 500 ]} in
  let! token1 := mint_token nft user1 user1 series in
  do! deposit market user1 ;;
  do! nft_approve nft market user1 token1 {[ NEAR := 42000 ]} series ;;
  let! _ := call user2 market 200 (OnMarket (Lifecycle.Offer nft token1 NEAR None None None)) in
  let! _ := call user1 market 0 (OnMarket (Lifecycle.AcceptOffer nft token1 NEAR)) in
  let! token_data := view_nft_token token1 in
  let! token_data := some_json token_data in
  assert (bool_decide (Token.owner_id token_data = user2)) "assert_eq!(token_data.owner_id, user2)".

(** [update_price_negative]: [update_price] panics without one yocto,
    without a sale, for another account than the seller, and for an
    unlisted currency. *)
Definition update_price_negative : W unit :=
  let! owner := root_account in
  let! nft := init_nft owner in
  let! market := init_market owner [nft] in
  let! user1 := create_subaccount owner "user1" in
  let! user2 := create_subaccount owner "user2" in
  let! series := create_series_raw nft user1 (Some 4) {[ user1 := 500 ]} in
  let! token1 := mint_token nft user1 user1 series in
  do! deposit market user1 ;;
  do! nft_approve nft market user1 token1 {[ NEAR := 42000 ]} series ;;
  let! o := call user1 market 0 (OnMarket (Lifecycle.UpdatePrice nft token1 NEAR 10000)) in
  do! check_outcome_fail o "Requires attached deposit of exactly 1 yoctoNEAR" ;;
  let! o := call user1 market 1 (OnMarket (Lifecycle.UpdatePrice market token1 NEAR 10000)) in
  do! check_outcome_fail o "No sale" ;;
  let! o := call user2 market 1 (OnMarket (Lifecycle.UpdatePrice nft token1 NEAR 10000)) in
  do! check_outcome_fail o "Must be sale owner" ;;
  let! o := call user1 market 1 (OnMarket (Lifecycle.UpdatePrice nft token1 "nearcoin" 10000)) in
  check_outcome_fail o "is not supported by this market".

(** [update_price_positive]: the seller sets the NEAR price to 10000. *)
Definition update_price_positive : W unit :=
  let! owner := root_account in
  let! nft := init_nft owner in
  let! market := init_market owner [nft] in
  let! user1 := create_subaccount owner "user1" in
  let! series := create_series_raw nft user1 (Some 4) {[ user1 := 500 ]} in
  let! token1 := mint_token nft user1 user1 series in
  do! deposit market user1 ;;
  do! nft_approve nft market user1 token1 {[ NEAR := 42000 ]} series ;;
  let! _ := call user1 market 1 (OnMarket (Lifecycle.UpdatePrice nft token1 NEAR 10000)) in
  let! sale_json := view_get_sale nft token1 in
  let! sale_json := some_json sale_json in
  assert (bool_decide (SaleJson.sale_conditions sale_json !! NEAR = Some 10000)) "assert_eq!(price, 10000)".

(** [remove_sale_negative]: [remove_sale] panics without one yocto, and
    for another account while the sale runs. *)
Definition remove_sale_negative : W unit :=
  let! owner := root_account in
  let! nft := init_nft owner in
  let! market := init_market owner [nft] in
  let! user1 := create_subaccount owner "user1" in
  let! user2 := create_subaccount owner "user2" in
  let! series := create_series_raw nft user1 (Some 4) {[ user1 := 500 ]} in
  let! token1 := mint_token nft user1 user1 series in
  do! deposit market user1 ;;
  do! nft_approve nft market user1 token1 {[ NEAR := 42000 ]} series ;;
  let! o := call user1 market 0 (OnMarket (Lifecycle.RemoveSale nft token1)) in
  do! check_outcome_fail o "Requires attached deposit of exactly 1 yoctoNEAR" ;;
  let! o := call user2 market 1 (OnMarket (Lifecycle.RemoveSale nft token1)) in
  check_outcome_fail o "Until the sale is finished, it can only be removed by the sale owner".

(** [remove_sale_positive]: after a bid, the seller removes the sale. *)
Definition remove_sale_positive : W unit :=
  let! owner := root_account in
  let! nft := init_nft owner in
  let! market := init_market owner [nft] in
  let! user1 := create_subaccount owner "user1" in
  let! user2 := create_subaccount owner "user2" in
  let! series := create_series_raw nft user1 (Some 4) {[ user1 := 500 ]} in
  let! token1 := mint_token nft user1 user1 series in
  do! deposit market user1 ;;
  do! nft_approve nft market user1 token1 {[ NEAR := 42000 ]} series ;;
  do! offer nft market user2 token1 4000 ;;
  let! _ := call user1 market 1 (OnMarket (Lifecycle.RemoveSale nft token1)) in
  let! sale_json := view_get_sale nft token1 in
  assert (bool_decide (sale_json = None)) "assert!(sale_json.is_none())".
End SaleTests.

(** ** The tests of [nft.rs] *)
Module NftTests.
Import Sandbox Utils.

(** The metadata of these tests: a title, a media link, [copies]. *)
Definition token_metadata (copies : option Z) : TokenMetadata := series_metadata copies.

(** [nft_create_series_negative]: with private minting on, an account
    not granted cannot create a series; a series needs a title, and its
    royalty may not exceed 50%. *)
Definition nft_create_series_negative : W unit :=
  let! owner := root_account in
  let! nft := init_nft owner in
  let! user1 := create_subaccount owner "user1" in
  let! user2 := create_subaccount owner "user2" in
  let! _ := call owner nft 0 (OnNft (SetPrivateMinting true)) in
  let token_metadata := token_metadata (Some 7) in
  let! o := call user1 nft (5 * 10 ^ 21) (OnNft (NftCreateSeries token_metadata None)) in
  do! check_outcome_fail o "Access to mint is denied for this contract" ;;
  let! _ := call owner nft 0 (OnNft (Grant user1)) in
  let! o := call user1 nft (5 * 10 ^ 21)
              (OnNft (NftCreateSeries (mkMetadata None (media token_metadata) (copies token_metadata)
                                         (issued_at token_metadata)) None)) in
  do! check_outcome_fail o "title is missing from token metadata" ;;
  let royalty : gmap string Z := {[ user1 := 500; user2 := 5000 ]} in
  let! o := call user1 nft (5 * 10 ^ 21) (OnNft (NftCreateSeries token_metadata (Some royalty))) in
  check_outcome_fail o "maximum royalty cap exceeded".

(** [nft_create_series_positive]: a series created by [user1], and one
    by [user2] once granted under private minting, with their owners and
    the same metadata. *)
Definition nft_create_series_positive : W unit :=
  let! owner := root_account in
  let! nft := init_nft owner in
  let! user1 := create_subaccount owner "user1" in
  let! user2 := create_subaccount owner "user2" in
  let royalty : gmap string Z := {[ user1 := 500; user2 := 2000 ]} in
  let token_metadata := token_metadata (Some 7) in
  let! o := call user1 nft (2 * NEAR_UNIT) (OnNft (NftCreateSeries token_metadata (Some royalty))) in
  let! series1 := json_string o in
  let! _ := call owner nft 0 (OnNft (SetPrivateMinting true)) in
  let! _ := call owner nft 0 (OnNft (Grant user2)) in
  let! o := call user2 nft (5 * 10 ^ 21) (OnNft (NftCreateSeries token_metadata (Some royalty))) in
  let! series2 := json_string o in
  let! series1_json := view_nft (fun n => NftContract.nft_get_series n series1) in
  do! assert (bool_decide (TokenSeriesJson.owner_id series1_json = user1)) "assert_eq!(series1.owner_id, user1)" ;;
  let! series2_json := view_nft (fun n => NftContract.nft_get_series n series2) in
  do! assert (bool_decide (TokenSeriesJson.owner_id series2_json = user2)) "assert_eq!(series2.owner_id, user2)" ;;
  assert (bool_decide (TokenSeriesJson.metadata series1_json = TokenSeriesJson.metadata series2_json))
    "assert_eq!(series1.metadata, series2.metadata)".

(** [nft_mint_negative]: minting fails under private minting, for an
    unknown series, for another account than the series owner, and past
    [copies]. *)
Definition nft_mint_negative : W unit :=
  let! owner := root_account in
  let! nft := init_nft owner in
  let! user1 := create_subaccount owner "user1" in
  let! user2 := create_subaccount owner "user2" in
  let! user3 := create_subaccount owner "user3" in
  let royalty : gmap string Z := {[ user1 := 500; user2 := 2000 ]} in
  let! o := call user1 nft (2 * NEAR_UNIT) (OnNft (NftCreateSeries (token_metadata (Some 1)) (Some royalty))) in
  let! series_id := json_string o in
  let! _ := call owner nft 0 (OnNft (SetPrivateMinting true)) in
  let! o := call user1 nft NEAR_UNIT (OnNft (NftMint series_id user1)) in
  do! check_outcome_fail o "Access to mint is denied for this contract" ;;
  let! _ := call owner nft 0 (OnNft (SetPrivateMinting false)) in
  let! o := call user1 nft NEAR_UNIT (OnNft (NftMint "3" user1)) in
  do! check_outcome_fail o "Token series does not exist" ;;
  let! o := call user3 nft NEAR_UNIT (OnNft (NftMint series_id user1)) in
  do! check_outcome_fail o "permission denied" ;;
  let! _ := call user1 nft NEAR_UNIT (OnNft (NftMint series_id user1)) in
  let! o := call user1 nft NEAR_UNIT (OnNft (NftMint series_id user1)) in
  check_outcome_fail o "Max token minted".

(** [nft_mint_positive]: [nft_token] of a minted token is the series'
    metadata with the mint's [issued_at] and no [copies], owned by the
    receiver, with no approvals. *)
Definition nft_mint_positive : W unit :=
  let! owner := root_account in
  let! nft := init_nft owner in
  let! user1 := create_subaccount owner "user1" in
  let! user2 := create_subaccount owner "user2" in
  let token_metadata := token_metadata (Some 1) in
  let royalty : gmap string Z := {[ user1 := 500; user2 := 2000 ]} in
  let! o := call user1 nft (2 * NEAR_UNIT) (OnNft (NftCreateSeries token_metadata (Some royalty))) in
  let! series_id := json_string o in
  let! o := call user1 nft NEAR_UNIT (OnNft (NftMint series_id user2)) in
  let! token_id := json_string o in
  let! minted_token := view_nft_token token_id in
  let! minted_token := st_lift (expect minted_token "json") in
  let! minted_token_metadata := st_lift (expect (Token.metadata minted_token)
                                           "called `Option::unwrap()` on a `None` value") in
  let token_metadata := mkMetadata (title token_metadata) (media token_metadata) None
                          (issued_at minted_token_metadata) in
  assert (bool_decide (minted_token = Token.mk token_id user2 (Some token_metadata) (Some (∅ : gmap string Z))))
    "assert_eq!(minted_token, Token { .. })".

(** The seven royalty shares of [nft_transfer_payout_negative]. *)
Definition seven_royalties (user1 : string) : gmap string Z :=
  <[user1 := 500]> (list_to_map (map (fun i => ("acc" +:+ pretty (N.of_nat i) +:+ ".near", 100)) (seq 1 6))).

(** Its fees: six buyer and six seller origins of 100. *)
Definition twelve_fees : Fees :=
  mkFees (list_to_map (map (fun i => ("acc" +:+ pretty (N.of_nat i) +:+ ".near", 100)) (seq 1 6)))
         (list_to_map (map (fun i => ("acc" +:+ pretty (N.of_nat i) +:+ ".near", 100)) (seq 7 6))).

(** [nft_transfer_payout_negative]: the call fails without one yocto,
    for a token that does not exist, with more royalties than
    [max_len_payout], with a memo that does not parse, and with a payout
    of more than ten entries. *)
Definition nft_transfer_payout_negative : W unit :=
  let! owner := root_account in
  let! nft := init_nft owner in
  let! user1 := create_subaccount owner "user1" in
  let! user2 := create_subaccount owner "user2" in
  let! user3 := create_subaccount owner "user3" in
  let! series := create_series_raw nft user1 (Some 4) (seven_royalties user1) in
  let! token1 := mint_token nft user1 user1 series in
  let! _ := call user1 nft NEAR_UNIT (OnNft (NftApprove token1 user2 None)) in
  let! token := view_nft_token token1 in
  let! token := st_lift (expect token "json") in
  let! approval_account_ids := st_lift (expect (Token.approved_account_ids token)
                                          "called `Option::unwrap()` on a `None` value") in
  let! approval_id := st_lift (expect (approval_account_ids !! user2)
                                 "called `Option::unwrap()` on a `None` value") in
  let! o := call user2 nft 0 (OnNft (NftTransferPayout user3 token1 approval_id None 10000 10)) in
  do! check_outcome_fail o "Requires attached deposit of exactly 1 yoctoNEAR" ;;
  let! o := call user2 nft 1 (OnNft (NftTransferPayout user3 "2:1" approval_id None 10000 10)) in
  do! check_outcome_fail o "no token id" ;;
  let! o := call user2 nft 1 (OnNft (NftTransferPayout user3 token1 approval_id None 10000 5)) in
  do! check_outcome_fail o "Too many recievers" ;;
  let! o := call user2 nft 1 (OnNft (NftTransferPayout user3 token1 approval_id (Some None) 10000 10)) in
  do! check_outcome_fail o "invalid FeesArgs" ;;
  let! o := call user2 nft 1
              (OnNft (NftTransferPayout user3 token1 approval_id (Some (Some twelve_fees)) 10000 10)) in
  check_outcome_fail o "Too many recievers".

(** [payouts.payout.values().sum()] and [assert!(balance - sum <= 1)] on
    [u128]. *)
Definition assert_payout_close (balance : Z) (payouts : Settlement.Payout) : W unit :=
  let sum := sum_list (Settlement.payout_values payouts) in
  do! assert (bool_decide (sum <= balance)) "attempt to subtract with overflow" ;;
  assert (bool_decide (balance - sum <= 1)) "assert!(parsed_near - sum <= 1)".

(** [nft_transfer_payout_positive]: three payouts with a 5% royalty to
    the seller and fees of 3% to [user2] (and 5% more to [user1] in the
    third) each fall short of the balance by at most one. *)
Definition nft_transfer_payout_positive : W unit :=
  let! owner := root_account in
  let! nft := init_nft owner in
  let! user1 := create_subaccount owner "user1" in
  let! user2 := create_subaccount owner "user2" in
  let! user3 := create_subaccount owner "user3" in
  let parsed_near := 201 * 10 ^ 22 in
  let! payouts := nft_transfer_payout_helper nft user1 user2 user3 {[ user1 := 500 ]}
                    (mkFees {[ user2 := 300 ]} {[ user2 := 300 ]}) parsed_near in
  do! assert_payout_close parsed_near payouts ;;
  let parsed_near := 123 * 10 ^ 22 in
  let! payouts := nft_transfer_payout_helper nft user1 user2 user3 {[ user1 := 500 ]}
                    (mkFees {[ user2 := 300 ]} {[ user2 := 300 ]}) parsed_near in
  do! assert_payout_close parsed_near payouts ;;
  let parsed_near := 345 * 10 ^ 22 in
  let! payouts := nft_transfer_payout_helper nft user1 user2 user3 {[ user1 := 500 ]}
                    (mkFees {[ user2 := 300; user1 := 500 ]} {[ user2 := 300 ]}) parsed_near in
  assert_payout_close parsed_near payouts.
End NftTests.

(** ** The tests of [series_views.rs] *)
Module SeriesViewTests.
Import Sandbox Utils.

(** [match outcome { Err(err) => println!(..), Ok(_) => panic!(..) }] on
    a view. *)
Definition expect_view_failure {A} (outcome : result A) : W unit :=
  match outcome with Err _ => st_ret tt | Ok _ => assert false "Expected failure" end.

(** The fields the tests check of a series created by [create_series]. *)
Definition check_series (token_series : TokenSeriesJson.t) : W unit :=
  do! assert (bool_decide (TokenSeriesJson.owner_id token_series = "user1.test.near")) "assert_eq!(owner_id)" ;;
  let metadata := TokenSeriesJson.metadata token_series in
  do! assert (bool_decide (title metadata = Some "some title")) "assert_eq!(title)" ;;
  do! assert (bool_decide (media metadata = Some MEDIA)) "assert_eq!(media)" ;;
  assert (bool_decide (copies metadata = Some 10)) "assert_eq!(copies)".

(** [series_views_nft_get_series]: an unknown id fails, series "1" is the
    one [user1] created. *)
Definition series_views_nft_get_series : W unit :=
  let! owner := root_account in
  let! nft := init_nft owner in
  let! user1 := create_subaccount owner "user1" in
  let! _series := create_series nft user1 owner in
  let! outcome := try_view_nft (fun n => NftContract.nft_get_series n "42") in
  do! expect_view_failure outcome ;;
  let! token_series := view_nft (fun n => NftContract.nft_get_series n "1") in
  check_series token_series.

(** [series_views_nft_series]: an index past the end and a zero limit
    fail; the listing has one series, then three. *)
Definition series_views_nft_series : W unit :=
  let! owner := root_account in
  let! nft := init_nft owner in
  let! user1 := create_subaccount owner "user1" in
  let! user2 := create_subaccount owner "user2" in
  let! _series1 := create_series nft user1 owner in
  let! outcome := try_view_nft (fun n => NftContract.nft_series n (Some 42) (Some 43)) in
  do! expect_view_failure outcome ;;
  let! outcome := try_view_nft (fun n => NftContract.nft_series n (Some 1) (Some 0)) in
  do! expect_view_failure outcome ;;
  let! vec_token_series := view_nft (fun n => NftContract.nft_series n None None) in
  do! assert (bool_decide (length vec_token_series = 1%nat)) "assert_eq!(len, 1)" ;;
  let! token := st_lift (expect (vec_token_series !! 0%nat) "index out of bounds") in
  do! check_series token ;;
  let! _series2 := create_series nft user1 owner in
  let! _series3 := create_series nft user2 owner in
  let! vec_token_series := view_nft (fun n => NftContract.nft_series n None None) in
  assert (bool_decide (length vec_token_series = 3%nat)) "assert_eq!(len, 3)".

(** [series_views_nft_supply_for_series]: an unknown id fails; the supply
    of series "1" counts its tokens, 0, 1, then 5. *)
Definition series_views_nft_supply_for_series : W unit :=
  let! owner := root_account in
  let! nft := init_nft owner in
  let! user1 := create_subaccount owner "user1" in
  let! series := create_series nft user1 owner in
  let! outcome := try_view_nft (fun n => NftContract.nft_supply_for_series n "42") in
  do! expect_view_failure outcome ;;
  let! supply := view_nft (fun n => NftContract.nft_supply_for_series n "1") in
  do! assert (bool_decide (supply = 0)) "assert_eq!(supply, 0)" ;;
  let! _token1 := mint_token nft user1 user1 series in
  let! supply := view_nft (fun n => NftContract.nft_supply_for_series n "1") in
  do! assert (bool_decide (supply = 1)) "assert_eq!(supply, 1)" ;;
  let! _token2 := mint_token nft user1 user1 series in
  let! _token3 := mint_token nft user1 user1 series in
  let! _token4 := mint_token nft user1 user1 series in
  let! _token5 := mint_token nft user1 user1 series in
  let! supply := view_nft (fun n => NftContract.nft_supply_for_series n "1") in
  assert (bool_decide (supply = 5)) "assert_eq!(supply, 5)".
End SeriesViewTests.

(** ** The tests of [permissions.rs] *)
Module PermissionTests.
Import Sandbox Utils.

(** The helpers of [permissions.rs]: [set_private_minting] (the outcome
    is not read), [grant] (its answer), and the [is_allowed] view. *)
Definition set_private_minting (nft user : string) (enabled : bool) : W unit :=
  let! _ := call user nft 0 (OnNft (SetPrivateMinting enabled)) in st_ret tt.
Definition grant (nft user account_id : string) : W bool :=
  let! o := call user nft 0 (OnNft (Grant account_id)) in json_bool o.
Definition is_allowed (account_id : string) : W bool :=
  view_nft (fun n => Ok (NftContract.is_allowed n account_id)).

(** [permissions_grant]: only the owner grants; [grant] answers whether
    the account is new, and a granted account is allowed. *)
Definition permissions_grant : W unit :=
  let! owner := root_account in
  let! nft := init_nft owner in
  let! user1 := create_subaccount owner "user1" in
  do! set_private_minting nft owner true ;;
  let! outcome := call user1 nft 0 (OnNft (Grant "user1")) in
  do! check_outcome_fail outcome "only owner can grant" ;;
  let! outcome := call owner nft 0 (OnNft (Grant "user1")) in
  do! check_outcome_success outcome ;;
  let! added := json_bool outcome in
  do! assert added "Returned false" ;;
  let! allowed := is_allowed "user1" in
  do! assert allowed "The user is not authorized" ;;
  let! outcome := call owner nft 0 (OnNft (Grant "user1")) in
  do! check_outcome_success outcome ;;
  let! added := json_bool outcome in
  assert (negb added) "Returned true".

(** [permissions_deny]: only the owner denies; [deny] answers whether the
    account was granted, and a denied account is not allowed. *)
Definition permissions_deny : W unit :=
  let! owner := root_account in
  let! nft := init_nft owner in
  let! user1 := create_subaccount owner "user1" in
  do! set_private_minting nft owner true ;;
  let! _ := grant nft owner "user1" in
  let! outcome := call user1 nft 0 (OnNft (Deny "user1")) in
  do! check_outcome_fail outcome "only owner can deny" ;;
  let! outcome := call owner nft 0 (OnNft (Deny "user1")) in
  do! check_outcome_success outcome ;;
  let! removed := json_bool outcome in
  do! assert removed "Returned false" ;;
  let! result := is_allowed "user1" in
  do! assert (negb result) "Not authorized" ;;
  let! outcome := call owner nft 0 (OnNft (Deny "user1")) in
  do! check_outcome_success outcome ;;
  let! removed := json_bool outcome in
  assert (negb removed) "Returned true".

(** [permissions_set_private_minting]: only the owner switches private
    minting, which decides whether an account not granted is allowed. *)
Definition permissions_set_private_minting : W unit :=
  let! owner := root_account in
  let! nft := init_nft owner in
  let! user1 := create_subaccount owner "user1" in
  let! outcome := call user1 nft 0 (OnNft (SetPrivateMinting true)) in
  do! check_outcome_fail outcome "only owner can enable/disable private minting" ;;
  let! allowed := is_allowed "user1" in
  do! assert allowed "The authorization is turned on" ;;
  let! outcome := call owner nft 0 (OnNft (SetPrivateMinting true)) in
  do! check_outcome_success outcome ;;
  let! allowed := is_allowed "user1" in
  do! assert (negb allowed) "The authorization is turned off" ;;
  let! outcome := call owner nft 0 (OnNft (SetPrivateMinting false)) in
  do! check_outcome_success outcome ;;
  let! allowed := is_allowed "user1" in
  assert allowed "The authorization is turned on".

(** [permissions_is_allowed]: everyone is allowed without private
    minting; with it, exactly the granted accounts. *)
Definition permissions_is_allowed : W unit :=
  let! owner := root_account in
  let! nft := init_nft owner in
  let! result := is_allowed "user1" in
  do! assert result "Not authorized" ;;
  do! set_private_minting nft owner true ;;
  let! result := is_allowed "user1" in
  do! assert (negb result) "Not authorized" ;;
  let! _ := grant nft owner "user1" in
  let! result := is_allowed "user1" in
  assert result "Authorized".
End PermissionTests.

(** ** The tests of [bid.rs] *)
Module BidTests.
Import Sandbox Utils.

(** [sale.unwrap().bids.get("near")] *)
Definition near_bucket (nft token : string) : W (option (list Bid.t)) :=
  let! sale := view_get_sale nft token in
  let! sale := st_lift (expect sale "called `Option::unwrap()` on a `None` value") in
  st_ret (SaleJson.bids sale !! NEAR).

(** [.get("near").unwrap().len() == n] *)
Definition assert_bids (nft token : string) (n : nat) (msg : string) : W unit :=
  let! bucket := near_bucket nft token in
  let! bucket := st_lift (expect bucket "called `Option::unwrap()` on a `None` value") in
  assert (bool_decide (length bucket = n)) msg.

(** [.get("near").is_none()] *)
Definition assert_no_bids (nft token : string) : W unit :=
  let! bucket := near_bucket nft token in
  assert (bool_decide (bucket = None)) "Bid is not removed".

(** The common start of these tests: a series of [user1], its first
    token listed at 10_000 NEAR with storage paid. *)
Definition listed_token (nft market owner user1 : string) : W string :=
  let! series := create_series nft user1 owner in
  let! token1 := mint_token nft user1 user1 series in
  do! deposit market user1 ;;
  do! nft_approve nft market user1 token1 {[ NEAR := 10000 ]} series ;;
  st_ret token1.

(** [remove_bid_positive]: the bidder removes its bid and the bucket goes. *)
Definition remove_bid_positive : W unit :=
  let! owner := root_account in
  let! nft := init_nft owner in
  let! market := init_market owner [nft] in
  let! user1 := create_subaccount owner "user1" in
  let! user2 := create_subaccount owner "user2" in
  let! token1 := listed_token nft market owner user1 in
  let price := 900 in
  do! offer nft market user2 token1 price ;;
  do! assert_bids nft token1 1 "No bids" ;;
  let! outcome := call user2 market 1 (OnMarket (Lifecycle.RemoveBid nft token1 NEAR price)) in
  do! check_outcome_success outcome ;;
  assert_no_bids nft token1.

(** [remove_bid_negative]: [remove_bid] panics without exactly one
    yocto, without a sale, and without bids in the currency. *)
Definition remove_bid_negative : W unit :=
  let! owner := root_account in
  let! nft := init_nft owner in
  let! market := init_market owner [nft] in
  let! user1 := create_subaccount owner "user1" in
  let! user2 := create_subaccount owner "user2" in
  let! token1 := listed_token nft market owner user1 in
  let price := 900 in
  do! offer nft market user2 token1 price ;;
  let! outcome := call user2 market 2 (OnMarket (Lifecycle.RemoveBid nft token1 NEAR price)) in
  do! check_outcome_fail outcome "Requires attached deposit of exactly 1 yoctoNEAR" ;;
  let! outcome := call user2 market 1 (OnMarket (Lifecycle.RemoveBid "some_other_nft_contract" token1 NEAR price)) in
  do! check_outcome_fail outcome "No sale" ;;
  let! outcome := call user2 market 1 (OnMarket (Lifecycle.RemoveBid nft "1:10" NEAR price)) in
  do! check_outcome_fail outcome "No sale" ;;
  let! outcome := call user2 market 1 (OnMarket (Lifecycle.RemoveBid nft token1 "not_near" price)) in
  check_outcome_fail outcome "No token".

(** [cancel_bid_positive]: once a bid of 0.1 s has ended, anyone cancels
    it and the bucket goes. *)
Definition cancel_bid_positive : W unit :=
  let! owner := root_account in
  let! nft := init_nft owner in
  let! market := init_market owner [nft] in
  let! user1 := create_subaccount owner "user1" in
  let! user2 := create_subaccount owner "user2" in
  let! user3 := create_subaccount owner "user3" in
  let! token1 := listed_token nft market owner user1 in
  let price := 900 in
  do! offer_with_duration nft market user2 token1 price 100000000 ;;
  do! assert_bids nft token1 1 "No bids" ;;
  let! outcome := call user3 market 0 (OnMarket (Lifecycle.CancelBid nft token1 NEAR user2 price)) in
  do! check_outcome_success outcome ;;
  assert_no_bids nft token1.

(** The second half of [cancel_bid_negative]: [cancel_bid] of an ended
    bid panics for a missing sale, currency or bid. *)
Definition cancel_bid_missing (nft market token1 user1 user2 user3 : string) : W unit :=
  let cancel nft_contract_id token_id ft owner_id price :=
    call user3 market 0 (OnMarket (Lifecycle.CancelBid nft_contract_id token_id ft owner_id price)) in
  do! offer_with_duration nft market user2 token1 1000 100000000 ;;
  let! outcome := cancel "another_nft_contract_id" token1 NEAR user2 1000 in
  do! check_outcome_fail outcome "No sale" ;;
  let! outcome := cancel nft "another_token_id" NEAR user2 1000 in
  do! check_outcome_fail outcome "No sale" ;;
  let! outcome := cancel nft token1 "not_near" user2 1000 in
  do! check_outcome_fail outcome "No token" ;;
  let! outcome := cancel nft token1 NEAR user1 1000 in
  do! check_outcome_fail outcome "No such bid" ;;
  let! outcome := cancel nft token1 NEAR user2 1100 in
  check_outcome_fail outcome "No such bid".

(** [cancel_bid_negative]: [cancel_bid] panics on a running bid, on a
    bid without end, without a sale, without bids in the currency, and
    for a bid that does not exist. *)
Definition cancel_bid_negative : W unit :=
  let! owner := root_account in
  let! nft := init_nft owner in
  let! market := init_market owner [nft] in
  let! user1 := create_subaccount owner "user1" in
  let! user2 := create_subaccount owner "user2" in
  let! user3 := create_subaccount owner "user3" in
  let! token1 := listed_token nft market owner user1 in
  let cancel nft_contract_id token_id ft owner_id price :=
    call user3 market 0 (OnMarket (Lifecycle.CancelBid nft_contract_id token_id ft owner_id price)) in
  do! offer_with_duration nft market user2 token1 900 1000000000000 ;;
  let! outcome := cancel nft token1 NEAR user2 900 in
  do! check_outcome_fail outcome "The bid hasn't ended yet" ;;
  do! offer nft market user2 token1 950 ;;
  let! outcome := cancel nft token1 NEAR user2 950 in
  do! check_outcome_fail outcome "The bid doesn't have an end" ;;
  do! offer_with_duration nft market user2 token1 900 1000000000000 ;;
  let! outcome := cancel nft token1 NEAR user2 900 in
  do! check_outcome_fail outcome "The bid hasn't ended yet" ;;
  cancel_bid_missing nft market token1 user1 user2 user3.

(** The three bids of the [cancel_expired_bids] tests: 900 for 0.1 s, 950
    without end, 1000 for 0.1 s. *)
Definition three_bids (nft market user2 token1 : string) : W unit :=
  do! offer_with_duration nft market user2 token1 900 100000000 ;;
  do! offer nft market user2 token1 950 ;;
  offer_with_duration nft market user2 token1 1000 100000000.

(** [cancel_expired_bids_positive]: of three bids, the two that ended
    are cancelled. *)
Definition cancel_expired_bids_positive : W unit :=
  let! owner := root_account in
  let! nft := init_nft owner in
  let! market := init_market owner [nft] in
  let! user1 := create_subaccount owner "user1" in
  let! user2 := create_subaccount owner "user2" in
  let! user3 := create_subaccount owner "user3" in
  let! token1 := listed_token nft market owner user1 in
  do! three_bids nft market user2 token1 ;;
  do! assert_bids nft token1 3 "No bids" ;;
  let! outcome := call user3 market 0 (OnMarket (Lifecycle.CancelExpiredBids nft token1 NEAR)) in
  do! check_outcome_success outcome ;;
  assert_bids nft token1 1 "Had to remove 2 bids".

(** [cancel_expired_bids_negative]: it panics without a sale and
    without bids in the currency. *)
Definition cancel_expired_bids_negative : W unit :=
  let! owner := root_account in
  let! nft := init_nft owner in
  let! market := init_market owner [nft] in
  let! user1 := create_subaccount owner "user1" in
  let! user2 := create_subaccount owner "user2" in
  let! user3 := create_subaccount owner "user3" in
  let! token1 := listed_token nft market owner user1 in
  do! three_bids nft market user2 token1 ;;
  let! outcome := call user3 market 0 (OnMarket (Lifecycle.CancelExpiredBids "another_nft_contract" token1 NEAR)) in
  do! check_outcome_fail outcome "No sale" ;;
  let! outcome := call user3 market 0 (OnMarket (Lifecycle.CancelExpiredBids nft "another_token" NEAR)) in
  do! check_outcome_fail outcome "No sale" ;;
  let! outcome := call user3 market 0 (OnMarket (Lifecycle.CancelExpiredBids nft token1 "not_near")) in
  check_outcome_fail outcome "No token".
End BidTests.

(** ** The tests of [auction.rs] *)
Module AuctionTests.
Import Sandbox Utils.

(** The auction message of these tests: start price 10_000, step 100,
    15 minutes, buyout at 10^10. *)
Definition auction_msg : option Storage.ArgsKind :=
  Some (Storage.ArgsAuction (Auctions.mkAuctionArgs None 100 10000 None 900000000000 (Some 10000000000) None)).

(** Their common start: [user1]'s token put on auction 0. *)
Definition auctioned (nft market owner user1 : string) : W (result value) :=
  let! series := create_series nft user1 owner in
  let! token1 := mint_token nft user1 user1 series in
  do! deposit market user1 ;;
  call user1 nft NEAR_UNIT (OnNft (NftApprove token1 market (Some auction_msg))).

Definition add_bid (user market : string) (deposit : Z) (auction_id : Z) (token_type : option string)
    : W (result value) :=
  call user market deposit (OnMarket (Lifecycle.AuctionAddBid auction_id token_type None)).

(** [Duration] subtraction panics below zero. *)
Definition duration_sub (a b : Z) : W Z :=
  do! assert (bool_decide (b <= a)) "overflow when subtracting durations" ;; st_ret (a - b).

Definition THIRTY_SECONDS : Z := 30 * 10 ^ 9.
Definition FIFTEEN_MINUTES : Z := 60 * 15 * 10 ^ 9.

(** [nft_on_approve_auction_positive]: an auction message lists the token. *)
Definition nft_on_approve_auction_positive : W unit :=
  let! owner := root_account in
  let! nft := init_nft owner in
  let! market := init_market owner [nft] in
  let! user1 := create_subaccount owner "user1" in
  let! outcome := auctioned nft market owner user1 in
  check_outcome_success outcome.

(** [auction_add_bid_negative]: a bid fails in an unlisted currency, on
    an auction that does not exist, by the owner, below the price with
    fees of the start price, and below the last bid plus the step. *)
Definition auction_add_bid_negative : W unit :=
  let! owner := root_account in
  let! nft := init_nft owner in
  let! market := init_market owner [nft] in
  let! user1 := create_subaccount owner "user1" in
  let! user2 := create_subaccount owner "user2" in
  let! _ := auctioned nft market owner user1 in
  let! outcome := add_bid user2 market 10300 0 (Some "not_near") in
  do! check_outcome_fail outcome "token not supported" ;;
  let! outcome := add_bid user2 market 10300 1 None in
  do! check_outcome_fail outcome "Auction does not exist" ;;
  let! outcome := add_bid user1 market 10300 0 None in
  do! check_outcome_fail outcome "Cannot bid on your own auction" ;;
  let! outcome := add_bid user2 market 10200 0 None in
  do! check_outcome_fail outcome "Should bid at least 10300" ;;
  let! _ := add_bid user2 market 10300 0 None in
  let! outcome := add_bid user2 market 10350 0 None in
  check_outcome_fail outcome "Should bid at least 10403".

(** [auction_add_bid_positive]: a bid less than 15 minutes before the end
    pushes the end to 15 minutes after the bid; a buyout ends the auction
    at once. *)
Definition auction_add_bid_positive : W unit :=
  let! owner := root_account in
  let! nft := init_nft owner in
  let! market := init_market owner [nft] in
  let! user1 := create_subaccount owner "user1" in
  let! user2 := create_subaccount owner "user2" in
  let! _ := auctioned nft market owner user1 in
  let! auction := view_market (fun m _ => Views.get_auction m 0) in
  let! right_before_bid := now in
  let! _ := add_bid user2 market 10300 0 None in
  let! auction_bought_out := view_market (fun m _ => Views.get_auction m 0) in
  do! assert (bool_decide (AuctionJson.end_ auction < AuctionJson.end_ auction_bought_out)) "The auction wasn't extended" ;;
  let! d := duration_sub (AuctionJson.end_ auction_bought_out) (right_before_bid + FIFTEEN_MINUTES) in
  do! assert (bool_decide (d < THIRTY_SECONDS)) "end - (right_before_bid + 15 min) < 30 s" ;;
  let! auction := view_market (fun m _ => Views.get_auction m 0) in
  let! right_before_bid := now in
  let! _ := add_bid user2 market 10300000000 0 None in
  let! auction_bought_out := view_market (fun m _ => Views.get_auction m 0) in
  let! in_progress := view_market (fun m now => Auctions.check_auction_in_progress m now 0) in
  do! assert (bool_decide (AuctionJson.end_ auction > AuctionJson.end_ auction_bought_out)) "The end time wasn't decreased" ;;
  do! assert (negb in_progress) "The auction didn't end" ;;
  let! d := duration_sub (AuctionJson.end_ auction_bought_out) right_before_bid in
  assert (bool_decide (d < THIRTY_SECONDS)) "end - right_before_bid < 30 s".

(** [cancel_auction_negative]: cancelling fails without exactly one
    yocto, for an auction that does not exist, for another account than
    the owner, and after a bid; the auction stays. *)
Definition cancel_auction_negative : W unit :=
  let! owner := root_account in
  let! nft := init_nft owner in
  let! market := init_market owner [nft] in
  let! user1 := create_subaccount owner "user1" in
  let! user2 := create_subaccount owner "user2" in
  let! _ := auctioned nft market owner user1 in
  let! outcome := call user1 market 2 (OnMarket (Lifecycle.CancelAuction 0)) in
  do! check_outcome_fail outcome "Requires attached deposit of exactly 1 yoctoNEAR" ;;
  let! outcome := call user1 market 1 (OnMarket (Lifecycle.CancelAuction 1)) in
  do! check_outcome_fail outcome "Auction is not active" ;;
  let! outcome := call user2 market 1 (OnMarket (Lifecycle.CancelAuction 0)) in
  do! check_outcome_fail outcome "Only the auction owner can cancel the auction" ;;
  let! _ := add_bid user2 market 10300 0 None in
  let! outcome := call user1 market 1 (OnMarket (Lifecycle.CancelAuction 0)) in
  do! check_outcome_fail outcome "Can't cancel the auction after the first bid is made" ;;
  let! vector_auctions := view_market (fun m _ => Ok (Views.get_auctions m None None)) in
  assert (negb (bool_decide (vector_auctions = []))) "Deleted the auction".

(** [cancel_auction_positive]: the owner cancels a bidless auction. *)
Definition cancel_auction_positive : W unit :=
  let! owner := root_account in
  let! nft := init_nft owner in
  let! market := init_market owner [nft] in
  let! user1 := create_subaccount owner "user1" in
  let! _ := auctioned nft market owner user1 in
  let! outcome := call user1 market 1 (OnMarket (Lifecycle.CancelAuction 0)) in
  do! check_outcome_success outcome ;;
  let! vector_auctions := view_market (fun m _ => Ok (Views.get_auctions m None None)) in
  assert (bool_decide (vector_auctions = [])) "Did not delete the auction".

(** [finish_auction_positive]: only the listing (its checks are
    commented out in the test). *)
Definition finish_auction_positive : W unit :=
  let! owner := root_account in
  let! nft := init_nft owner in
  let! market := init_market owner [nft] in
  let! user1 := create_subaccount owner "user1" in
  let! _ := auctioned nft market owner user1 in
  st_ret tt.

(** [finish_auction_negative]: finishing fails for an auction that does
    not exist and before the end. *)
Definition finish_auction_negative : W unit :=
  let! owner := root_account in
  let! nft := init_nft owner in
  let! market := init_market owner [nft] in
  let! user1 := create_subaccount owner "user1" in
  let! _ := auctioned nft market owner user1 in
  let! outcome := call user1 market 0 (OnMarket (Lifecycle.FinishAuction 1)) in
  do! check_outcome_fail outcome "Auction is not active" ;;
  let! outcome := call user1 market 0 (OnMarket (Lifecycle.FinishAuction 0)) in
  check_outcome_fail outcome "Auction can be finalized only after the end time".
End AuctionTests.

(** ** The tests of [auction_views.rs] *)
Module AuctionViewTests.
Import Sandbox Utils AuctionTests SeriesViewTests.

(** [serde_json::json!(ArgsKind::Auction(AuctionArgs { .. }))] for a
    15-minute auction in NEAR. *)
Definition auction_args_msg (minimal_step start_price : Z) (start : option Z) (buy_out_price : Z)
    : option Storage.ArgsKind :=
  Some (Storage.ArgsAuction (Auctions.mkAuctionArgs None minimal_step start_price start 900000000000
                               (Some buy_out_price) None)).

(** [&v[i]]: out of range panics. *)
Definition index {A} (l : list A) (i : nat) : W A := st_lift (expect (l !! i) "index out of bounds").

(** The [assert_eq!]s on the fields of an [AuctionJson]. *)
Definition check_auction (auction : AuctionJson.t) (owner_id token_id : string) (minimal_step start_price buy_out_price : Z)
    : W unit :=
  do! assert (bool_decide (AuctionJson.owner_id auction = owner_id)) "owner_id" ;;
  do! assert (bool_decide (AuctionJson.token_id auction = token_id)) "token_id" ;;
  do! assert (bool_decide (AuctionJson.ft_token_id auction = NEAR)) "ft_token_id" ;;
  do! assert (bool_decide (AuctionJson.minimal_step auction = minimal_step)) "minimal_step" ;;
  do! assert (bool_decide (AuctionJson.start_price auction = start_price)) "start_price" ;;
  let! buy_out := st_lift (expect (AuctionJson.buy_out_price auction) "called `Option::unwrap()` on a `None` value") in
  assert (bool_decide (buy_out = buy_out_price)) "buy_out_price".

(** [view_auction_get_auction]: the view fails for a missing id and
    shows the auction's fields. *)
Definition view_auction_get_auction : W unit :=
  let! owner := root_account in
  let! nft := init_nft owner in
  let! market := init_market owner [nft] in
  let! user1 := create_subaccount owner "user1" in
  let! _ := auctioned nft market owner user1 in
  let! outcome := try_view_market (fun m _ => Views.get_auction m 1) in
  do! expect_view_failure outcome ;;
  let! auction := view_market (fun m _ => Views.get_auction m 0) in
  check_auction auction "user1.test.near" "1:1" 100 10000 10000000000.

(** [view_auction_get_auctions]: two auctions, listed in the order they
    were created. *)
Definition view_auction_get_auctions : W unit :=
  let! owner := root_account in
  let! nft := init_nft owner in
  let! market := init_market owner [nft] in
  let! user1 := create_subaccount owner "user1" in
  let! user2 := create_subaccount owner "user2" in
  let! series1 := create_series nft user1 owner in
  let! token1 := mint_token nft user1 user1 series1 in
  let! series2 := create_series nft user2 owner in
  let! token2 := mint_token nft user2 user2 series2 in
  do! deposit market user1 ;;
  do! deposit market user2 ;;
  let! _ := call user1 nft NEAR_UNIT
              (OnNft (NftApprove token1 market (Some (auction_args_msg 100 10000 None 10000000000)))) in
  let! _ := call user2 nft NEAR_UNIT
              (OnNft (NftApprove token2 market (Some (auction_args_msg 110 100000 None 1000000000)))) in
  let! auctions := view_market (fun m _ => Ok (Views.get_auctions m None None)) in
  do! assert (bool_decide (length auctions = 2%nat)) "wrong length" ;;
  let! auction1 := index auctions 0 in
  let! auction2 := index auctions 1 in
  do! check_auction auction1 "user1.test.near" "1:1" 100 10000 10000000000 ;;
  check_auction auction2 "user2.test.near" "2:1" 110 100000 1000000000.

(** [view_auction_get_current_buyer] *)
Definition view_auction_get_current_buyer : W unit :=
  let! owner := root_account in
  let! nft := init_nft owner in
  let! market := init_market owner [nft] in
  let! user1 := create_subaccount owner "user1" in
  let! user2 := create_subaccount owner "user2" in
  let! _ := auctioned nft market owner user1 in
  let! outcome := try_view_market (fun m _ => Auctions.get_current_buyer m 1) in
  do! expect_view_failure outcome ;;
  let! current_buyer := view_market (fun m _ => Auctions.get_current_buyer m 0) in
  do! assert (bool_decide (current_buyer = None)) "Should be None" ;;
  let! outcome := add_bid user2 market 10300 0 None in
  do! check_outcome_success outcome ;;
  let! current_buyer := view_market (fun m _ => Auctions.get_current_buyer m 0) in
  do! assert (negb (bool_decide (current_buyer = None))) "Should be some account" ;;
  let! buyer := st_lift (expect current_buyer "called `Option::unwrap()` on a `None` value") in
  assert (bool_decide (buyer = "user2.test.near")) "wrong account".

(** [view_auction_get_current_bid]: a deposit of 10_300 is a bid of
    10_000 once the protocol fee is taken. *)
Definition view_auction_get_current_bid : W unit :=
  let! owner := root_account in
  let! nft := init_nft owner in
  let! market := init_market owner [nft] in
  let! user1 := create_subaccount owner "user1" in
  let! user2 := create_subaccount owner "user2" in
  let! _ := auctioned nft market owner user1 in
  let! outcome := try_view_market (fun m _ => Auctions.get_current_bid m 1) in
  do! expect_view_failure outcome ;;
  let! current_bid := view_market (fun m _ => Auctions.get_current_bid m 0) in
  do! assert (bool_decide (current_bid = None)) "Should not be any bids" ;;
  let! outcome := add_bid user2 market 10300 0 None in
  do! check_outcome_success outcome ;;
  let! current_bid := view_market (fun m _ => Auctions.get_current_bid m 0) in
  do! assert (negb (bool_decide (current_bid = None))) "Should be a bid" ;;
  let! bid := st_lift (expect current_bid "called `Option::unwrap()` on a `None` value") in
  assert (bool_decide (bid = 10000)) "wrong amount".

(** [view_auction_get_minimal_next_bid]: the start price, then the bid
    without fees (100_000 of a deposit of 103_000) plus the step. *)
Definition view_auction_get_minimal_next_bid : W unit :=
  let! owner := root_account in
  let! nft := init_nft owner in
  let! market := init_market owner [nft] in
  let! user1 := create_subaccount owner "user1" in
  let! user2 := create_subaccount owner "user2" in
  let! _ := auctioned nft market owner user1 in
  let! outcome := try_view_market (fun m _ => Auctions.get_minimal_next_bid m 1) in
  do! expect_view_failure outcome ;;
  let! min_bid := view_market (fun m _ => Auctions.get_minimal_next_bid m 0) in
  do! assert (bool_decide (min_bid = 10000)) "Should be initial price" ;;
  let! outcome := add_bid user2 market 103000 0 None in
  do! check_outcome_success outcome ;;
  let! min_bid := view_market (fun m _ => Auctions.get_minimal_next_bid m 0) in
  assert (bool_decide (min_bid = 100100)) "wrong next bid".

(** [view_auction_check_auction_in_progress]: an auction that started is
    in progress; one that starts a minute from now is not. *)
Definition view_auction_check_auction_in_progress : W unit :=
  let! owner := root_account in
  let! nft := init_nft owner in
  let! market := init_market owner [nft] in
  let! user1 := create_subaccount owner "user1" in
  let! series := create_series nft user1 owner in
  let! token1 := mint_token nft user1 user1 series in
  let! token2 := mint_token nft user1 user1 series in
  do! deposit market user1 ;;
  let! _ := call user1 nft NEAR_UNIT (OnNft (NftApprove token1 market (Some auction_msg))) in
  let! outcome := try_view_market (fun m now => Auctions.check_auction_in_progress m now 1) in
  do! expect_view_failure outcome ;;
  let! in_progress := view_market (fun m now => Auctions.check_auction_in_progress m now 0) in
  do! assert in_progress "The auction should be in progress" ;;
  let! since_the_epoch := now in
  let epoch_plus_waiting_time := since_the_epoch + 60 * 10 ^ 9 in
  let! _ := call user1 nft NEAR_UNIT
              (OnNft (NftApprove token2 market
                        (Some (auction_args_msg 100 10000 (Some epoch_plus_waiting_time) 10000000000)))) in
  let! in_progress := view_market (fun m now => Auctions.check_auction_in_progress m now 1) in
  assert (negb in_progress) "The auction already started".
End AuctionViewTests.

(** ** The test of [sale_views.rs] *)
Module SaleViewTests.
Import Sandbox Utils AuctionViewTests.

(** [for _ in 0..n { tokens.push(mint_token(..)) }] *)
Fixpoint mint_tokens (nft user series : string) (n : nat) : W (list string) :=
  match n with
  | O => st_ret []
  | S n' =>
      let! token := mint_token nft user user series in
      let! tokens := mint_tokens nft user series n' in
      st_ret (token :: tokens)
  end.

(** [tokens.contains(&sale.token_id)] *)
Definition listed_in (tokens : list string) (sale : SaleJson.t) : bool := bool_decide (SaleJson.token_id sale ∈ tokens).

(** The views and assertions the test runs twice, before and after two
    sales are removed; the second time the listings of [user2] and of
    [series2] are read at index [i = 0] instead of 1. *)
Definition check_views (nft user1 user2 series1 series2 : string) (tokens_series1 tokens_series2 : list string)
    (i : nat) : W unit :=
  let total := Z.of_nat (length tokens_series1 + length tokens_series2) in
  let both := tokens_series1 ++ tokens_series2 in
  let! supply_sales := view_market (fun m _ => Ok (Views.get_supply_sales m)) in
  do! assert (bool_decide (supply_sales = total)) "get_supply_sales" ;;
  let! sales := view_market (fun m _ => Ok (Views.get_sales m None None)) in
  do! assert (bool_decide (Z.of_nat (length sales) = total)) "get_sales" ;;
  let! sale := index sales 1 in
  do! assert (listed_in both sale) "get_sales[1]" ;;
  let! supply_by_owner := view_market (fun m _ => Ok (Storage.get_supply_by_owner_id m user1)) in
  do! assert (bool_decide (supply_by_owner = Z.of_nat (length tokens_series1))) "get_supply_by_owner_id" ;;
  let! sales_user2 := view_market (fun m _ => Views.get_sales_by_owner_id m user2 0 10) in
  do! assert (bool_decide (length sales_user2 = length tokens_series2)) "get_sales_by_owner_id" ;;
  let! sale := index sales_user2 i in
  do! assert (listed_in tokens_series2 sale) "get_sales_by_owner_id[i]" ;;
  let! supply_by_nft_contract := view_market (fun m _ => Ok (Views.get_supply_by_nft_contract_id m nft)) in
  do! assert (bool_decide (supply_by_nft_contract = total)) "get_supply_by_nft_contract_id" ;;
  let! sales_nft_contract_id := view_market (fun m _ => Views.get_sales_by_nft_contract_id m nft 0 10) in
  do! assert (bool_decide (Z.of_nat (length sales_nft_contract_id) = total)) "get_sales_by_nft_contract_id" ;;
  let! sale := index sales_nft_contract_id 1 in
  do! assert (listed_in both sale) "get_sales_by_nft_contract_id[1]" ;;
  let! supply_by_nft_token_type := view_market (fun m _ => Ok (Views.get_supply_by_nft_token_type m series1)) in
  do! assert (bool_decide (supply_by_nft_token_type = Z.of_nat (length tokens_series1)))
        "get_supply_by_nft_token_type" ;;
  let! sales_nft_token_type := view_market (fun m _ => Views.get_sales_by_nft_token_type m series2 0 10) in
  do! assert (bool_decide (length sales_nft_token_type = length tokens_series2)) "get_sales_by_nft_token_type" ;;
  let! sale := index sales_nft_token_type i in
  assert (listed_in tokens_series2 sale) "get_sales_by_nft_token_type[i]".

(** The block "check if removing also works correct": the second token
    of [series1] is sold through [accept_offer] of a bid, the second of
    [series2] is removed by its owner, and both leave the token lists. *)
Definition remove_two_sales (nft market user1 user2 : string) (tokens_series1 tokens_series2 : list string)
    : W (list string * list string) :=
  let! removed_token := index tokens_series1 1 in
  let! sale_json := view_get_sale nft removed_token in
  do! assert (bool_decide (is_Some sale_json)) "assertion failed: sale_json.is_some()" ;;
  do! offer nft market user2 removed_token 500 ;;
  let! _ := call user1 market 0 (OnMarket (Lifecycle.AcceptOffer nft removed_token NEAR)) in
  let tokens_series1 := delete 1%nat tokens_series1 in
  let! sale_json := view_get_sale nft removed_token in
  do! assert (negb (bool_decide (is_Some sale_json))) "assertion failed: sale_json.is_none()" ;;
  let! token2 := index tokens_series2 1 in
  let! _ := call user2 market 1 (OnMarket (Lifecycle.RemoveSale nft token2)) in
  st_ret (tokens_series1, delete 1%nat tokens_series2).

(** The views and assertions after the removals ("back to tests"), which
    read the listings of [user2] and of [series2] at index 0. *)
Definition check_views_after_removal (nft user1 user2 series1 series2 : string)
    (tokens_series1 tokens_series2 : list string) : W unit :=
  check_views nft user1 user2 series1 series2 tokens_series1 tokens_series2 0.

(** [sale_views]: five listings of two owners and two series; one is
    sold by [accept_offer] of a bid, one is removed, and every view
    follows. *)
Definition sale_views : W unit :=
  let! owner := root_account in
  let! nft := init_nft owner in
  let! market := init_market owner [nft] in
  let! user1 := create_subaccount owner "user1" in
  let! user2 := create_subaccount owner "user2" in
  let! series1 := create_series nft user1 owner in
  let! tokens_series1 := mint_tokens nft user1 series1 3 in
  let! series2 := create_series nft user2 owner in
  let! tokens_series2 := mint_tokens nft user2 series2 2 in
  do! deposit market user1 ;;
  do! deposit market user2 ;;
  let sale_conditions : gmap string Z := {[ NEAR := 10000 ]} in
  do! st_iter (fun token1 => nft_approve nft market user1 token1 sale_conditions series1) tokens_series1 ;;
  do! st_iter (fun token2 => nft_approve nft market user2 token2 sale_conditions series2) tokens_series2 ;;
  do! check_views nft user1 user2 series1 series2 tokens_series1 tokens_series2 1 ;;
  let! tokens := remove_two_sales nft market user1 user2 tokens_series1 tokens_series2 in
  check_views_after_removal nft user1 user2 series1 series2 tokens.1 tokens.2.
End SaleViewTests.

(** ** The test of [fee.rs] *)
Module FeeTests.
Import Sandbox.

(** [price_with_fees]: the view adds the protocol fee, and the origins'
    shares, to the price, rounding down. *)
Definition price_with_fees : W unit :=
  let! root_id := Utils.root_account in
  let! _ := Utils.init_market root_id [] in
  let price_without_fees := 23456788765 in
  let! price_with_fees := view_price_with_fees price_without_fees None in
  do! assert (bool_decide (price_with_fees =
                 price_without_fees * (PAYOUT_TOTAL_VALUE + PROTOCOL_FEE) / PAYOUT_TOTAL_VALUE))
        "assertion failed: price_with_fees" ;;
  let origins : Origins :=
    {[ "user1" := 100; "user2" := 200; "user3" := 300; "user4" := 400; "user5" := 500; "user6" := 600 ]} in
  let origins_sum := sum_list (map_to_list origins).*2 in
  let price_without_fees := 5 * NEAR_UNIT in
  let! price_with_fees := view_price_with_fees price_without_fees (Some origins) in
  assert (bool_decide (price_with_fees =
            price_without_fees * (PAYOUT_TOTAL_VALUE + PROTOCOL_FEE + origins_sum) / PAYOUT_TOTAL_VALUE))
    "assertion failed: price_with_fees with origins".
End FeeTests.

(** ** The tests of [market.rs] *)
Module MarketTests.
Import Sandbox Utils.

(** [storage_deposit]: 20 yocto is below one listing's storage, 0.01
    NEAR is enough. *)
Definition storage_deposit : W unit :=
  let! owner := root_account in
  let! nft := init_nft owner in
  let! market := init_market owner [nft] in
  let! user := create_subaccount owner "user1" in
  let! outcome := call user market 20 (OnMarket (Lifecycle.StorageDeposit None)) in
  do! check_outcome_fail outcome "Requires minimum deposit of" ;;
  let! outcome := call user market (10 ^ 22) (OnMarket (Lifecycle.StorageDeposit None)) in
  check_outcome_success outcome.

(** [storage_withdraw]: with a listing, the withdrawal needs exactly
    one yocto and then succeeds. *)
Definition storage_withdraw : W unit :=
  let! owner := root_account in
  let! nft := init_nft owner in
  let! market := init_market owner [nft] in
  let! user := create_subaccount owner "user1" in
  let! outcome := call user market (5 * NEAR_UNIT) (OnMarket (Lifecycle.StorageDeposit None)) in
  do! check_outcome_success outcome ;;
  let! series := create_series_raw nft user (Some 4) {[ user := 500 ]} in
  let! token := mint_token nft user user series in
  do! nft_approve nft market user token {[ NEAR := 42000 ]} series ;;
  let! outcome := call user market 0 (OnMarket Lifecycle.StorageWithdraw) in
  do! check_outcome_fail outcome "Requires attached deposit of exactly 1 yoctoNEAR" ;;
  let! outcome := call user market 1 (OnMarket Lifecycle.StorageWithdraw) in
  check_outcome_success outcome.
End MarketTests.

(** ** Theorems *)

(** A test passes when it runs to its end from a fresh sandbox. *)
Definition passes (t : Sandbox.W unit) : bool := is_ok (t Sandbox.sandbox).

(** The forty-six sandbox tests of [src/tests-workspaces]: the
    thirty-three of the market (the ten of [sale.rs], the six of
    [bid.rs], the seven of [auction.rs], the six of [auction_views.rs],
    [sale_views], [price_with_fees] of [fee.rs] and the two of
    [market.rs]) and the thirteen of the NFT contract (the six of
    [nft.rs], the three of [series_views.rs] and the four of
    [permissions.rs]). *)
Definition sandbox_tests : list (Sandbox.W unit) :=
    [SaleTests.nft_on_approve_negative; SaleTests.nft_on_approve_positive;
     SaleTests.offer_negative; SaleTests.offer_positive;
     SaleTests.accept_offer_negative; SaleTests.accept_offer_positive;
     SaleTests.update_price_negative; SaleTests.update_price_positive;
     SaleTests.remove_sale_negative; SaleTests.remove_sale_positive;
     BidTests.remove_bid_positive; BidTests.remove_bid_negative;
     BidTests.cancel_bid_positive; BidTests.cancel_bid_negative;
     BidTests.cancel_expired_bids_positive; BidTests.cancel_expired_bids_negative;
     AuctionTests.nft_on_approve_auction_positive; AuctionTests.auction_add_bid_negative;
     AuctionTests.auction_add_bid_positive; AuctionTests.cancel_auction_negative;
     AuctionTests.cancel_auction_positive; AuctionTests.finish_auction_positive;
     AuctionTests.finish_auction_negative;
     AuctionViewTests.view_auction_get_auction; AuctionViewTests.view_auction_get_auctions;
     AuctionViewTests.view_auction_get_current_buyer; AuctionViewTests.view_auction_get_current_bid;
     AuctionViewTests.view_auction_get_minimal_next_bid;
     AuctionViewTests.view_auction_check_auction_in_progress;
     SaleViewTests.sale_views; FeeTests.price_with_fees;
     MarketTests.storage_deposit; MarketTests.storage_withdraw;
     NftTests.nft_create_series_negative; NftTests.nft_create_series_positive;
     NftTests.nft_mint_negative; NftTests.nft_mint_positive;
     NftTests.nft_transfer_payout_negative; NftTests.nft_transfer_payout_positive;
     SeriesViewTests.series_views_nft_get_series; SeriesViewTests.series_views_nft_series;
     SeriesViewTests.series_views_nft_supply_for_series;
     PermissionTests.permissions_grant; PermissionTests.permissions_deny;
     PermissionTests.permissions_set_private_minting; PermissionTests.permissions_is_allowed].



(** The last step of [offer_negative], which its comment says
    checks that [nft_transfer_payout] panics when payouts and bids exceed
    ten entries, never reaches a purchase: its deposit,
    [price_with_fees(10000, twelve origins of 100)] = 11_500, is not the
    price with fees of an offer without origins (10_300), so the market
    stores it as a second bid and the token stays with the seller. *)
Theorem offer_negative_last_offer_is_a_bid :
  match SaleTests.offer_negative Sandbox.sandbox with
  | Ok (_, w) =>
      let s := Sandbox.sys w in
      option_map (fun sale => map Bid.price (default [] (SaleJson.bids sale !! NEAR)))
        (Views.get_sale (System.market s) Utils.NFT_DEV_ID "1:1") = Some [500; 11500] /\
      Nft.owner_by_id (System.nft s) !! "1:1" = Some "user1.test.near"
  | Err _ => False
  end.
Proof. vm_compute. split; reflexivity. Qed.
