(* ===== verification/Simulation.v ===== *)
(** * The simulator tests of [src/market/tests] replayed on the model

    The tests under [src/market/tests] run both contracts in near-sdk-sim:
    [utils.rs] deploys the market at ["market"] ([new(["nft"], root)]) and
    the NFT contract at ["nft"] ([new_default_meta(root)]) on a simulator
    whose blocks are a minute apart; [nft_contract.rs] tests series
    creation and minting, and [testing.rs] an auction that a bid extends
    and that can be finished once its end is reached.

    Module [Simulator] reuses the world of [Workspaces.Sandbox] (clock,
    accounts, both contracts) with the simulator's clock: the clock is the
    timestamp of the current block, a transaction runs in the next block
    ([call]), [prod_block] produces an empty block, and a view reads the
    current block.  The receipts a transaction creates run at its
    timestamp: the simulator produces further blocks for them, which no
    assertion of these tests observes (from the bid of [testing.rs] on, no
    call creates a cross-contract receipt).  The genesis time is 0, as in
    [GenesisConfig::default()]; the tests only compare differences of
    times.

    The loop of [testing.rs] that produces blocks until the auction's end
    is [produce_blocks_until], with the fuel [blocks_to now end + 1]: each
    turn produces one block of [block_prod_time], so the loop stops after
    [blocks_to now end] turns.  [sim_tests] lists the five tests and
    [sim_passes] runs one from genesis.  This file translates test code;
    it states no theorem about the contracts. *)

From stdpp Require Import pretty.
From S2P Require Import Prelude Fee State Auctions Storage Lifecycle Views NftContract System Workspaces.
Import Fee.

Module Simulator.
Import Sandbox.

(** [GenesisConfig { block_prod_time: 1_000_000_000 * 60, .. }] *)
Definition block_prod_time : Z := 1000000000 * 60.

(** The accounts of [init]. *)
Definition ROOT : string := "root".
Definition NFT_ID : string := "nft".
Definition MARKET_ID : string := "market".

(** [init_simulator]: nothing deployed, the clock at genesis. *)
Definition genesis : world :=
  mkWorld 0 ROOT "" "" (System.mk (Nft.new "" [] false) (Market.new [] "")).

(** [prod_block] *)
Definition prod_block : W unit := st_modify (fun w => set_clock (clock w + block_prod_time) w).

(** [root.borrow_runtime().current_block().block_timestamp] *)
Definition block_timestamp : W Z := let! w := st_get in st_ret (clock w).

(** [call!(signer, contract.method(..), deposit = deposit)]: the
    transaction runs in the next block. *)
Definition call (signer receiver : string) (deposit : Z) (m : method) : W (result value) :=
  do! prod_block ;;
  let! w := st_get in
  let env := mkEnv (clock w) signer signer deposit receiver in
  let '(status, s') := dispatch w env receiver m in
  do! st_put (set_sys s' w) ;;
  st_ret status.

(** [root.create_user(account_id, amount)] *)
Definition create_user (account_id : string) : W string := do! prod_block ;; st_ret account_id.

(** [init] of [utils.rs]: deploys the market, then the NFT contract,
    each in a block of its own. *)
Definition init : W (string * string * string) :=
  do! st_put genesis ;;
  do! prod_block ;;
  do! st_modify (fun w => set_market_account MARKET_ID
                            (set_sys (System.mk (System.nft (sys w)) (Market.new [NFT_ID] ROOT)) w)) ;;
  do! prod_block ;;
  do! st_modify (fun w => set_nft_account NFT_ID
                            (set_sys (System.mk (Nft.new_default_meta ROOT) (System.market (sys w))) w)) ;;
  st_ret (ROOT, MARKET_ID, NFT_ID).

(** [to_yocto] of the amounts the tests attach. *)
Definition yocto_0_005 : Z := 5 * 10 ^ 21.
Definition yocto_0_01 : Z := 10 ^ 22.
Definition yocto_0_1 : Z := 10 ^ 23.

(** The [ExecutionStatus::Failure] branch of the tests: the call failed
    with a message that contains [expected]; anything else panics. *)
Definition expect_failure (res : result value) (expected : string) : W unit :=
  Utils.check_outcome_fail res expected.

(** [.assert_success()] *)
Definition assert_success (res : result value) : W unit := Utils.check_outcome_success res.

(** [while current_block().block_timestamp < end { i += 1; prod_block(&root); }],
    with fuel: the number of blocks it produced. *)
Fixpoint produce_blocks_until (fuel : nat) (end_ i : Z) : W Z :=
  match fuel with
  | O => st_lift (Err "out of fuel")
  | S fuel' =>
      let! now := block_timestamp in
      if bool_decide (now < end_) then
        do! prod_block ;; produce_blocks_until fuel' end_ (i + 1)
      else st_ret i
  end.

(** How many blocks of [block_prod_time] reach [end_] from [now]. *)
Definition blocks_to (now end_ : Z) : Z := (Z.max 0 (end_ - now) + block_prod_time - 1) / block_prod_time.

End Simulator.

(** ** The tests of [nft_contract.rs] *)
Module SimNftTests.
Import Sandbox Simulator.

#[local] Instance token_series_json_eq_dec : EqDecision TokenSeriesJson.t.
Proof. solve_decision. Defined.

(** The [TokenMetadata] of these tests. *)
Definition token_metadata (copies : option Z) : TokenMetadata :=
  mkMetadata (Some "some title") (Some Utils.MEDIA) copies None.

(** [nft_create_series_negative] *)
Definition nft_create_series_negative : W unit :=
  let! accounts := init in
  let '(root, _, nft) := accounts in
  let! user1 := create_user "user1" in
  let! user2 := create_user "user2" in
  let! _ := call root nft 0 (OnNft (SetPrivateMinting true)) in
  let token_metadata := token_metadata (Some 7) in
  let! res := call user1 nft yocto_0_005 (OnNft (NftCreateSeries token_metadata None)) in
  do! expect_failure res "Access to mint is denied for this contract" ;;
  let! _ := call root nft 0 (OnNft (Grant user1)) in
  let! res := call user1 nft yocto_0_005
                (OnNft (NftCreateSeries (mkMetadata None (media token_metadata) (copies token_metadata)
                                           (issued_at token_metadata)) None)) in
  do! expect_failure res "title is missing from token metadata" ;;
  let royalty : gmap string Z := {[ user1 := 500; user2 := 5000 ]} in
  let! res := call user1 nft yocto_0_005 (OnNft (NftCreateSeries token_metadata (Some royalty))) in
  expect_failure res "maximum royalty cap exceeded".

(** [nft_create_series_positive]: [nft_get_series] answers the metadata,
    the creator and the royalty of the series. *)
Definition nft_create_series_positive : W unit :=
  let! accounts := init in
  let '(root, _, nft) := accounts in
  let! user1 := create_user "user1" in
  let! user2 := create_user "user2" in
  let royalty : gmap string Z := {[ user1 := 500; user2 := 2000 ]} in
  let token_metadata := token_metadata (Some 7) in
  let! res := call user1 nft yocto_0_005 (OnNft (NftCreateSeries token_metadata None)) in
  do! assert_success res ;;
  let! _ := call root nft 0 (OnNft (SetPrivateMinting true)) in
  let! _ := call root nft 0 (OnNft (Grant user2)) in
  let! res := call user2 nft NEAR_UNIT (OnNft (NftCreateSeries token_metadata (Some royalty))) in
  let! series_id := json_string res in
  let! series_json := view_nft (fun n => NftContract.nft_get_series n series_id) in
  assert (bool_decide (series_json = TokenSeriesJson.mk token_metadata user2 royalty))
    "assert_eq!(series_json, TokenSeriesJson { .. })".

(** [nft_mint_negative] *)
Definition nft_mint_negative : W unit :=
  let! accounts := init in
  let '(root, _, nft) := accounts in
  let! user1 := create_user "user1" in
  let! user2 := create_user "user2" in
  let! res := call user1 nft yocto_0_005 (OnNft (NftCreateSeries (token_metadata (Some 1)) None)) in
  let! series_id := json_string res in
  let! _ := call root nft 0 (OnNft (SetPrivateMinting true)) in
  let! res := call user1 nft (2 * NEAR_UNIT) (OnNft (NftMint series_id user1)) in
  do! expect_failure res "Access to mint is denied for this contract" ;;
  let! _ := call root nft 0 (OnNft (SetPrivateMinting false)) in
  let! res := call user1 nft (2 * NEAR_UNIT) (OnNft (NftMint "200" user1)) in
  do! expect_failure res "Token series does not exist" ;;
  let! res := call user2 nft (2 * NEAR_UNIT) (OnNft (NftMint series_id user1)) in
  do! expect_failure res "permission denied" ;;
  let! res := call user1 nft (2 * NEAR_UNIT) (OnNft (NftMint series_id user1)) in
  do! assert_success res ;;
  let! res := call user1 nft (2 * NEAR_UNIT) (OnNft (NftMint series_id user1)) in
  expect_failure res "Max token minted".

(** [nft_mint_positive]: the minted token as [nft_token] shows it. *)
Definition nft_mint_positive : W unit :=
  let! accounts := init in
  let '(root, _, nft) := accounts in
  let! user1 := create_user "user1" in
  let! user2 := create_user "user2" in
  let token_metadata := token_metadata (Some 1) in
  let! res := call user1 nft yocto_0_005 (OnNft (NftCreateSeries token_metadata None)) in
  let! series_id := json_string res in
  let! res := call user1 nft (2 * NEAR_UNIT) (OnNft (NftMint series_id user2)) in
  let! token_id := json_string res in
  let! minted_token := view_nft_token token_id in
  let! minted_token := st_lift (expect minted_token "called `Option::unwrap()` on a `None` value") in
  let! minted_token_metadata := st_lift (expect (Token.metadata minted_token)
                                           "called `Option::unwrap()` on a `None` value") in
  let token_metadata := mkMetadata (title token_metadata) (media token_metadata) None
                          (issued_at minted_token_metadata) in
  assert (bool_decide (minted_token = Token.mk token_id user2 (Some token_metadata) (Some (∅ : gmap string Z))))
    "assert_eq!(minted_token, Token { .. })".
End SimNftTests.

(** ** The test of [testing.rs] *)
Module SimMarketTests.
Import Sandbox Simulator.

(** The auction message of the test, in NEAR with an origin fee. *)
Definition auction_msg (origins : Origins) : option Storage.ArgsKind :=
  Some (Storage.ArgsAuction (Auctions.mkAuctionArgs (Some NEAR) 100 10000 None 900000000000
                               (Some 10000000000) (Some origins))).

(** [for i in a..b { body(i) }] *)
Fixpoint for_range (a : Z) (n : nat) (body : Z -> W unit) : W unit :=
  match n with O => st_ret tt | S n' => do! body a ;; for_range (a + 1) n' body end.

(** [test_fees_transfers]: two tokens of a series of seven put on
    auction; the first auction is cancelled; a bid on the second pushes
    its end to fifteen minutes after the bid, so finishing fails until
    the simulator has produced the blocks up to the end, after which it
    succeeds. *)
Definition test_fees_transfers : W unit :=
  let! accounts := init in
  let '(_, market, nft) := accounts in
  let! origin1 := create_user "origin1" in
  let! _ := create_user "origin2" in
  let! _ := create_user "origin3" in
  let! user1 := create_user "user1" in
  let! user2 := create_user "user2" in
  let! _ := create_user "user3" in
  let token_metadata := SimNftTests.token_metadata (Some 7) in
  let royalty : gmap string Z := {[ user1 := 500 ]} in
  let! res := call user1 nft yocto_0_005 (OnNft (NftCreateSeries token_metadata (Some royalty))) in
  do! assert_success res ;;
  do! for_range 0 5 (fun _ =>
        let! res := call user1 nft yocto_0_01 (OnNft (NftMint "1" user1)) in assert_success res) ;;
  let! res := call user1 market yocto_0_1 (OnMarket (Lifecycle.StorageDeposit None)) in
  do! assert_success res ;;
  let origins : Origins := {[ origin1 := 100 ]} in
  do! for_range 1 2 (fun i =>
        let token_id := "1:" +:+ pretty (Z.to_N i) in
        let! res := call user1 nft NEAR_UNIT (OnNft (NftApprove token_id market (Some (auction_msg origins)))) in
        assert_success res) ;;
  let! res := call user1 market 1 (OnMarket (Lifecycle.CancelAuction 0)) in
  do! assert_success res ;;
  let! now := block_timestamp in
  let time_during_bid := now + block_prod_time in
  let! res := call user2 market 10400 (OnMarket (Lifecycle.AuctionAddBid 1 (Some NEAR) None)) in
  do! assert_success res ;;
  let! res := call user1 market 0 (OnMarket (Lifecycle.FinishAuction 1)) in
  do! expect_failure res "Auction can be finalized only after the end time" ;;
  let! auction_json := view_market (fun m _ => Views.get_auction m 1) in
  let! extension := st_lift (checked_sub (AuctionJson.end_ auction_json) time_during_bid) in
  do! assert (bool_decide (extension = Auctions.EXTENSION_DURATION))
        "assertion failed: auction_json.end.0 - time_during_bid == EXTENSION_DURATION" ;;
  let! now := block_timestamp in
  let! left := st_lift (checked_sub (AuctionJson.end_ auction_json) now) in
  let blocks_needed := left / block_prod_time in
  let! i := produce_blocks_until (Z.to_nat (blocks_to now (AuctionJson.end_ auction_json)) + 1)
              (AuctionJson.end_ auction_json) 0 in
  let! res := call user1 market 0 (OnMarket (Lifecycle.FinishAuction 1)) in
  do! assert_success res ;;
  assert (bool_decide (i = blocks_needed)) "assertion failed: i == blocks_needed".
End SimMarketTests.

(** A simulator test passes when it runs to its end from genesis. *)
Definition sim_passes (t : Sandbox.W unit) : bool := is_ok (t Simulator.genesis).

(** The five near-sdk-sim tests of [src/market/tests]: the four of
    [nft_contract.rs] and [test_fees_transfers] of [testing.rs]. *)
Definition sim_tests : list (Sandbox.W unit) :=
  [SimNftTests.nft_create_series_negative; SimNftTests.nft_create_series_positive;
   SimNftTests.nft_mint_negative; SimNftTests.nft_mint_positive;
   SimMarketTests.test_fees_transfers].
